(* ===== verification/_CoqProject ===== *)
-Q . S2P
Prelude.v
Float64.v
GoStd.v
GoText.v
Json.v
GoFormat.v
Regexp.v
Errors.v
Domain.v
Storage.v
Watch.v
LocalStorage.v
LocalSteps.v
RaftFsm.v
RaftStorage.v
RedisStorage.v
Config.v
LoadBalancer.v
RoundRobin.v
LeastConn.v
Weighted.v
LBFactory.v
Access.v
Health.v
Monitor.v
Queue.v
Http.v
Tenant.v
Auth.v
Proxy.v
ProxyProofs.v
ProxyTrace.v
ProxyTheorems.v
Gateway.v
GatewayProofs.v
Readiness.v
StorageFactory.v
NodeMeta.v
Delegate.v
Discovery.v
Memberlist.v
Leadership.v
Metrics.v
Exported.v
Formatters.v
Logger.v
HclogAdapter.v
Loader.v
Routes.v
Main.v
Services.v
Handler.v
Doubles.v
ComponentDoubles.v
TestHelpers.v
Interfaces.v
Conformance.v
