(* ===== verification/Prelude.v ===== *)
(** * vm-proxy-auth: a verification library

    vm-proxy-auth is a Go HTTP gateway in front of VictoriaMetrics. It
    authenticates a request by its JWT, checks what the user may do, narrows
    the PromQL query to the user's tenants, and forwards the request to one of
    several upstreams through a load balancer, with health checks, retries and
    a queue. Several gateways form a cluster: they share a state storage
    (local, Redis or Raft), find each other by service discovery and keep the
    Raft cluster's membership in step with a gossip protocol. This library
    models both halves, from the configuration to the response and from a
    discovered peer to a voter, and proves what makes them correct. Paths
    below are relative to src/internal/.

    ** The parts, their files and how they fit together

    - Prelude (this file), Float64, GoStd, GoText, Json, GoFormat, Regexp: Go
      outcomes (a value or a panic), slices, 32- and 64-bit integers, list
      sums, strings; binary64; durations; splitting, prefixes, UTF-8 coercion
      and sorted maps; the text encoding/json writes and reads; quoting,
      padding and times in log lines; a matcher for the logger's patterns.
    - Errors (domain/errors.go): error values with their chain, errors.As and
      errors.Is, the catalogue of predefined errors.
    - Domain (domain/types.go): users, tenants, backends; the loops over a
      slice of backends that several components share; metrics calls as data.
    - Services (domain/types.go): the interfaces of the services as calls, and
      programs over them with the events any implementation can make of them.
      Interfaces: the rest of that file, the queue's and the checker's
      interfaces with their implementations, the string types.

    The request path:
    - Config (config/): one record, one Validate and one GetDefaults per
      section, and the two top-level validators.
    - LoadBalancer: the interface domain.LoadBalancer as the class
      [LoadBalancer], and what it promises as the class [LoadBalancerSpec]
      (a view of the backends, an invariant, the effect of each method).
      RoundRobin, LeastConn, Weighted (services/loadbalancer/) are three
      instances of both; LBFactory is the factory and the fourth instance, the
      interface value it returns.
    - Access (services/access/), Tenant (services/tenant/), Auth
      (services/auth/): the decisions about a request.
    - Health (services/health/checker.go), Queue
      (services/queue/memory_queue.go): the checker and the request queue.
      Monitor has the checker's goroutines beside each other.
    - Http: the parts of net/http and net/url the source relies on: header
      maps, query strings and their encoding, requests with shared bodies.
    - Proxy (services/proxy/enhanced_service.go): the service that uses the
      balancer through its interface, the checker and the queue.
      ProxyProofs, ProxyTrace and ProxyTheorems hold its theorems.
    - Gateway (handlers/gateway.go): the handler that composes Auth, Access,
      Tenant and Proxy; its theorems are in GatewayProofs. Handler is the same
      handler against the interfaces of Services, and the proof that the first
      is the second with the program's services. Readiness
      (handlers/health.go): the health and readiness answers.

    The cluster:
    - Storage (domain/types.go): the interface domain.StateStorage as the
      class [StateStorage] and its promises as [StateStorageSpec]. Watch: the
      channels of watchers, with Go's panics. LocalStorage, RedisStorage and
      RaftStorage (services/statestorage/) are its instances; LocalSteps has
      the concurrent callers of the first, RaftFsm the replicated state
      machine of the last; StorageFactory builds them from a configuration.
    - NodeMeta, Delegate, Memberlist (services/memberlist/): metadata in the
      gossip, the delegate that turns gossip into Raft membership, and the
      service. Discovery (services/discovery/): the static and mDNS
      providers, the factory and the service with its loop. Delegate uses the
      Raft manager through the class [RaftManager], of which RaftStorage is an
      instance; Discovery uses joiner, list and manager through
      [DiscoveryWorld], of which Memberlist's cluster is one. Leadership has
      the leadership monitor beside the gossip.

    Around them:
    - Metrics (services/metrics/): every metric and what each call does to it,
      over the Prometheus client as the class [Metrics.Prometheus]; Exported
      makes the calls the other components record of it.
    - Formatters, Logger, HclogAdapter (infrastructure/logger/): the texts of
      log entries, the masking of secrets, the adapter for the libraries.
    - Loader (config/loader.go): variables, defaults and LoadConfig over viper
      as the class [Loader.Viper].
    - Routes, Main (../cmd/gateway/main.go): the request multiplexer with
      main's routes, and the start of the program that builds all the above.
    - Doubles, ComponentDoubles, TestHelpers (testutils/): the doubles the
      tests put in place of the components, as instances of the same
      interfaces, and the helpers with their path validation.
    - Conformance evaluates tables of the program's own unit tests on the
      definitions: formatters, access control, balancers, queue, checker,
      tenants and the validators compute what the tests expect.

    A component's state is a record, a method a function from the state (and
    the answers of whatever lies outside the source) to its result and the new
    state. Fallible methods return [result], methods that may panic
    [outcome]. Metrics calls are kept as a list; what a component logs is
    left out of its functions.

    ** Concurrency and time

    Mutexes make most methods atomic. Where they do not, interleavings are
    explicit: the queue has a step relation over the atomic steps of
    concurrent callers ([Queue.qstep]), and so has the local storage
    ([LocalSteps.lstep]); a round of health checks is run in any order, with
    clock readings of its own for each check
    ([Health.performHealthChecks]), and the checker's loops, the goroutines of
    their rounds and the callers of Start, Stop and CheckHealth interleave
    ([Monitor.mstep], whose events carry the checks that were made); while a request waits (for an upstream, a
    back-off, the queue) the environment may change the whole world of the
    proxy service ([Proxy.pause]), within laws that keep the invariants of
    the components ([ProxyProofs.EnvLaws]). Goroutines that the Raft storage
    starts are kept in its state until they run. Gossip events, service calls
    and changes of leadership reach the delegate in any order
    ([Delegate.dstep]); [Leadership.leaderStep] has the ticks of the leadership
    monitor beside them, and a leave in its single calls; the discovery loop runs beside Start and Stop
    ([Discovery.loopStep]). Clock readings and the choices of select are
    arguments.

    ** What the theorems show

    - End to end (GatewayProofs): an upstream only receives requests that are
      built from one a client sent ([ProxyTheorems.builtFrom]: its method,
      path, body and header), that were authenticated by their own token,
      allowed by the access control, and carry the filtered query and an own
      target tenant; refused requests touch nothing but the metrics and the
      caches of the authentication; every request is answered and recorded
      with its status; a validated configuration builds a gateway of which all
      this holds.
    - The handler against its interfaces (Handler): whatever the services
      answer, nothing is forwarded before authentication and access control of
      this request passed, with any query and tenant but those the tenant
      service gave; every answer is recorded once; with the program's services
      it is the gateway's handler (a lemma that ties the two renderings of the
      handler together).
    - Proxy service (ProxyProofs, ProxyTrace, ProxyTheorems): which requests
      are sent, how often and to whom; every selected backend is reported
      once; the polling loop ends; the balancer agrees with the health
      checker; the upstream request is the client's but for query and tenant.
    - Balancers: exact and smooth fairness as long as the counters and weights
      fit their 32 bits, balance and conservation of connection counts, and
      the conditions under which they panic.
    - Tenants: the filtered query selects exactly what the user may see, when
      the project IDs are free of the characters of regular expressions (and
      more, when they are not); groups are canonical; target tenants are the
      user's own.
    - Authentication: users come from verified claims in every history of the
      service, caches included; permissions; cache clean-up is invisible.
    - Health checker and queue: states follow the streaks of the answers of a
      run in every interleaving of the checker's goroutines, and the callbacks
      tell of every change; but for the times of the checks rounds do not
      depend on the schedule; a stopped monitor ends, and one start and one
      stop never panic; the queue is first-in first-out and bounded;
      lifecycles and the races with Close.
    - Configuration: what validation guarantees, and that the two top-level
      validators differ in three sections only.
    - Storages: the last write of a key decides what is read, against the
      interface, which each storage meets, and so in every storage the factory
      makes; watchers' channels are closed once
      and never sent to afterwards; replicas that apply one log agree; what a
      snapshot keeps and loses; the factory's choice.
    - Cluster: metadata that fits the limit survives the gossip, and cut
      metadata is never read; in every history of gossip and leadership the Raft
      configuration changes by the members that joined and left; a stopped
      discovery joins nobody; a join makes the members voters; as long as the
      monitor sees every change of leadership, a leader has no peer pending
      that a run is not about to add, and no removal but one that raced with
      its election.
    - Metrics: calls carry as many labels as the metric has and never panic
      on text; the exported counters count the calls; answered requests are
      exported.
    - Logging: masked values hold no token; a logfmt entry is one line; the
      levels and messages of the libraries are read back.
    - Start: what LoadConfig returns; a valid configuration starts a fresh
      gateway; every path has one route.
    - Doubles: the handler over the recording doubles leaves one record per
      request; the mock storage is the reference all storages agree with when
      nothing expires.
    Lemmas such as [ProxyTheorems.maintenance_mode_is_undone],
    [GatewayProofs.form_query_is_forwarded_unfiltered] or
    [Memberlist.brief_loss_of_leadership_strands_peers] record behaviours that
    look unintended; they hold of the code as it is.

    ** Parameters, bounds and fuel

    Parameters: the PromQL parser ([Tenant.PromQL]), the JWT library
    ([Auth.JWT]), url.Parse and the exchanges with upstreams ([Proxy.Env]),
    the answers of the JWKS endpoint and of health probes, the Raft library
    ([RaftStorage.RaftLib]), the Redis client ([RedisStorage.RedisLib]), the
    gossip library ([Memberlist.Gossip]), the mDNS library and the machine's
    interfaces ([Discovery.mdnsEnv]), the text of IP addresses, the Prometheus
    client ([Metrics.Prometheus]), viper ([Loader.Viper]), the table of
    printable runes, logrus's JSON formatter, the file system and the network
    of main and of the test helpers ([Main.surroundings]). What is
    known of them are classes of laws, each with a small instance that
    satisfies it. Integers keep their width where they can overflow.

    Four functions have fuel. The polling loop of the queue: each round waits
    at least 100 ms, so [pollFuel] rounds exceed the maximal wait, and more
    fuel changes nothing. The reader of JSON values: twice the length of the
    text is enough ([Json.parse_fuel]); its depth is the decoder's 10000. The
    repetition and the replacement loop of Regexp: the length of the text, of
    which each round consumes a byte.
    Other loops recurse on lists or on the number of retries.

    ** Not modelled

    The libraries above; the HTTP server itself (its timeouts, connections and
    the text on the wire) and the process's signals, which are events of main;
    the lines a component logs while it works, and callbacks that only log
    (NotifyUpdate, NotifyMsg, MergeRemoteState); the Raft storage's GetStats,
    which prints the library's numbers; the interfaces of domain/types.go that
    nothing implements. *)

From Stdlib Require Export ZArith Lia.
From stdpp Require Export base tactics list gmap strings pretty sorting fin_maps.

Declare Scope vpa_scope.
Delimit Scope vpa_scope with vpa.

(** The hint base of the development: facts about Go slices, machine integers
    and the shared list functions below. *)
Create HintDb vpa.
Create Rewrite HintDb vpa.

(* ------------------------------------------------------------------ *)
(** ** Go run-time outcomes *)

(** A Go call returns a value or panics (index out of range, nil
    dereference, close of a closed channel, send on a closed channel). *)
Inductive outcome (A : Type) : Type :=
| Returned (a : A)
| Panicked (why : string).
Arguments Returned {A} a.
Arguments Panicked {A} why.

Definition obind {A B} (m : outcome A) (f : A → outcome B) : outcome B :=
  match m with
  | Returned a => f a
  | Panicked why => Panicked why
  end.

Notation "'do!' x <- m ; k" := (obind m (λ x, k))
  (at level 10, x pattern, m at level 100, k at level 200) : vpa_scope.

Definition returns {A} (m : outcome A) : bool :=
  match m with Returned _ => true | Panicked _ => false end.

(** [s[i]] on a slice: Go panics when the index is out of range. *)
Definition slice_at {A} (s : list A) (i : Z) : outcome A :=
  if bool_decide (0 ≤ i)%Z then
    match s !! Z.to_nat i with
    | Some a => Returned a
    | None => Panicked "index out of range"
    end
  else Panicked "index out of range".

Lemma slice_at_lookup {A} (s : list A) (i : nat) (a : A) :
  s !! i = Some a → slice_at s (Z.of_nat i) = Returned a.
Proof.
  intros H. unfold slice_at. rewrite bool_decide_true by lia.
  by rewrite Nat2Z.id, H.
Qed.

Lemma slice_at_Some {A} (s : list A) (i : Z) (a : A) :
  slice_at s i = Returned a → (0 ≤ i)%Z ∧ s !! Z.to_nat i = Some a.
Proof. unfold slice_at. intros H. repeat case_match; simplify_eq. case_bool_decide; naive_solver. Qed.

Lemma slice_at_negative {A} (s : list A) (i : Z) :
  (i < 0)%Z → slice_at s i = Panicked "index out of range".
Proof. intros. unfold slice_at. by rewrite bool_decide_false by lia. Qed.

#[export] Hint Resolve slice_at_lookup slice_at_negative : vpa.

(* ------------------------------------------------------------------ *)
(** ** Machine integers *)

Definition max_int32 : Z := 2147483647.
Definition min_int32 : Z := -2147483648.

(** Two's-complement wrap-around of a Go [int32] operation. *)
Definition wrap32 (z : Z) : Z := ((z + 2147483648) mod 4294967296 - 2147483648)%Z.

Definition max_int64 : Z := 9223372036854775807.

Lemma wrap32_id z : (min_int32 ≤ z ≤ max_int32)%Z → wrap32 z = z.
Proof. unfold min_int32, max_int32, wrap32. intros. rewrite Z.mod_small; lia. Qed.

Lemma wrap32_range z : (min_int32 ≤ wrap32 z ≤ max_int32)%Z.
Proof.
  unfold min_int32, max_int32, wrap32.
  pose proof (Z.mod_pos_bound (z + 2147483648) 4294967296). lia.
Qed.

#[export] Hint Resolve wrap32_range : vpa.

(* ------------------------------------------------------------------ *)
(** ** Sums and counts over lists *)

Definition sumZ (l : list Z) : Z := foldr Z.add 0%Z l.

Lemma sumZ_app l1 l2 : sumZ (l1 ++ l2) = (sumZ l1 + sumZ l2)%Z.
Proof. induction l1; simpl; unfold sumZ in *; simpl; lia. Qed.

Lemma sumZ_map_add {A} (f g : A → Z) (l : list A) :
  sumZ (map (λ x, f x + g x)%Z l) = (sumZ (map f l) + sumZ (map g l))%Z.
Proof. induction l as [|x l IH]; simpl in *; lia. Qed.

Lemma sumZ_map_mul {A} (c : Z) (f : A → Z) (l : list A) :
  sumZ (map (λ x, c * f x)%Z l) = (c * sumZ (map f l))%Z.
Proof. induction l as [|x l IH]; simpl in *; lia. Qed.

Lemma sumZ_map_ext {A} (f g : A → Z) (l : list A) :
  (∀ x, x ∈ l → f x = g x) → sumZ (map f l) = sumZ (map g l).
Proof.
  induction l as [|x l IH]; intros Hfg; [done|]; simpl.
  rewrite Hfg by set_solver. rewrite IH; [done|]. intros; apply Hfg; set_solver.
Qed.

Lemma sumZ_map_nonneg {A} (f : A → Z) (l : list A) :
  (∀ x, x ∈ l → 0 ≤ f x)%Z → (0 ≤ sumZ (map f l))%Z.
Proof.
  induction l as [|x l IH]; intros Hf; simpl; [lia|].
  pose proof (Hf x ltac:(set_solver)). opose proof (IH _); [set_solver|lia].
Qed.

Lemma sumZ_member_le (l : list Z) x : (∀ y, y ∈ l → 0 ≤ y)%Z → x ∈ l → (x ≤ sumZ l)%Z.
Proof.
  intros Hl Hx. induction l as [|y l IH]; [by apply elem_of_nil in Hx|].
  assert (0 ≤ sumZ l)%Z.
  { rewrite <- (map_id l). apply sumZ_map_nonneg. intros; apply Hl; by right. }
  pose proof (Hl y ltac:(left)). apply elem_of_cons in Hx as [->|Hx]; simpl; [lia|].
  opose proof (IH _ Hx); [intros; apply Hl; by right|lia].
Qed.

(** When every term is at most its bound and the sums agree, the terms agree. *)
Lemma sumZ_map_le_eq {A} (f g : A → Z) (l : list A) :
  (∀ x, x ∈ l → f x ≤ g x)%Z → sumZ (map f l) = sumZ (map g l) →
  ∀ x, x ∈ l → f x = g x.
Proof.
  induction l as [|y l IH]; intros Hle Hsum x Hx; [set_solver|].
  assert (sumZ (map f l) ≤ sumZ (map g l))%Z.
  { clear -Hle. induction l as [|z l IH]; simpl; [lia|].
    pose proof (Hle z ltac:(set_solver)). opose proof (IH _); [set_solver|lia]. }
  pose proof (Hle y ltac:(set_solver)). simpl in Hsum.
  apply elem_of_cons in Hx as [->|Hx]; [lia|].
  apply IH; [set_solver|lia|done].
Qed.

(** A sum over a duplicate-free list in which exactly one member changes. *)
Lemma sumZ_map_update {A} `{EqDecision A} (f : A → Z) (d : Z) (k : A) (l : list A) :
  NoDup l → k ∈ l →
  sumZ (map (λ x, if decide (x = k) then f x + d else f x)%Z l) = (sumZ (map f l) + d)%Z.
Proof.
  induction 1 as [|y l Hy Hnd IH]; intros Hk; [set_solver|]; simpl.
  destruct (decide (y = k)) as [->|Hne].
  - rewrite (sumZ_map_ext _ f); [lia|]. intros z Hz. rewrite decide_False; [done|congruence].
  - rewrite IH; [lia|set_solver].
Qed.

Lemma sumZ_lower_bound {A} (f : A → Z) (l : list A) (x : A) (m : Z) :
  x ∈ l → NoDup l → (∀ y, y ∈ l → - m ≤ f y)%Z →
  (f x ≤ sumZ (map f l) + (Z.of_nat (length l) - 1) * m)%Z.
Proof.
  intros Hx Hnd Hf. induction Hnd as [|y l Hy Hnd IH]; [by apply elem_of_nil in Hx|].
  assert (∀ l : list A, (∀ y, y ∈ l → - m ≤ f y)%Z → (- (Z.of_nat (length l) * m) ≤ sumZ (map f l))%Z) as Hlow.
  { clear. induction l as [|z l IH]; intros Hf; simpl; [lia|].
    pose proof (Hf z ltac:(left)). opose proof (IH _); [intros; apply Hf; by right|lia]. }
  apply elem_of_cons in Hx as [->|Hx]; simpl.
  - opose proof (Hlow l _); [intros; apply Hf; by right|lia].
  - opose proof (IH Hx _); [intros; apply Hf; by right|]. pose proof (Hf y ltac:(left)). lia.
Qed.

Lemma sumZ_pos_member {A} (f : A → Z) (l : list A) :
  (0 < sumZ (map f l))%Z → ∃ x, x ∈ l ∧ (0 < f x)%Z.
Proof.
  induction l as [|x l IH]; simpl; intros Hs; [lia|].
  destruct (decide (0 < f x)%Z); [exists x; split; [left|done]|].
  destruct IH as (y&?&?); [lia|]. exists y. split; [by right|done].
Qed.

(** The number of occurrences of an index in a list of picks. *)
Definition occurrences (i : nat) (l : list nat) : Z := Z.of_nat (length (filter (eq i) l)).

Lemma occurrences_nil i : occurrences i [] = 0%Z.
Proof. done. Qed.

Lemma occurrences_snoc i l k :
  occurrences i (l ++ [k]) = (occurrences i l + (if decide (i = k) then 1 else 0))%Z.
Proof.
  unfold occurrences. rewrite filter_app, length_app, filter_cons, filter_nil.
  case_decide; simpl; lia.
Qed.

Lemma sumZ_occurrences (idxs picks : list nat) :
  NoDup idxs → (∀ k, k ∈ picks → k ∈ idxs) →
  sumZ (map (λ i, occurrences i picks) idxs) = Z.of_nat (length picks).
Proof.
  intros Hnd. induction picks as [|k picks IH] using rev_ind; intros Hin.
  - rewrite (sumZ_map_ext _ (λ _, 0%Z)) by done. clear. simpl. induction idxs; simpl in *; lia.
  - rewrite (sumZ_map_ext _ (λ i, if decide (i = k) then occurrences i picks + 1 else occurrences i picks)%Z).
    2: { intros i _. rewrite occurrences_snoc. case_decide; lia. }
    rewrite sumZ_map_update by (try done; apply Hin; set_solver).
    rewrite IH by set_solver. rewrite length_app. simpl. lia.
Qed.

(* ------------------------------------------------------------------ *)
(** ** Strings of the Go standard library *)

(** strings.HasPrefix *)
Definition hasPrefix (s p : string) : bool := String.prefix p s.

(** strings.TrimPrefix *)
Definition trimPrefix (s p : string) : string :=
  if hasPrefix s p
  then String.substring (String.length p) (String.length s - String.length p) s
  else s.

(** strings.Contains *)
Definition contains (s sub : string) : bool :=
  match String.index 0 sub s with Some _ => true | None => false end.

(** slices.Contains on strings *)
Definition slices_contains (l : list string) (x : string) : bool := bool_decide (x ∈ l).

(** strconv.Itoa *)
Definition itoa (z : Z) : string := pretty z.

Definition str_nonempty (s : string) : bool := negb (String.eqb s "").

Lemma str_nonempty_true s : str_nonempty s = true ↔ s ≠ "".
Proof. unfold str_nonempty. destruct (String.eqb_spec s ""); naive_solver. Qed.

(** Two's-complement wrap-around of a Go [int64] (and [int]) operation. *)
Definition wrap64 (z : Z) : Z :=
  ((z + 9223372036854775808) mod 18446744073709551616 - 9223372036854775808)%Z.

Lemma wrap64_id z : (- max_int64 - 1 ≤ z ≤ max_int64)%Z → wrap64 z = z.
Proof. unfold max_int64, wrap64. intros. rewrite Z.mod_small; lia. Qed.

Lemma wrap64_succ z : wrap64 (wrap64 z + 1) = wrap64 (z + 1).
Proof.
  unfold wrap64.
  replace ((z + 9223372036854775808) mod 18446744073709551616 - 9223372036854775808 + 1 + 9223372036854775808)%Z
    with ((z + 9223372036854775808) mod 18446744073709551616 + 1)%Z by lia.
  rewrite Zplus_mod_idemp_l. do 2 f_equal. lia.
Qed.
