(* ===== verification/Float64.v ===== *)
(** * Float64: Go's float64

    IEEE 754 binary64 with rounding to nearest, ties to even, through the
    Standard Library's executable specification of floating-point numbers. *)

From Stdlib Require Import SpecFloat.
From S2P Require Import Prelude.

Definition float64 : Type := spec_float.

(** The conversion of an integer, and the operations. *)
Definition toFloat (z : Z) : float64 := binary_normalize 53 1024 z 0 false.
Definition divFloat (x y : float64) : float64 := SFdiv 53 1024 x y.
Definition mulFloat (x y : float64) : float64 := SFmul 53 1024 x y.
Definition ltFloat (x y : float64) : bool := SFltb x y.

(** Equality of the language: the two zeros are equal, NaN is not. *)
Definition eqFloat (x y : float64) : bool := SFeqb x y.

(** Integers up to 2^53 are exact, the next one is not; zero over zero is
    no number and smaller than nothing. *)
Example toFloat_exact :
  toFloat (2 ^ 53) = S754_finite false 4503599627370496 1 ∧ toFloat (2 ^ 53 + 1) = toFloat (2 ^ 53) ∧
  divFloat (toFloat 0) (toFloat 0) = S754_nan ∧ ltFloat S754_nan (toFloat 90) = false.
Proof. by vm_compute. Qed.

(** [part] of [whole] as a percentage. *)
Definition percentage (part whole : Z) : float64 := mulFloat (divFloat (toFloat part) (toFloat whole)) (toFloat 100).

(** Up to this size a percentage compares with a whole number as the
    fraction does. *)
Definition comparesExactly (limit whole : Z) : bool :=
  forallb (λ part, Bool.eqb (ltFloat (percentage (Z.of_nat part) whole) (toFloat limit))
                     (100 * Z.of_nat part <? limit * whole)%Z) (seq 0 (S (Z.to_nat whole))).

Lemma comparesExactly_spec limit whole part :
  comparesExactly limit whole = true → (0 ≤ part ≤ whole)%Z →
  ltFloat (percentage part whole) (toFloat limit) = (100 * part <? limit * whole)%Z.
Proof.
  intros H Hp. unfold comparesExactly in H. rewrite forallb_forall in H.
  specialize (H (Z.to_nat part)). rewrite Z2Nat.id in H by lia. apply eqb_prop, H.
  apply in_seq. lia.
Qed.
