(* ===== verification/GoStd.v ===== *)
(** * GoStd: functions of Go's time, net and fmt packages the configuration uses

    Written out from the documented behaviour of the standard library;
    durations are int64 nanoseconds. *)

From Stdlib Require Import Ascii.
From S2P Require Import Prelude.

(** fmt's %v of a slice of strings *)
Definition formatStrings (l : list string) : string := "[" +:+ String.concat " " l +:+ "]".

(* ------------------------------------------------------------------ *)
(** ** time.Duration *)

Definition Millisecond : Z := 1000000.
Definition Second : Z := 1000000000.
Definition Minute : Z := 60 * Second.
Definition Hour : Z := 60 * Minute.

(** The last [prec] decimal digits of [v], least significant first. *)
Fixpoint lowDigits (prec : nat) (v : Z) : list Z :=
  match prec with
  | 0 => []
  | S p => (v mod 10)%Z :: lowDigits p (v / 10)
  end.

Fixpoint dropZeros (l : list Z) : list Z :=
  match l with
  | d :: l' => if (d =? 0)%Z then dropZeros l' else l
  | [] => []
  end.

(** fmtFrac: the fraction without trailing zeros, with its point. *)
Definition fmtFrac (v : Z) (prec : nat) : string :=
  match dropZeros (lowDigits prec v) with
  | [] => ""
  | ds => "." +:+ String.concat "" (map itoa (reverse ds))
  end.

Definition withFrac (v : Z) (prec : nat) : string :=
  itoa (v / 10 ^ Z.of_nat prec) +:+ fmtFrac v prec.

(** Duration.String; the micro sign is the two bytes C2 B5. *)
Definition Duration_String (d : Z) : string :=
  let u := Z.abs d in
  let sign := if (d <? 0)%Z then "-" else "" in
  if (u =? 0)%Z then "0s"
  else if (u <? 1000)%Z then sign +:+ itoa u +:+ "ns"
  else if (u <? 1000000)%Z then
    sign +:+ withFrac u 3 +:+ String "194"%char (String "181"%char "s")
  else if (u <? Second)%Z then sign +:+ withFrac u 6 +:+ "ms"
  else
    let secs := (u / Second)%Z in
    let s := itoa (secs mod 60) +:+ fmtFrac u 9 +:+ "s" in
    let mins := (secs / 60)%Z in
    if (mins =? 0)%Z then sign +:+ s
    else
      let m := itoa (mins mod 60) +:+ "m" +:+ s in
      let hours := (mins / 60)%Z in
      if (hours =? 0)%Z then sign +:+ m else sign +:+ itoa hours +:+ "h" +:+ m.

Example duration_examples :
  map Duration_String [0; 500 * Millisecond; 90 * Second; 1 * Hour; -1500000; 7]%Z
  = ["0s"; "500ms"; "1m30s"; "1h0m0s"; "-1.5ms"; "7ns"].
Proof. vm_compute. reflexivity. Qed.

(* ------------------------------------------------------------------ *)
(** ** net.SplitHostPort *)

Fixpoint indexByte (c : ascii) (s : list ascii) : option nat :=
  match s with
  | [] => None
  | d :: s' => if Ascii.eqb c d then Some 0 else S <$> indexByte c s'
  end.

Definition lastIndexByte (c : ascii) (s : list ascii) : option nat :=
  (λ k, length s - 1 - k)%nat <$> indexByte c (reverse s).

(** The host and the port, or the text of the AddrError. *)
Definition SplitHostPort (hostport : string) : string * string + string :=
  let s := String.list_ascii_of_string hostport in
  let addrErr why := inr ("address " +:+ hostport +:+ ": " +:+ why) in
  let finish (host : list ascii) (i j k : nat) :=
    match indexByte "["%char (drop j s), indexByte "]"%char (drop k s) with
    | Some _, _ => addrErr "unexpected '[' in address"
    | None, Some _ => addrErr "unexpected ']' in address"
    | None, None => inl (String.string_of_list_ascii host, String.string_of_list_ascii (drop (S i) s))
    end in
  match lastIndexByte ":"%char s with
  | None => addrErr "missing port in address"
  | Some i =>
      match s with
      | "["%char :: _ =>
          match indexByte "]"%char s with
          | None => addrErr "missing ']' in address"
          | Some e =>
              if (S e =? length s)%nat then addrErr "missing port in address"
              else if (S e =? i)%nat then finish (drop 1 (take e s)) i 1 (S e)
              else if bool_decide (s !! S e = Some ":"%char) then addrErr "too many colons in address"
              else addrErr "missing port in address"
          end
      | _ =>
          match indexByte ":"%char (take i s) with
          | Some _ => addrErr "too many colons in address"
          | None => finish (take i s) i 0 0
          end
      end
  end.

Example split_host_port_examples :
  map SplitHostPort ["0.0.0.0:8080"; "[::1]:80"; "::1:80"; "host"; "[::1]"] =
  [inl ("0.0.0.0", "8080"); inl ("::1", "80"); inr "address ::1:80: too many colons in address";
   inr "address host: missing port in address"; inr "address [::1]: missing port in address"].
Proof. vm_compute. reflexivity. Qed.

(* ------------------------------------------------------------------ *)
(** ** strconv.Atoi *)

Fixpoint decimal (acc : Z) (l : list ascii) : option Z :=
  match l with
  | [] => Some acc
  | c :: l' =>
      let n := N_of_ascii c in
      if (48 <=? n)%N && (n <=? 57)%N then decimal (acc * 10 + Z.of_N (n - 48)) l' else None
  end.

(** The number, or the text of the NumError; the quoted text is written for a
    string without characters to escape. *)
Definition Atoi (s : string) : Z + string :=
  let l := String.list_ascii_of_string s in
  let quote := String "034"%char "" in
  let numError why := inr ("strconv.Atoi: parsing " +:+ quote +:+ s +:+ quote +:+ ": " +:+ why) in
  let '(sign, ds) := match l with
                     | c :: l' => if Ascii.eqb c "-" then ((-1)%Z, l') else if Ascii.eqb c "+" then (1%Z, l') else (1%Z, l)
                     | [] => (1%Z, [])
                     end in
  match ds with
  | [] => numError "invalid syntax"
  | _ =>
      match decimal 0 ds with
      | None => numError "invalid syntax"
      | Some v => let n := (sign * v)%Z in
                  if (n <? - max_int64 - 1)%Z || (max_int64 <? n)%Z then numError "value out of range" else inl n
      end
  end.

Example atoi_examples :
  map Atoi ["7946"; "-1"; "+05"; "9223372036854775807"] = [inl 7946; inl (-1); inl 5; inl 9223372036854775807]%Z ∧
  map (λ s, match Atoi s with inl _ => true | inr _ => false end) [""; "-"; "1x"; "9223372036854775808"; " 1"]
  = [false; false; false; false; false].
Proof. vm_compute. by split. Qed.
