(* ===== verification/GoText.v ===== *)
(** * GoText: strings.Split and prefixes, and what encoding/json does to a string and a map

    encoding/json writes the bytes of a string that are no UTF-8 as U+FFFD,
    so a string that went through JSON is the coerced one. *)

From Stdlib Require Import Ascii.
From S2P Require Import Prelude.

(* ------------------------------------------------------------------ *)
(** ** UTF-8 *)

Definition byteIn (lo hi : N) (c : ascii) : bool := (lo <=? N_of_ascii c)%N && (N_of_ascii c <=? hi)%N.

Definition tail_ : ascii → bool := byteIn 128 191.

(** The well-formed sequences of two, three and four bytes. *)
Definition twoBytes (a b : ascii) : bool := byteIn 194 223 a && tail_ b.

Definition threeBytes (a b c : ascii) : bool :=
  ((byteIn 224 224 a && byteIn 160 191 b)
   || ((byteIn 225 236 a || byteIn 238 239 a) && tail_ b)
   || (byteIn 237 237 a && byteIn 128 159 b)) && tail_ c.

Definition fourBytes (a b c d : ascii) : bool :=
  ((byteIn 240 240 a && byteIn 144 191 b)
   || (byteIn 241 243 a && tail_ b)
   || (byteIn 244 244 a && byteIn 128 143 b)) && tail_ c && tail_ d.

(** U+FFFD *)
Definition replacement : list ascii := ["239"%char; "191"%char; "189"%char].

Fixpoint coerceBytes (l : list ascii) : list ascii :=
  match l with
  | [] => []
  | a :: l1 =>
      if byteIn 0 127 a then a :: coerceBytes l1
      else
        match l1 with
        | b :: l2 =>
            if twoBytes a b then a :: b :: coerceBytes l2
            else
              match l2 with
              | c :: l3 =>
                  if threeBytes a b c then a :: b :: c :: coerceBytes l3
                  else
                    match l3 with
                    | d :: l4 => if fourBytes a b c d then a :: b :: c :: d :: coerceBytes l4
                                 else replacement ++ coerceBytes l1
                    | [] => replacement ++ coerceBytes l1
                    end
              | [] => replacement ++ coerceBytes l1
              end
        | [] => replacement ++ coerceBytes l1
        end
  end.

Definition coerceUTF8 (s : string) : string :=
  String.string_of_list_ascii (coerceBytes (String.list_ascii_of_string s)).

(** utf8.ValidString *)
Definition validUTF8 (s : string) : Prop := coerceUTF8 s = s.

Lemma coerceBytes_replacement l : coerceBytes (replacement ++ l) = replacement ++ coerceBytes l.
Proof. done. Qed.

Lemma coerceBytes_idemp_aux n l : (length l ≤ n)%nat → coerceBytes (coerceBytes l) = coerceBytes l.
Proof.
  revert l. induction n as [|n IH]; intros [|a l1] Hn; try done; simpl in Hn; [lia|].
  assert (coerceBytes (replacement ++ coerceBytes l1) = replacement ++ coerceBytes l1) as Hrepl.
  { rewrite coerceBytes_replacement. f_equal. apply IH. lia. }
  simpl. destruct (byteIn 0 127 a) eqn:Ha; [simpl; rewrite Ha; f_equal; apply IH; lia|].
  destruct l1 as [|b l2]; [exact Hrepl|]. simpl in Hn.
  destruct (twoBytes a b) eqn:Hb; [simpl; rewrite Ha, Hb; do 2 f_equal; apply IH; lia|].
  destruct l2 as [|c l3]; [exact Hrepl|]. simpl in Hn.
  destruct (threeBytes a b c) eqn:Hc; [simpl; rewrite Ha, Hb, Hc; do 3 f_equal; apply IH; lia|].
  destruct l3 as [|d l4]; [exact Hrepl|]. simpl in Hn.
  destruct (fourBytes a b c d) eqn:Hd; [simpl; rewrite Ha, Hb, Hc, Hd; do 4 f_equal; apply IH; lia|].
  exact Hrepl.
Qed.

(** A string that went through JSON goes through it unchanged. *)
Lemma coerceUTF8_valid s : validUTF8 (coerceUTF8 s).
Proof.
  unfold validUTF8, coerceUTF8. rewrite String.list_ascii_of_string_of_list_ascii.
  f_equal. by eapply coerceBytes_idemp_aux.
Qed.

#[export] Instance validUTF8_dec s : Decision (validUTF8 s).
Proof. unfold validUTF8. apply _. Defined.

#[export] Hint Resolve coerceUTF8_valid : vpa.

Example coerce_examples :
  map coerceUTF8 ["plain"; String "195" (String "169" ""); String "255" "x"]
  = ["plain"; String "195" (String "169" ""); String "239" (String "191" (String "189" "x"))].
Proof. vm_compute. reflexivity. Qed.

(* ------------------------------------------------------------------ *)
(** ** strings.Split by a byte, strings.Join *)

Fixpoint splitBytes (sep : ascii) (cur l : list ascii) : list string :=
  match l with
  | [] => [String.string_of_list_ascii (rev cur)]
  | c :: l' => if Ascii.eqb c sep then String.string_of_list_ascii (rev cur) :: splitBytes sep [] l'
               else splitBytes sep (c :: cur) l'
  end.

Definition Split (s : string) (sep : ascii) : list string :=
  splitBytes sep [] (String.list_ascii_of_string s).

Definition Join (l : list string) (sep : string) : string := String.concat sep l.

Example split_examples :
  map (λ s, Split s ":") ["n1:host:90"; ""; "a"; ":"] = [["n1"; "host"; "90"]; [""]; ["a"]; [""; ""]].
Proof. vm_compute. reflexivity. Qed.

Lemma splitBytes_app sep cur l1 l2 :
  sep ∉ l1 →
  splitBytes sep cur (l1 ++ sep :: l2) = String.string_of_list_ascii (rev cur ++ l1) :: splitBytes sep [] l2.
Proof.
  revert cur. induction l1 as [|c l1 IH]; intros cur Hno; simpl.
  - by rewrite Ascii.eqb_refl, app_nil_r.
  - destruct (Ascii.eqb_spec c sep) as [->|]; [set_solver|]. rewrite IH by set_solver. simpl.
    by rewrite <- app_assoc.
Qed.

Lemma splitBytes_ne sep cur l : splitBytes sep cur l ≠ [].
Proof. revert cur. induction l as [|c l IH]; intros cur; simpl; [done|]. by case_match. Qed.

Lemma append_cons (c : ascii) (s t : string) : String c s +:+ t = String c (s +:+ t).
Proof. done. Qed.

Lemma append_assoc (s t u : string) : s +:+ (t +:+ u) = (s +:+ t) +:+ u.
Proof. induction s as [|c s IH]; [done|]. exact (f_equal (String c) IH). Qed.

Lemma append_nil_r (s : string) : s +:+ "" = s.
Proof. induction s as [|c s IH]; [done|]. exact (f_equal (String c) IH). Qed.

Lemma list_ascii_app s1 s2 :
  String.list_ascii_of_string (s1 +:+ s2) = String.list_ascii_of_string s1 ++ String.list_ascii_of_string s2.
Proof. induction s1 as [|c s1 IH]; [done|]. simpl. by f_equal. Qed.

Lemma string_of_list_app l1 l2 :
  String.string_of_list_ascii (l1 ++ l2)
  = String.string_of_list_ascii l1 +:+ String.string_of_list_ascii l2.
Proof. induction l1 as [|c l1 IH]; [done|]. change (String c (String.string_of_list_ascii (l1 ++ l2)) = String c (String.string_of_list_ascii l1 +:+ String.string_of_list_ascii l2)). by rewrite IH. Qed.

Lemma Join_splitBytes sep cur l :
  Join (splitBytes sep cur l) (String sep "") = String.string_of_list_ascii (rev cur ++ l).
Proof.
  revert cur. induction l as [|c l IH]; intros cur; simpl; [by rewrite app_nil_r|].
  destruct (Ascii.eqb_spec c sep) as [->|].
  - pose proof (IH []) as E. simpl in E. destruct (splitBytes sep [] l) eqn:Es; [by apply splitBytes_ne in Es|].
    unfold Join in *. rewrite string_of_list_app. change (String.concat ?s (?a :: ?b :: ?r)) with (a +:+ s +:+ String.concat s (b :: r)).
    by rewrite E.
  - rewrite IH. simpl. by rewrite <- app_assoc.
Qed.

(** strings.Join undoes strings.Split. *)
Lemma Join_Split s sep : Join (Split s sep) (String sep "") = s.
Proof.
  unfold Split. rewrite Join_splitBytes. simpl. apply String.string_of_list_ascii_of_string.
Qed.

Definition hasByte (s : string) (c : ascii) : bool := bool_decide (c ∈ String.list_ascii_of_string s).

Lemma Split_first s1 s2 sep :
  hasByte s1 sep = false → Split (s1 +:+ String sep s2) sep = s1 :: Split s2 sep.
Proof.
  intros Hno. apply bool_decide_eq_false in Hno. unfold Split. rewrite list_ascii_app. simpl.
  rewrite splitBytes_app by done. simpl. f_equal. apply String.string_of_list_ascii_of_string.
Qed.

Lemma hasByte_false s c : hasByte s c = false ↔ c ∉ String.list_ascii_of_string s.
Proof. apply bool_decide_eq_false. Qed.

Lemma splitBytes_noSep sep cur l :
  sep ∉ cur → Forall (λ s, hasByte s sep = false) (splitBytes sep cur l).
Proof.
  assert (∀ cur, sep ∉ cur → hasByte (String.string_of_list_ascii (rev cur)) sep = false) as Hrev.
  { intros cur' Hc. apply hasByte_false. rewrite String.list_ascii_of_string_of_list_ascii.
    intros Hin. apply Hc, list_elem_of_In, in_rev, list_elem_of_In, Hin. }
  revert cur. induction l as [|c l IH]; intros cur Hc; simpl; [by repeat constructor; apply Hrev|].
  destruct (Ascii.eqb_spec c sep); [constructor; [by apply Hrev|apply IH; apply not_elem_of_nil]|].
  apply IH. set_solver.
Qed.

Lemma Split_noSep s sep : Forall (λ t, hasByte t sep = false) (Split s sep).
Proof. apply splitBytes_noSep, not_elem_of_nil. Qed.

Lemma Split_none s sep : hasByte s sep = false → Split s sep = [s].
Proof.
  rewrite hasByte_false. unfold Split. intros Hno.
  assert (∀ l cur, sep ∉ l → splitBytes sep cur l = [String.string_of_list_ascii (rev cur ++ l)]) as H.
  { induction l as [|c l IH]; intros cur Hl; simpl; [by rewrite app_nil_r|].
    apply not_elem_of_cons in Hl as [? ?]. destruct (Ascii.eqb_spec c sep); [congruence|].
    rewrite IH by done. simpl. by rewrite <- app_assoc. }
  rewrite H by done. simpl. by rewrite String.string_of_list_ascii_of_string.
Qed.

Lemma Join_cons s t l sep : Join (s :: t :: l) sep = s +:+ sep +:+ Join (t :: l) sep.
Proof. done. Qed.

(** strings.Split undoes strings.Join, of parts without the separator. *)
Lemma Split_Join l sep :
  l ≠ [] → Forall (λ s, hasByte s sep = false) l → Split (Join l (String sep "")) sep = l.
Proof.
  induction l as [|s [|t l] IH]; intros Hne Hf; [done| |]; inversion_clear Hf.
  - by apply Split_none.
  - rewrite Join_cons. change (String sep "" +:+ ?r) with (String sep r).
    rewrite Split_first by done. by rewrite IH.
Qed.

(* ------------------------------------------------------------------ *)
(** ** Prefixes and parts *)

Lemma hasPrefix_app p s : hasPrefix (p +:+ s) p = true.
Proof.
  unfold hasPrefix. induction p as [|c p IH]; [by destruct s|].
  rewrite append_cons. cbn [String.prefix]. destruct (ascii_dec c c); [exact IH|done].
Qed.

Lemma length_append s t : String.length (s +:+ t) = (String.length s + String.length t)%nat.
Proof. induction s as [|c s IH]; [done|]. rewrite append_cons. cbn [String.length]. by rewrite IH. Qed.

Lemma substring_all s : String.substring 0 (String.length s) s = s.
Proof. induction s as [|c s IH]; [done|]. cbn [String.length String.substring]. by rewrite IH. Qed.

Lemma substring_skip s t : String.substring (String.length s) (String.length t) (s +:+ t) = t.
Proof.
  induction s as [|c s IH]; [apply substring_all|]. rewrite append_cons. cbn [String.length String.substring]. exact IH.
Qed.

Lemma substring_first s t : String.substring 0 (String.length s) (s +:+ t) = s.
Proof.
  induction s as [|c s IH]; [by destruct t|]. rewrite append_cons. cbn [String.length String.substring]. by rewrite IH.
Qed.

Lemma trimPrefix_app p s : trimPrefix (p +:+ s) p = s.
Proof.
  unfold trimPrefix. rewrite hasPrefix_app, length_append, Nat.add_comm, Nat.add_sub. apply substring_skip.
Qed.

Lemma substring_at s t u : String.substring (String.length s) (String.length t) (s +:+ t +:+ u) = t.
Proof.
  induction s as [|c s IH]; [exact (substring_first t u)|]. rewrite append_cons. cbn [String.length String.substring]. exact IH.
Qed.

(** strings.Contains finds what is there. *)
Lemma contains_app s t u : t ≠ "" → contains (s +:+ t +:+ u) t = true.
Proof.
  intros Ht. unfold contains. destruct (String.index 0 t (s +:+ t +:+ u)) eqn:E; [done|].
  destruct (String.index_correct3 0 (String.length s) t _ E Ht); [lia|apply substring_at].
Qed.

Lemma hasPrefix_spec s p : hasPrefix s p = true ↔ ∃ rest, s = p +:+ rest.
Proof.
  split; [|intros [rest ->]; apply hasPrefix_app]. unfold hasPrefix. revert s.
  induction p as [|c p IH]; intros s H; [by exists s|]. destruct s as [|d s]; [done|]. cbn [String.prefix] in H.
  destruct (ascii_dec c d) as [->|]; [|done]. destruct (IH s H) as [rest ->]. by exists rest.
Qed.

(* ------------------------------------------------------------------ *)
(** ** Maps in the order encoding/json writes them *)

Definition sortedKeys {A} (m : gmap string A) : list string := merge_sort String.le (map fst (map_to_list m)).

Lemma elem_of_sortedKeys {A} (m : gmap string A) k : k ∈ sortedKeys m ↔ is_Some (m !! k).
Proof.
  unfold sortedKeys. rewrite merge_sort_Permutation. change (map fst ?l) with (l.*1).
  rewrite list_elem_of_fmap. split.
  - intros ([k' v]&->&Hin%elem_of_map_to_list). by exists v.
  - intros [v Hv]. exists (k, v). by rewrite elem_of_map_to_list.
Qed.

(** Reading the members one by one gives the map back, when the keys and the
    values come through as they are. *)
Lemma foldl_sortedKeys {A} (m : gmap string A) (g : string → string) (f : string → A) :
  (∀ k v, m !! k = Some v → g k = k ∧ f k = v) →
  foldl (λ acc k, <[g k := f k]> acc) ∅ (sortedKeys m) = m.
Proof.
  intros Hv.
  enough (∀ l (acc : gmap string A), (∀ k, k ∈ l → is_Some (m !! k)) → ∀ k,
    foldl (λ acc k, <[g k := f k]> acc) acc l !! k = if decide (k ∈ l) then m !! k else acc !! k) as H.
  { apply map_eq. intros k. rewrite H by (intros j; apply elem_of_sortedKeys). case_decide as Hk; [done|].
    rewrite elem_of_sortedKeys in Hk. rewrite lookup_empty. destruct (m !! k); [|done]. destruct Hk. by eexists. }
  induction l as [|x l IH]; intros acc Hl k; [by rewrite decide_False by apply not_elem_of_nil|]. simpl.
  rewrite IH by (intros j Hj; apply Hl; by right). destruct (Hl x) as [v Hx]; [left|].
  destruct (Hv x v Hx) as [-> ->]. destruct (decide (k = x)) as [->|Hne].
  - rewrite (decide_True (P := x ∈ x :: l)) by left. case_decide; [done|]. by rewrite lookup_insert_eq.
  - rewrite lookup_insert_ne by done. by rewrite (decide_ext (k ∈ x :: l) (k ∈ l)) by set_solver.
Qed.
