(* ===== verification/Json.v ===== *)
(** * Json: the text of encoding/json

    Strings are written and read byte by byte as the encoder (with its HTML
    escapes) and the decoder of the standard library do; values are read by
    the grammar the decoder's scanner accepts, up to its depth of 10000
    nested arrays and objects. [parseValue] has fuel; twice the length of the
    text is enough ([parse_fuel]). *)

From Stdlib Require Import Ascii.
From S2P Require Import Prelude GoText.

Local Open Scope N_scope.

Definition eqc (c d : ascii) : bool := Ascii.eqb c d.
Definition quote : ascii := "034".
Definition backslash : ascii := "\".

(* ------------------------------------------------------------------ *)
(** ** Hexadecimal digits and runes *)

Definition hexDigit (n : N) : ascii := ascii_of_N (if n <? 10 then 48 + n else 87 + n).

Definition hexValue (c : ascii) : option N :=
  let n := N_of_ascii c in
  if byteIn 48 57 c then Some (n - 48)
  else if byteIn 97 102 c then Some (n - 87)
  else if byteIn 65 70 c then Some (n - 55)
  else None.

(** The four digits of a \u escape. *)
Definition hex4 (a b c d : ascii) : option N :=
  w ← hexValue a; x ← hexValue b; y ← hexValue c; z ← hexValue d;
  Some (w * 4096 + x * 256 + y * 16 + z).

Definition isSurrogate (r : N) : bool := (55296 <=? r) && (r <? 57344).

(** utf16.DecodeRune *)
Definition surrogatePair (r1 r2 : N) : option N :=
  if (55296 <=? r1) && (r1 <? 56320) && (56320 <=? r2) && (r2 <? 57344)
  then Some ((r1 - 55296) * 1024 + (r2 - 56320) + 65536) else None.

(** utf8.EncodeRune of a rune that is no surrogate *)
Definition encodeRune (r : N) : list ascii :=
  let tail n := ascii_of_N (128 + N.modulo n 64) in
  if r <? 128 then [ascii_of_N r]
  else if r <? 2048 then [ascii_of_N (192 + r / 64); tail r]
  else if r <? 65536 then [ascii_of_N (224 + r / 4096); tail (r / 64); tail r]
  else [ascii_of_N (240 + r / 262144); tail (r / 4096); tail (r / 64); tail r].

(* ------------------------------------------------------------------ *)
(** ** Writing a string *)

Definition escapeU (n : N) : list ascii :=
  [backslash; "u"%char; hexDigit (n / 4096); hexDigit (N.modulo (n / 256) 16);
   hexDigit (N.modulo (n / 16) 16); hexDigit (N.modulo n 16)].

(** One ASCII character, with the escapes for HTML. *)
Definition escapeASCII (c : ascii) : list ascii :=
  let n := N_of_ascii c in
  if eqc c quote || eqc c backslash then [backslash; c]
  else if n =? 8 then [backslash; "b"%char]
  else if n =? 12 then [backslash; "f"%char]
  else if n =? 10 then [backslash; "n"%char]
  else if n =? 13 then [backslash; "r"%char]
  else if n =? 9 then [backslash; "t"%char]
  else if (n <? 32) || eqc c "<" || eqc c ">" || eqc c "&" then escapeU n
  else [c].

(** U+2028 and U+2029 are escaped too. *)
Definition escapeThree (a b c : ascii) : list ascii :=
  if (N_of_ascii a =? 226) && (N_of_ascii b =? 128) && ((N_of_ascii c =? 168) || (N_of_ascii c =? 169))
  then escapeU (8232 + (N_of_ascii c - 168)) else [a; b; c].

Fixpoint escapeBytes (l : list ascii) : list ascii :=
  match l with
  | [] => []
  | a :: l1 =>
      if byteIn 0 127 a then escapeASCII a ++ escapeBytes l1
      else
        match l1 with
        | b :: l2 =>
            if twoBytes a b then a :: b :: escapeBytes l2
            else
              match l2 with
              | c :: l3 =>
                  if threeBytes a b c then escapeThree a b c ++ escapeBytes l3
                  else
                    match l3 with
                    | d :: l4 => if fourBytes a b c d then a :: b :: c :: d :: escapeBytes l4
                                 else escapeU 65533 ++ escapeBytes l1
                    | [] => escapeU 65533 ++ escapeBytes l1
                    end
              | [] => escapeU 65533 ++ escapeBytes l1
              end
        | [] => escapeU 65533 ++ escapeBytes l1
        end
  end.

Definition encodeString (s : string) : list ascii :=
  quote :: escapeBytes (String.list_ascii_of_string s) ++ [quote].

(* ------------------------------------------------------------------ *)
(** ** Reading a string *)

Definition simpleEscape (e : ascii) : option ascii :=
  if eqc e quote || eqc e backslash || eqc e "/" then Some e
  else if eqc e "b" then Some "008"%char
  else if eqc e "f" then Some "012"%char
  else if eqc e "n" then Some "010"%char
  else if eqc e "r" then Some "013"%char
  else if eqc e "t" then Some "009"%char
  else None.

(** What follows the opening quote: the bytes up to the closing one, and the
    text after it. *)
Fixpoint scanString (l : list ascii) : option (list ascii * list ascii) :=
  match l with
  | [] => None
  | c :: l1 =>
      if eqc c quote then Some ([], l1)
      else if eqc c backslash then
        match l1 with
        | [] => None
        | e :: l2 =>
            if eqc e "u" then
              match l2 with
              | h1 :: h2 :: h3 :: h4 :: l3 =>
                  match hex4 h1 h2 h3 h4, scanString l3 with
                  | Some _, Some (raw, rest) => Some (c :: e :: h1 :: h2 :: h3 :: h4 :: raw, rest)
                  | _, _ => None
                  end
              | _ => None
              end
            else
              match simpleEscape e, scanString l2 with
              | Some _, Some (raw, rest) => Some (c :: e :: raw, rest)
              | _, _ => None
              end
        end
      else if byteIn 0 31 c then None
      else match scanString l1 with
           | Some (raw, rest) => Some (c :: raw, rest)
           | None => None
           end
  end.

(** The string that scanned bytes stand for; bytes that are no UTF-8 become
    U+FFFD. *)
Fixpoint unquoteBytes (l : list ascii) : list ascii :=
  match l with
  | [] => []
  | a :: l1 =>
      if eqc a backslash then
        match l1 with
        | [] => []
        | e :: l2 =>
            if eqc e "u" then
              match l2 with
              | h1 :: h2 :: h3 :: h4 :: l3 =>
                  match hex4 h1 h2 h3 h4 with
                  | None => []
                  | Some r =>
                      if isSurrogate r then
                        match l3 with
                        | b :: u :: g1 :: g2 :: g3 :: g4 :: l4 =>
                            match hex4 g1 g2 g3 g4 ≫= surrogatePair r with
                            | Some r' => if eqc b backslash && eqc u "u" then encodeRune r' ++ unquoteBytes l4
                                         else replacement ++ unquoteBytes l3
                            | None => replacement ++ unquoteBytes l3
                            end
                        | _ => replacement ++ unquoteBytes l3
                        end
                      else encodeRune r ++ unquoteBytes l3
                  end
              | _ => []
              end
            else
              match simpleEscape e with
              | Some c => c :: unquoteBytes l2
              | None => []
              end
        end
      else if byteIn 0 127 a then a :: unquoteBytes l1
      else
        match l1 with
        | b :: l2 =>
            if twoBytes a b then a :: b :: unquoteBytes l2
            else
              match l2 with
              | c :: l3 =>
                  if threeBytes a b c then a :: b :: c :: unquoteBytes l3
                  else
                    match l3 with
                    | d :: l4 => if fourBytes a b c d then a :: b :: c :: d :: unquoteBytes l4
                                 else replacement ++ unquoteBytes l1
                    | [] => replacement ++ unquoteBytes l1
                    end
              | [] => replacement ++ unquoteBytes l1
              end
        | [] => replacement ++ unquoteBytes l1
        end
  end.

Definition unquote (raw : list ascii) : string := String.string_of_list_ascii (unquoteBytes raw).

(* ------------------------------------------------------------------ *)
(** ** Strings: reading undoes writing *)

Section Bytes.
Local Arguments escapeASCII : simpl never.
Local Arguments N_of_ascii : simpl never.

Definition prepend (p : list ascii) (o : option (list ascii * list ascii)) : option (list ascii * list ascii) :=
  match o with Some (raw, rest) => Some (p ++ raw, rest) | None => None end.

Lemma prepend_app p q o : prepend (p ++ q) o = prepend p (prepend q o).
Proof. destruct o as [[raw rest]|]; [|done]. simpl. by rewrite <- app_assoc. Qed.

(** One case per character, decided by computation. *)
Local Ltac each_ascii a := destruct a as [[] [] [] [] [] [] [] []]; try done.

Lemma unquote_ascii a l : byteIn 0 127 a = true → unquoteBytes (escapeASCII a ++ l) = a :: unquoteBytes l.
Proof. intros H. each_ascii a. Qed.

Lemma scan_ascii a l : byteIn 0 127 a = true → scanString (escapeASCII a ++ l) = prepend (escapeASCII a) (scanString l).
Proof. intros H. each_ascii a; simpl; by destruct (scanString l) as [[]|]. Qed.

(** A byte of a longer sequence is copied. *)
Lemma scan_high a l : byteIn 0 127 a = false → scanString (a :: l) = prepend [a] (scanString l).
Proof. intros H. each_ascii a. Qed.

Lemma high_not_backslash a : byteIn 0 127 a = false → eqc a backslash = false.
Proof. intros H. each_ascii a. Qed.

Lemma tail_high b : tail_ b = true → byteIn 0 127 b = false.
Proof. unfold tail_, byteIn. intros [H _]%andb_true_iff. apply N.leb_le in H. apply andb_false_iff. right. apply N.leb_gt. lia. Qed.

Lemma byteIn_high lo hi b : 128 ≤ lo → byteIn lo hi b = true → byteIn 0 127 b = false.
Proof.
  unfold byteIn. intros Hlo [H _]%andb_true_iff. apply N.leb_le in H. apply andb_false_iff. right. apply N.leb_gt. lia.
Qed.

Lemma twoBytes_high a b : twoBytes a b = true → byteIn 0 127 b = false.
Proof. intros [_ H]%andb_true_iff. by apply tail_high. Qed.

Lemma threeBytes_high a b c : threeBytes a b c = true → byteIn 0 127 b = false ∧ byteIn 0 127 c = false.
Proof.
  unfold threeBytes. intros [H Hc]%andb_true_iff. split; [|by apply tail_high].
  repeat (apply orb_true_iff in H as [H|H]); apply andb_true_iff in H as [_ H];
    first [by apply tail_high | eapply byteIn_high; [|done]; lia].
Qed.

Lemma fourBytes_high a b c d :
  fourBytes a b c d = true → byteIn 0 127 b = false ∧ byteIn 0 127 c = false ∧ byteIn 0 127 d = false.
Proof.
  unfold fourBytes. intros [[H Hc]%andb_true_iff Hd]%andb_true_iff. split_and!; [|by apply tail_high..].
  repeat (apply orb_true_iff in H as [H|H]); apply andb_true_iff in H as [_ H];
    first [by apply tail_high | eapply byteIn_high; [|done]; lia].
Qed.

Lemma unquote_three a b c l :
  threeBytes a b c = true → byteIn 0 127 a = false →
  unquoteBytes (escapeThree a b c ++ l) = a :: b :: c :: unquoteBytes l.
Proof.
  intros H Ha. unfold escapeThree.
  destruct ((N_of_ascii a =? 226) && (N_of_ascii b =? 128) && ((N_of_ascii c =? 168) || (N_of_ascii c =? 169))) eqn:E.
  - apply andb_true_iff in E as [[E1 E2]%andb_true_iff E3]. apply N.eqb_eq in E1, E2.
    rewrite <- (ascii_N_embedding a), <- (ascii_N_embedding b), <- (ascii_N_embedding c), E1, E2.
    apply orb_true_iff in E3 as [E3|E3]; apply N.eqb_eq in E3; by rewrite E3.
  - simpl. rewrite (high_not_backslash a Ha), Ha, H. destruct (twoBytes a b) eqn:Hb; [|done].
    exfalso. clear -H Hb. apply andb_true_iff in Hb as [Hb _]. apply andb_true_iff in H as [H _].
    unfold byteIn in *. repeat (apply orb_true_iff in H as [H|H]); 
      repeat match goal with E : _ && _ = true |- _ => apply andb_true_iff in E as [? ?]
             | E : _ || _ = true |- _ => apply orb_true_iff in E as [?|?] end;
      repeat match goal with E : (_ <=? _) = true |- _ => apply N.leb_le in E end; lia.
Qed.

Lemma scan_three a b c l :
  threeBytes a b c = true → byteIn 0 127 a = false →
  scanString (escapeThree a b c ++ l) = prepend (escapeThree a b c) (scanString l).
Proof.
  intros H Ha. apply threeBytes_high in H as [Hb Hc]. unfold escapeThree.
  case_match eqn:E.
  - apply andb_true_iff in E as [_ E3].
    apply orb_true_iff in E3 as [E3|E3]; apply N.eqb_eq in E3; rewrite E3; simpl; by destruct (scanString l) as [[]|].
  - change ([a; b; c] ++ l) with (a :: b :: c :: l). rewrite !scan_high by done.
    by destruct (scanString l) as [[]|].
Qed.

Lemma unquote_replacement l : unquoteBytes (escapeU 65533 ++ l) = replacement ++ unquoteBytes l.
Proof. done. Qed.

Lemma scan_replacement l : scanString (escapeU 65533 ++ l) = prepend (escapeU 65533) (scanString l).
Proof. simpl. by destruct (scanString l) as [[]|]. Qed.

Lemma unquote_escape_aux n l : (length l ≤ n)%nat → unquoteBytes (escapeBytes l) = coerceBytes l.
Proof.
  revert l. induction n as [|n IH]; intros [|a l1] Hn; try done; simpl in Hn; [lia|].
  assert (unquoteBytes (escapeU 65533 ++ escapeBytes l1) = replacement ++ coerceBytes l1) as Hrepl.
  { rewrite unquote_replacement. f_equal. apply IH. lia. }
  cbn [escapeBytes coerceBytes]. destruct (byteIn 0 127 a) eqn:Ha; [rewrite unquote_ascii by done; f_equal; apply IH; lia|].
  pose proof (high_not_backslash a Ha) as Hna.
  destruct l1 as [|b l2]; [exact Hrepl|]. simpl in Hn.
  destruct (twoBytes a b) eqn:Hb; [simpl; rewrite Hna, Ha, Hb; do 2 f_equal; apply IH; lia|].
  destruct l2 as [|c l3]; [exact Hrepl|]. simpl in Hn.
  destruct (threeBytes a b c) eqn:Hc; [rewrite unquote_three by done; do 3 f_equal; apply IH; lia|].
  destruct l3 as [|d l4]; [exact Hrepl|]. simpl in Hn.
  destruct (fourBytes a b c d) eqn:Hd; [simpl; rewrite Hna, Ha, Hb, Hc, Hd; do 4 f_equal; apply IH; lia|].
  exact Hrepl.
Qed.

Lemma unquote_escape l : unquoteBytes (escapeBytes l) = coerceBytes l.
Proof. by eapply unquote_escape_aux. Qed.

Lemma scan_escape_aux n l rest : (length l ≤ n)%nat → scanString (escapeBytes l ++ quote :: rest) = Some (escapeBytes l, rest).
Proof.
  revert l. induction n as [|n IH]; intros [|a l1] Hn; try done; simpl in Hn; [lia|].
  assert (scanString ((escapeU 65533 ++ escapeBytes l1) ++ quote :: rest) = Some (escapeU 65533 ++ escapeBytes l1, rest)) as Hrepl.
  { rewrite <- app_assoc, scan_replacement, IH by lia. done. }
  cbn [escapeBytes]. destruct (byteIn 0 127 a) eqn:Ha.
  { rewrite <- app_assoc, scan_ascii, IH by (done || lia). done. }
  destruct l1 as [|b l2]; [exact Hrepl|]. simpl in Hn.
  destruct (twoBytes a b) eqn:Hb.
  { rewrite <- !app_comm_cons, !scan_high, IH by (done || lia || by eapply twoBytes_high). done. }
  destruct l2 as [|c l3]; [exact Hrepl|]. simpl in Hn.
  destruct (threeBytes a b c) eqn:Hc.
  { rewrite <- app_assoc, scan_three, IH by (done || lia). done. }
  destruct l3 as [|d l4]; [exact Hrepl|]. simpl in Hn.
  destruct (fourBytes a b c d) eqn:Hd; [|exact Hrepl]. apply fourBytes_high in Hd as (?&?&?).
  rewrite <- !app_comm_cons, !scan_high, IH by (done || lia). done.
Qed.

Lemma scan_escape l rest : scanString (escapeBytes l ++ quote :: rest) = Some (escapeBytes l, rest).
Proof. by eapply scan_escape_aux. Qed.
End Bytes.

(** A string that is written and read is the coerced one. *)
Lemma unquote_encode s : unquote (escapeBytes (String.list_ascii_of_string s)) = coerceUTF8 s.
Proof. unfold unquote. by rewrite unquote_escape. Qed.

(* ------------------------------------------------------------------ *)
(** ** Values *)

(** A number keeps no value: what reads the text here has no numeric field. *)
Unset Elimination Schemes.
Inductive json :=
| JNull
| JBool (b : bool)
| JNumber
| JString (s : string)
| JArray (l : list json)
| JObject (members : list (string * json)).
Set Elimination Schemes.

Definition isSpace (c : ascii) : bool := eqc c " " || eqc c "009" || eqc c "010" || eqc c "013".

Fixpoint skipSpace (l : list ascii) : list ascii :=
  match l with
  | c :: l' => if isSpace c then skipSpace l' else l
  | [] => []
  end.

Definition digit : ascii → bool := byteIn 48 57.

Fixpoint skipDigits (l : list ascii) : list ascii :=
  match l with
  | c :: l' => if digit c then skipDigits l' else l
  | [] => []
  end.

(** At least one digit. *)
Definition digits1 (l : list ascii) : option (list ascii) :=
  match l with c :: l' => if digit c then Some (skipDigits l') else None | [] => None end.

Definition scanInt (l : list ascii) : option (list ascii) :=
  match l with c :: l' => if eqc c "0" then Some l' else digits1 l | [] => None end.

Definition scanFrac (l : list ascii) : option (list ascii) :=
  match l with c :: l' => if eqc c "." then digits1 l' else Some l | [] => Some l end.

Definition scanExp (l : list ascii) : option (list ascii) :=
  match l with
  | c :: l' =>
      if eqc c "e" || eqc c "E" then
        match l' with
        | s :: l2 => if eqc s "+" || eqc s "-" then digits1 l2 else digits1 l'
        | [] => None
        end
      else Some l
  | [] => Some l
  end.

(** A number, from its first character on; the text after it. *)
Definition scanNumber (l : list ascii) : option (list ascii) :=
  match l with
  | c :: l' => l1 ← scanInt (if eqc c "-" then l' else l); l2 ← scanFrac l1; scanExp l2
  | [] => None
  end.

Fixpoint stripPrefix (p l : list ascii) : option (list ascii) :=
  match p, l with
  | [], _ => Some l
  | a :: p', b :: l' => if eqc a b then stripPrefix p' l' else None
  | _ :: _, [] => None
  end.

Definition word (w : string) : list ascii := String.list_ascii_of_string w.

Definition maxNestingDepth : N := 10000.

(** [depth] arrays and objects are open around the value. *)
Fixpoint parseValue (fuel : nat) (depth : N) (l : list ascii) : option (json * list ascii) :=
  match fuel with
  | 0%nat => None
  | S n =>
      match skipSpace l with
      | [] => None
      | c :: l1 =>
          if eqc c quote then
            '(raw, l2) ← scanString l1; Some (JString (unquote raw), l2)
          else if eqc c "{" then
            if maxNestingDepth <=? depth then None
            else
              match skipSpace l1 with
              | c2 :: l2 => if eqc c2 "}" then Some (JObject [], l2)
                            else '(ms, l3) ← parseMembers n (depth + 1) l1; Some (JObject ms, l3)
              | [] => None
              end
          else if eqc c "[" then
            if maxNestingDepth <=? depth then None
            else
              match skipSpace l1 with
              | c2 :: l2 => if eqc c2 "]" then Some (JArray [], l2)
                            else '(vs, l3) ← parseElements n (depth + 1) l1; Some (JArray vs, l3)
              | [] => None
              end
          else if eqc c "t" then l2 ← stripPrefix (word "rue") l1; Some (JBool true, l2)
          else if eqc c "f" then l2 ← stripPrefix (word "alse") l1; Some (JBool false, l2)
          else if eqc c "n" then l2 ← stripPrefix (word "ull") l1; Some (JNull, l2)
          else l2 ← scanNumber (c :: l1); Some (JNumber, l2)
      end
  end
with parseMembers (fuel : nat) (depth : N) (l : list ascii) : option (list (string * json) * list ascii) :=
  match fuel with
  | 0%nat => None
  | S n =>
      match skipSpace l with
      | [] => None
      | q :: l1 =>
          if eqc q quote then
            '(raw, l2) ← scanString l1;
            match skipSpace l2 with
            | [] => None
            | colon :: l3 =>
                if eqc colon ":" then
                  '(v, l4) ← parseValue n depth l3;
                  match skipSpace l4 with
                  | [] => None
                  | c :: l5 =>
                      if eqc c "," then '(ms, l6) ← parseMembers n depth l5; Some ((unquote raw, v) :: ms, l6)
                      else if eqc c "}" then Some ([(unquote raw, v)], l5)
                      else None
                  end
                else None
            end
          else None
      end
  end
with parseElements (fuel : nat) (depth : N) (l : list ascii) : option (list json * list ascii) :=
  match fuel with
  | 0%nat => None
  | S n =>
      '(v, l1) ← parseValue n depth l;
      match skipSpace l1 with
      | [] => None
      | c :: l2 =>
          if eqc c "," then '(vs, l3) ← parseElements n depth l2; Some (v :: vs, l3)
          else if eqc c "]" then Some ([v], l2)
          else None
      end
  end.

(** The document a text is: one value, with space around it. *)
Definition parseJSON (l : list ascii) : option json :=
  match parseValue (S (2 * length l)) 0 l with
  | Some (v, rest) => match skipSpace rest with [] => Some v | _ => None end
  | None => None
  end.

Example parse_examples :
  map (λ s, parseJSON (word s)) ["{ }"; "[1, -2.5e3 ,true]"; "01"; "1."; "nul"; "[1,]"; "{'a':1}"]
  = [Some (JObject []); Some (JArray [JNumber; JNumber; JBool true]); None; None; None; None; None] ∧
  parseJSON (["{"%char] ++ encodeString "k" ++ [":"%char] ++ encodeString "<v>" ++ ["}"%char])
  = Some (JObject [("k", JString "<v>")]).
Proof. vm_compute. by split. Qed.

(* ------------------------------------------------------------------ *)
(** ** Reading does not look past what it reads *)

Lemma scan_split_aux n l raw rest :
  (length l ≤ n)%nat → scanString l = Some (raw, rest) →
  l = raw ++ quote :: rest ∧ ∀ rest', scanString (raw ++ quote :: rest') = Some (raw, rest').
Proof.
  revert l raw. induction n as [|n IH]; intros [|c l1] raw Hn H; try done; simpl in Hn; [lia|]. simpl in H.
  destruct (eqc c quote) eqn:Hq.
  { simplify_eq. apply Ascii.eqb_eq in Hq as ->. done. }
  destruct (eqc c backslash) eqn:Hb.
  - destruct l1 as [|e l2]; [done|]. simpl in Hn. destruct (eqc e "u") eqn:Hu.
    + do 4 (destruct l2 as [|? l2]; [done|]). simpl in Hn. destruct (hex4 _ _ _ _) eqn:Hh; [|done].
      destruct (scanString l2) as [[raw' rest']|] eqn:E; simplify_eq.
      apply IH in E as [-> E]; [|lia]. split; [done|]. intros r. simpl. by rewrite Hq, Hb, Hu, Hh, E.
    + destruct (simpleEscape e) eqn:Hs; [|done]. destruct (scanString l2) as [[raw' rest']|] eqn:E; simplify_eq.
      apply IH in E as [-> E]; [|lia]. split; [done|]. intros r. simpl. by rewrite Hq, Hb, Hu, Hs, E.
  - destruct (byteIn 0 31 c) eqn:Hc; [done|]. destruct (scanString l1) as [[raw' rest']|] eqn:E; simplify_eq.
    apply IH in E as [-> E]; [|lia]. split; [done|]. intros r. simpl. by rewrite Hq, Hb, Hc, E.
Qed.

Lemma scan_split l raw rest :
  scanString l = Some (raw, rest) → l = raw ++ quote :: rest ∧ ∀ rest', scanString (raw ++ quote :: rest') = Some (raw, rest').
Proof. by eapply scan_split_aux. Qed.

Lemma skipSpace_app l t : skipSpace l ≠ [] → skipSpace (l ++ t) = skipSpace l ++ t.
Proof. induction l as [|c l IH]; simpl; [done|]. by case_match. Qed.

Lemma skipSpace_length l : (length (skipSpace l) ≤ length l)%nat.
Proof. induction l as [|c l IH]; simpl; [done|]. case_match; simpl; lia. Qed.

Lemma stripPrefix_split p l rest : stripPrefix p l = Some rest → l = p ++ rest ∧ ∀ r, stripPrefix p (p ++ r) = Some r.
Proof.
  revert l. induction p as [|a p IH]; intros [|b l]; simpl; intros H; simplify_eq; try done.
  destruct (eqc a b) eqn:E; [|done]. apply Ascii.eqb_eq in E as ->. destruct (IH _ H) as [-> Hr].
  split; [done|]. intros r. unfold eqc. by rewrite Ascii.eqb_refl.
Qed.

(** A reader of numbers: what it leaves is a suffix, and when it leaves
    something the text may be continued. *)
Definition stopsAtRest (f : list ascii → option (list ascii)) : Prop :=
  ∀ l rest, f l = Some rest →
    (length rest ≤ length l)%nat ∧ (rest ≠ [] → ∀ t, f (l ++ t) = Some (rest ++ t)).

Lemma skipDigits_stops : stopsAtRest (λ l, Some (skipDigits l)).
Proof.
  intros l rest [= <-]. induction l as [|c l IH]; simpl; [done|]. destruct (digit c); simpl; [|done].
  destruct IH as [Hl Ht]. split; [lia|done].
Qed.

Lemma digits1_stops : stopsAtRest digits1.
Proof.
  intros [|c l] rest H; simpl in *; [done|]. destruct (digit c); [|done].
  destruct (skipDigits_stops l rest H) as [Hl Ht]. split; [lia|done].
Qed.

Lemma scanInt_stops : stopsAtRest scanInt.
Proof.
  intros [|c l] rest H; cbn -[digits1] in *; [done|]. destruct (eqc c "0") eqn:E; simplify_eq.
  - split; [simpl; lia|done].
  - destruct (digits1_stops (c :: l) rest H) as [Hl Ht]. split; [done|]. intros Hr t. by rewrite <- Ht.
Qed.

Lemma scanFrac_stops : stopsAtRest scanFrac.
Proof.
  intros [|c l] rest H; cbn -[digits1] in *; simplify_eq; [done|]. destruct (eqc c "."); simplify_eq; [|done].
  destruct (digits1_stops l rest H) as [Hl Ht]. split; [lia|done].
Qed.

Lemma scanExp_stops : stopsAtRest scanExp.
Proof.
  intros [|c l] rest H; cbn -[digits1] in *; simplify_eq; [done|].
  destruct (eqc c "e" || eqc c "E"); simplify_eq; [|done]. destruct l as [|s l]; [done|].
  cbn -[digits1]. destruct (eqc s "+" || eqc s "-").
  - destruct (digits1_stops l rest H) as [Hl Ht]. split; [simpl; lia|done].
  - destruct (digits1_stops (s :: l) rest H) as [Hl Ht]. split; [simpl in *; lia|]. intros Hr t. by rewrite <- Ht.
Qed.

Lemma bind_stops f g : stopsAtRest f → stopsAtRest g → stopsAtRest (λ l, l1 ← f l; g l1).
Proof.
  intros Hf Hg l rest H. apply bind_Some in H as (l1 & H1 & H2).
  destruct (Hf _ _ H1) as [Hl1 Ht1], (Hg _ _ H2) as [Hl2 Ht2]. split; [lia|]. intros Hr t.
  rewrite Ht1 by (intros ->; destruct rest; simpl in *; [done|lia]). simpl. by apply Ht2.
Qed.

(** A number of at least one character. *)
Lemma scanNumber_stops : stopsAtRest scanNumber.
Proof.
  assert (stopsAtRest (λ l, l1 ← scanInt l; l2 ← scanFrac l1; scanExp l2)) as H.
  { apply bind_stops; [apply scanInt_stops|]. apply bind_stops; [apply scanFrac_stops|apply scanExp_stops]. }
  intros [|c l] rest Hs; [done|]. cbn -[scanInt] in *. destruct (eqc c "-").
  - destruct (H l rest Hs) as [Hl Ht]. split; [lia|]. intros Hr t. by rewrite Ht.
  - destruct (H (c :: l) rest Hs) as [Hl Ht]. split; [done|]. intros Hr t. by rewrite <- Ht.
Qed.

Lemma scanInt_lt l rest : scanInt l = Some rest → (length rest < length l)%nat.
Proof.
  destruct l as [|c l]; [done|]. simpl. destruct (eqc c "0"); intros H; simplify_eq; [lia|].
  destruct (digit c); simplify_eq. destruct (skipDigits_stops l _ eq_refl) as [? _]. lia.
Qed.

Lemma scanNumber_lt l rest : scanNumber l = Some rest → (length rest < length l)%nat.
Proof.
  destruct l as [|c l]; [done|]. cbn -[scanInt]. intros (l1 & H1 & H2)%bind_Some.
  destruct (bind_stops _ _ scanFrac_stops scanExp_stops l1 rest H2) as [Hl _].
  apply scanInt_lt in H1. destruct (eqc c "-"); simpl in *; lia.
Qed.

(** What is not to be continued by accident: a number at the very end. *)
Definition ended (v : json) (rest : list ascii) : Prop := v = JNumber → rest ≠ [].

#[local] Arguments eqc : simpl never.
#[local] Arguments stripPrefix : simpl never.
#[local] Arguments scanNumber : simpl never.
#[local] Arguments scanString : simpl never.
#[local] Arguments word : simpl never.

(** Case analysis along a successful run of the parser: the text is what is
    left after the space, the sub-parsers' results are equations. *)
Ltac parse_cases H :=
  repeat match type of H with
         | context [match skipSpace ?l with _ => _ end] =>
             let E := fresh "Esp" in destruct (skipSpace l) eqn:E; try done
         | context [match ?x with _ => _ end] => 
             lazymatch x with
             | _ <? _ => fail
             | context [match _ with _ => _ end] => fail
             | _ => let E := fresh "Ec" in destruct x eqn:E; try done
             end
         | mbind _ _ = Some _ => apply bind_Some in H as (? & ? & H)
         end; simplify_eq/=.

(** The facts about lengths that a run gives. *)
Ltac parse_lengths :=
  repeat match goal with
         | E : skipSpace ?l = _ |- _ =>
             let H := fresh "Hsp" in pose proof (skipSpace_length l) as H; rewrite E in H; simpl in H; clear E
         | E : scanString _ = Some _ |- _ =>
             apply scan_split in E as [-> _]; rewrite ?length_app in *; simpl in *
         | E : stripPrefix _ _ = Some _ |- _ =>
             apply stripPrefix_split in E as [-> _]; rewrite ?length_app in *; simpl in *
         | E : scanNumber _ = Some _ |- _ => apply scanNumber_lt in E; simpl in E
         end.

Lemma parse_lt n :
  (∀ d l v rest, parseValue n d l = Some (v, rest) → (length rest < length l)%nat) ∧
  (∀ d l ms rest, parseMembers n d l = Some (ms, rest) → (length rest < length l)%nat) ∧
  (∀ d l vs rest, parseElements n d l = Some (vs, rest) → (length rest < length l)%nat).
Proof.
  induction n as [|n (IHv & IHm & IHe)]; [done|].
  split_and!; intros d l v rest H; cbn [parseValue parseMembers parseElements] in H; parse_cases H.
  all: repeat match goal with
       | E : parseValue _ _ _ = Some _ |- _ => apply IHv in E
       | E : parseMembers _ _ _ = Some _ |- _ => apply IHm in E
       | E : parseElements _ _ _ = Some _ |- _ => apply IHe in E
       end; parse_lengths; try lia.
Qed.

(** Twice the length of the text is fuel enough. *)
Lemma parse_fuel n :
  (∀ n' d l, (2 * length l < n)%nat → (2 * length l < n')%nat → parseValue n d l = parseValue n' d l) ∧
  (∀ n' d l, (2 * length l < n)%nat → (2 * length l < n')%nat → parseMembers n d l = parseMembers n' d l) ∧
  (∀ n' d l, (2 * length l + 1 < n)%nat → (2 * length l + 1 < n')%nat → parseElements n d l = parseElements n' d l).
Proof.
  induction n as [|n (IHv & IHm & IHe)]; [split_and!; lia|].
  split_and!; intros [|n'] d l H H'; try lia; cbn [parseValue parseMembers parseElements].
  - pose proof (skipSpace_length l). destruct (skipSpace l) as [|c l1]; [done|]. simpl in *.
    by rewrite (IHm n' (d + 1) l1), (IHe n' (d + 1) l1) by lia.
  - pose proof (skipSpace_length l). destruct (skipSpace l) as [|c l1]; [done|]. simpl in *.
    destruct (eqc c quote); [|done]. destruct (scanString l1) as [[raw l2]|] eqn:Es; [|done]. simpl.
    apply scan_split in Es as [-> _]. rewrite length_app in *. simpl in *.
    pose proof (skipSpace_length l2). destruct (skipSpace l2) as [|colon l3]; [done|]. simpl in *.
    rewrite (IHv n' d l3) by lia. destruct (eqc colon ":"); [|done].
    destruct (parseValue n' d l3) as [[v l4]|] eqn:Ev; [|done]. simpl.
    apply (proj1 (parse_lt n')) in Ev. pose proof (skipSpace_length l4).
    destruct (skipSpace l4) as [|c' l5]; [done|]. simpl in *. by rewrite (IHm n' d l5) by lia.
  - rewrite (IHv n' d l) by lia. destruct (parseValue n' d l) as [[v l4]|] eqn:Ev; [|done]. simpl.
    apply (proj1 (parse_lt n')) in Ev. pose proof (skipSpace_length l4).
    destruct (skipSpace l4) as [|c' l5]; [done|]. simpl in *. by rewrite (IHe n' d l5) by lia.
Qed.

Lemma scan_app l raw rest t : scanString l = Some (raw, rest) → scanString (l ++ t) = Some (raw, rest ++ t).
Proof. intros [-> H]%scan_split. rewrite <- app_assoc. apply H. Qed.

Lemma strip_app p l rest t : stripPrefix p l = Some rest → stripPrefix p (l ++ t) = Some (rest ++ t).
Proof. intros [-> H]%stripPrefix_split. rewrite <- app_assoc. apply H. Qed.

(** Replays a run on a longer text. *)
Ltac parse_replay t :=
  repeat match goal with
         | E : skipSpace ?l = _ :: _ |- context [skipSpace (?l ++ t)] =>
             rewrite (skipSpace_app l t) by (by rewrite E); rewrite E; cbn [app]
         | E : scanString ?l = Some _ |- context [scanString (?l ++ t)] => rewrite (scan_app l _ _ t E); cbn [mbind option_bind]
         | E : stripPrefix ?p ?l = Some _ |- context [stripPrefix ?p (?l ++ t)] => rewrite (strip_app p l _ t E); cbn [mbind option_bind]
         | E : ?x = ?b |- context [if ?x then _ else _] => rewrite E
         end.

(** A value that has been read is read again when the text goes on. *)
Lemma parse_extend t n :
  (∀ n' d l v rest, parseValue n d l = Some (v, rest) → ended v rest → (n ≤ n')%nat →
     parseValue n' d (l ++ t) = Some (v, rest ++ t)) ∧
  (∀ n' d l ms rest, parseMembers n d l = Some (ms, rest) → (n ≤ n')%nat →
     parseMembers n' d (l ++ t) = Some (ms, rest ++ t)) ∧
  (∀ n' d l vs rest, parseElements n d l = Some (vs, rest) → (n ≤ n')%nat →
     parseElements n' d (l ++ t) = Some (vs, rest ++ t)).
Proof.
  induction n as [|n (IHv & IHm & IHe)]; [done|]. split_and!.
  - intros [|n'] d l v rest H Hend Hn; [lia|]. cbn [parseValue] in *. parse_cases H; parse_replay t; try done.
    all: match goal with
         | E : parseMembers _ _ _ = Some _ |- _ => by rewrite (IHm n' _ _ _ _ E) by lia
         | E : parseElements _ _ _ = Some _ |- _ => by rewrite (IHe n' _ _ _ _ E) by lia
         | E : scanNumber _ = Some _ |- _ =>
             destruct (scanNumber_stops _ _ E) as [_ Ht]; rewrite app_comm_cons; by rewrite (Ht (Hend eq_refl))
         end.
  - intros [|n'] d l ms rest H Hn; [lia|]. cbn [parseMembers] in *. parse_cases H; parse_replay t.
    all: match goal with E : parseValue _ _ _ = Some _ |- _ => rewrite (IHv n' _ _ _ _ E) by (lia || (intros _ ->; done)) end;
      cbn [mbind option_bind]; parse_replay t; try done.
    match goal with E : parseMembers _ _ _ = Some _ |- _ => by rewrite (IHm n' _ _ _ _ E) by lia end.
  - intros [|n'] d l vs rest H Hn; [lia|]. cbn [parseElements] in *. parse_cases H.
    all: match goal with E : parseValue _ _ _ = Some _ |- _ => rewrite (IHv n' _ _ _ _ E) by (lia || (intros _ ->; done)) end;
      cbn [mbind option_bind]; parse_replay t; try done.
    match goal with E : parseElements _ _ _ = Some _ |- _ => by rewrite (IHe n' _ _ _ _ E) by lia end.
Qed.

(* ------------------------------------------------------------------ *)
(** ** Cut texts *)

Lemma skipSpace_nil_app l t : skipSpace (l ++ t) = [] → skipSpace t = [].
Proof. induction l as [|c l IH]; simpl; [done|]. by case_match. Qed.

(** If a text and a longer one are both documents, and the first is no
    number, the rest is space. *)
Lemma parse_prefix p t v v' :
  parseJSON p = Some v → v ≠ JNumber → parseJSON (p ++ t) = Some v' → v' = v ∧ skipSpace t = [].
Proof.
  unfold parseJSON. intros H Hn H'. destruct (parseValue _ 0 p) as [[w rest]|] eqn:E; [|done].
  destruct (skipSpace rest) eqn:Er; simplify_eq.
  rewrite (proj1 (parse_extend t _) _ 0 p v rest E) in H'; [|by intros ?|rewrite length_app; lia].
  destruct (skipSpace (rest ++ t)) eqn:Et; simplify_eq. split; [done|]. by eapply skipSpace_nil_app.
Qed.

Lemma parse_object n d l v rest : parseValue n d ("{"%char :: l) = Some (v, rest) → ∃ ms, v = JObject ms.
Proof.
  destruct n as [|n]; [done|]. cbn [parseValue skipSpace]. change (isSpace "{") with false. intros H.
  change (eqc "{" quote) with false in H. change (eqc "{" "{") with true in H. parse_cases H; eauto.
Qed.

(** Nothing that is cut off an object leaves a document. *)
Lemma cut_object_is_no_document l n :
  is_Some (parseJSON ("{"%char :: l ++ ["}"%char])) → (n < length ("{"%char :: l ++ ["}"%char]))%nat →
  parseJSON (take n ("{"%char :: l ++ ["}"%char])) = None.
Proof.
  intros [v' H'] Hn. destruct n as [|n]; [done|]. simpl in Hn. rewrite length_app in Hn. simpl in Hn.
  assert ("{"%char :: l ++ ["}"%char] = take (S n) ("{"%char :: l) ++ drop n l ++ ["}"%char]) as E.
  { simpl. by rewrite app_assoc, take_drop. }
  replace (take (S n) ("{"%char :: l ++ ["}"%char])) with (take (S n) ("{"%char :: l)).
  2: { simpl. rewrite take_app_le by lia. done. }
  rewrite E in H'. destruct (parseJSON (take (S n) ("{"%char :: l))) as [v|] eqn:Hp; [|done]. exfalso.
  destruct (parse_prefix _ (drop n l ++ ["}"%char]) v v' Hp) as [_ Hs]; [|done|].
  - unfold parseJSON in Hp. destruct (parseValue _ _ _) as [[w rest]|] eqn:Ev; [|done].
    simpl take in Ev. apply parse_object in Ev as [ms ->]. by destruct (skipSpace rest); simplify_eq.
  - apply skipSpace_nil_app in Hs. vm_compute in Hs. done.
Qed.

(* ------------------------------------------------------------------ *)
(** ** Writing objects *)

Definition member (k : string) (txt : list ascii) : list ascii := encodeString k ++ ":"%char :: txt.

Fixpoint moreMembers (ms : list (string * list ascii)) : list ascii :=
  match ms with
  | [] => ["}"%char]
  | (k, txt) :: ms' => ","%char :: member k txt ++ moreMembers ms'
  end.

Definition encodeObject (ms : list (string * list ascii)) : list ascii :=
  "{"%char :: match ms with [] => ["}"%char] | (k, txt) :: ms' => member k txt ++ moreMembers ms' end.

(** The text [txt] is read as [v], whatever follows. *)
Definition reads (d : N) (txt : list ascii) (v : json) : Prop :=
  ∀ rest fuel, (2 * length txt < fuel)%nat → parseValue fuel d (txt ++ rest) = Some (v, rest).

Lemma reads_string d s : reads d (encodeString s) (JString (coerceUTF8 s)).
Proof.
  intros rest [|n] Hn; [lia|]. unfold encodeString. simpl. rewrite <- app_assoc. simpl.
  change (eqc quote quote) with true. rewrite scan_escape. simpl. by rewrite unquote_encode.
Qed.

Lemma reads_members d k txt v ms rest fuel :
  reads d txt v → Forall (λ m, reads d m.1.2 m.2) ms →
  (2 * length (member k txt ++ moreMembers (map fst ms)) < fuel)%nat →
  parseMembers fuel d (member k txt ++ moreMembers (map fst ms) ++ rest)
  = Some ((coerceUTF8 k, v) :: map (λ m, (coerceUTF8 m.1.1, m.2)) ms, rest).
Proof.
  revert k txt v fuel. induction ms as [|[[k' txt'] v'] ms IH]; intros k txt v [|n] Hv Hms Hn; try lia.
  all: unfold member, encodeString in *; simpl in *; rewrite ?length_app in *; simpl in *; rewrite ?length_app in *.
  all: change (eqc quote quote) with true; rewrite <- !app_assoc; simpl; rewrite scan_escape; simpl.
  all: change (eqc ":" ":") with true; cbn iota; rewrite unquote_encode.
  - rewrite (Hv ("}"%char :: rest) n) by (simpl in *; lia). done.
  - inversion Hms as [|? ? Hv' Hms']; subst. simpl in *.
    rewrite (Hv _ n) by (simpl in *; lia). simpl. change (eqc "," ",") with true. cbn iota.
    pose proof (IH k' txt' v' n Hv' Hms') as E. simpl in E. rewrite <- !app_assoc in *. simpl in *.
    rewrite E; [done|]. rewrite ?length_app in *. simpl in *. rewrite ?length_app in *. simpl in *. lia.
Qed.

Lemma reads_object d (ms : list (string * list ascii * json)) :
  d < maxNestingDepth → Forall (λ m, reads (d + 1) m.1.2 m.2) ms →
  reads d (encodeObject (map fst ms)) (JObject (map (λ m, (coerceUTF8 m.1.1, m.2)) ms)).
Proof.
  intros Hd Hms rest [|n] Hn; [lia|]. unfold encodeObject in *. simpl.
  change (eqc "{" quote) with false. change (eqc "{" "{") with true. cbn iota.
  rewrite (proj2 (N.leb_gt _ _) Hd). destruct ms as [|[[k txt] v] ms]; simpl; [done|].
  inversion Hms as [|? ? Hv Hms']; subst. simpl in *. change (eqc quote "}") with false. cbn iota.
  rewrite <- app_assoc. pose proof (reads_members (d + 1) k txt v ms rest n Hv Hms') as E.
  unfold member, encodeString in *. simpl in *. rewrite <- !app_assoc in *. simpl in *. rewrite E; [done|].
  rewrite ?length_app in *. simpl in *. rewrite ?length_app in *. simpl in *. lia.
Qed.

(** A text that is read as a value is a document. *)
Lemma reads_document txt v : reads 0 txt v → parseJSON txt = Some v.
Proof.
  intros H. unfold parseJSON. specialize (H [] (S (2 * length txt))). rewrite app_nil_r in H. by rewrite H by lia.
Qed.
