(* ===== verification/GoFormat.v ===== *)
(** * GoFormat: runes, strconv.Quote, time.Format, padding, strings.TrimSpace

    The text functions of Go's standard library that the loggers call. Which
    runes beyond ASCII are printable is a table of package unicode, and an
    argument here. *)

From Stdlib Require Import Ascii.
From S2P Require Import Prelude GoStd GoText Json.

Local Open Scope N_scope.

(* ------------------------------------------------------------------ *)
(** ** Runes *)

(** What ranging over a string yields: a rune with its bytes, or a byte that
    starts no rune. *)
Inductive rune :=
| Rune (code : N) (bytes : list ascii)
| BadByte (c : ascii).

Definition runeBytes (r : rune) : list ascii :=
  match r with Rune _ bs => bs | BadByte c => [c] end.

Definition low6 (c : ascii) : N := N.modulo (N_of_ascii c) 64.

Fixpoint decodeRunes (l : list ascii) : list rune :=
  match l with
  | [] => []
  | a :: l1 =>
      if byteIn 0 127 a then Rune (N_of_ascii a) [a] :: decodeRunes l1
      else
        match l1 with
        | b :: l2 =>
            if twoBytes a b
            then Rune (N.modulo (N_of_ascii a) 32 * 64 + low6 b) [a; b] :: decodeRunes l2
            else
              match l2 with
              | c :: l3 =>
                  if threeBytes a b c
                  then Rune (N.modulo (N_of_ascii a) 16 * 4096 + low6 b * 64 + low6 c) [a; b; c] :: decodeRunes l3
                  else
                    match l3 with
                    | d :: l4 =>
                        if fourBytes a b c d
                        then Rune (N.modulo (N_of_ascii a) 8 * 262144 + low6 b * 4096 + low6 c * 64 + low6 d)
                               [a; b; c; d] :: decodeRunes l4
                        else BadByte a :: decodeRunes l1
                    | [] => BadByte a :: decodeRunes l1
                    end
              | [] => BadByte a :: decodeRunes l1
              end
        | [] => BadByte a :: decodeRunes l1
        end
  end.

Lemma decodeRunes_bytes_aux n l : (length l ≤ n)%nat → concat (map runeBytes (decodeRunes l)) = l.
Proof.
  revert l. induction n as [|n IH]; intros [|a l1] Hn; try done; simpl in Hn; [lia|].
  assert (concat (map runeBytes (BadByte a :: decodeRunes l1)) = a :: l1) as Hbad
    by (simpl; f_equal; apply IH; lia).
  cbn [decodeRunes]. destruct (byteIn 0 127 a); [simpl; f_equal; apply IH; lia|].
  destruct l1 as [|b l2]; [exact Hbad|]. destruct (twoBytes a b); [simpl in *; do 2 f_equal; apply IH; lia|].
  destruct l2 as [|c l3]; [exact Hbad|]. destruct (threeBytes a b c); [simpl in *; do 3 f_equal; apply IH; lia|].
  destruct l3 as [|d l4]; [exact Hbad|]. destruct (fourBytes a b c d); [simpl in *; do 4 f_equal; apply IH; lia|].
  exact Hbad.
Qed.

Lemma decodeRunes_bytes l : concat (map runeBytes (decodeRunes l)) = l.
Proof. by eapply decodeRunes_bytes_aux. Qed.

(** A rune of one byte is ASCII; the bytes and the code of another are not. *)
Definition wellFormed (r : rune) : Prop :=
  match r with
  | Rune code bs =>
      (∃ a, bs = [a] ∧ code = N_of_ascii a ∧ byteIn 0 127 a = true)
      ∨ (128 ≤ code ∧ Forall (λ c, byteIn 0 127 c = false) bs)
  | BadByte c => byteIn 0 127 c = false
  end.

Ltac all_bytes a := destruct a as [[] [] [] [] [] [] [] []]; vm_compute; intros; try done; split; done.

Lemma two_lead a : byteIn 194 223 a = true → 2 ≤ N.modulo (N_of_ascii a) 32 ∧ byteIn 0 127 a = false.
Proof. all_bytes a. Qed.

Lemma three_lead a :
  byteIn 225 236 a || byteIn 238 239 a || byteIn 237 237 a = true →
  1 ≤ N.modulo (N_of_ascii a) 16 ∧ byteIn 0 127 a = false.
Proof. all_bytes a. Qed.

Lemma four_lead a :
  byteIn 241 243 a || byteIn 244 244 a = true → 1 ≤ N.modulo (N_of_ascii a) 8 ∧ byteIn 0 127 a = false.
Proof. all_bytes a. Qed.

Lemma tail_or_narrower_high a : byteIn 128 191 a || byteIn 160 191 a || byteIn 144 191 a
  || byteIn 128 159 a || byteIn 128 143 a || byteIn 224 224 a || byteIn 240 240 a = true → byteIn 0 127 a = false.
Proof. all_bytes a. Qed.

Lemma low6_160 a : byteIn 160 191 a = true → 32 ≤ low6 a.
Proof. unfold low6. all_bytes a. Qed.

Lemma low6_144 a : byteIn 144 191 a = true → 16 ≤ low6 a.
Proof. unfold low6. all_bytes a. Qed.

Ltac high_byte :=
  apply tail_or_narrower_high; unfold tail_ in *;
  match goal with H : byteIn ?lo ?hi ?x = true |- context [byteIn ?lo ?hi ?x] => rewrite H end;
  rewrite ?orb_true_r, ?orb_true_l; reflexivity.

Lemma two_wellFormed a b :
  twoBytes a b = true → wellFormed (Rune (N.modulo (N_of_ascii a) 32 * 64 + low6 b) [a; b]).
Proof.
  intros [[H1 H2]%two_lead Hb]%andb_true_iff. right. split; [nia|].
  repeat constructor; [done|high_byte].
Qed.

Lemma three_wellFormed a b c :
  threeBytes a b c = true →
  wellFormed (Rune (N.modulo (N_of_ascii a) 16 * 4096 + low6 b * 64 + low6 c) [a; b; c]).
Proof.
  unfold threeBytes. rewrite !andb_true_iff, !orb_true_iff, !andb_true_iff.
  intros [[[[Ha Hb]|[Ha Hb]]|[Ha Hb]] Hc]; right.
  - split; [pose proof (low6_160 b Hb); generalize (N.modulo (N_of_ascii a) 16); lia|]. repeat constructor; high_byte.
  - destruct (three_lead a) as [? ?]; [by rewrite orb_true_iff; left|]. split; [nia|].
    repeat constructor; [done|high_byte..].
  - destruct (three_lead a) as [? ?]; [by rewrite orb_true_iff; right|]. split; [nia|].
    repeat constructor; [done|high_byte..].
Qed.

Lemma four_wellFormed a b c d :
  fourBytes a b c d = true →
  wellFormed (Rune (N.modulo (N_of_ascii a) 8 * 262144 + low6 b * 4096 + low6 c * 64 + low6 d) [a; b; c; d]).
Proof.
  unfold fourBytes. rewrite !andb_true_iff, !orb_true_iff, !andb_true_iff.
  intros [[[[[Ha Hb]|[Ha Hb]]|[Ha Hb]] Hc] Hd]; right.
  - split; [pose proof (low6_144 b Hb); generalize (N.modulo (N_of_ascii a) 8); lia|]. repeat constructor; high_byte.
  - destruct (four_lead a) as [? ?]; [by rewrite orb_true_iff; left|]. split; [nia|].
    repeat constructor; [done|high_byte..].
  - destruct (four_lead a) as [? ?]; [by rewrite orb_true_iff; right|]. split; [nia|].
    repeat constructor; [done|high_byte..].
Qed.

Lemma decodeRunes_wellFormed_aux n l : (length l ≤ n)%nat → Forall wellFormed (decodeRunes l).
Proof.
  revert l. induction n as [|n IH]; intros [|a l1] Hn; try (by constructor); simpl in Hn; [lia|].
  cbn [decodeRunes]. destruct (byteIn 0 127 a) eqn:Ha.
  { constructor; [left; by exists a|apply IH; lia]. }
  assert (Forall wellFormed (BadByte a :: decodeRunes l1)) as Hbad by (constructor; [done|apply IH; lia]).
  destruct l1 as [|b l2]; [exact Hbad|]. simpl in Hn.
  destruct (twoBytes a b) eqn:Hb; [constructor; [by apply two_wellFormed|apply IH; lia]|].
  destruct l2 as [|c l3]; [exact Hbad|]. simpl in Hn.
  destruct (threeBytes a b c) eqn:Hc; [constructor; [by apply three_wellFormed|apply IH; lia]|].
  destruct l3 as [|d l4]; [exact Hbad|]. simpl in Hn.
  destruct (fourBytes a b c d) eqn:Hd; [constructor; [by apply four_wellFormed|apply IH; lia]|]. exact Hbad.
Qed.

Lemma decodeRunes_wellFormed l : Forall wellFormed (decodeRunes l).
Proof. by eapply decodeRunes_wellFormed_aux. Qed.

(** utf8.RuneCountInString *)
Definition runeCount (s : string) : nat := length (decodeRunes (String.list_ascii_of_string s)).

(** fmt's %-*s *)
Definition padRight (width : nat) (s : string) : string :=
  s +:+ String.string_of_list_ascii (replicate (width - runeCount s) " "%char).

(* ------------------------------------------------------------------ *)
(** ** strings.TrimSpace *)

(** unicode.IsSpace *)
Definition isSpaceRune (r : rune) : bool :=
  match r with
  | BadByte _ => false
  | Rune c _ =>
      bool_decide (c ∈ [9; 10; 11; 12; 13; 32; 133; 160; 5760; 8232; 8233; 8239; 8287; 12288])
      || ((8192 <=? c) && (c <=? 8202))
  end.

Fixpoint dropSpaces (l : list rune) : list rune :=
  match l with
  | [] => []
  | r :: l' => if isSpaceRune r then dropSpaces l' else l
  end.

Definition TrimSpace (s : string) : string :=
  let l := dropSpaces (decodeRunes (String.list_ascii_of_string s)) in
  String.string_of_list_ascii (concat (map runeBytes (reverse (dropSpaces (reverse l))))).

Example TrimSpace_examples :
  map TrimSpace ["  a b "; " "; ""; "x"] = ["a b"; ""; ""; "x"].
Proof. vm_compute. reflexivity. Qed.

(* ------------------------------------------------------------------ *)
(** ** strconv.Quote *)

Section Quote.
Context (isPrint : N → bool).

Definition newline : ascii := "010".

Definition hexByte (n : N) : list ascii := [hexDigit (N.modulo (n / 16) 16); hexDigit (N.modulo n 16)].

(** strconv.appendEscapedRune; ASCII is printable from the space to the
    tilde. *)
Definition quoteRune (r : rune) : list ascii :=
  match r with
  | BadByte c => [backslash; "x"%char] ++ hexByte (N_of_ascii c)
  | Rune n bs =>
      if (n =? 34) || (n =? 92) then [backslash; ascii_of_N n]
      else if (if n <? 128 then (32 <=? n) && (n <? 127) else isPrint n) then bs
      else if n =? 7 then [backslash; "a"%char]
      else if n =? 8 then [backslash; "b"%char]
      else if n =? 12 then [backslash; "f"%char]
      else if n =? 10 then [backslash; "n"%char]
      else if n =? 13 then [backslash; "r"%char]
      else if n =? 9 then [backslash; "t"%char]
      else if n =? 11 then [backslash; "v"%char]
      else if (n <? 32) || (n =? 127) then [backslash; "x"%char] ++ hexByte n
      else if n <? 65536 then escapeU n
      else [backslash; "U"%char] ++ hexByte (n / 16777216) ++ hexByte (n / 65536) ++ hexByte (n / 256) ++ hexByte n
  end.

Definition Quote (s : string) : string :=
  String.string_of_list_ascii
    ([quote] ++ concat (map quoteRune (decodeRunes (String.list_ascii_of_string s))) ++ [quote]).
End Quote.

(** unicode.IsPrint above ASCII, where a component formats with %q. *)
Class UnicodePrint := printable : N → bool.

Example Quote_examples :
  map (Quote (λ _, true)) ["a b"; String "010" "x"; String "255" ""; "\"]
  = [String quote (("a b") +:+ String quote ""); String quote ("\nx" +:+ String quote "");
     String quote ("\xff" +:+ String quote ""); String quote ("\\" +:+ String quote "")].
Proof. vm_compute. reflexivity. Qed.

(** A quoted string is on one line. *)
Lemma hexDigit_line n : n < 16 → hexDigit n ≠ newline.
Proof.
  intros Hn. assert (n ∈ [0;1;2;3;4;5;6;7;8;9;10;11;12;13;14;15]) as Hin by (rewrite !elem_of_cons; lia).
  repeat (apply elem_of_cons in Hin as [->|Hin]; [done|]). by apply elem_of_nil in Hin.
Qed.

Lemma hexByte_line n : newline ∉ hexByte n.
Proof.
  unfold hexByte. rewrite !not_elem_of_cons. split_and!; [..|apply not_elem_of_nil];
    symmetry; apply hexDigit_line, N.mod_lt; done.
Qed.

Lemma escapeU_line n : n < 65536 → newline ∉ escapeU n.
Proof.
  intros Hn. unfold escapeU. rewrite !not_elem_of_cons. split_and!; [done|done|..|apply not_elem_of_nil];
    symmetry; apply hexDigit_line; [by apply N.Div0.div_lt_upper_bound|by apply N.mod_lt..].
Qed.

Lemma printed_line isPrint n bs :
  wellFormed (Rune n bs) → (if n <? 128 then (32 <=? n) && (n <? 127) else isPrint n) = true → newline ∉ bs.
Proof.
  intros [(a&->&->&Ha)|[Hn Hbs]] Hp.
  - rewrite list_elem_of_singleton. intros <-. vm_compute in Hp. done.
  - intros Hin. rewrite Forall_forall in Hbs. by specialize (Hbs _ Hin).
Qed.

Lemma quoteRune_line isPrint r : wellFormed r → newline ∉ quoteRune isPrint r.
Proof.
  assert (∀ a l, newline ≠ a → newline ∉ l → newline ∉ [backslash; a] ++ l) as Happ.
  { intros a l Ha Hl. rewrite not_elem_of_app, !not_elem_of_cons. by repeat split; [..|apply not_elem_of_nil|]. }
  assert (∀ a, newline ≠ a → newline ∉ [backslash; a]) as Htwo.
  { intros a Ha. rewrite <- (app_nil_r [backslash; a]). by apply Happ; [|apply not_elem_of_nil]. }
  destruct r as [n bs|c]; intros Hw; cbn [quoteRune]; [|by apply Happ, hexByte_line].
  destruct ((n =? 34) || (n =? 92)) eqn:E.
  { apply Htwo. by apply orb_true_iff in E as [->%N.eqb_eq| ->%N.eqb_eq]. }
  set (p := if n <? 128 then _ else _). destruct p eqn:Hp; [by apply (printed_line isPrint n)|]. clear p Hp.
  destruct (n =? 7); [by apply Htwo|]. destruct (n =? 8); [by apply Htwo|]. destruct (n =? 12); [by apply Htwo|].
  destruct (n =? 10); [by apply Htwo|]. destruct (n =? 13); [by apply Htwo|]. destruct (n =? 9); [by apply Htwo|].
  destruct (n =? 11); [by apply Htwo|]. destruct ((n <? 32) || (n =? 127)); [by apply Happ, hexByte_line|].
  destruct (N.ltb_spec n 65536) as [Hn|_]; [by apply escapeU_line|].
  apply Happ; [done|]. rewrite !not_elem_of_app. repeat split; apply hexByte_line.
Qed.

Lemma Quote_line isPrint s : newline ∉ String.list_ascii_of_string (Quote isPrint s).
Proof.
  unfold Quote. rewrite String.list_ascii_of_string_of_list_ascii, !not_elem_of_app. split_and!.
  - by rewrite list_elem_of_singleton.
  - intros Hin. apply list_elem_of_In, in_concat in Hin as (l&(r&<-&Hr)%in_map_iff&Hl). apply list_elem_of_In in Hl, Hr.
    pose proof (decodeRunes_wellFormed (String.list_ascii_of_string s)) as Hw. rewrite Forall_forall in Hw.
    by apply (quoteRune_line isPrint r); [apply Hw|].
  - by rewrite list_elem_of_singleton.
Qed.

(* ------------------------------------------------------------------ *)
(** ** time.Format

    The two layouts the formatters use. A time is in nanoseconds since
    1970-01-01 00:00 UTC, as in time.UnixNano; [offset] is the zone's, in
    seconds. *)

Local Open Scope Z_scope.

Definition zeroPad (width : nat) (n : Z) : string :=
  let s := itoa n in
  String.string_of_list_ascii (replicate (width - String.length s) "0"%char) +:+ s.

(** Year, month and day of a day number, by counting from March of the first
    year of a 400-year era. *)
Definition civil (days : Z) : Z * Z * Z :=
  let z := days + 719468 in
  let era := z / 146097 in
  let doe := z mod 146097 in
  let yoe := (doe - doe / 1460 + doe / 36524 - doe / 146096) / 365 in
  let doy := doe - (365 * yoe + yoe / 4 - yoe / 100) in
  let mp := (5 * doy + 2) / 153 in
  let d := doy - (153 * mp + 2) / 5 + 1 in
  let m := if mp <? 10 then mp + 3 else mp - 9 in
  (yoe + era * 400 + (if m <=? 2 then 1 else 0), m, d).

Definition dateText (sec : Z) : string :=
  let '(y, m, d) := civil (sec / 86400) in
  zeroPad 4 y +:+ "-" +:+ zeroPad 2 m +:+ "-" +:+ zeroPad 2 d.

Definition clockText (sec : Z) : string :=
  let s := sec mod 86400 in
  zeroPad 2 (s / 3600) +:+ ":" +:+ zeroPad 2 (s / 60 mod 60) +:+ ":" +:+ zeroPad 2 (s mod 60).

(** Layout 2006-01-02T15:04:05.000Z *)
Definition FormatMillis (offset t : Z) : string :=
  let sec := t / Second + offset in
  dateText sec +:+ "T" +:+ clockText sec +:+ "." +:+ zeroPad 3 (t mod Second / Millisecond) +:+ "Z".

(** Layout 2006-01-02 15:04:05 *)
Definition FormatSeconds (offset t : Z) : string :=
  let sec := t / Second + offset in
  dateText sec +:+ " " +:+ clockText sec.

Example Format_examples :
  (FormatMillis 0 0, FormatMillis 0 1709210096789000000, FormatSeconds 3600 951865200000000000)
  = ("1970-01-01T00:00:00.000Z", "2024-02-29T12:34:56.789Z", "2000-03-01 00:00:00").
Proof. vm_compute. reflexivity. Qed.
