(* ===== verification/Regexp.v ===== *)
(** * Regexp: the part of Go's regexp package the logger's patterns need

    Expressions over bytes, their words, the backtracking matcher (greedy,
    alternatives from left to right) and ReplaceAllStringFunc. The matcher is
    sound and complete for the words ([run_sound], [run_complete]). *)

From Stdlib Require Import Ascii.
From S2P Require Import Prelude.

Inductive regexp :=
| Empty
| Char (p : ascii → bool)
| Seq (r1 r2 : regexp)
| Alt (r1 r2 : regexp)
| Star (r : regexp).

Definition Plus (r : regexp) : regexp := Seq r (Star r).
Definition Opt (r : regexp) : regexp := Alt r Empty.

(** The words of an expression. *)
Inductive word : regexp → list ascii → Prop :=
| w_empty : word Empty []
| w_char p c : p c = true → word (Char p) [c]
| w_seq r1 r2 u v : word r1 u → word r2 v → word (Seq r1 r2) (u ++ v)
| w_alt_l r1 r2 u : word r1 u → word (Alt r1 r2) u
| w_alt_r r1 r2 u : word r2 u → word (Alt r1 r2) u
| w_star_nil r : word (Star r) []
| w_star_app r u v : u ≠ [] → word r u → word (Star r) v → word (Star r) (u ++ v).
#[export] Hint Constructors word : vpa.

(* ------------------------------------------------------------------ *)
(** ** The matcher *)

Section Matcher.
Context {A : Type}.
Implicit Types (k : list ascii → option A) (l : list ascii).

(** One more round, if it consumes something; else what follows. *)
Fixpoint starLoop (step : list ascii → (list ascii → option A) → option A) k (n : nat) l : option A :=
  match n with
  | 0 => k l
  | S n =>
      match step l (λ l', if (length l' <? length l)%nat then starLoop step k n l' else None) with
      | Some x => Some x
      | None => k l
      end
  end.

(** The matcher hands what is left of the text to what follows it. *)
Fixpoint run (r : regexp) (l : list ascii) (k : list ascii → option A) : option A :=
  match r with
  | Empty => k l
  | Char p => match l with c :: l' => if p c then k l' else None | [] => None end
  | Seq r1 r2 => run r1 l (λ l', run r2 l' k)
  | Alt r1 r2 => match run r1 l k with Some x => Some x | None => run r2 l k end
  | Star r1 => starLoop (run r1) k (length l) l
  end.

Lemma starLoop_sound r k n l x :
  (∀ l k x, run r l k = Some x → ∃ u v, l = u ++ v ∧ word r u ∧ k v = Some x) →
  starLoop (run r) k n l = Some x → ∃ u v, l = u ++ v ∧ word (Star r) u ∧ k v = Some x.
Proof.
  intros Hr. revert l. induction n as [|n IH]; intros l; simpl; [intros E; exists [], l; auto with vpa|].
  destruct (run r l _) as [y|] eqn:E.
  - intros [= <-]. apply Hr in E as (u&v&->&Hu&E). case_match eqn:Hlen; [|done].
    apply Nat.ltb_lt in Hlen. rewrite length_app in Hlen.
    apply IH in E as (u'&v'&->&Hu'&E). exists (u ++ u'), v'. rewrite app_assoc. split; [done|]. split; [|done].
    constructor; [|done..]. intros ->. simpl in Hlen. lia.
  - intros E'. exists [], l. auto with vpa.
Qed.

Lemma run_sound r l k x :
  run r l k = Some x → ∃ u v, l = u ++ v ∧ word r u ∧ k v = Some x.
Proof.
  revert l k x. induction r as [|p|r1 IH1 r2 IH2|r1 IH1 r2 IH2|r IH]; intros l k x; simpl.
  - intros E. exists [], l. auto with vpa.
  - destruct l as [|c l]; [done|]. destruct (p c) eqn:Hc; [|done]. intros E. exists [c], l. auto with vpa.
  - intros (u&v&->&Hu&(u'&v'&->&Hv&E)%IH2)%IH1. exists (u ++ u'), v'. rewrite app_assoc. auto with vpa.
  - destruct (run r1 l k) eqn:E1.
    + intros [= <-]. apply IH1 in E1 as (u&v&->&Hu&E). exists u, v. auto with vpa.
    + intros (u&v&->&Hu&E)%IH2. exists u, v. auto with vpa.
  - by apply starLoop_sound.
Qed.

Lemma starLoop_complete r k n u v :
  (∀ u v k, word r u → is_Some (k v) → is_Some (run r (u ++ v) k)) →
  word (Star r) u → (length (u ++ v) ≤ n)%nat → is_Some (k v) → is_Some (starLoop (run r) k n (u ++ v)).
Proof.
  intros Hr Hu. remember (Star r) as r' eqn:Er. revert n v.
  induction Hu as [| | | | |r0|r0 u1 u2 Hne Hu1 _ Hu2 IH]; simplify_eq; intros n v Hn Hk; simpl.
  - destruct n as [|n]; simpl; [done|]. by destruct (run r v _).
  - rewrite length_app in Hn. destruct u1 as [|c u1]; [done|].
    destruct n as [|n]; simpl in Hn; [lia|]. cbn [starLoop].
    destruct (run r _ _) eqn:E; [by eexists|]. exfalso.
    rewrite <- app_assoc in E.
    destruct (Hr (c :: u1) (u2 ++ v)
      (λ l', if (length l' <? length ((c :: u1) ++ u2 ++ v))%nat then starLoop (run r) k n l' else None) Hu1)
      as [x Hx]; [|by rewrite Hx in E].
    rewrite (proj2 (Nat.ltb_lt _ _)) by (simpl; rewrite !length_app; lia).
    apply IH; [done..| |done]. rewrite !length_app in Hn |- *. simpl in Hn. lia.
Qed.

Lemma run_complete r u v k : word r u → is_Some (k v) → is_Some (run r (u ++ v) k).
Proof.
  revert u v k. induction r as [|p|r1 IH1 r2 IH2|r1 IH1 r2 IH2|r IH]; intros u v k Hu Hk.
  - by inversion Hu.
  - inversion Hu as [|? c Hc| | | | |]; subst. simpl. by rewrite Hc.
  - inversion Hu as [| |? ? u1 u2 H1 H2| | | |]; subst. simpl. rewrite <- app_assoc. apply IH1; [done|]. by apply IH2.
  - simpl. inversion Hu as [| | |? ? ? H1|? ? ? H2| |]; subst.
    + destruct (IH1 u v k H1 Hk) as [x ->]. by eexists.
    + destruct (run r1 (u ++ v) k); [by eexists|]. by apply IH2.
  - simpl. by apply starLoop_complete.
Qed.
End Matcher.

(* ------------------------------------------------------------------ *)
(** ** ReplaceAllStringFunc *)

(** What follows the match at the start of the text, if there is one that is
    not empty. *)
Definition restAfter (r : regexp) (l : list ascii) : option (list ascii) :=
  run r l (λ v, if (length v <? length l)%nat then Some v else None).

Fixpoint replaceLoop (r : regexp) (f : list ascii → list ascii) (n : nat) (l : list ascii) : list ascii :=
  match n, l with
  | S n, c :: l' =>
      match restAfter r l with
      | Some v => f (take (length l - length v) l) ++ replaceLoop r f n v
      | None => c :: replaceLoop r f n l'
      end
  | _, _ => l
  end.

(** For expressions without the empty word. *)
Definition replaceAll (r : regexp) (f : list ascii → list ascii) (l : list ascii) : list ascii :=
  replaceLoop r f (length l) l.

(** What it computes: matches are replaced, and a byte is kept only where no
    match starts. *)
Inductive replaced (r : regexp) (f : list ascii → list ascii) : list ascii → list ascii → Prop :=
| r_nil : replaced r f [] []
| r_keep c l o :
    (∀ u v, u ≠ [] → c :: l = u ++ v → ¬ word r u) → replaced r f l o → replaced r f (c :: l) (c :: o)
| r_match u v o : u ≠ [] → word r u → replaced r f v o → replaced r f (u ++ v) (f u ++ o).

Lemma restAfter_Some r l v : restAfter r l = Some v → ∃ u, l = u ++ v ∧ u ≠ [] ∧ word r u.
Proof.
  unfold restAfter. intros (u&v'&->&Hu&E)%run_sound. case_match eqn:Hlen; simplify_eq.
  exists u. split; [done|]. split; [|done]. intros ->. apply Nat.ltb_lt in Hlen. simpl in Hlen. lia.
Qed.

Lemma restAfter_None r l u v : restAfter r l = None → u ≠ [] → l = u ++ v → ¬ word r u.
Proof.
  intros E Hne -> Hu. unfold restAfter in E.
  destruct (run_complete r u v (λ w, if (length w <? length (u ++ v))%nat then Some w else None) Hu) as [x Hx];
    [|by rewrite Hx in E].
  rewrite length_app, (proj2 (Nat.ltb_lt _ _)) by (destruct u; [done|simpl; lia]). by eexists.
Qed.

Lemma replaceLoop_replaced r f n l : (length l ≤ n)%nat → replaced r f l (replaceLoop r f n l).
Proof.
  revert l. induction n as [|n IH]; intros [|c l] Hn; simpl in Hn; try lia; [constructor..|].
  cbn [replaceLoop]. destruct (restAfter r (c :: l)) as [v|] eqn:E.
  - apply restAfter_Some in E as (u&E&Hne&Hu). rewrite E. rewrite length_app, Nat.add_sub, take_app_length.
    constructor; [done..|]. apply IH. apply (f_equal length) in E. rewrite length_app in E.
    destruct u; [done|]. simpl in E. lia.
  - constructor; [|apply IH; lia]. intros u v Hne Eq. by eapply restAfter_None.
Qed.

Lemma replaceAll_replaced r f l : replaced r f l (replaceAll r f l).
Proof. by apply replaceLoop_replaced. Qed.

Lemma replaced_unchanged r f l o :
  replaced r f l o → (∀ a u b, u ≠ [] → l = a ++ u ++ b → ¬ word r u) → o = l.
Proof.
  induction 1 as [|c l o _ _ IH|u v o Hne Hu _ _]; intros Hno; [done| |].
  - f_equal. apply IH. intros a u b Hne ->. by apply (Hno (c :: a) u b).
  - by destruct (Hno [] u v).
Qed.

(* ------------------------------------------------------------------ *)
(** ** Factors of a replaced text *)

Definition factor (u l : list ascii) : Prop := ∃ a b, l = a ++ u ++ b.

Lemma factor_app_l u l l' : factor u l → factor u (l ++ l').
Proof. intros (a&b&->). exists a, (b ++ l'). by rewrite <- !app_assoc. Qed.

Lemma factor_app_r u l l' : factor u l' → factor u (l ++ l').
Proof. intros (a&b&->). exists (l ++ a), b. by rewrite <- !app_assoc. Qed.

Lemma factor_cons u c l : factor u (c :: l) → factor u l ∨ u `prefix_of` c :: l.
Proof.
  intros ([|x a]&b&E); [right; by exists b|]. left. simpl in E. injection E as _ ->. by exists a, b.
Qed.

Section Separators.
Context (sep : ascii → bool).

Definition free (u : list ascii) : Prop := Forall (λ c, sep c = false) u.

(** A piece without separators lies on one side of a separator. *)
Lemma prefix_sep u x c y : free u → sep c = true → u `prefix_of` x ++ c :: y → u `prefix_of` x.
Proof.
  intros Hu Hc [b E]. revert x E. induction Hu as [|d u Hd _ IH]; intros x E; [apply prefix_nil|].
  destruct x as [|e x]; simpl in E; injection E as -> E; [by rewrite Hc in Hd|].
  apply prefix_cons. by apply (IH x).
Qed.

Lemma factor_sep u x c y : free u → sep c = true → factor u (x ++ c :: y) → factor u x ∨ factor u y.
Proof.
  intros Hu Hc. induction x as [|e x IH]; simpl; intros [H|H]%factor_cons; auto.
  - destruct H as [b E]. destruct u as [|d u]; [left; by exists [], []|].
    injection E as -> _. by apply Forall_cons_1 in Hu as [Hd _]; rewrite Hc in Hd.
  - destruct (IH H) as [Hx|Hy]; [|by right]. left. by apply (factor_app_r u [e]).
  - left. change (e :: x ++ c :: y) with ((e :: x) ++ c :: y) in H.
    apply prefix_sep in H as [b ->]; [|done..]. by exists [], b.
Qed.

(** A replacement keeps a prefix of the match up to a separator, and ends
    with a separator; between them nothing marked is put in. *)
Context (mark : ascii → bool).

Definition masks (f : list ascii → list ascii) : Prop :=
  ∀ u, ∃ x c y d, f u = x ++ c :: (y ++ [d]) ∧ (x = [] ∨ x ++ [c] `prefix_of` u) ∧
    sep c = true ∧ sep d = true ∧ Forall (λ e, mark e = false) y.

Lemma masked_app x (c : ascii) y d (o : list ascii) : (x ++ c :: (y ++ [d])) ++ o = x ++ c :: (y ++ d :: o).
Proof. rewrite <- app_assoc. simpl. by rewrite <- app_assoc. Qed.

Lemma kept_prefix (x : list ascii) c u : x = [] ∨ x ++ [c] `prefix_of` u → x `prefix_of` u.
Proof. intros [->|H]; [apply prefix_nil|]. trans (x ++ [c]); [by apply prefix_app_r|done]. Qed.

Lemma unmarked_factor u y :
  Forall (λ e, mark e = false) y → Exists (λ e, mark e = true) u → ¬ factor u y.
Proof.
  intros Hy (e&He&Hm)%Exists_exists (a&b&->). rewrite !Forall_app in Hy. destruct Hy as (_&Hy&_).
  rewrite Forall_forall in Hy. by rewrite (Hy e He) in Hm.
Qed.

Lemma replaced_prefix r f l o u :
  masks f → replaced r f l o → free u → u `prefix_of` o → u `prefix_of` l.
Proof.
  intros Hf Hr. revert u. induction Hr as [|c l o _ _ IH|w v o _ _ _ _]; intros u Hu Hp; [done| |].
  - destruct u as [|d u]; [apply prefix_nil|]. apply Forall_cons_1 in Hu as [Hd Hu].
    pose proof (prefix_cons_inv_1 _ _ _ _ Hp) as ->. apply prefix_cons_inv_2 in Hp.
    apply prefix_cons. by apply IH.
  - destruct (Hf w) as (x&c&y&d&E&Hx%kept_prefix&Hc&_). rewrite E, masked_app in Hp.
    apply prefix_sep in Hp; [|done..]. trans x; [done|]. by apply prefix_app_r.
Qed.

(** So a piece with a mark and without separators was there before. *)
Lemma replaced_factor r f l o u :
  masks f → replaced r f l o → free u → Exists (λ e, mark e = true) u → factor u o → factor u l.
Proof.
  intros Hf Hr Hu Hm. induction Hr as [|c l o Hno Hr IH|w v o Hne Hw Hr IH]; [done| |].
  - intros [H|H]%factor_cons; [by apply (factor_app_r u [c]), IH|].
    apply (replaced_prefix r f (c :: l)) in H as [b ->]; [by exists [], b|done| |done]. by constructor.
  - destruct (Hf w) as (x&c&y&d&E&[b Hx]%kept_prefix&Hc&Hd&Hy). rewrite E, masked_app. intros H.
    apply factor_sep in H as [H|H]; [|apply factor_sep in H as [H|H]|..]; try done.
    + rewrite Hx. by do 2 apply factor_app_l.
    + by apply (unmarked_factor u y) in H.
    + by apply factor_app_r, IH.
Qed.

(** And a word with a mark and without separators is replaced everywhere. *)
Lemma replaced_no_word r f l o :
  masks f → replaced r f l o →
  (∀ u, word r u → free u ∧ Exists (λ e, mark e = true) u) → ∀ u, factor u o → ¬ word r u.
Proof.
  intros Hf Hr Hw. induction Hr as [|c l o Hno Hr IH|w v o Hne Hww Hr IH]; intros u Hfac Hu.
  - destruct Hfac as (a&b&E). destruct (Hw u Hu) as [_ Hm].
    destruct a; [|done]. destruct u; [by inversion Hm|done].
  - destruct (Hw u Hu) as [Hfree Hm]. apply factor_cons in Hfac as [H|H]; [by apply (IH u)|].
    apply (replaced_prefix r f (c :: l)) in H as [b E]; [|done|by constructor|done].
    apply (Hno u b); [|done..]. intros ->. by inversion Hm.
  - destruct (Hw u Hu) as [Hfree Hm]. destruct (Hf w) as (x&c&y&d&E&Hx&Hc&Hd&Hy).
    assert (x = []) as ->.
    { destruct Hx as [Hx|[b Hx]]; [done|]. destruct (Hw w Hww) as [Hfw _]. exfalso.
      unfold free in Hfw. rewrite Hx, !Forall_app in Hfw. destruct Hfw as [[_ H]_].
      apply Forall_cons_1 in H as [H _]. by rewrite Hc in H. }
    rewrite E, masked_app in Hfac. apply factor_sep in Hfac as [H|H]; [| |done..].
    + destruct H as (a&b&H). destruct a; [|done]. destruct u; [by inversion Hm|done].
    + apply factor_sep in H as [H|H]; [|by apply (IH u)|done..]. by apply (unmarked_factor u y) in H.
Qed.
End Separators.
