(* ===== verification/Errors.v ===== *)
(** * Errors: Go error values and the catalogue of internal/domain/errors.go

    A Go [error] is a pointer to an [AppError], an error made by fmt.Errorf
    with the percent-w verb (it keeps its cause), or a plain message
    (errors.New, fmt.Errorf without percent-w, errors of other packages). *)

From S2P Require Import Prelude.

(* ------------------------------------------------------------------ *)
(** ** Error values *)

Inductive goError : Type :=
| EApp (e : AppError)
| EWrap (msg : string) (cause : goError)
| EText (msg : string)
with AppError : Type :=
| mkAppError (code message : string) (httpStatus : Z) (cause : option goError).

Definition Code (e : AppError) : string := let 'mkAppError c _ _ _ := e in c.
Definition Message (e : AppError) : string := let 'mkAppError _ m _ _ := e in m.
Definition HTTPStatus (e : AppError) : Z := let 'mkAppError _ _ s _ := e in s.

Definition Unwrap (e : AppError) : option goError := let 'mkAppError _ _ _ c := e in c.

(** The [Error()] method of every kind of error. *)
Fixpoint Error (e : goError) : string :=
  match e with
  | EApp a => AppError_Error a
  | EWrap msg _ => msg
  | EText msg => msg
  end
with AppError_Error (a : AppError) : string :=
  match a with
  | mkAppError code message _ (Some cause) =>
      code +:+ ": " +:+ message +:+ " (caused by: " +:+ Error cause +:+ ")"
  | mkAppError code message _ None => code +:+ ": " +:+ message
  end.

(** fmt.Errorf("prefix: %w", err) *)
Definition errorf_w (prefix : string) (cause : goError) : goError :=
  EWrap (prefix +:+ ": " +:+ Error cause) cause.

(** errors.As(err, &appErr) with [appErr] of type *AppError: the first
    *AppError of the chain. *)
Fixpoint errors_As (e : goError) : option AppError :=
  match e with
  | EApp a => Some a
  | EWrap _ cause => errors_As cause
  | EText _ => None
  end.

(** Identity of two package-level errors: they are compared by pointer in
    Go, and a sentinel is told apart by its contents. *)
Definition same_sentinel (a b : AppError) : bool :=
  String.eqb (Code a) (Code b) && String.eqb (Message a) (Message b)
  && Z.eqb (HTTPStatus a) (HTTPStatus b)
  && match Unwrap a, Unwrap b with None, None => true | _, _ => false end.

(** errors.Is(err, sentinel): the sentinel occurs in the chain of causes. *)
Fixpoint errors_Is (e : goError) (target : AppError) : bool :=
  match e with
  | EApp a => app_Is a target
  | EWrap _ cause => errors_Is cause target
  | EText _ => false
  end
with app_Is (a : AppError) (target : AppError) : bool :=
  same_sentinel a target ||
  match a with
  | mkAppError _ _ _ (Some cause) => errors_Is cause target
  | mkAppError _ _ _ None => false
  end.

(** A Go pair [(T, error)] whose value is meaningful only without error. *)
Inductive result (A : Type) : Type :=
| Ok (a : A)
| Err (e : goError).
Arguments Ok {A} a.
Arguments Err {A} e.

Definition rbind {A B} (m : result A) (f : A → result B) : result B :=
  match m with Ok a => f a | Err e => Err e end.

Definition is_ok {A} (r : result A) : bool := match r with Ok _ => true | Err _ => false end.

Lemma errors_As_errorf prefix e : errors_As (errorf_w prefix e) = errors_As e.
Proof. done. Qed.

Lemma errors_Is_errorf prefix e t : errors_Is (errorf_w prefix e) t = errors_Is e t.
Proof. done. Qed.

#[export] Hint Rewrite errors_As_errorf errors_Is_errorf : vpa.

(* ------------------------------------------------------------------ *)
(** ** net/http status codes used by the catalogue *)

Definition StatusNoContent : Z := 204.
Definition StatusBadRequest : Z := 400.
Definition StatusUnauthorized : Z := 401.
Definition StatusForbidden : Z := 403.
Definition StatusNotFound : Z := 404.
Definition StatusMethodNotAllowed : Z := 405.
Definition StatusRequestTimeout : Z := 408.
Definition StatusConflict : Z := 409.
Definition StatusTooManyRequests : Z := 429.
Definition StatusInternalServerError : Z := 500.
Definition StatusBadGateway : Z := 502.
Definition StatusServiceUnavailable : Z := 503.

(** ** Error codes *)

Definition ErrCodeUnauthorized : string := "UNAUTHORIZED".
Definition ErrCodeForbidden : string := "FORBIDDEN".
Definition ErrCodeBadRequest : string := "BAD_REQUEST".
Definition ErrCodeNotFound : string := "NOT_FOUND".
Definition ErrCodeMethodNotAllowed : string := "METHOD_NOT_ALLOWED".
Definition ErrCodeUpstreamError : string := "UPSTREAM_ERROR".
Definition ErrCodeInternalError : string := "INTERNAL_ERROR".
Definition ErrCodeRateLimited : string := "RATE_LIMITED".
Definition ErrCodeValidation : string := "VALIDATION_ERROR".
Definition ErrCodeTenantError : string := "TENANT_ERROR".
Definition ErrCodePromQLError : string := "PROMQL_ERROR".
(* ------------------------------------------------------------------ *)
(** ** Constructors *)

Definition NewAppError (code message : string) (httpStatus : Z) (cause : option goError) : AppError :=
  mkAppError code message httpStatus cause.

Definition NewUnauthorizedError (message : string) (cause : option goError) : AppError :=
  NewAppError ErrCodeUnauthorized message StatusUnauthorized cause.

Definition NewForbiddenError (message : string) (cause : option goError) : AppError :=
  NewAppError ErrCodeForbidden message StatusForbidden cause.

Definition NewBadRequestError (message : string) (cause : option goError) : AppError :=
  NewAppError ErrCodeBadRequest message StatusBadRequest cause.

Definition NewUpstreamError (message : string) (cause : option goError) : AppError :=
  NewAppError ErrCodeUpstreamError message StatusBadGateway cause.

Definition NewInternalError (message : string) (cause : option goError) : AppError :=
  NewAppError ErrCodeInternalError message StatusInternalServerError cause.

(* ------------------------------------------------------------------ *)
(** ** The predefined errors *)

Definition ErrUnauthorized : AppError :=
  mkAppError ErrCodeUnauthorized
    "Authentication required" StatusUnauthorized None.
Definition ErrTokenExpired : AppError :=
  mkAppError ErrCodeUnauthorized
    "Token has expired" StatusUnauthorized None.
Definition ErrInvalidToken : AppError :=
  mkAppError ErrCodeUnauthorized
    "Invalid token" StatusUnauthorized None.
Definition ErrForbidden : AppError :=
  mkAppError ErrCodeForbidden
    "Access denied" StatusForbidden None.
Definition ErrReadOnlyAccess : AppError :=
  mkAppError ErrCodeForbidden
    "Read-only user cannot perform write operations" StatusForbidden None.
Definition ErrAdminRequired : AppError :=
  mkAppError ErrCodeForbidden
    "Admin access required" StatusForbidden None.
Definition ErrTenantRequired : AppError :=
  mkAppError ErrCodeBadRequest
    "Target tenant must be specified for write operations" StatusBadRequest None.
Definition ErrMethodNotAllowed : AppError :=
  mkAppError ErrCodeMethodNotAllowed
    "Method not allowed for this endpoint" StatusMethodNotAllowed None.
Definition ErrUpstreamUnavailable : AppError :=
  mkAppError ErrCodeUpstreamError
    "Upstream service unavailable" StatusBadGateway None.
Definition ErrUpstreamURLRequired : AppError :=
  mkAppError ErrCodeUpstreamError
    "upstream.url is required" StatusBadGateway None.
Definition ErrAuthConfigRequired : AppError :=
  mkAppError ErrCodeUpstreamError
    "either auth.jwks_url or auth.jwt_secret must be provided for JWT authentication" StatusBadGateway None.
Definition ErrNoVMTenants : AppError :=
  mkAppError ErrCodeTenantError
    "User has no VM tenants configured" StatusForbidden None.
Definition ErrTenantAccessDenied : AppError :=
  mkAppError ErrCodeForbidden
    "Access to tenant denied" StatusForbidden None.
Definition ErrPromQLParsing : AppError :=
  mkAppError ErrCodePromQLError
    "Failed to parse PromQL query for VM tenant filtering" StatusBadRequest None.
Definition ErrInvalidTokenClaims : AppError :=
  mkAppError ErrCodeUnauthorized
    "Invalid token claims" StatusUnauthorized None.
Definition ErrTokenExpiredClaims : AppError :=
  mkAppError ErrCodeUnauthorized
    "Token has expired" StatusUnauthorized None.
Definition ErrTokenNotValid : AppError :=
  mkAppError ErrCodeUnauthorized
    "Token used before valid" StatusUnauthorized None.
Definition ErrJWKSKeyNotFound : AppError :=
  mkAppError ErrCodeUnauthorized
    "Key not found in JWKS" StatusUnauthorized None.
Definition ErrJWKSEndpointError : AppError :=
  mkAppError ErrCodeInternalError
    "JWKS endpoint error" StatusInternalServerError None.
Definition ErrUnexpectedSigningMethod : AppError :=
  mkAppError ErrCodeUnauthorized
    "Unexpected JWT signing method" StatusUnauthorized None.
Definition ErrNoPublicKeyConfigured : AppError :=
  mkAppError ErrCodeInternalError
    "No public key or JWKS URL configured for RS256" StatusInternalServerError None.
Definition ErrTokenMissingKid : AppError :=
  mkAppError ErrCodeUnauthorized
    "Token header missing kid claim" StatusUnauthorized None.
Definition ErrUnsupportedSigningMethod : AppError :=
  mkAppError ErrCodeUnauthorized
    "Unsupported signing method" StatusUnauthorized None.
Definition ErrNoVMTenantsForFiltering : AppError :=
  mkAppError ErrCodeTenantError
    "No VM tenants available for filtering" StatusBadRequest None.
Definition ErrNoHealthyBackends : AppError :=
  mkAppError ErrCodeUpstreamError
    "No healthy backends available" StatusServiceUnavailable None.
Definition ErrNoAvailableBackends : AppError :=
  mkAppError ErrCodeUpstreamError
    "No backends available (including fallbacks)" StatusServiceUnavailable None.
Definition ErrAllBackendsCircuitOpen : AppError :=
  mkAppError ErrCodeUpstreamError
    "All backend circuits are open" StatusServiceUnavailable None.
Definition ErrBackendNotFound : AppError :=
  mkAppError ErrCodeUpstreamError
    "Backend not found" StatusNotFound None.
Definition ErrKeyNotFound : AppError :=
  mkAppError ErrCodeNotFound
    "Key not found in storage" StatusNotFound None.
Definition ErrStorageUnavailable : AppError :=
  mkAppError ErrCodeInternalError
    "State storage is unavailable" StatusServiceUnavailable None.
Definition ErrStorageTimeout : AppError :=
  mkAppError ErrCodeInternalError
    "State storage operation timeout" StatusRequestTimeout None.
Definition ErrStorageClosed : AppError :=
  mkAppError ErrCodeInternalError
    "State storage is closed" StatusServiceUnavailable None.
Definition ErrNotLeader : AppError :=
  mkAppError ErrCodeInternalError
    "Not the leader node for this operation" StatusServiceUnavailable None.
Definition ErrQueueFull : AppError :=
  mkAppError ErrCodeRateLimited
    "Request queue is full" StatusTooManyRequests None.
Definition ErrQueueEmpty : AppError :=
  mkAppError ErrCodeInternalError
    "Request queue is empty" StatusNoContent None.
Definition ErrQueueTimeout : AppError :=
  mkAppError ErrCodeInternalError
    "Request timeout in queue" StatusRequestTimeout None.
Definition ErrQueueClosed : AppError :=
  mkAppError ErrCodeInternalError
    "Request queue is closed" StatusServiceUnavailable None.
Definition ErrCircuitOpen : AppError :=
  mkAppError ErrCodeUpstreamError
    "Circuit breaker is open" StatusServiceUnavailable None.
Definition ErrLockAlreadyHeld : AppError :=
  mkAppError ErrCodeRateLimited
    "Lock is already held by another node" StatusConflict None.
Definition ErrNotLockOwner : AppError :=
  mkAppError ErrCodeForbidden
    "Not the owner of the lock" StatusForbidden None.

(** Every predefined error, in source order. *)
Definition predefined : list AppError :=
  [ErrUnauthorized; ErrTokenExpired; ErrInvalidToken;
   ErrForbidden; ErrReadOnlyAccess; ErrAdminRequired;
   ErrTenantRequired; ErrMethodNotAllowed; ErrUpstreamUnavailable;
   ErrUpstreamURLRequired; ErrAuthConfigRequired; ErrNoVMTenants;
   ErrTenantAccessDenied; ErrPromQLParsing; ErrInvalidTokenClaims;
   ErrTokenExpiredClaims; ErrTokenNotValid; ErrJWKSKeyNotFound;
   ErrJWKSEndpointError; ErrUnexpectedSigningMethod; ErrNoPublicKeyConfigured;
   ErrTokenMissingKid; ErrUnsupportedSigningMethod; ErrNoVMTenantsForFiltering;
   ErrNoHealthyBackends; ErrNoAvailableBackends; ErrAllBackendsCircuitOpen;
   ErrBackendNotFound; ErrKeyNotFound; ErrStorageUnavailable;
   ErrStorageTimeout; ErrStorageClosed; ErrNotLeader;
   ErrQueueFull; ErrQueueEmpty; ErrQueueTimeout;
   ErrQueueClosed; ErrCircuitOpen; ErrLockAlreadyHeld;
   ErrNotLockOwner].

(** The sentinel tested by the request queue is not confused with any other
    predefined error. *)
Lemma ErrQueueEmpty_unique :
  length (filter (λ e, same_sentinel e ErrQueueEmpty = true) predefined) = 1%nat.
Proof. vm_compute. reflexivity. Qed.

(** Every predefined error carries an HTTP error status, the empty-queue
    signal (204, never sent to a client) excepted. *)
Lemma predefined_status :
  Forall (λ e, (400 ≤ HTTPStatus e < 600)%Z ∨ same_sentinel e ErrQueueEmpty = true) predefined.
Proof. repeat (constructor; [first [left; vm_compute; split; congruence | right; reflexivity]|]). constructor. Qed.
