(* ===== verification/Domain.v ===== *)
(** * Domain: the data types of internal/domain/types.go

    Users, tenants, backends and their states, and the loop over a slice of
    backends that every load balancer and the health checker share. *)

From S2P Require Import Prelude Errors.

(* ------------------------------------------------------------------ *)
(** ** Tenants and users *)

Record VMTenant := mkVMTenant { AccountID : string; ProjectID : string }.

#[export] Instance VMTenant_eq_dec : EqDecision VMTenant.
Proof. solve_decision. Defined.

(** VMTenant.String *)
Definition VMTenant_String (t : VMTenant) : string :=
  if str_nonempty (ProjectID t)
  then AccountID t +:+ ":" +:+ ProjectID t
  else AccountID t.

Record User := mkUser {
  user_ID : string;
  user_Email : string;
  user_Username : string;
  user_Groups : list string;
  user_AllowedTenants : list string;
  user_VMTenants : list VMTenant;
  user_ReadOnly : bool;
  user_ExpiresAt : Z
}.

(* ------------------------------------------------------------------ *)
(** ** Backends *)

(** The source only ever stores the four named constants in a BackendState. *)
Inductive BackendState :=
| BackendHealthy
| BackendUnhealthy
| BackendRateLimited
| BackendMaintenance.

#[export] Instance BackendState_eq_dec : EqDecision BackendState.
Proof. solve_decision. Defined.

Definition BackendState_String (bs : BackendState) : string :=
  match bs with
  | BackendHealthy => "healthy"
  | BackendUnhealthy => "unhealthy"
  | BackendRateLimited => "rate-limited"
  | BackendMaintenance => "maintenance"
  end.

Definition IsAvailable (bs : BackendState) : bool := bool_decide (bs = BackendHealthy).

Definition IsAvailableWithFallback (bs : BackendState) : bool :=
  bool_decide (bs = BackendHealthy) || bool_decide (bs = BackendRateLimited).

Record Backend := mkBackend { URL : string; Weight : Z; State : BackendState }.

#[export] Instance Backend_eq_dec : EqDecision Backend.
Proof. solve_decision. Defined.

Definition Backend_String (b : Backend) : string :=
  "Backend{URL: " +:+ URL b +:+ ", Weight: " +:+ itoa (Weight b)
  +:+ ", State: " +:+ BackendState_String (State b) +:+ "}".

Definition LoadBalancingStrategyRoundRobin : string := "round-robin".
Definition LoadBalancingStrategyWeighted : string := "weighted-round-robin".
Definition LoadBalancingStrategyLeastConnection : string := "least-connections".

Definition LoadBalancingStrategy_IsValid (lbs : string) : bool :=
  String.eqb lbs LoadBalancingStrategyRoundRobin
  || String.eqb lbs LoadBalancingStrategyWeighted
  || String.eqb lbs LoadBalancingStrategyLeastConnection.

Definition TenantFilterStrategyOrConditions : string := "orConditions".
Definition TenantFilterStrategyAndConditions : string := "andConditions".

Definition TenantFilterStrategy_IsValid (s : string) : bool :=
  String.eqb s TenantFilterStrategyOrConditions
  || String.eqb s TenantFilterStrategyAndConditions.

Record BackendStatus := mkBackendStatus {
  bs_Backend : Backend;
  bs_IsHealthy : bool;
  bs_ActiveConns : Z;
  bs_LastCheck : Z;
  bs_ErrorCount : Z
}.

(* ------------------------------------------------------------------ *)
(** ** Candidate backends

    Both loops of every balancer: the healthy backends, or when there is
    none the rate-limited ones. *)

Definition healthy (b : Backend) : bool := IsAvailable (State b).
Definition fallback (b : Backend) : bool :=
  IsAvailableWithFallback (State b) && negb (IsAvailable (State b)).

(** Indices of the backends that satisfy a test, in slice order. *)
Fixpoint indices_from (i : nat) (p : Backend → bool) (bs : list Backend) : list nat :=
  match bs with
  | [] => []
  | b :: bs' => if p b then i :: indices_from (S i) p bs' else indices_from (S i) p bs'
  end.

Lemma elem_of_indices_from p bs i k :
  k ∈ indices_from i p bs ↔ ∃ j b, k = (i + j)%nat ∧ bs !! j = Some b ∧ p b = true.
Proof.
  revert i; induction bs as [|b bs IH]; intros i; simpl.
  { split; [by intros ?%elem_of_nil|by intros (?&?&?&?&?)]. }
  destruct (p b) eqn:Hp; rewrite ?elem_of_cons, IH; split.
  - intros [->|(j&b'&->&?&?)]; [exists 0%nat, b | exists (S j), b']; split_and!; (lia || done).
  - intros ([|j]&b'&->&?&?); simplify_eq/=; [left; lia|].
    right; exists j, b'; split_and!; (lia || done).
  - intros (j&b'&->&?&?); exists (S j), b'; split_and!; (lia || done).
  - intros ([|j]&b'&->&?&?); simplify_eq/=; [congruence|]. exists j, b'; split_and!; (lia || done).
Qed.

Lemma elem_of_indices p bs k :
  k ∈ indices_from 0 p bs ↔ ∃ b, bs !! k = Some b ∧ p b = true.
Proof. rewrite elem_of_indices_from. naive_solver. Qed.

Lemma NoDup_indices_from p bs i : NoDup (indices_from i p bs).
Proof.
  revert i; induction bs as [|b bs IH]; intros i; simpl; [constructor|].
  case_match; [constructor|]; try done.
  rewrite elem_of_indices_from. intros (j&?&?&?); lia.
Qed.

Lemma indices_from_valid p bs i : Forall (λ k, k < i + length bs)%nat (indices_from i p bs).
Proof.
  apply Forall_forall. intros k Hk.
  apply elem_of_indices_from in Hk as (j&b&->&Hj&_). apply lookup_lt_Some in Hj. lia.
Qed.

Lemma indices_nil_iff p bs : indices_from 0 p bs = [] ↔ filter (λ b, p b = true) bs = [].
Proof.
  generalize 0%nat as i. induction bs as [|b bs IH]; intros i; simpl; [done|].
  rewrite filter_cons. destruct (p b); [case_decide; naive_solver|].
  case_decide; [congruence|]. apply IH.
Qed.

#[export] Hint Resolve NoDup_indices_from indices_from_valid : vpa.

(** What a balancer may hand out: a healthy backend, or a rate-limited one
    when no backend is healthy. *)
Definition candidate (bs : list Backend) (b : Backend) : Prop :=
  b ∈ bs ∧
  (healthy b = true ∨
   fallback b = true ∧ Forall (λ b', healthy b' = false) bs).

Definition no_candidate (bs : list Backend) : Prop :=
  Forall (λ b, healthy b = false ∧ fallback b = false) bs.

Lemma candidate_never_down bs b :
  candidate bs b → State b ≠ BackendUnhealthy ∧ State b ≠ BackendMaintenance.
Proof.
  unfold candidate, healthy, fallback, IsAvailable, IsAvailableWithFallback.
  destruct (State b); simpl; naive_solver.
Qed.

(* ------------------------------------------------------------------ *)
(** ** The update loop shared by the balancers and the health checker

    [for i, backend := range bs { if backend.URL == url { bs[i].State = st; return } }]:
    only the first backend with the URL changes. *)

Definition withState (b : Backend) (st : BackendState) : Backend :=
  mkBackend (URL b) (Weight b) st.

Fixpoint setFirstState (url : string) (st : BackendState) (bs : list Backend) : list Backend :=
  match bs with
  | [] => []
  | b :: bs' =>
      if String.eqb (URL b) url then withState b st :: bs' else b :: setFirstState url st bs'
  end.

(** The index of the first backend with the URL. *)
Fixpoint firstIndex (url : string) (bs : list Backend) : option nat :=
  match bs with
  | [] => None
  | b :: bs' => if String.eqb (URL b) url then Some 0%nat else S <$> firstIndex url bs'
  end.

Lemma setFirstState_length url st bs : length (setFirstState url st bs) = length bs.
Proof. induction bs; simpl; [done|]. case_match; simpl; congruence. Qed.

Lemma setFirstState_URLs url st bs : map URL (setFirstState url st bs) = map URL bs.
Proof. induction bs; simpl; [done|]. case_match; simpl; congruence. Qed.

Lemma setFirstState_weights url st bs : map Weight (setFirstState url st bs) = map Weight bs.
Proof. induction bs; simpl; [done|]. case_match; simpl; congruence. Qed.

Lemma setFirstState_unknown url st bs : url ∉ map URL bs → setFirstState url st bs = bs.
Proof.
  induction bs as [|b bs IH]; simpl; [done|]. rewrite not_elem_of_cons. intros [? ?].
  destruct (String.eqb_spec (URL b) url); [congruence|]. by rewrite IH.
Qed.

Lemma firstIndex_Some url bs i :
  firstIndex url bs = Some i ↔
  (∃ b, bs !! i = Some b ∧ URL b = url) ∧ ∀ j b, (j < i)%nat → bs !! j = Some b → URL b ≠ url.
Proof.
  revert i; induction bs as [|b bs IH]; intros i; simpl; [naive_solver|].
  destruct (String.eqb_spec (URL b) url) as [He|He].
  - split.
    + intros [= <-]. split; [by exists b|lia].
    + intros [_ H]. destruct i; [done|]. destruct (H 0%nat b); [lia|done|done].
  - rewrite fmap_Some. split.
    + intros (k&Hk&->). apply IH in Hk as [? Hmin]. split; [done|].
      intros [|j] b' ? Hj; simpl in Hj; simplify_eq; [done|]. eapply Hmin; [|done]. lia.
    + intros [(b'&Hb'&?) Hmin]. destruct i as [|i]; simpl in Hb'; simplify_eq.
      exists i. split; [|done]. apply IH. split; [naive_solver|].
      intros j b'' ??. apply (Hmin (S j)); [lia|done].
Qed.

Lemma firstIndex_None url bs : firstIndex url bs = None ↔ url ∉ map URL bs.
Proof.
  induction bs as [|b bs IH]; simpl; [split; [|done]; by intros _ ?%elem_of_nil|].
  destruct (String.eqb_spec (URL b) url) as [He|He].
  - split; [done|]. intros H; exfalso; apply H. rewrite He; left.
  - rewrite fmap_None, IH, not_elem_of_cons. naive_solver.
Qed.

Lemma setFirstState_lookup url st bs i :
  setFirstState url st bs !! i =
  if decide (firstIndex url bs = Some i) then (λ b, withState b st) <$> bs !! i else bs !! i.
Proof.
  revert i; induction bs as [|b bs IH]; intros i; cbn [setFirstState firstIndex].
  { by destruct (decide _). }
  destruct (String.eqb (URL b) url).
  - destruct i; destruct (decide _); by simplify_eq/=.
  - destruct i as [|i]; cbn [lookup list_lookup].
    + destruct (firstIndex url bs); by destruct (decide _); simplify_eq/=.
    + change (list_lookup i ?l) with (l !! i). rewrite IH.
      destruct (firstIndex url bs); cbn; repeat destruct (decide _); by simplify_eq.
Qed.

(** The first backend with the URL, as the loops with [break] find it. *)
Definition findBackend (url : string) (bs : list Backend) : option Backend :=
  firstIndex url bs ≫= λ i, bs !! i.

Lemma findBackend_cons url b bs :
  findBackend url (b :: bs) = if String.eqb (URL b) url then Some b else findBackend url bs.
Proof.
  unfold findBackend. simpl. destruct (String.eqb (URL b) url); [done|].
  by destruct (firstIndex url bs).
Qed.

Lemma findBackend_URL url bs b : findBackend url bs = Some b → URL b = url.
Proof.
  induction bs as [|b' bs IH]; [done|]. rewrite findBackend_cons.
  destruct (String.eqb_spec (URL b') url); naive_solver.
Qed.

Lemma findBackend_elem url bs b : findBackend url bs = Some b → b ∈ bs.
Proof.
  unfold findBackend. intros (i&_&Hi)%bind_Some. by eapply list_elem_of_lookup_2.
Qed.

Lemma findBackend_None url bs : findBackend url bs = None ↔ url ∉ map URL bs.
Proof.
  induction bs as [|b' bs IH]; [split; [by intros _ ?%elem_of_nil|done]|].
  rewrite findBackend_cons. simpl. rewrite not_elem_of_cons.
  destruct (String.eqb_spec (URL b') url); naive_solver.
Qed.

Lemma findBackend_setFirstState url url' st bs :
  findBackend url (setFirstState url' st bs) =
  if decide (url = url') then (λ b, withState b st) <$> findBackend url bs else findBackend url bs.
Proof.
  induction bs as [|b bs IH]; [by case_decide|]. simpl.
  destruct (String.eqb_spec (URL b) url') as [Hb|Hb]; rewrite !findBackend_cons; simpl;
    destruct (String.eqb_spec (URL b) url) as [Hu|Hu].
  - by rewrite decide_True by congruence.
  - by rewrite decide_False by congruence.
  - by rewrite decide_False by congruence.
  - done.
Qed.

(** Writing the state a backend already has changes nothing. *)
Lemma setFirstState_same url bs b :
  findBackend url bs = Some b → setFirstState url (State b) bs = bs.
Proof.
  induction bs as [|b' bs IH]; [done|]. rewrite findBackend_cons. simpl.
  destruct (String.eqb (URL b') url); [intros [= ->]; by destruct b|]. intros. by rewrite IH.
Qed.

(** Updates of different URLs commute. *)
Lemma setFirstState_comm url1 st1 url2 st2 bs :
  url1 ≠ url2 →
  setFirstState url1 st1 (setFirstState url2 st2 bs) =
  setFirstState url2 st2 (setFirstState url1 st1 bs).
Proof.
  intros Hne. induction bs as [|b bs IH]; [done|]. simpl.
  destruct (String.eqb_spec (URL b) url2) as [H2|H2], (String.eqb_spec (URL b) url1) as [H1|H1]; simpl;
    rewrite ?H1, ?H2, ?String.eqb_refl; try congruence.
  - by rewrite (proj2 (String.eqb_neq _ _)) by congruence.
  - by rewrite (proj2 (String.eqb_neq _ _)) by congruence.
  - rewrite (proj2 (String.eqb_neq _ _) H1), (proj2 (String.eqb_neq _ _) H2). congruence.
Qed.

#[export] Hint Rewrite setFirstState_length setFirstState_URLs setFirstState_weights : vpa.

(* ------------------------------------------------------------------ *)
(** ** Calls of the metrics service

    The handlers report what they do to domain.MetricsService. The calls are
    recorded in order; the durations they carry are not. *)

(** The states of a circuit breaker, of which only the metrics know. *)
Inductive CircuitBreakerState :=
| CircuitClosed
| CircuitOpen
| CircuitHalfOpen.

Definition CircuitBreakerState_String (cbs : CircuitBreakerState) : string :=
  match cbs with
  | CircuitClosed => "closed"
  | CircuitOpen => "open"
  | CircuitHalfOpen => "half-open"
  end.

Inductive metricCall :=
| RecordRequest (method path status : string) (user : option User)
| RecordUpstreamBackend (backendURL method path status : string) (tenants : list string)
| RecordQueryFilter (userID : string) (tenantCount : Z) (filterApplied : bool)
| RecordAuthAttempt (userID status : string)
| RecordTenantAccess (userID tenantID : string) (allowed : bool)
| RecordQueueOperation (operation : string) (queueSize : Z)
| RecordLoadBalancerSelection (strategy backendURL : string)
| RecordBackendStateChange (backendURL : string) (oldState newState : BackendState).
