(* ===== verification/Storage.v ===== *)
(** * Storage: the state storage interface of internal/domain/types.go

    State events; the interface domain.StateStorage as the class
    [StateStorage]; what an implementation promises its clients as the class
    [StateStorageSpec]; and the theorem of the clients, proved against the
    class: the last write of a key decides what is read. LocalStorage,
    RedisStorage and RaftStorage are instances; StorageFactory builds them.
    Times are nanoseconds since the zero time.Time, byte slices immutable
    strings (every implementation copies them). *)

From S2P Require Import Prelude GoStd Errors.
Local Open Scope vpa_scope.

(* ------------------------------------------------------------------ *)
(** ** State events *)

Definition StateEventSet : Z := 0.
Definition StateEventDelete : Z := 1.

Definition StateEventType_String (set : Z) : string :=
  if (set =? StateEventSet)%Z then "SET"
  else if (set =? StateEventDelete)%Z then "DELETE" else "UNKNOWN".

Record StateEvent := mkStateEvent {
  ev_Type : Z; ev_Key : string; ev_Value : string; ev_Timestamp : Z; ev_NodeID : string
}.

#[export] Instance StateEvent_eq_dec : EqDecision StateEvent.
Proof. solve_decision. Defined.

(** time.Time.IsZero *)
Definition IsZero (t : Z) : bool := (t =? 0)%Z.

Definition StateEvent_IsValid (se : StateEvent) : bool :=
  str_nonempty (ev_Key se) && str_nonempty (ev_NodeID se) && negb (IsZero (ev_Timestamp se)).

(* ------------------------------------------------------------------ *)
(** ** Items with an expiry, as local_storage.go and raft_storage.go keep them *)

Record storageItem := mkItem { it_value : string; it_createdAt : Z; it_ttl : Z }.

(** time.Time.Sub, which saturates. *)
Definition timeSub (t u : Z) : Z := Z.max (- max_int64 - 1) (Z.min max_int64 (t - u)).

Definition isExpired (si : storageItem) (now : Z) : bool :=
  if (it_ttl si =? 0)%Z then false else (it_ttl si <? timeSub now (it_createdAt si))%Z.

Notation Items := (gmap string storageItem).

(** What can be read of a key at a time. *)
Definition itemsView (data : Items) (now : Z) (key : string) : option string :=
  match data !! key with
  | Some si => if isExpired si now then None else Some (it_value si)
  | None => None
  end.

Lemma isExpired_mono si t t' : (t ≤ t')%Z → isExpired si t = true → isExpired si t' = true.
Proof.
  unfold isExpired, timeSub. destruct (Z.eqb_spec (it_ttl si) 0); [done|].
  rewrite !Z.ltb_lt. lia.
Qed.

(** Two item maps no reader can tell apart from a time on. *)
Definition same_from (now : Z) (d1 d2 : Items) : Prop :=
  ∀ t key, (now ≤ t)%Z → itemsView d1 t key = itemsView d2 t key.

#[export] Instance same_from_equivalence now : Equivalence (same_from now).
Proof.
  split.
  - by intros d t key.
  - intros d1 d2 H t key Ht. by rewrite H.
  - intros d1 d2 d3 H1 H2 t key Ht. by rewrite H1, H2.
Qed.

#[export] Instance insert_same_from now key si :
  Proper (same_from now ==> same_from now) (insert key si : Items → Items).
Proof.
  intros d1 d2 H t k Ht. unfold itemsView.
  destruct (decide (key = k)) as [->|]; [by rewrite !lookup_insert_eq|].
  rewrite !lookup_insert_ne by done. by apply H.
Qed.

#[export] Instance delete_same_from now key :
  Proper (same_from now ==> same_from now) (delete key : Items → Items).
Proof.
  intros d1 d2 H t k Ht. unfold itemsView.
  destruct (decide (key = k)) as [->|]; [by rewrite !lookup_delete_eq|].
  rewrite !lookup_delete_ne by done. by apply H.
Qed.

Lemma same_from_later now now' d1 d2 : (now ≤ now')%Z → same_from now d1 d2 → same_from now' d1 d2.
Proof. intros Hle H t key Ht. apply H. lia. Qed.

(** Removing an expired item changes nothing. *)
Lemma delete_expired now key (data : Items) si :
  data !! key = Some si → isExpired si now = true → same_from now (delete key data) data.
Proof.
  intros Hk He t k Ht. unfold itemsView. destruct (decide (key = k)) as [->|Hne].
  - rewrite lookup_delete_eq, Hk. by rewrite (isExpired_mono _ _ _ Ht He).
  - by rewrite lookup_delete_ne.
Qed.

(** How a write shows at a later time: what must be read of it, if its
    expiry is not at that very instant. *)
Definition writeShows (value : string) (ttl elapsed : Z) (r : option string) : Prop :=
  (ttl = 0 ∨ elapsed < ttl → r = Some value)%Z ∧ (ttl ≠ 0 ∧ ttl < elapsed → r = None)%Z.

(** The lifetimes the item maps promise to respect; the longest is the one
    time.Since cannot exceed. *)
Definition itemTTL (ttl : Z) : Prop := (0 ≤ ttl < max_int64)%Z.

Lemma itemsView_insert (data : Items) key value ttl now t :
  (now ≤ t)%Z → itemTTL ttl →
  writeShows value ttl (t - now) (itemsView (<[key := mkItem value now ttl]> data) t key).
Proof.
  intros Ht Httl. unfold itemsView, writeShows, isExpired, timeSub, itemTTL, max_int64 in *.
  rewrite lookup_insert_eq. simpl.
  destruct (Z.eqb_spec ttl 0); [split; [done|lia]|].
  case_match eqn:E; [apply Z.ltb_lt in E|apply Z.ltb_ge in E]; split; intros; (done || lia).
Qed.

Lemma itemsView_insert_ne (data : Items) key si t k :
  k ≠ key → itemsView (<[key := si]> data) t k = itemsView data t k.
Proof. intros Hne. unfold itemsView. by rewrite lookup_insert_ne. Qed.

Lemma itemsView_delete (data : Items) key t k :
  itemsView (delete key data) t k = if decide (k = key) then None else itemsView data t k.
Proof.
  unfold itemsView. case_decide; subst; [by rewrite lookup_delete_eq|by rewrite lookup_delete_ne].
Qed.

(* ------------------------------------------------------------------ *)
(** ** The interface *)

(** The methods, with the clock read at the call; a write notifies watchers,
    and a send on a closed channel panics. *)
Class StateStorage (S : Type) := {
  ss_Get : S → Z → string → result string * S;
  ss_Set : S → Z → string → string → Z → outcome (option goError * S);
  ss_Delete : S → Z → string → outcome (option goError * S);
  ss_GetMultiple : S → Z → list string → result (gmap string string) * S;
  ss_SetMultiple : S → Z → gmap string string → Z → outcome (option goError * S);
  ss_Ping : S → Z → option goError
}.

Definition foundOr (r : option string) : result string :=
  match r with Some v => Ok v | None => Err (EApp ErrKeyNotFound) end.

(** The part of a batch of keys that is found. *)
Definition foundOf (view : string → option string) (keys : list string) : gmap string string :=
  foldl (λ m k, match view k with Some v => <[k := v]> m | None => m end) ∅ keys.

Lemma foundOf_lookup view keys k :
  foundOf view keys !! k = if decide (k ∈ keys) then view k else None.
Proof.
  unfold foundOf. induction keys as [|x l IH] using rev_ind; [done|].
  rewrite foldl_app. simpl. destruct (decide (k = x)) as [->|Hne].
  - rewrite decide_True by set_solver. destruct (view x) eqn:E; [by rewrite lookup_insert_eq|].
    rewrite IH. by case_decide.
  - rewrite (decide_ext (k ∈ l ++ [x]) (k ∈ l)) by set_solver.
    destruct (view x); [by rewrite lookup_insert_ne|done].
Qed.

(** What an implementation promises while it is usable, for the keys and
    lifetimes it supports: reads return the view and do not change it, a write
    changes the view of its own keys only. *)
Class StateStorageSpec (S : Type) `{StateStorage S} := {
  ss_ok : S → Prop;
  ss_view : S → Z → string → option string;
  ss_ttl : Z → Prop;
  ss_key : string → Prop;

  ss_Get_spec s now key :
    ss_ok s →
    let '(r, s') := ss_Get s now key in
    r = foundOr (ss_view s now key) ∧ ss_ok s' ∧
    ∀ t k, (now ≤ t)%Z → ss_view s' t k = ss_view s t k;
  ss_GetMultiple_spec s now keys :
    ss_ok s →
    let '(r, s') := ss_GetMultiple s now keys in
    r = Ok (foundOf (ss_view s now) keys) ∧ ss_ok s' ∧
    ∀ t k, (now ≤ t)%Z → ss_view s' t k = ss_view s t k;
  ss_Set_spec s now key value ttl :
    ss_ok s → ss_ttl ttl → ss_key key →
    ∃ s', ss_Set s now key value ttl = Returned (None, s') ∧ ss_ok s' ∧
    ∀ t, (now ≤ t)%Z →
      writeShows value ttl (t - now) (ss_view s' t key) ∧
      ∀ k, k ≠ key → ss_view s' t k = ss_view s t k;
  ss_Delete_spec s now key :
    ss_ok s → ss_key key →
    ∃ s', ss_Delete s now key = Returned (None, s') ∧ ss_ok s' ∧
    ∀ t k, (now ≤ t)%Z → ss_view s' t k = if decide (k = key) then None else ss_view s t k;
  ss_SetMultiple_spec s now items ttl :
    ss_ok s → ss_ttl ttl → (∀ k v, items !! k = Some v → ss_key k) →
    ∃ s', ss_SetMultiple s now items ttl = Returned (None, s') ∧ ss_ok s' ∧
    ∀ t k, (now ≤ t)%Z →
      match items !! k with
      | Some value => writeShows value ttl (t - now) (ss_view s' t k)
      | None => ss_view s' t k = ss_view s t k
      end;
  ss_Ping_spec s now : ss_ok s → ss_Ping s now = None
}.

(* ------------------------------------------------------------------ *)
(** ** Histories of calls *)

Inductive storageOp :=
| OpGet (key : string)
| OpSet (key value : string) (ttl : Z)
| OpDelete (key : string)
| OpGetMultiple (keys : list string)
| OpSetMultiple (items : gmap string string) (ttl : Z)
| OpPing.

(** The latest write of a key: when, and the value with its lifetime, or a
    deletion. *)
Definition writeOf (key : string) (c : Z * storageOp) : option (Z * option (string * Z)) :=
  match c with
  | (t, OpSet k v ttl) => if decide (k = key) then Some (t, Some (v, ttl)) else None
  | (t, OpDelete k) => if decide (k = key) then Some (t, None) else None
  | (t, OpSetMultiple items ttl) => (λ v, (t, Some (v, ttl))) <$> items !! key
  | _ => None
  end.

Definition lastWrite (key : string) (h : list (Z * storageOp)) : option (Z * option (string * Z)) :=
  foldl (λ w c, match writeOf key c with Some w' => Some w' | None => w end) None h.

Lemma lastWrite_snoc key h c :
  lastWrite key (h ++ [c]) = match writeOf key c with Some w => Some w | None => lastWrite key h end.
Proof. unfold lastWrite. by rewrite foldl_app. Qed.

(** What a read at [now] may return after the history. *)
Definition readAfter (key : string) (h : list (Z * storageOp)) (before : option string) (now : Z)
    (r : option string) : Prop :=
  match lastWrite key h with
  | None => r = before
  | Some (_, None) => r = None
  | Some (t, Some (value, ttl)) => writeShows value ttl (now - t) r
  end.

(** Calls at times that do not decrease, up to [now]. *)
Fixpoint ordered (now : Z) (h : list (Z * storageOp)) : Prop :=
  match h with
  | [] => True
  | (t, _) :: h' => (t ≤ now)%Z ∧ Forall (λ c, t ≤ c.1)%Z h' ∧ ordered now h'
  end.

Lemma ordered_snoc now h t o :
  ordered now (h ++ [(t, o)]) → ordered t h ∧ (t ≤ now)%Z.
Proof.
  induction h as [|[u p] h IH]; simpl; [tauto|].
  intros (Hu&Hall&Hrest). apply Forall_app in Hall as [Hall Hlast].
  rewrite Forall_singleton in Hlast. simpl in *. destruct (IH Hrest). by split_and!.
Qed.

Section Client.
Context {S : Type} `{HS : StateStorage S, HSpec : !StateStorageSpec S}.

(** A key that is not found is an answer, not a failure. *)
Definition failure {A} (r : result A) : option goError :=
  match r with Ok _ => None | Err err => if errors_Is err ErrKeyNotFound then None else Some err end.

Definition callStorage (s : S) (c : Z * storageOp) : outcome (option goError * S) :=
  let '(now, o) := c in
  match o with
  | OpGet key => let '(r, s) := ss_Get s now key in Returned (failure r, s)
  | OpSet key value ttl => ss_Set s now key value ttl
  | OpDelete key => ss_Delete s now key
  | OpGetMultiple keys => let '(r, s) := ss_GetMultiple s now keys in Returned (failure r, s)
  | OpSetMultiple items ttl => ss_SetMultiple s now items ttl
  | OpPing => Returned (ss_Ping s now, s)
  end.

(** The failures of the calls, and the storage they leave. *)
Definition callNext (m : outcome (list goError * S)) (c : Z * storageOp) : outcome (list goError * S) :=
  do! es <- m ; do! r <- callStorage es.2 c ; Returned (es.1 ++ option_list r.1, r.2).

Definition callAll (s : S) (h : list (Z * storageOp)) : outcome (list goError * S) :=
  foldl callNext (Returned ([], s)) h.

Definition supported (o : storageOp) : Prop :=
  match o with
  | OpSet key _ ttl => ss_ttl ttl ∧ ss_key key
  | OpDelete key => ss_key key
  | OpSetMultiple items ttl => ss_ttl ttl ∧ ∀ k v, items !! k = Some v → ss_key k
  | _ => True
  end.

(** One call on a usable storage: it does not fail, the storage stays usable, and
    its effect on every view. *)
Lemma callStorage_spec s now o :
  ss_ok s → supported o →
  ∃ s', callStorage s (now, o) = Returned (None, s') ∧ ss_ok s' ∧
  ∀ t key, (now ≤ t)%Z →
    match writeOf key (now, o) with
    | None => ss_view s' t key = ss_view s t key
    | Some (_, None) => ss_view s' t key = None
    | Some (_, Some (value, ttl)) => writeShows value ttl (t - now) (ss_view s' t key)
    end.
Proof.
  intros Hok Hl. destruct o as [k|k v ttl|k|keys|items ttl|]; simpl in *.
  - pose proof (ss_Get_spec s now k Hok) as H. destruct (ss_Get s now k) as [r s'], H as (->&?&?). exists s'.
    split; [|done]. by destruct (ss_view s now k).
  - destruct (ss_Set_spec s now k v ttl Hok (proj1 Hl) (proj2 Hl)) as (s'&->&Hok'&H). exists s'. do 2 (split; [done|]).
    intros t key Ht. destruct (H t Ht) as [H1 H2]. case_decide; subst; [done|by apply H2].
  - destruct (ss_Delete_spec s now k Hok Hl) as (s'&->&Hok'&H). exists s'. do 2 (split; [done|]).
    intros t key Ht. rewrite H by done.
    destruct (decide (k = key)) as [->|]; [by rewrite decide_True|by rewrite decide_False].
  - pose proof (ss_GetMultiple_spec s now keys Hok) as H. destruct (ss_GetMultiple s now keys) as [r s'], H as (->&?&?). by exists s'.
  - destruct (ss_SetMultiple_spec s now items ttl Hok (proj1 Hl) (proj2 Hl)) as (s'&->&Hok'&H). exists s'.
    do 2 (split; [done|]). intros t key Ht. specialize (H t key Ht). simpl. by destruct (items !! key).
  - rewrite ss_Ping_spec by done. eauto.
Qed.

Lemma writeOf_time key u o u' w : writeOf key (u, o) = Some (u', w) → u' = u.
Proof.
  destruct o; simpl; intros E; try done; try case_decide; simplify_eq; try done.
  apply fmap_Some in E as (?&_&?). by simplify_eq.
Qed.

Lemma callAll_view s h now :
  ss_ok s → ordered now h → Forall (λ c, supported c.2) h →
  ∃ s', callAll s h = Returned ([], s') ∧ ss_ok s' ∧
  ∀ t key, (now ≤ t)%Z → readAfter key h (ss_view s t key) t (ss_view s' t key).
Proof.
  intros Hok. revert now. induction h as [|[u o] h IH] using rev_ind; intros now Hord Hl; [by exists s|].
  apply ordered_snoc in Hord as [Hord Hu]. apply Forall_app in Hl as [Hl Hlo].
  rewrite Forall_singleton in Hlo. simpl in Hlo.
  destruct (IH u Hord Hl) as (s1&E1&Hok1&Hview). unfold callAll in *. rewrite foldl_app, E1. simpl.
  destruct (callStorage_spec s1 u o Hok1 Hlo) as (s2&E2&Hok2&Hstep). exists s2.
  simpl in E2. rewrite E2. do 2 (split; [done|]).
  intros t key Ht. unfold readAfter. rewrite lastWrite_snoc.
  opose proof (Hstep t key _) as Hs; [lia|]. destruct (writeOf key (u, o)) as [[u' c]|] eqn:E.
  - apply writeOf_time in E as ->. by destruct c as [[v ttl]|].
  - opose proof (Hview t key _) as Hv; [lia|]. unfold readAfter in Hv. by rewrite Hs.
Qed.

(** A storage that meets the specification refines a map with lifetimes: after
    every history of calls at non-decreasing times none has failed, and a key
    reads as its last write left it. *)
Lemma last_write_wins s h now key :
  ss_ok s → ordered now h → Forall (λ c, supported c.2) h →
  ∃ s' r, callAll s h = Returned ([], s') ∧
    (ss_Get s' now key).1 = foundOr r ∧
    (∀ keys, ∃ m, (ss_GetMultiple s' now keys).1 = Ok m ∧
       m !! key = if decide (key ∈ keys) then r else None) ∧
    readAfter key h (ss_view s now key) now r.
Proof.
  intros Hok Hord Hl. destruct (callAll_view s h now Hok Hord Hl) as (s'&E&Hok'&Hview).
  exists s', (ss_view s' now key). split_and!; [done| | |by apply Hview].
  - pose proof (ss_Get_spec s' now key Hok') as H. by destruct (ss_Get _ _ _), H as [-> _].
  - intros keys. exists (foundOf (ss_view s' now) keys). split; [|apply foundOf_lookup].
    pose proof (ss_GetMultiple_spec s' now keys Hok') as H. by destruct (ss_GetMultiple _ _ _), H as [-> _].
Qed.
End Client.
