(* ===== verification/Watch.v ===== *)
(** * Watch: watchers and their channels in internal/services/statestorage/

    Every storage keeps a map from key prefixes to the channels of its
    watchers, and notifies them the same way. A channel is an index into the
    channels made so far; sends and closes are Go's, panics included. *)

From S2P Require Import Prelude GoStd Storage.

Local Open Scope vpa_scope.

(* ------------------------------------------------------------------ *)
(** ** Channels of events *)

Record Chan := mkChan { buf : list StateEvent; chClosed : bool }.

Definition DefaultWatchChannelBufferSize : nat := 100.

(** select { case ch <- event: default: }; a nil channel is never ready. *)
Definition sendOrSkip (event : StateEvent) (ch : nat) (chans : list Chan) : outcome (list Chan) :=
  match chans !! ch with
  | None => Returned chans
  | Some c =>
      if chClosed c then Panicked "send on closed channel"
      else if (length (buf c) <? DefaultWatchChannelBufferSize)%nat
      then Returned (<[ch := mkChan (buf c ++ [event]) false]> chans)
      else Returned chans
  end.

Definition closeChan (ch : nat) (chans : list Chan) : outcome (list Chan) :=
  match chans !! ch with
  | None => Panicked "close of nil channel"
  | Some c => if chClosed c then Panicked "close of closed channel"
              else Returned (<[ch := mkChan (buf c) true]> chans)
  end.

(** select { case <-ch: default: close(ch) } *)
Definition drainOrClose (ch : nat) (chans : list Chan) : outcome (list Chan) :=
  match chans !! ch with
  | Some (mkChan (_ :: rest) b) => Returned (<[ch := mkChan rest b]> chans)
  | Some (mkChan [] true) => Returned chans
  | _ => closeChan ch chans
  end.

Definition drainAll (l : list nat) (cs : list Chan) : outcome (list Chan) :=
  foldl (λ m ch, do! cs <- m ; drainOrClose ch cs) (Returned cs) l.

(** A watcher's receive: an event, or nothing yet. *)
Definition receive (ch : nat) (chans : list Chan) : option StateEvent * list Chan :=
  match chans !! ch with
  | Some (mkChan (e :: rest) b) => (Some e, <[ch := mkChan rest b]> chans)
  | _ => (None, chans)
  end.

(* ------------------------------------------------------------------ *)
(** ** The map of watchers *)

Record Watchers := mkWatchers { chans : list Chan; watches : gmap string (list nat) }.

Definition noWatchers : Watchers := mkWatchers [] ∅.

Definition channelsOf (w : Watchers) (prefix : string) : list nat := default [] (watches w !! prefix).

Definition addTo (m : gmap string (list nat)) (keyPrefix : string) (ch : nat) : gmap string (list nat) :=
  <[keyPrefix := default [] (m !! keyPrefix) ++ [ch]]> m.

Definition addWatcher (w : Watchers) (keyPrefix : string) : nat * Watchers :=
  let ch := length (chans w) in
  (ch, mkWatchers (chans w ++ [mkChan [] false]) (addTo (watches w) keyPrefix ch)).

(** The channels notified of a change of [key], in the order of the map. *)
Definition targets (w : Watchers) (key : string) : list nat :=
  filter (λ p : string * list nat, hasPrefix key p.1 = true) (map_to_list (watches w)) ≫= snd.

(** Every registered channel, in the order of the map. *)
Definition allChannels (w : Watchers) : list nat := map_to_list (watches w) ≫= snd.

Definition sendAll (event : StateEvent) (todo : list nat) (cs : list Chan) : outcome (list Chan) :=
  foldl (λ m ch, do! cs <- m ; sendOrSkip event ch cs) (Returned cs) todo.

Definition notify (w : Watchers) (key : string) (event : StateEvent) : outcome Watchers :=
  do! cs <- sendAll event (targets w key) (chans w) ; Returned (mkWatchers cs (watches w)).

(** Removes the first occurrence. *)
Fixpoint removeFirst (ch : nat) (l : list nat) : list nat :=
  match l with
  | [] => []
  | c :: l' => if (c =? ch)%nat then l' else c :: removeFirst ch l'
  end.

Definition removeFrom (m : gmap string (list nat)) (keyPrefix : string) (ch : nat)
  : gmap string (list nat) :=
  match removeFirst ch (default [] (m !! keyPrefix)) with
  | [] => delete keyPrefix m
  | rest => <[keyPrefix := rest]> m
  end.

Definition removeChannel (w : Watchers) (keyPrefix : string) (ch : nat) : Watchers :=
  mkWatchers (chans w) (removeFrom (watches w) keyPrefix ch).

(* ------------------------------------------------------------------ *)
(** ** Well-formed watchers

    A registered channel is open and registered once. *)
Definition registered (w : Watchers) (prefix : string) (ch : nat) : Prop := ch ∈ channelsOf w prefix.

#[export] Instance registered_dec w prefix ch : Decision (registered w prefix ch).
Proof. unfold registered. apply _. Defined.

Definition isOpen (cs : list Chan) (ch : nat) : Prop := ∃ c, cs !! ch = Some c ∧ chClosed c = false.

Record watch_wf (w : Watchers) : Prop := {
  wf_open p ch : registered w p ch → isOpen (chans w) ch;
  wf_once p : NoDup (channelsOf w p);
  wf_one p q ch : registered w p ch → registered w q ch → p = q
}.

Lemma noWatchers_wf : watch_wf noWatchers.
Proof.
  unfold noWatchers. split; unfold registered, channelsOf; simpl; intros *; rewrite lookup_empty; simpl.
  - by intros ?%elem_of_nil.
  - constructor.
  - by intros ?%elem_of_nil.
Qed.

(** The channels below some of the prefixes. *)
Lemma elem_of_channels w (P : string * list nat → Prop) `{∀ x, Decision (P x)} ch :
  ch ∈ filter P (map_to_list (watches w)) ≫= snd ↔ ∃ p, P (p, channelsOf w p) ∧ registered w p ch.
Proof.
  unfold registered, channelsOf. rewrite list_elem_of_bind. split.
  - intros ([p l]&Hl&Hp). apply list_elem_of_filter in Hp as [Hp Hin].
    apply elem_of_map_to_list in Hin. exists p. by rewrite Hin.
  - intros (p&Hp&Hch). destruct (watches w !! p) as [l|] eqn:E; [|by apply elem_of_nil in Hch].
    exists (p, l). split; [done|]. apply list_elem_of_filter. split; [done|].
    by apply elem_of_map_to_list.
Qed.

Lemma channels_NoDup w (P : string * list nat → Prop) `{∀ x, Decision (P x)} :
  watch_wf w → NoDup (filter P (map_to_list (watches w)) ≫= snd).
Proof.
  intros Hw. apply NoDup_bind.
  - intros [p l] [q m] ch Hp Hq Hl Hm. simpl in *.
    apply list_elem_of_filter in Hp as [_ Hp%elem_of_map_to_list].
    apply list_elem_of_filter in Hq as [_ Hq%elem_of_map_to_list].
    assert (p = q) as <-.
    { apply (wf_one w Hw p q ch); unfold registered, channelsOf; by rewrite ?Hp, ?Hq. }
    congruence.
  - intros [p l] Hp. apply list_elem_of_filter in Hp as [_ Hp%elem_of_map_to_list].
    pose proof (wf_once w Hw p) as Hn. unfold channelsOf in Hn. by rewrite Hp in Hn.
  - apply NoDup_filter, NoDup_map_to_list.
Qed.

Lemma elem_of_targets w key ch :
  ch ∈ targets w key ↔ ∃ p, hasPrefix key p = true ∧ registered w p ch.
Proof. unfold targets. by rewrite elem_of_channels. Qed.

Lemma targets_NoDup w key : watch_wf w → NoDup (targets w key).
Proof. intros Hw. by apply channels_NoDup. Qed.

Lemma filter_all {A} (l : list A) : filter (λ _, True) l = l.
Proof. induction l as [|x l IH]; [done|]. rewrite filter_cons, decide_True by done. by rewrite IH. Qed.

Lemma elem_of_allChannels w ch : ch ∈ allChannels w ↔ ∃ p, registered w p ch.
Proof.
  unfold allChannels. rewrite <- (filter_all (map_to_list _)), elem_of_channels. naive_solver.
Qed.

Lemma allChannels_NoDup w : watch_wf w → NoDup (allChannels w).
Proof.
  intros Hw. unfold allChannels. rewrite <- (filter_all (map_to_list _)). by apply channels_NoDup.
Qed.

(* ------------------------------------------------------------------ *)
(** ** Sends *)

(** What a send leaves of an open channel. *)
Definition push (event : StateEvent) (c : Chan) : Chan :=
  if (length (buf c) <? DefaultWatchChannelBufferSize)%nat
  then mkChan (buf c ++ [event]) (chClosed c) else c.

Lemma push_open event c : chClosed (push event c) = chClosed c.
Proof. unfold push. by case_match. Qed.

Lemma sendOrSkip_open event ch cs :
  isOpen cs ch → sendOrSkip event ch cs = Returned (alter (push event) ch cs).
Proof.
  intros (c&Hc&Ho). unfold sendOrSkip. rewrite Hc, Ho.
  assert (alter (push event) ch cs = <[ch := push event c]> cs) as ->.
  { apply list_eq. intros i. destruct (decide (i = ch)) as [->|].
    - rewrite list_lookup_alter_eq, Hc, list_lookup_insert_eq; [done|]. by apply lookup_lt_Some in Hc.
    - by rewrite list_lookup_alter_ne, list_lookup_insert_ne. }
  unfold push. case_match; [by rewrite Ho|]. by rewrite list_insert_id.
Qed.

Lemma isOpen_alter event i ch cs : isOpen cs ch → isOpen (alter (push event) i cs) ch.
Proof.
  intros (c&Hc&Ho). destruct (decide (i = ch)) as [->|].
  - exists (push event c). by rewrite list_lookup_alter_eq, Hc, push_open.
  - exists c. by rewrite list_lookup_alter_ne.
Qed.

(** Sends to distinct open channels: no panic, each gets the event once, in
    whichever order. *)
Lemma sendAll_open event todo cs :
  NoDup todo → (∀ ch, ch ∈ todo → isOpen cs ch) →
  ∃ cs', sendAll event todo cs = Returned cs' ∧
    ∀ i, cs' !! i = (if decide (i ∈ todo) then push event <$> cs !! i else cs !! i).
Proof.
  unfold sendAll. revert cs. induction todo as [|ch todo IH]; intros cs Hnd Ho; simpl.
  { by exists cs. }
  apply NoDup_cons in Hnd as [Hch Hnd]. rewrite sendOrSkip_open by (apply Ho; left).
  destruct (IH (alter (push event) ch cs) Hnd) as (cs'&->&Hcs').
  { intros c Hc. apply isOpen_alter, Ho. by right. }
  exists cs'. split; [done|]. intros i. rewrite Hcs'.
  destruct (decide (i = ch)) as [->|].
  - rewrite decide_False, decide_True by (done || left). by rewrite list_lookup_alter_eq.
  - rewrite (decide_ext (i ∈ ch :: todo) (i ∈ todo)) by set_solver.
    by rewrite list_lookup_alter_ne.
Qed.

Lemma sendAll_perm event todo todo' cs :
  NoDup todo → (∀ ch, ch ∈ todo → isOpen cs ch) → todo ≡ₚ todo' →
  sendAll event todo cs = sendAll event todo' cs.
Proof.
  intros Hnd Ho Hp. destruct (sendAll_open event todo cs Hnd Ho) as (c1&->&H1).
  destruct (sendAll_open event todo' cs) as (c2&->&H2).
  { by rewrite <- Hp. } { intros ch. rewrite <- Hp. apply Ho. }
  f_equal. apply list_eq. intros i. rewrite H1, H2.
  by rewrite (decide_ext (i ∈ todo) (i ∈ todo')) by by rewrite Hp.
Qed.

(* ------------------------------------------------------------------ *)
(** ** The operations keep the watchers well formed *)

Lemma notify_wf w key event :
  watch_wf w →
  ∃ cs, notify w key event = Returned (mkWatchers cs (watches w)) ∧
    watch_wf (mkWatchers cs (watches w)) ∧
    ∀ ch, cs !! ch = if decide (ch ∈ targets w key) then push event <$> chans w !! ch else chans w !! ch.
Proof.
  intros Hw. destruct (sendAll_open event (targets w key) (chans w)) as (cs&E&Hcs).
  { by apply targets_NoDup. }
  { intros ch (p&_&Hp)%elem_of_targets. by eapply wf_open. }
  exists cs. unfold notify. rewrite E. split; [done|]. split; [|done].
  split; [|apply (wf_once w Hw)|apply (wf_one w Hw)].
  intros p ch Hp. destruct (wf_open w Hw p ch Hp) as (c&Hc&Ho). simpl.
  unfold isOpen. rewrite Hcs, Hc. case_decide; [|by exists c].
  exists (push event c). by rewrite push_open.
Qed.

Lemma registered_lt w p ch : watch_wf w → registered w p ch → (ch < length (chans w))%nat.
Proof. intros Hw Hp. destruct (wf_open w Hw p ch Hp) as (c&Hc&_). by apply lookup_lt_Some in Hc. Qed.

Lemma registered_addWatcher w p q ch :
  registered (addWatcher w p).2 q ch ↔ registered w q ch ∨ (q = p ∧ ch = length (chans w)).
Proof.
  unfold registered, addWatcher, addTo, channelsOf. simpl. destruct (decide (q = p)) as [->|Hne].
  - rewrite lookup_insert_eq. simpl. rewrite elem_of_app, list_elem_of_singleton. naive_solver.
  - rewrite lookup_insert_ne by done. naive_solver.
Qed.

Lemma addWatcher_wf w p : watch_wf w → watch_wf (addWatcher w p).2.
Proof.
  intros Hw. pose proof (registered_lt w) as Hlt. split.
  - intros q ch [Hq|[-> ->]]%registered_addWatcher; unfold isOpen; simpl.
    + destruct (wf_open w Hw q ch Hq) as (c&Hc&Ho). exists c.
      split; [|done]. by apply lookup_app_l_Some.
    + exists (mkChan [] false). by rewrite list_lookup_middle.
  - intros q. unfold channelsOf. simpl. unfold addTo. destruct (decide (q = p)) as [->|Hne].
    + rewrite lookup_insert_eq. change (NoDup (channelsOf w p ++ [length (chans w)])). apply NoDup_app. split_and!.
      * apply (wf_once w Hw).
      * intros ch Hch ->%list_elem_of_singleton. specialize (Hlt p _ Hw Hch). lia.
      * apply NoDup_singleton.
    + rewrite lookup_insert_ne by done. apply (wf_once w Hw).
  - intros q r ch. rewrite !registered_addWatcher.
    intros [Hq|[-> ->]] [Hr|[-> E]]; try done; [by apply (wf_one w Hw q r ch)|..].
    + subst. specialize (Hlt q _ Hw Hq). lia.
    + specialize (Hlt r _ Hw Hr). lia.
Qed.

Lemma elem_of_removeFirst ch c l : NoDup l → c ∈ removeFirst ch l ↔ c ∈ l ∧ c ≠ ch.
Proof.
  induction 1 as [|x l Hx Hnd IH]; simpl; [set_solver|].
  destruct (Nat.eqb_spec x ch) as [->|Hne]; [|rewrite elem_of_cons, IH]; set_solver.
Qed.

Lemma removeFirst_NoDup ch l : NoDup l → NoDup (removeFirst ch l).
Proof.
  induction 1 as [|x l Hx Hnd IH]; simpl; [constructor|].
  case_match; [done|]. constructor; [|done]. rewrite elem_of_removeFirst by done. tauto.
Qed.

Lemma channelsOf_removeChannel w p ch q :
  channelsOf (removeChannel w p ch) q =
    if decide (q = p) then removeFirst ch (channelsOf w p) else channelsOf w q.
Proof.
  unfold removeChannel, removeFrom, channelsOf. simpl. destruct (decide (q = p)) as [->|Hne].
  - destruct (removeFirst ch (default [] (watches w !! p))); [by rewrite lookup_delete_eq|].
    by rewrite lookup_insert_eq.
  - by case_match; rewrite ?lookup_delete_ne, ?lookup_insert_ne.
Qed.

Lemma registered_removeChannel w p ch q c :
  watch_wf w → registered (removeChannel w p ch) q c ↔ registered w q c ∧ ¬ (q = p ∧ c = ch).
Proof.
  intros Hw. unfold registered. rewrite channelsOf_removeChannel.
  case_decide; [subst; rewrite elem_of_removeFirst by apply (wf_once w Hw)|]; naive_solver.
Qed.

Lemma removeChannel_wf w p ch : watch_wf w → watch_wf (removeChannel w p ch).
Proof.
  intros Hw. split.
  - intros q c [Hq _]%registered_removeChannel; [|done]. by apply (wf_open w Hw q c).
  - intros q. rewrite channelsOf_removeChannel.
    case_decide; [apply removeFirst_NoDup|]; apply (wf_once w Hw).
  - intros q r c [Hq _]%registered_removeChannel [Hr _]%registered_removeChannel; try done.
    by apply (wf_one w Hw q r c).
Qed.

(** Closing a channel that is no longer registered. *)
Lemma close_unregistered w cs' ch :
  watch_wf w → (∀ p, ¬ registered w p ch) → (∀ i, i ≠ ch → cs' !! i = chans w !! i) →
  watch_wf (mkWatchers cs' (watches w)).
Proof.
  intros Hw Hun Hcs. split; [|apply (wf_once w Hw)|apply (wf_one w Hw)].
  intros p c Hp. destruct (wf_open w Hw p c Hp) as (b&Hb&Ho). exists b. simpl.
  rewrite Hcs; [done|]. intros ->. by apply (Hun p).
Qed.

(* ------------------------------------------------------------------ *)
(** ** What a watcher gets *)

Inductive watchOp := Changed (key : string) (event : StateEvent) | Reads (ch : nat).

(** Notifications and receives one after the other; the events received, with
    their channels. *)
Definition watchStep (m : outcome (list (nat * StateEvent) * Watchers)) (o : watchOp)
  : outcome (list (nat * StateEvent) * Watchers) :=
  do! r <- m ;
  let '(got, w) := r in
  match o with
  | Changed key event => do! w' <- notify w key event ; Returned (got, w')
  | Reads ch =>
      let '(e, cs) := receive ch (chans w) in
      Returned (match e with Some e => got ++ [(ch, e)] | None => got end, mkWatchers cs (watches w))
  end.

Definition runWatch (w : Watchers) (ops : list watchOp) : outcome (list (nat * StateEvent) * Watchers) :=
  foldl watchStep (Returned ([], w)) ops.

Definition from (ch : nat) (got : list (nat * StateEvent)) : list StateEvent :=
  map snd (filter (λ p, p.1 = ch) got).

(** The events of the changes below a prefix. *)
Definition matching (prefix : string) (ops : list watchOp) : list StateEvent :=
  ops ≫= λ o, match o with
              | Changed key event => if hasPrefix key prefix then [event] else []
              | Reads _ => []
              end.

Lemma matching_snoc p ops o : matching p (ops ++ [o]) = matching p ops ++ matching p [o].
Proof. unfold matching. by rewrite bind_app. Qed.

Lemma from_snoc ch got c e : from ch (got ++ [(c, e)]) = from ch got ++ if decide (c = ch) then [e] else [].
Proof.
  unfold from. rewrite filter_app, filter_cons, filter_nil, map_app.
  destruct (decide (c = ch)); [rewrite decide_True by done|rewrite decide_False by done]; simpl; done.
Qed.

(** A receive changes one channel, and gives its oldest event. *)
Lemma receive_spec ch cs :
  let '(e, cs') := receive ch cs in
  (∀ i, i ≠ ch → cs' !! i = cs !! i) ∧
  ∀ c, cs !! ch = Some c →
    ∃ rest, cs' !! ch = Some (mkChan rest (chClosed c)) ∧
      buf c = match e with Some e => e :: rest | None => rest end.
Proof.
  unfold receive. destruct (cs !! ch) as [[[|e rest] b]|] eqn:E.
  - split; [done|]. intros c ?. rewrite E. simplify_eq. by exists [].
  - split; [intros; by rewrite list_lookup_insert_ne|]. intros c ?. simplify_eq.
    exists rest. rewrite list_lookup_insert_eq; [done|]. by apply lookup_lt_Some in E.
  - split; [done|]. naive_solver.
Qed.

Lemma receive_wf w ch : watch_wf w → watch_wf (mkWatchers (receive ch (chans w)).2 (watches w)).
Proof.
  intros Hw. pose proof (receive_spec ch (chans w)) as H. destruct (receive _ _) as [e cs].
  destruct H as [Hne Heq]. split; [|apply (wf_once w Hw)|apply (wf_one w Hw)].
  intros p c Hp. destruct (wf_open w Hw p c Hp) as (b&Hb&Ho). unfold isOpen. simpl.
  destruct (decide (c = ch)) as [->|]; [|rewrite Hne by done; by exists b].
  destruct (Heq b Hb) as (rest&->&_). by eexists.
Qed.

(** A watcher receives the changes below its prefix in their order; none is
    lost as long as no more than its buffer holds were made. *)
Lemma watcher_gets w p ch ops :
  watch_wf w → registered w p ch → chans w !! ch = Some (mkChan [] false) →
  ∃ got w' pending, runWatch w ops = Returned (got, w') ∧
    chans w' !! ch = Some (mkChan pending false) ∧
    from ch got ++ pending `sublist_of` matching p ops ∧
    (length (matching p ops) ≤ DefaultWatchChannelBufferSize →
     from ch got ++ pending = matching p ops)%nat.
Proof.
  intros Hw Hp Hch.
  cut (∃ got w' pending, runWatch w ops = Returned (got, w') ∧ watch_wf w' ∧ watches w' = watches w ∧
    chans w' !! ch = Some (mkChan pending false) ∧
    from ch got ++ pending `sublist_of` matching p ops ∧
    (length (matching p ops) ≤ DefaultWatchChannelBufferSize →
     from ch got ++ pending = matching p ops)%nat); [naive_solver|].
  induction ops as [|o ops IH] using rev_ind.
  { exists [], w, []. split_and!; try done. }
  destruct IH as (got&w1&pending&E&Hw1&Hreg&Hpend&Hsub&Hall).
  unfold runWatch in *. rewrite foldl_app, E, matching_snoc, length_app.
  assert (registered w1 p ch) as Hp1 by (unfold registered, channelsOf in *; by rewrite Hreg).
  destruct o as [key event|ch']; simpl.
  - destruct (notify_wf w1 key event Hw1) as (cs&->&Hwf&Hcs). simpl.
    exists got, (mkWatchers cs (watches w1)). specialize (Hcs ch). rewrite Hpend in Hcs. rewrite app_nil_r.
    destruct (hasPrefix key p) eqn:Hk.
    + rewrite decide_True in Hcs by (apply elem_of_targets; eauto). simpl in Hcs. unfold push in Hcs. simpl in Hcs.
      destruct (Nat.ltb_spec (length pending) DefaultWatchChannelBufferSize) as [Hlt|Hge].
      * exists (pending ++ [event]). split_and!; try done; rewrite app_assoc.
        { by apply sublist_app. } intros ?. rewrite Hall; [done|simpl in *; lia].
      * exists pending. split_and!; try done; [by apply sublist_inserts_r|].
        intros Hle. simpl in Hle. apply sublist_length in Hsub. rewrite length_app in Hsub. lia.
    + rewrite decide_False in Hcs.
      2:{ intros (q&Hq&Hreg')%elem_of_targets. by rewrite (wf_one w1 Hw1 q p ch Hreg' Hp1), Hk in Hq. }
      exists pending. rewrite app_nil_r. split_and!; try done. simpl. rewrite Nat.add_0_r. done.
  - pose proof (receive_spec ch' (chans w1)) as Hr. pose proof (receive_wf w1 ch' Hw1) as Hwf.
    destruct (receive ch' (chans w1)) as [e cs]. destruct Hr as [Hne Heq]. simpl in *.
    rewrite !app_nil_r, Nat.add_0_r.
    destruct (decide (ch' = ch)) as [->|Hneq].
    + destruct (Heq _ Hpend) as (rest&Hrest&Hbuf). simpl in *.
      eexists _, _, rest. split_and!; try done; destruct e as [e|]; simplify_eq/=; try done;
        rewrite from_snoc, decide_True, <- app_assoc by done; done.
    + eexists _, _, pending. split_and!; try done; [by rewrite Hne|..]; destruct e; try done;
        by rewrite from_snoc, decide_False, app_nil_r.
Qed.

(* ------------------------------------------------------------------ *)
(** ** Draining *)

(** Draining or closing an existing channel never panics; a pending event is
    taken out and the channel left as it is. *)
Lemma drainOrClose_spec ch cs c :
  cs !! ch = Some c →
  drainOrClose ch cs = Returned (<[ch := match buf c with
                                         | [] => mkChan [] true
                                         | _ :: rest => mkChan rest (chClosed c)
                                         end]> cs).
Proof.
  intros Hc. unfold drainOrClose. rewrite Hc. destruct c as [[|e rest] b]; simpl; [|done].
  destruct b; [by rewrite list_insert_id|]. unfold closeChan. by rewrite Hc.
Qed.

Lemma drainAll_ok l cs :
  (∀ ch, ch ∈ l → (ch < length cs)%nat) →
  ∃ cs', drainAll l cs = Returned cs' ∧ length cs' = length cs.
Proof.
  revert cs. induction l as [|ch l IH]; intros cs Hl; [by exists cs|]. unfold drainAll. simpl.
  destruct (lookup_lt_is_Some_2 cs ch) as [c Hc]; [apply Hl; left|]. rewrite (drainOrClose_spec ch cs c Hc).
  destruct (IH (<[ch:=match buf c with [] => mkChan [] true | _ :: rest => mkChan rest (chClosed c) end]> cs))
    as (cs'&E&Hlen).
  { intros i Hi. rewrite length_insert. apply Hl. by right. }
  exists cs'. unfold drainAll in E. rewrite E. split; [done|]. by rewrite Hlen, length_insert.
Qed.
