(* ===== verification/LocalStorage.v ===== *)
(** * LocalStorage: internal/services/statestorage/local_storage.go

    The methods as functions, and the instance of [StateStorage] that meets
    its specification. A method reads the clock once here. Concurrent calls
    are in LocalSteps. *)

From S2P Require Import Prelude GoStd Errors Storage Watch.

Local Open Scope vpa_scope.

Record LocalStorage := mkLocal {
  data : Items; reg : Watchers; nodeID : string; closed : bool; closedChans : gset nat
}.

Definition NewLocalStorage (nodeID : string) : LocalStorage := mkLocal ∅ noWatchers nodeID false ∅.

Definition withData (ls : LocalStorage) (d : Items) : LocalStorage :=
  mkLocal d (reg ls) (nodeID ls) (closed ls) (closedChans ls).
Definition withReg (ls : LocalStorage) (r : Watchers) : LocalStorage :=
  mkLocal (data ls) r (nodeID ls) (closed ls) (closedChans ls).

(* ------------------------------------------------------------------ *)
(** ** Reads and writes *)

Definition Get (ls : LocalStorage) (now : Z) (key : string) : result string * LocalStorage :=
  match data ls !! key with
  | Some item =>
      if negb (isExpired item now) then (Ok (it_value item), ls)
      else (Err (EApp ErrKeyNotFound), withData ls (delete key (data ls)))
  | None => (Err (EApp ErrKeyNotFound), ls)
  end.

Definition notifyWatchers (ls : LocalStorage) (key : string) (event : StateEvent)
  : outcome LocalStorage :=
  if closed ls then Returned ls
  else do! r <- notify (reg ls) key event ; Returned (withReg ls r).

Definition setEvent (ls : LocalStorage) (now : Z) (key value : string) : StateEvent :=
  mkStateEvent StateEventSet key value now (nodeID ls).
Definition deleteEvent (ls : LocalStorage) (now : Z) (key : string) : StateEvent :=
  mkStateEvent StateEventDelete key "" now (nodeID ls).

Definition Set_ (ls : LocalStorage) (now : Z) (key value : string) (ttl : Z)
  : outcome (option goError * LocalStorage) :=
  let ls := withData ls (<[key := mkItem value now ttl]> (data ls)) in
  do! ls <- notifyWatchers ls key (setEvent ls now key value) ;
  Returned (None, ls).

Definition Delete (ls : LocalStorage) (now : Z) (key : string)
  : outcome (option goError * LocalStorage) :=
  let ls := withData ls (delete key (data ls)) in
  do! ls <- notifyWatchers ls key (deleteEvent ls now key) ;
  Returned (None, ls).

(** The loop over the keys. *)
Definition getLoop (now : Z) (acc : gmap string string * LocalStorage) (key : string)
  : gmap string string * LocalStorage :=
  match Get acc.2 now key with
  | (Ok value, ls) => (<[key := value]> acc.1, ls)
  | (Err _, ls) => (acc.1, ls)
  end.

Definition GetMultiple (ls : LocalStorage) (now : Z) (keys : list string)
  : result (gmap string string) * LocalStorage :=
  let '(m, ls) := foldl (getLoop now) (∅, ls) keys in (Ok m, ls).

(** The loop over the items, in the order the map is iterated. *)
Fixpoint setAll (ls : LocalStorage) (now : Z) (items : list (string * string)) (ttl : Z)
  : outcome (option goError * LocalStorage) :=
  match items with
  | [] => Returned (None, ls)
  | (key, value) :: items' =>
      do! r <- Set_ ls now key value ttl ;
      match r with
      | (None, ls) => setAll ls now items' ttl
      | (Some err, ls) => Returned (Some err, ls)
      end
  end.

Definition SetMultiple (ls : LocalStorage) (now : Z) (items : gmap string string) (ttl : Z)
  : outcome (option goError * LocalStorage) :=
  setAll ls now (map_to_list items) ttl.

Definition Ping (ls : LocalStorage) (now : Z) : option goError :=
  if closed ls then Some (EApp ErrStorageUnavailable) else None.

#[global] Instance LocalStorage_StateStorage : StateStorage LocalStorage := {
  ss_Get := Get; ss_Set := Set_; ss_Delete := Delete; ss_GetMultiple := GetMultiple;
  ss_SetMultiple := SetMultiple; ss_Ping := Ping
}.

(* ------------------------------------------------------------------ *)
(** ** Watchers and shutdown *)

Definition Watch (ls : LocalStorage) (keyPrefix : string) : nat * LocalStorage :=
  let '(ch, r) := addWatcher (reg ls) keyPrefix in (ch, withReg ls r).

Definition closeChannelSafely (ls : LocalStorage) (ch : nat) : outcome LocalStorage :=
  if decide (ch ∈ closedChans ls) then Returned ls
  else
    do! cs <- closeChan ch (chans (reg ls)) ;
    Returned (mkLocal (data ls) (mkWatchers cs (watches (reg ls))) (nodeID ls) (closed ls)
                (closedChans ls ∪ {[ch]})).

(** The goroutine of a watcher, once its context is done. *)
Definition removeWatcherAndClose (ls : LocalStorage) (keyPrefix : string) (ch : nat)
  : outcome LocalStorage :=
  match watches (reg ls) !! keyPrefix with
  | None => Returned ls
  | Some _ => closeChannelSafely (withReg ls (removeChannel (reg ls) keyPrefix ch)) ch
  end.

(** Closing all watch channels, under the locks. *)
Definition closeWatches (ls : LocalStorage) : outcome LocalStorage :=
  do! ls <- foldl (λ m ch, do! ls <- m ; closeChannelSafely ls ch) (Returned ls)
              (allChannels (reg ls)) ;
  Returned (mkLocal (data ls) (mkWatchers (chans (reg ls)) ∅) (nodeID ls) (closed ls) ∅).

Definition markClosed (ls : LocalStorage) : LocalStorage :=
  mkLocal (data ls) (reg ls) (nodeID ls) true (closedChans ls).

Definition Close (ls : LocalStorage) : outcome LocalStorage :=
  if closed ls then Returned ls
  else do! ls <- closeWatches (markClosed ls) ; Returned (withData ls ∅).

(* ------------------------------------------------------------------ *)
(** ** LocalStorage meets the specification of a storage *)

(** Open, with well-formed watchers. *)
Definition local_ok (ls : LocalStorage) : Prop := closed ls = false ∧ watch_wf (reg ls).

Lemma NewLocalStorage_ok nodeID : local_ok (NewLocalStorage nodeID).
Proof. split; [done|apply noWatchers_wf]. Qed.

Lemma notifyWatchers_ok ls key event :
  local_ok ls → ∃ ls', notifyWatchers ls key event = Returned ls' ∧ local_ok ls' ∧ data ls' = data ls.
Proof.
  intros [Hc Hw]. unfold notifyWatchers. rewrite Hc.
  destruct (notify_wf (reg ls) key event Hw) as (cs&->&Hwf&_). simpl. eexists. split; [done|]. by repeat apply conj.
Qed.

Lemma Get_spec ls now key :
  Get ls now key = (foundOr (itemsView (data ls) now key), (Get ls now key).2) ∧
  same_from now (data (Get ls now key).2) (data ls) ∧
  reg (Get ls now key).2 = reg ls ∧ closed (Get ls now key).2 = closed ls.
Proof.
  unfold Get, itemsView. destruct (data ls !! key) as [item|] eqn:E; [|done].
  destruct (isExpired item now) eqn:He; simpl; [|done].
  split_and!; try done. by eapply delete_expired.
Qed.

Lemma setAll_ok ls now items ttl :
  local_ok ls → itemTTL ttl → NoDup items.*1 →
  ∃ ls', setAll ls now items ttl = Returned (None, ls') ∧ local_ok ls' ∧
    ∀ t k, (now ≤ t)%Z →
      match (list_to_map items : gmap string string) !! k with
      | Some value => writeShows value ttl (t - now) (itemsView (data ls') t k)
      | None => itemsView (data ls') t k = itemsView (data ls) t k
      end.
Proof.
  intros Hok Httl. revert ls Hok. induction items as [|[key value] items IH]; intros ls Hok Hnd.
  { exists ls. by split_and!. }
  apply NoDup_cons in Hnd as [Hkey Hnd]. simpl in *. unfold Set_.
  destruct (notifyWatchers_ok (withData ls (<[key:=mkItem value now ttl]> (data ls))) key
    (setEvent (withData ls (<[key:=mkItem value now ttl]> (data ls))) now key value))
    as (ls1&->&Hok1&Hd1); [done|]. simpl.
  destruct (IH ls1 Hok1 Hnd) as (ls2&->&Hok2&Hview). exists ls2. do 2 (split; [done|]).
  intros t k Ht. specialize (Hview t k Ht). simpl. destruct (decide (k = key)) as [->|Hne].
  - rewrite lookup_insert_eq. rewrite not_elem_of_list_to_map_1 in Hview by done.
    rewrite Hview, Hd1. simpl. by apply itemsView_insert.
  - rewrite lookup_insert_ne by done. case_match; [done|]. rewrite Hview, Hd1. simpl.
    by apply itemsView_insert_ne.
Qed.

Lemma getLoop_ok now keys m ls :
  let '(m', ls') := foldl (getLoop now) (m, ls) keys in
  m' = foldl (λ m k, match itemsView (data ls) now k with Some v => <[k:=v]> m | None => m end) m keys ∧
  same_from now (data ls') (data ls) ∧ reg ls' = reg ls ∧ closed ls' = closed ls.
Proof.
  revert m ls. induction keys as [|k keys IH]; intros m ls; simpl; [done|].
  destruct (Get_spec ls now k) as (E&Hsame&Hr&Hc).
  assert (∀ ls', data ls' = data (Get ls now k).2 → reg ls' = reg (Get ls now k).2 →
    closed ls' = closed (Get ls now k).2 → ∀ m',
    let '(m'', ls'') := foldl (getLoop now) (m', ls') keys in
    m'' = foldl (λ m k, match itemsView (data ls) now k with Some v => <[k:=v]> m | None => m end) m' keys ∧
    same_from now (data ls'') (data ls) ∧ reg ls'' = reg ls ∧ closed ls'' = closed ls) as Hgo.
  { intros ls' Hd' Hr' Hc' m'. specialize (IH m' ls'). destruct (foldl _ _ _) as [m'' ls''].
    destruct IH as (->&Hs&->&->). rewrite Hr', Hc', Hr, Hc. rewrite Hd' in *.
    split_and!; try done; [|by etrans].
    clear -Hsame. revert m'. induction keys as [|x keys IH]; intros m'; simpl; [done|].
    by rewrite (Hsame now x) by lia. }
  unfold getLoop at 2. simpl. rewrite E. simpl.
  destruct (itemsView (data ls) now k); simpl; by apply Hgo.
Qed.

#[global] Instance LocalStorage_StateStorageSpec : StateStorageSpec LocalStorage.
Proof.
  refine {| ss_ok := local_ok; ss_view ls := itemsView (data ls); ss_ttl := itemTTL; ss_key _ := True |}.
  - intros ls now key [Hc Hw]. simpl. destruct (Get_spec ls now key) as (E&Hs&Hr&Hc').
    rewrite E. split; [done|]. split; [|apply Hs]. split; congruence.
  - intros ls now keys [Hc Hw]. simpl. unfold GetMultiple. pose proof (getLoop_ok now keys ∅ ls) as H.
    destruct (foldl _ _ _) as [m ls']. destruct H as (->&Hs&Hr&Hc').
    split; [done|]. split; [|apply Hs]. split; congruence.
  - intros ls now key value ttl Hok Httl _. simpl. unfold Set_.
    destruct (notifyWatchers_ok (withData ls (<[key:=mkItem value now ttl]> (data ls))) key
      (setEvent (withData ls (<[key:=mkItem value now ttl]> (data ls))) now key value))
      as (ls1&->&Hok1&Hd1); [done|]. exists ls1. do 2 (split; [done|]). intros t Ht. rewrite Hd1.
    split; [by apply itemsView_insert|]. intros k Hk. by apply itemsView_insert_ne.
  - intros ls now key Hok _. simpl. unfold Delete.
    destruct (notifyWatchers_ok (withData ls (delete key (data ls))) key
      (deleteEvent (withData ls (delete key (data ls))) now key)) as (ls1&->&Hok1&Hd1); [done|].
    exists ls1. do 2 (split; [done|]). intros t k Ht. rewrite Hd1. apply itemsView_delete.
  - intros ls now items ttl Hok Httl _. simpl. unfold SetMultiple.
    destruct (setAll_ok ls now (map_to_list items) ttl Hok Httl) as (ls'&->&Hok'&Hview).
    { apply NoDup_fst_map_to_list. }
    exists ls'. do 2 (split; [done|]). by rewrite list_to_map_to_list in Hview.
  - intros ls now [Hc _]. simpl. unfold Ping. by rewrite Hc.
Defined.
