(* ===== verification/LocalSteps.v ===== *)
(** * LocalSteps: concurrent callers of services/statestorage/local_storage.go

    The atomic steps of calls, the locks between them and the goroutines of
    the watchers; channels are closed once and never sent to afterwards, as
    long as a closed storage is not watched again; a clean-up races with a
    write. *)

From S2P Require Import Prelude GoStd Errors Storage Watch LocalStorage.

Local Open Scope vpa_scope.

(* ------------------------------------------------------------------ *)
(** ** Concurrent callers

    A call between two of its atomic steps, and the goroutines of watchers.
    Locks show as conditions: while a caller holds the read lock of the
    watchers, no writer steps. *)
Inductive caller :=
| GotExpired (key : string)                     (* Get loaded an expired item *)
| Stored (key : string) (event : StateEvent)    (* the data is written *)
| Passed (key : string) (event : StateEvent)    (* notifyWatchers saw the storage open *)
| Notifying (event : StateEvent) (todo : list nat)  (* it holds the read lock *)
| Watching (prefix : string) (ch : nat)         (* waits for its context *)
| Closing                                       (* closed is set, the watchers come next *)
| Clearing                                      (* the watchers are closed, the data comes next *).

#[export] Instance caller_eq_dec : EqDecision caller.
Proof. solve_decision. Defined.

Definition isNotifying (c : caller) : bool := match c with Notifying _ _ => true | _ => false end.

Definition noReaders (cs : list caller) : Prop := Forall (λ c, isNotifying c = false) cs.

Record world := mkWorld { ls : LocalStorage; callers : list caller }.

(** The step relation; [late] allows Watch on a storage that was closed. *)
Inductive lstep (late : bool) : world → world → Prop :=
| l_get_expired w key item now :
    data (ls w) !! key = Some item → isExpired item now = true →
    lstep late w (mkWorld (ls w) (GotExpired key :: callers w))
| l_get_cleanup w c1 c2 key :
    callers w = c1 ++ GotExpired key :: c2 →
    lstep late w (mkWorld (withData (ls w) (delete key (data (ls w)))) (c1 ++ c2))
| l_set w now key value ttl :
    lstep late w (mkWorld (withData (ls w) (<[key := mkItem value now ttl]> (data (ls w))))
                    (Stored key (setEvent (ls w) now key value) :: callers w))
| l_delete w now key :
    lstep late w (mkWorld (withData (ls w) (delete key (data (ls w))))
                    (Stored key (deleteEvent (ls w) now key) :: callers w))
| l_notify_closed w c1 c2 key event :
    callers w = c1 ++ Stored key event :: c2 → closed (ls w) = true →
    lstep late w (mkWorld (ls w) (c1 ++ c2))
| l_notify_open w c1 c2 key event :
    callers w = c1 ++ Stored key event :: c2 → closed (ls w) = false →
    lstep late w (mkWorld (ls w) (c1 ++ Passed key event :: c2))
| l_lock w c1 c2 key event todo :
    callers w = c1 ++ Passed key event :: c2 → todo ≡ₚ targets (reg (ls w)) key →
    lstep late w (mkWorld (ls w) (c1 ++ Notifying event todo :: c2))
| l_send w c1 c2 event ch todo cs :
    callers w = c1 ++ Notifying event (ch :: todo) :: c2 →
    sendOrSkip event ch (chans (reg (ls w))) = Returned cs →
    lstep late w (mkWorld (withReg (ls w) (mkWatchers cs (watches (reg (ls w)))))
                    (c1 ++ Notifying event todo :: c2))
| l_unlock w c1 c2 event :
    callers w = c1 ++ Notifying event [] :: c2 →
    lstep late w (mkWorld (ls w) (c1 ++ c2))
| l_watch w prefix :
    noReaders (callers w) → late || negb (closed (ls w)) = true →
    lstep late w (mkWorld (Watch (ls w) prefix).2 (Watching prefix (Watch (ls w) prefix).1 :: callers w))
| l_cancel w c1 c2 prefix ch ls' :
    callers w = c1 ++ Watching prefix ch :: c2 → noReaders (callers w) →
    removeWatcherAndClose (ls w) prefix ch = Returned ls' →
    lstep late w (mkWorld ls' (c1 ++ c2))
| l_receive w ch :
    lstep late w (mkWorld (withReg (ls w) (mkWatchers (receive ch (chans (reg (ls w)))).2
                                             (watches (reg (ls w))))) (callers w))
| l_close w :
    closed (ls w) = false →
    lstep late w (mkWorld (markClosed (ls w)) (Closing :: callers w))
| l_close_watches w c1 c2 ls' :
    callers w = c1 ++ Closing :: c2 → noReaders (callers w) →
    closeWatches (ls w) = Returned ls' →
    lstep late w (mkWorld ls' (c1 ++ Clearing :: c2))
| l_close_clear w c1 c2 :
    callers w = c1 ++ Clearing :: c2 →
    lstep late w (mkWorld (withData (ls w) ∅) (c1 ++ c2)).

(** The steps that panic. *)
Inductive lpanic : world → string → Prop :=
| lp_send w c1 c2 event ch todo why :
    callers w = c1 ++ Notifying event (ch :: todo) :: c2 →
    sendOrSkip event ch (chans (reg (ls w))) = Panicked why → lpanic w why
| lp_cancel w c1 c2 prefix ch why :
    callers w = c1 ++ Watching prefix ch :: c2 → noReaders (callers w) →
    removeWatcherAndClose (ls w) prefix ch = Panicked why → lpanic w why
| lp_close w c1 c2 why :
    callers w = c1 ++ Closing :: c2 → noReaders (callers w) →
    closeWatches (ls w) = Panicked why → lpanic w why.

Definition start (nodeID : string) : world := mkWorld (NewLocalStorage nodeID) [].

(* ------------------------------------------------------------------ *)
(** ** What holds in every interleaving *)

Definition closings (cs : list caller) : nat := length (filter (eq Closing) cs).

(** Close has been through the watchers. *)
Definition finished (w : world) : Prop := closed (ls w) = true ∧ closings (callers w) = 0.

#[export] Instance finished_dec w : Decision (finished w).
Proof. unfold finished. apply _. Defined.

Definition watcherOf (c : caller) : option (string * nat) :=
  match c with Watching p ch => Some (p, ch) | _ => None end.

(** The goroutines that wait for the context of a watcher. *)
Definition watchersOf (cs : list caller) : list (string * nat) := omap watcherOf cs.

Definition isShut (cs : list Chan) (ch : nat) : Prop := ∃ c, cs !! ch = Some c ∧ chClosed c = true.

Record local_inv (w : world) : Prop := {
  inv_wf : watch_wf (reg (ls w));
  inv_todo event todo ch : Notifying event todo ∈ callers w → ch ∈ todo →
    ∃ p, registered (reg (ls w)) p ch;
  inv_reg p ch : registered (reg (ls w)) p ch → (p, ch) ∈ watchersOf (callers w);
  inv_watching p ch : (p, ch) ∈ watchersOf (callers w) → ¬ finished w → registered (reg (ls w)) p ch;
  inv_once : NoDup (watchersOf (callers w)).*2;
  inv_finished : finished w → watches (reg (ls w)) = ∅;
  inv_open ch : isOpen (chans (reg (ls w))) ch → ∃ p, registered (reg (ls w)) p ch;
  inv_closed ch : ch ∈ closedChans (ls w) → isShut (chans (reg (ls w))) ch;
  inv_closing : closings (callers w) ≤ if closed (ls w) then 1 else 0;
  inv_ids p ch : (p, ch) ∈ watchersOf (callers w) → (ch < length (chans (reg (ls w))))%nat
}.

Lemma closings_app cs ds : closings (cs ++ ds) = closings cs + closings ds.
Proof. unfold closings. by rewrite filter_app, length_app. Qed.

Lemma closings_cons c cs : closings (c :: cs) = (if decide (Closing = c) then 1 else 0) + closings cs.
Proof. unfold closings. rewrite filter_cons. by case_decide. Qed.

Lemma closings_none cs : Closing ∉ cs → closings cs = 0.
Proof.
  induction cs as [|c cs IH]; intros Hno; [done|]. rewrite closings_cons, decide_False by set_solver.
  apply IH. set_solver.
Qed.

Lemma isOpen_not_shut cs ch : isOpen cs ch → isShut cs ch → False.
Proof. intros (c&Hc&Ho) (d&Hd&Hs). congruence. Qed.

Lemma noReaders_none cs event todo : noReaders cs → Notifying event todo ∉ cs.
Proof. unfold noReaders. intros H Hin. rewrite Forall_forall in H. by apply H in Hin. Qed.

Lemma watchersOf_split c1 c c2 :
  watchersOf (c1 ++ c :: c2) = watchersOf c1 ++ option_list (watcherOf c) ++ watchersOf c2.
Proof. unfold watchersOf. rewrite omap_app. simpl. by destruct (watcherOf c). Qed.

Lemma elem_of_watchersOf p ch cs : (p, ch) ∈ watchersOf cs ↔ Watching p ch ∈ cs.
Proof.
  unfold watchersOf. rewrite list_elem_of_omap. split.
  - intros (c&Hc&E). destruct c; simplify_eq/=. done.
  - intros H. by exists (Watching p ch).
Qed.

(** A step that leaves the watchers as they are and keeps every channel open
    or closed. *)
Lemma local_inv_frame w w' :
  local_inv w →
  watch_wf (reg (ls w')) → watches (reg (ls w')) = watches (reg (ls w)) →
  (∀ ch, isOpen (chans (reg (ls w'))) ch ↔ isOpen (chans (reg (ls w))) ch) →
  (∀ ch, isShut (chans (reg (ls w))) ch → isShut (chans (reg (ls w'))) ch) →
  length (chans (reg (ls w'))) = length (chans (reg (ls w))) →
  closedChans (ls w') = closedChans (ls w) →
  watchersOf (callers w') = watchersOf (callers w) →
  (finished w' ↔ finished w) →
  closings (callers w') ≤ (if closed (ls w') then 1 else 0) →
  (∀ event todo ch, Notifying event todo ∈ callers w' → ch ∈ todo → ∃ p, registered (reg (ls w)) p ch) →
  local_inv w'.
Proof.
  intros [] Hwf Hreg Hopen Hshut Hlen Hcc Hwatch Hfin Hclosing Htodo.
  assert (∀ p ch, registered (reg (ls w')) p ch ↔ registered (reg (ls w)) p ch) as Hr
    by (intros; unfold registered, channelsOf; by rewrite Hreg).
  split; rewrite ?Hwatch, ?Hlen, ?Hcc, ?Hreg; try done; try naive_solver.
Qed.

Lemma alter_push_shape event ch cs i :
  (isOpen (alter (push event) ch cs) i ↔ isOpen cs i) ∧ (isShut cs i → isShut (alter (push event) ch cs) i).
Proof.
  unfold isOpen, isShut. destruct (decide (ch = i)) as [->|Hne].
  - rewrite list_lookup_alter_eq. destruct (cs !! i) as [c|]; simpl; [|naive_solver].
    split; [split|]; intros (c'&?&?); simplify_eq; eexists; (split; [done|]); by rewrite ?push_open in *.
  - by rewrite list_lookup_alter_ne.
Qed.

Lemma receive_shape ch cs i :
  (isOpen (receive ch cs).2 i ↔ isOpen cs i) ∧ (isShut cs i → isShut (receive ch cs).2 i) ∧
  length (receive ch cs).2 = length cs.
Proof.
  unfold receive, isOpen, isShut. destruct (cs !! ch) as [[[|e rest] b]|] eqn:E; simpl; try done.
  rewrite length_insert. destruct (decide (ch = i)) as [->|Hne]; [|by rewrite list_lookup_insert_ne].
  rewrite list_lookup_insert_eq by (by apply lookup_lt_Some in E). rewrite E. naive_solver.
Qed.

(** Closing distinct open channels that are not marked closed. *)
Lemma closeAll_ok todo ls :
  NoDup todo → (∀ ch, ch ∈ todo → isOpen (chans (reg ls)) ch ∧ ch ∉ closedChans ls) →
  ∃ ls', foldl (λ m ch, do! ls <- m ; closeChannelSafely ls ch) (Returned ls) todo = Returned ls' ∧
    data ls' = data ls ∧ nodeID ls' = nodeID ls ∧ closed ls' = closed ls ∧
    length (chans (reg ls')) = length (chans (reg ls)) ∧
    ∀ i, isOpen (chans (reg ls')) i ↔ isOpen (chans (reg ls)) i ∧ i ∉ todo.
Proof.
  revert ls. induction todo as [|ch todo IH]; intros ls Hnd Hall; simpl.
  { exists ls. split_and!; try done. set_solver. }
  apply NoDup_cons in Hnd as [Hch Hnd]. destruct (Hall ch) as [(c&Hc&Ho) Hncc]; [by left|].
  unfold closeChannelSafely at 2. rewrite decide_False by done. unfold closeChan. rewrite Hc, Ho. simpl.
  edestruct (IH (mkLocal (data ls) (mkWatchers (<[ch:=mkChan (buf c) true]> (chans (reg ls))) (watches (reg ls)))
    (nodeID ls) (closed ls) (closedChans ls ∪ {[ch]}))) as (ls'&E&Hd&Hn&Hcl&Hlen&Hopen); [done| |].
  { intros i Hi. destruct (Hall i) as [(d&Hd&Hdo) Hdn]; [by right|]. simpl.
    assert (i ≠ ch) by (by intros ->). split; [|set_solver].
    exists d. by rewrite list_lookup_insert_ne. }
  exists ls'. simpl in *. rewrite length_insert in Hlen. split_and!; try done.
  intros i. rewrite Hopen. unfold isOpen. destruct (decide (i = ch)) as [->|Hne].
  - rewrite list_lookup_insert_eq by (by apply lookup_lt_Some in Hc). split; [|set_solver].
    by intros [(d&?&?) _]; simplify_eq.
  - rewrite list_lookup_insert_ne by done. set_solver.
Qed.

Lemma isOpen_not_marked w ch : local_inv w → isOpen (chans (reg (ls w))) ch → ch ∉ closedChans (ls w).
Proof. intros Hinv Ho Hin. eapply isOpen_not_shut; [done|by apply Hinv]. Qed.


(** Callers the invariant does not look at. *)
Definition quiet (c : caller) : Prop :=
  match c with GotExpired _ | Stored _ _ | Passed _ _ | Clearing => True | _ => False end.

Lemma watchersOf_quiet cs : Forall quiet cs → watchersOf cs = [].
Proof. induction 1 as [|[] l Hc _ IH]; done. Qed.

Lemma quiet_not cs c : Forall quiet cs → c ∈ cs → quiet c.
Proof. intros H Hin. rewrite Forall_forall in H. by apply H. Qed.

(** Quiet callers come and go. *)
Lemma local_inv_quiet w w' c1 xs ys c2 :
  local_inv w → callers w = c1 ++ xs ++ c2 → callers w' = c1 ++ ys ++ c2 →
  Forall quiet xs → Forall quiet ys →
  reg (ls w') = reg (ls w) → closedChans (ls w') = closedChans (ls w) → closed (ls w') = closed (ls w) →
  local_inv w'.
Proof.
  intros Hinv E E' Hxs Hys Hr Hcc Hcl.
  assert (∀ c, ¬ quiet c → c ∈ callers w' ↔ c ∈ callers w) as Hin.
  { intros c Hq. rewrite E, E', !elem_of_app. pose proof (quiet_not xs c Hxs). pose proof (quiet_not ys c Hys).
    tauto. }
  assert (closings (callers w') = closings (callers w)) as Hcs.
  { rewrite E, E', !closings_app. f_equal. f_equal.
    rewrite !closings_none; [done|..]; intros Hc; by eapply quiet_not in Hc. }
  apply (local_inv_frame w); rewrite ?Hr; try done.
  - apply Hinv.
  - rewrite E, E'. unfold watchersOf. rewrite !omap_app. fold watchersOf.
    change (omap watcherOf xs) with (watchersOf xs). change (omap watcherOf ys) with (watchersOf ys).
    by rewrite (watchersOf_quiet xs Hxs), (watchersOf_quiet ys Hys).
  - unfold finished. by rewrite Hcl, Hcs.
  - rewrite Hcl, Hcs. apply Hinv.
  - intros event todo ch Hn. apply Hin in Hn; [|intros []]. intros Hch. by apply (inv_todo w Hinv event todo).
Qed.

(** One caller becomes another, both none of the watchers' goroutines, nor Close. *)
Lemma replaced_watchers c1 x ys c2 :
  watcherOf x = None → Forall (λ y, watcherOf y = None) ys →
  watchersOf (c1 ++ ys ++ c2) = watchersOf (c1 ++ x :: c2).
Proof.
  intros Hx Hys. rewrite watchersOf_split, Hx. unfold watchersOf. rewrite !omap_app. f_equal. simpl.
  induction Hys as [|y ys Hy _ IH]; simpl; [done|]. by rewrite Hy.
Qed.

Lemma replaced_closing c1 x ys c2 :
  x ≠ Closing → Closing ∉ ys → closings (c1 ++ ys ++ c2) = closings (c1 ++ x :: c2).
Proof.
  intros Hx Hys. rewrite !closings_app, closings_cons, decide_False by done. by rewrite (closings_none ys).
Qed.

(** The notification steps. *)
Lemma local_inv_notifying w w' c1 x ys c2 :
  local_inv w → callers w = c1 ++ x :: c2 → callers w' = c1 ++ ys ++ c2 →
  watcherOf x = None → x ≠ Closing → Forall (λ y, watcherOf y = None ∧ y ≠ Closing) ys →
  (∀ event todo ch, Notifying event todo ∈ ys → ch ∈ todo → ∃ p, registered (reg (ls w)) p ch) →
  closed (ls w') = closed (ls w) → closedChans (ls w') = closedChans (ls w) →
  watches (reg (ls w')) = watches (reg (ls w)) → watch_wf (reg (ls w')) →
  (∀ ch, isOpen (chans (reg (ls w'))) ch ↔ isOpen (chans (reg (ls w))) ch) →
  (∀ ch, isShut (chans (reg (ls w))) ch → isShut (chans (reg (ls w'))) ch) →
  length (chans (reg (ls w'))) = length (chans (reg (ls w))) →
  local_inv w'.
Proof.
  intros Hinv E E' Hx Hxc Hys Htodo Hcl Hcc Hreg Hwf Hopen Hshut Hlen.
  assert (closings (callers w') = closings (callers w)) as Hcs.
  { rewrite E, E'. apply replaced_closing; [done|]. rewrite Forall_forall in Hys. intros Hin.
    by apply Hys in Hin as []. }
  apply (local_inv_frame w); try done.
  - rewrite E, E'. apply replaced_watchers; [done|]. eapply Forall_impl; [done|]. by intros ? [].
  - unfold finished. by rewrite Hcl, Hcs.
  - rewrite Hcl, Hcs. apply Hinv.
  - intros event todo ch. rewrite E', !elem_of_app. intros [Hin|[Hin|Hin]] Hch; [|by eapply Htodo|];
      apply (inv_todo w Hinv event todo ch); try done; rewrite E; set_solver.
Qed.

Lemma local_inv_lock w c1 c2 key event todo :
  local_inv w → callers w = c1 ++ Passed key event :: c2 → todo ≡ₚ targets (reg (ls w)) key →
  local_inv (mkWorld (ls w) (c1 ++ Notifying event todo :: c2)).
Proof.
  intros Hinv E Hp. apply (local_inv_notifying w _ c1 (Passed key event) [Notifying event todo] c2); try done.
  - by repeat constructor.
  - intros e t ch Hin%list_elem_of_singleton. simplify_eq. rewrite Hp, elem_of_targets. naive_solver.
  - apply Hinv.
Qed.

Lemma local_inv_send w c1 c2 event ch todo cs :
  local_inv w → callers w = c1 ++ Notifying event (ch :: todo) :: c2 →
  sendOrSkip event ch (chans (reg (ls w))) = Returned cs →
  local_inv (mkWorld (withReg (ls w) (mkWatchers cs (watches (reg (ls w))))) (c1 ++ Notifying event todo :: c2)).
Proof.
  intros Hinv E Hs. destruct (inv_todo w Hinv event (ch :: todo) ch) as (p&Hp); [rewrite E; set_solver|left|].
  rewrite sendOrSkip_open in Hs by (by apply (wf_open _ (inv_wf w Hinv) p)). injection Hs as <-.
  apply (local_inv_notifying w _ c1 (Notifying event (ch :: todo)) [Notifying event todo] c2); try done; simpl.
  - by repeat constructor.
  - intros e t i Hin%list_elem_of_singleton Hi. simplify_eq.
    apply (inv_todo w Hinv event (ch :: todo) i); [rewrite E; set_solver|by right].
  - destruct (inv_wf w Hinv) as [Ho Hn H1]. split; [|apply Hn|apply H1].
    intros q c Hq. simpl. apply isOpen_alter. by apply (Ho q).
  - intros i. apply alter_push_shape.
  - intros i. apply alter_push_shape.
  - by rewrite length_alter.
Qed.

Lemma local_inv_receive w ch :
  local_inv w →
  local_inv (mkWorld (withReg (ls w) (mkWatchers (receive ch (chans (reg (ls w)))).2 (watches (reg (ls w)))))
               (callers w)).
Proof.
  intros Hinv. apply (local_inv_frame w); try done; simpl.
  - apply receive_wf, Hinv.
  - intros i. apply receive_shape.
  - intros i. apply receive_shape.
  - by apply receive_shape.
  - apply Hinv.
  - intros event todo i. apply (inv_todo w Hinv).
Qed.

Lemma lookup_snoc_shape (cs : list Chan) i c :
  (cs ++ [c]) !! i = if decide (i = length cs) then Some c else cs !! i.
Proof.
  case_decide; subst; [by rewrite list_lookup_middle|].
  destruct (decide (i < length cs)%nat); [by rewrite lookup_app_l|].
  rewrite lookup_ge_None_2, lookup_ge_None_2; rewrite ?length_app; simpl; (done || lia).
Qed.

Lemma local_inv_watch w prefix :
  local_inv w → noReaders (callers w) → closed (ls w) = false →
  local_inv (mkWorld (Watch (ls w) prefix).2 (Watching prefix (Watch (ls w) prefix).1 :: callers w)).
Proof.
  intros Hinv Hnr Hc. assert (¬ finished w) as Hnf by (unfold finished; rewrite Hc; naive_solver).
  set (n := length (chans (reg (ls w)))).
  assert (∀ q ch, registered (addWatcher (reg (ls w)) prefix).2 q ch ↔
    registered (reg (ls w)) q ch ∨ (q = prefix ∧ ch = n)) as Hreg by apply registered_addWatcher.
  split; simpl.
  - apply addWatcher_wf, Hinv.
  - intros event todo ch [?|Hin]%elem_of_cons; [done|]. by apply noReaders_none in Hin.
  - intros q ch [Hq|[-> ->]]%Hreg; [right; by apply Hinv|left].
  - intros q ch Hin _. apply Hreg. apply elem_of_cons in Hin as [[= -> ->]|Hin]; [by right|left].
    by apply (inv_watching w Hinv).
  - constructor; [|apply Hinv]. intros ([q ch]&E&Hin)%list_elem_of_fmap. simpl in E. subst ch.
    apply (inv_ids w Hinv) in Hin. lia.
  - intros [Hc' _]. simpl in Hc'. congruence.
  - intros ch (c&Hch&Ho). setoid_rewrite Hreg. simpl in Hch. rewrite lookup_snoc_shape in Hch.
    case_decide; [subst; eauto|]. destruct (inv_open w Hinv ch) as (p&Hp); [by exists c|eauto].
  - intros ch Hch. destruct (inv_closed w Hinv ch Hch) as (c&Hcc&Hs). exists c.
    split; [by apply lookup_app_l_Some|done].
  - apply Hinv.
  - intros q ch Hin. rewrite length_app. simpl.
    apply elem_of_cons in Hin as [[= -> ->]|Hin]; [lia|]. apply (inv_ids w Hinv) in Hin. lia.
Qed.

(** The end of a watcher on a storage whose watchers Close has not closed:
    its channel is unregistered and closed, and nothing else changes. *)
Lemma removeWatcher_ok w prefix ch :
  local_inv w → registered (reg (ls w)) prefix ch →
  ∃ c, chans (reg (ls w)) !! ch = Some c ∧
    removeWatcherAndClose (ls w) prefix ch =
      Returned (mkLocal (data (ls w))
        (mkWatchers (<[ch := mkChan (buf c) true]> (chans (reg (ls w))))
           (watches (removeChannel (reg (ls w)) prefix ch)))
        (nodeID (ls w)) (closed (ls w)) (closedChans (ls w) ∪ {[ch]})).
Proof.
  intros Hinv Hp. pose proof (wf_open _ (inv_wf w Hinv) prefix ch Hp) as Hopen.
  pose proof (isOpen_not_marked w ch Hinv Hopen) as Hnm. destruct Hopen as (c&Hc&Ho). exists c.
  split; [done|]. unfold removeWatcherAndClose. unfold registered, channelsOf in Hp.
  destruct (watches (reg (ls w)) !! prefix); [|by apply elem_of_nil in Hp].
  unfold closeChannelSafely. simpl. rewrite decide_False by done. unfold closeChan.
  by rewrite Hc, Ho.
Qed.

Lemma isOpen_closed cs ch b i :
  isOpen (<[ch := mkChan b true]> cs) i ↔ isOpen cs i ∧ i ≠ ch.
Proof.
  unfold isOpen. destruct (decide (i = ch)) as [->|Hne]; [|rewrite list_lookup_insert_ne by done; naive_solver].
  split; [|naive_solver]. intros (c&Hc&Ho). apply list_lookup_insert_Some in Hc.
  destruct Hc as [(_&<-&_)|(?&_)]; done.
Qed.

Lemma isShut_closed cs ch b i : isShut cs i → isShut (<[ch := mkChan b true]> cs) i.
Proof.
  intros (c&Hc&Hs). unfold isShut. destruct (decide (i = ch)) as [->|Hne].
  - rewrite list_lookup_insert_eq by (by apply lookup_lt_Some in Hc). by eexists.
  - rewrite list_lookup_insert_ne by done. by exists c.
Qed.

(** The goroutine of a watcher leaves the pool. *)
Lemma unwatch_callers w c1 c2 prefix ch :
  local_inv w → callers w = c1 ++ Watching prefix ch :: c2 → noReaders (callers w) →
  watchersOf (callers w) ≡ₚ (prefix, ch) :: watchersOf (c1 ++ c2) ∧
  (∀ event todo, Notifying event todo ∉ c1 ++ c2) ∧
  (∀ q i, (q, i) ∈ watchersOf (c1 ++ c2) → (q, i) ∈ watchersOf (callers w) ∧ i ≠ ch) ∧
  NoDup (watchersOf (c1 ++ c2)).*2 ∧
  closings (c1 ++ c2) = closings (callers w).
Proof.
  intros Hinv E Hnr.
  assert (watchersOf (callers w) ≡ₚ (prefix, ch) :: watchersOf (c1 ++ c2)) as Hperm.
  { rewrite E, watchersOf_split. unfold watchersOf. rewrite omap_app. simpl. by rewrite Permutation_middle. }
  pose proof (inv_once w Hinv) as Hnd. rewrite Hperm in Hnd. apply NoDup_cons in Hnd as [Hno Hnd].
  split_and!; try done.
  - intros event todo Hin. apply (noReaders_none _ event todo Hnr). rewrite E. set_solver.
  - intros q i Hin. split; [rewrite Hperm; by right|]. intros ->. apply Hno.
    apply list_elem_of_fmap. by exists (q, ch).
  - by rewrite E, !closings_app, closings_cons, decide_False.
Qed.

Lemma unwatch_registered w c1 c2 prefix ch ls' :
  local_inv w → callers w = c1 ++ Watching prefix ch :: c2 → noReaders (callers w) →
  registered (reg (ls w)) prefix ch →
  removeWatcherAndClose (ls w) prefix ch = Returned ls' →
  local_inv (mkWorld ls' (c1 ++ c2)).
Proof.
  intros Hinv E Hnr Hp Hrm. destruct (unwatch_callers w c1 c2 prefix ch Hinv E Hnr) as (Hperm&Hnone&Hothers&Hnd&Hcl).
  destruct (removeWatcher_ok w prefix ch Hinv Hp) as (c&Hc&E'). rewrite E' in Hrm. injection Hrm as <-.
  assert (∀ q i, registered (mkWatchers (<[ch:=mkChan (buf c) true]> (chans (reg (ls w))))
    (watches (removeChannel (reg (ls w)) prefix ch))) q i ↔ registered (reg (ls w)) q i ∧ i ≠ ch) as Hreg.
  { intros q i. etrans; [by apply (registered_removeChannel (reg (ls w)) prefix ch q i), Hinv|].
    split; [|naive_solver]. intros [Hq Hn]. split; [done|]. intros ->. apply Hn. split; [|done].
    by apply (wf_one _ (inv_wf w Hinv) q prefix ch). }
  split; simpl; try done.
  - apply (close_unregistered (removeChannel (reg (ls w)) prefix ch) _ ch).
    + apply removeChannel_wf, Hinv.
    + intros q [_ Hq]%(Hreg q ch). done.
    + intros i Hi. by rewrite list_lookup_insert_ne.
  - intros event todo i Hin. by apply Hnone in Hin.
  - intros q i [Hq Hi]%Hreg. apply (inv_reg w Hinv) in Hq. rewrite Hperm in Hq.
    apply elem_of_cons in Hq as [[= -> ->]|?]; done.
  - intros q i [Hin Hi]%Hothers Hnf. apply Hreg. split; [|done]. apply (inv_watching w Hinv); [done|].
    intros [Hc' Hno]. apply Hnf. split; [done|]. simpl. by rewrite Hcl.
  - intros [Hf Hno]. exfalso. simpl in *. rewrite Hcl in Hno.
    pose proof (inv_finished w Hinv (conj Hf Hno)) as He. unfold registered, channelsOf in Hp.
    rewrite He, lookup_empty in Hp. by apply elem_of_nil in Hp.
  - intros i [Ho Hi]%isOpen_closed. destruct (inv_open w Hinv i Ho) as (q&Hq). exists q. by apply Hreg.
  - intros i [Hi| ->%elem_of_singleton]%elem_of_union; [by apply isShut_closed, Hinv|].
    exists (mkChan (buf c) true). by rewrite list_lookup_insert_eq by (by apply lookup_lt_Some in Hc).
  - rewrite Hcl. apply Hinv.
  - intros q i [Hin _]%Hothers. rewrite length_insert. by apply (inv_ids w Hinv) in Hin.
Qed.

Lemma unwatch_finished w c1 c2 prefix ch ls' :
  local_inv w → callers w = c1 ++ Watching prefix ch :: c2 → noReaders (callers w) → finished w →
  removeWatcherAndClose (ls w) prefix ch = Returned ls' →
  ls' = ls w ∧ local_inv (mkWorld ls' (c1 ++ c2)).
Proof.
  intros Hinv E Hnr Hf Hrm. destruct (unwatch_callers w c1 c2 prefix ch Hinv E Hnr) as (Hperm&Hnone&Hothers&Hnd&Hcl).
  pose proof (inv_finished w Hinv Hf) as Hempty. unfold removeWatcherAndClose in Hrm.
  rewrite Hempty, lookup_empty in Hrm. injection Hrm as <-. split; [done|].
  assert (∀ q i, ¬ registered (reg (ls w)) q i) as Hnoreg.
  { intros q i. unfold registered, channelsOf. rewrite Hempty, lookup_empty. by intros ?%elem_of_nil. }
  split; simpl; try done; try apply Hinv.
  - intros event todo i Hin. by apply Hnone in Hin.
  - intros q i Hq. by apply Hnoreg in Hq.
  - intros q i _ Hnf. destruct Hnf. destruct Hf as [Hc Hno]. split; [done|]. simpl. by rewrite Hcl.
  - rewrite Hcl. apply Hinv.
  - intros q i [Hin _]%Hothers. by apply (inv_ids w Hinv) in Hin.
Qed.

(** Close goes through the watchers: every channel is closed. *)
Lemma closeWatches_ok w :
  local_inv w →
  ∃ ls', closeWatches (ls w) = Returned ls' ∧ closed ls' = closed (ls w) ∧
    watches (reg ls') = ∅ ∧ closedChans ls' = ∅ ∧
    length (chans (reg ls')) = length (chans (reg (ls w))) ∧
    ∀ i, ¬ isOpen (chans (reg ls')) i.
Proof.
  intros Hinv. unfold closeWatches.
  destruct (closeAll_ok (allChannels (reg (ls w))) (ls w)) as (ls'&->&Hd&Hn&Hc&Hlen&Hopen).
  { apply allChannels_NoDup, Hinv. }
  { intros ch [p Hp]%elem_of_allChannels. assert (isOpen (chans (reg (ls w))) ch)
      by (by eapply wf_open; [apply Hinv|]). split; [done|by apply isOpen_not_marked]. }
  simpl. eexists. split_and!; try done. intros i. simpl. rewrite Hopen, elem_of_allChannels.
  intros [Ho Hno]. by apply Hno, Hinv.
Qed.

Lemma local_inv_close_watches w c1 c2 ls' :
  local_inv w → callers w = c1 ++ Closing :: c2 → noReaders (callers w) →
  closeWatches (ls w) = Returned ls' →
  local_inv (mkWorld ls' (c1 ++ Clearing :: c2)).
Proof.
  intros Hinv E Hnr Hcw. destruct (closeWatches_ok w Hinv) as (l&E'&Hc&Hw&Hcc&Hlen&Hopen).
  rewrite E' in Hcw. injection Hcw as <-.
  assert (∀ q i, ¬ registered (reg l) q i) as Hnoreg.
  { intros q i. unfold registered, channelsOf. rewrite Hw, lookup_empty. by intros ?%elem_of_nil. }
  assert (watchersOf (c1 ++ Clearing :: c2) = watchersOf (callers w)) as Hwatch.
  { by rewrite E, !watchersOf_split. }
  assert (closings (callers w) = S (closings (c1 ++ Clearing :: c2))) as Hcs.
  { rewrite E, !closings_app, !closings_cons, decide_True, decide_False by done. lia. }
  pose proof (inv_closing w Hinv) as Hle.
  split; simpl; rewrite ?Hwatch, ?Hlen, ?Hcc; try done; try apply Hinv.
  - split; [intros q i Hq; by apply Hnoreg in Hq| |intros q r i Hq; by apply Hnoreg in Hq].
    intros q. unfold channelsOf. rewrite Hw, lookup_empty. constructor.
  - intros event todo i Hin _. exfalso. apply (noReaders_none _ event todo Hnr). rewrite E.
    apply elem_of_app in Hin as [|[|]%elem_of_cons]; set_solver.
  - intros q i Hq. by apply Hnoreg in Hq.
  - intros q i Hq Hnot. exfalso. apply Hnot. unfold finished. simpl. rewrite Hc. destruct (closed (ls w)); lia || split; (done || lia).
  - intros i Hi. by apply Hopen in Hi.
  - rewrite Hc. destruct (closed (ls w)); lia.
Qed.

Lemma local_inv_step w w' : local_inv w → lstep false w w' → local_inv w'.
Proof.
  intros Hinv Hs. destruct Hs as [w key item now Hk He|w c1 c2 key E|w now key value ttl|w now key
    |w c1 c2 key event E Hc|w c1 c2 key event E Hc|w c1 c2 key event todo E Hp|w c1 c2 event ch todo cs E Hs
    |w c1 c2 event E|w prefix Hnr Hl|w c1 c2 prefix ch ls' E Hnr Hrm|w ch|w Hc|w c1 c2 ls' E Hnr Hcw|w c1 c2 E].
  - by apply (local_inv_quiet w _ [] [] [GotExpired key] (callers w)); try done; repeat constructor.
  - by apply (local_inv_quiet w _ c1 [GotExpired key] [] c2); try done; repeat constructor.
  - by eapply (local_inv_quiet w _ [] [] [Stored _ _] (callers w)); try done; repeat constructor.
  - by eapply (local_inv_quiet w _ [] [] [Stored _ _] (callers w)); try done; repeat constructor.
  - by apply (local_inv_quiet w _ c1 [Stored key event] [] c2); try done; repeat constructor.
  - by apply (local_inv_quiet w _ c1 [Stored key event] [Passed key event] c2); try done; repeat constructor.
  - by eapply local_inv_lock.
  - by eapply local_inv_send.
  - apply (local_inv_notifying w _ c1 (Notifying event []) [] c2); try done; [set_solver|apply Hinv].
  - apply local_inv_watch; [done..|]. by destruct (closed (ls w)).
  - destruct (decide (finished w)) as [Hf|Hf]; [by eapply unwatch_finished|].
    eapply unwatch_registered; try done. apply (inv_watching w Hinv); [|done].
    rewrite E, watchersOf_split. set_solver.
  - by apply local_inv_receive.
  - pose proof (inv_closing w Hinv) as Hle. rewrite Hc in Hle.
    apply (local_inv_frame w); try done; simpl.
    + apply Hinv.
    + unfold finished. simpl. rewrite Hc, closings_cons. naive_solver.
    + rewrite closings_cons, decide_True by done. lia.
    + intros event todo ch [?|Hin]%elem_of_cons; [done|]. by apply (inv_todo w Hinv event todo ch).
  - by eapply local_inv_close_watches.
  - by apply (local_inv_quiet w _ c1 [Clearing] [] c2); try done; repeat constructor.
Qed.

Lemma local_inv_reachable nodeID w : rtc (lstep false) (start nodeID) w → local_inv w.
Proof.
  intros Hr. remember (start nodeID) as w0 eqn:E0. assert (local_inv w0) as H0.
  { subst w0. split; simpl; try done; try set_solver.
    - apply noWatchers_wf.
    - constructor.
    - by intros ch (c&?&?). }
  clear E0. induction Hr as [|w0 w1 w2 Hs _ IH]; [done|]. apply IH. by eapply local_inv_step.
Qed.

(** C25: In every interleaving of the atomic steps of concurrent calls and of the
    watchers' goroutines, as long as Watch is not called on a closed storage, no step
    panics (no send on a closed channel, no channel closed twice); a channel is open
    exactly while its context lives and Close has not been through the watchers. *)
Theorem local_storage_channels_safe nodeID w :
  rtc (lstep false) (start nodeID) w →
  (∀ why, ¬ lpanic w why) ∧
  (∀ ch, isOpen (chans (reg (ls w))) ch ↔ ¬ finished w ∧ ∃ p, Watching p ch ∈ callers w).
Proof.
  intros Hr. pose proof (local_inv_reachable nodeID w Hr) as Hinv. split.
  - clear Hr. intros why Hp. revert Hinv.
    destruct Hp as [w' c1 c2 event ch todo y E Hs|w' c1 c2 prefix ch y E Hnr Hrm|w' c1 c2 y E Hnr Hcw]; intros Hinv.
    + destruct (inv_todo w' Hinv event (ch :: todo) ch) as (p&Hp); [rewrite E; set_solver|left|].
      rewrite sendOrSkip_open in Hs; [done|]. by apply (wf_open _ (inv_wf w' Hinv) p).
    + destruct (decide (finished w')) as [Hf|Hf].
      * unfold removeWatcherAndClose in Hrm. by rewrite (inv_finished w' Hinv Hf), lookup_empty in Hrm.
      * destruct (removeWatcher_ok w' prefix ch Hinv) as (c&_&E'); [|by rewrite E' in Hrm].
        apply (inv_watching w' Hinv); [|done]. rewrite E, watchersOf_split. set_solver.
    + destruct (closeWatches_ok w' Hinv) as (l&E'&_). by rewrite E' in Hcw.
  - intros ch. split.
    + intros [p Hp]%(inv_open w Hinv). split; [|exists p; apply elem_of_watchersOf; by apply Hinv].
      intros Hf. unfold registered, channelsOf in Hp.
      rewrite (inv_finished w Hinv Hf), lookup_empty in Hp. by apply elem_of_nil in Hp.
    + intros [Hf (p&Hp)]. apply (wf_open _ (inv_wf w Hinv) p). apply (inv_watching w Hinv); [|done].
      by apply elem_of_watchersOf.
Qed.

(* ------------------------------------------------------------------ *)
(** ** A call without interference is a run of its steps *)

Lemma sends_run late data0 ws n cl cc todo cs cs' event pool :
  sendAll event todo cs = Returned cs' →
  rtc (lstep late)
    (mkWorld (mkLocal data0 (mkWatchers cs ws) n cl cc) (Notifying event todo :: pool))
    (mkWorld (mkLocal data0 (mkWatchers cs' ws) n cl cc) pool).
Proof.
  revert cs. induction todo as [|ch todo IH]; intros cs; unfold sendAll; simpl.
  { intros [= ->]. eapply rtc_l; [|apply rtc_refl]. by apply (l_unlock late (mkWorld _ _) [] pool event). }
  destruct (sendOrSkip event ch cs) as [cs1|why] eqn:E.
  - intros H. eapply rtc_l; [|by apply (IH cs1)].
    exact (l_send late (mkWorld (mkLocal data0 (mkWatchers cs ws) n cl cc) (Notifying event (ch :: todo) :: pool))
      [] pool event ch todo cs1 eq_refl E).
  - assert (∀ l, foldl (λ m ch, do! cs <- m ; sendOrSkip event ch cs) (Panicked why) l = Panicked why) as ->;
      [|done]. induction l; [done|by simpl].
Qed.

Lemma notify_run late ls ls' key event pool :
  notifyWatchers ls key event = Returned ls' →
  rtc (lstep late) (mkWorld ls (Stored key event :: pool)) (mkWorld ls' pool).
Proof.
  unfold notifyWatchers. destruct ls as [d [cs ws] n cl cc]. simpl. destruct cl.
  - intros [= <-]. eapply rtc_l; [|apply rtc_refl]. by apply (l_notify_closed late (mkWorld _ _) [] pool key event).
  - unfold notify. simpl. destruct (sendAll event _ cs) as [cs'|] eqn:E; [|done]. intros [= <-].
    eapply rtc_l; [by apply (l_notify_open late (mkWorld _ _) [] pool key event)|].
    eapply rtc_l; [by apply (l_lock late (mkWorld _ _) [] pool key event)|]. by apply sends_run.
Qed.

Lemma Set_run late ls now key value ttl r ls' pool :
  Set_ ls now key value ttl = Returned (r, ls') →
  rtc (lstep late) (mkWorld ls pool) (mkWorld ls' pool).
Proof.
  unfold Set_. intros H. destruct (notifyWatchers _ _ _) as [l|] eqn:E; simplify_eq/=.
  eapply rtc_l; [apply (l_set late (mkWorld _ _) now key value ttl)|]. by apply notify_run.
Qed.

Lemma Delete_run late ls now key r ls' pool :
  Delete ls now key = Returned (r, ls') →
  rtc (lstep late) (mkWorld ls pool) (mkWorld ls' pool).
Proof.
  unfold Delete. intros H. destruct (notifyWatchers _ _ _) as [l|] eqn:E; simplify_eq/=.
  eapply rtc_l; [apply (l_delete late (mkWorld _ _) now key)|]. by apply notify_run.
Qed.

Lemma Get_run late ls now key pool :
  rtc (lstep late) (mkWorld ls pool) (mkWorld (Get ls now key).2 pool).
Proof.
  unfold Get. destruct (data ls !! key) as [item|] eqn:E; [|apply rtc_refl].
  destruct (isExpired item now) eqn:He; simpl; [|apply rtc_refl].
  eapply rtc_l; [by apply (l_get_expired late (mkWorld _ _) key item now)|].
  eapply rtc_l; [by apply (l_get_cleanup late (mkWorld _ _) [] pool key)|]. apply rtc_refl.
Qed.

Lemma Close_run late ls ls' pool :
  noReaders pool → Close ls = Returned ls' →
  rtc (lstep late) (mkWorld ls pool) (mkWorld ls' pool).
Proof.
  intros Hnr. unfold Close. destruct (closed ls) eqn:Hc; [intros [= ->]; apply rtc_refl|].
  intros H. destruct (closeWatches (markClosed ls)) as [l|] eqn:E; simplify_eq/=.
  eapply rtc_l; [by apply (l_close late (mkWorld _ _))|].
  eapply rtc_l; [eapply (l_close_watches late (mkWorld _ _) [] pool); [done| |done]|].
  { simpl. by constructor. }
  eapply rtc_l; [by apply (l_close_clear late (mkWorld _ _) [] pool)|]. apply rtc_refl.
Qed.

(** A watcher comes, two keys change and the storage is closed: the channel
    is closed although its context lives on. *)
Lemma local_storage_channels_safe_witness :
  ∃ w, rtc (lstep false) (start "n") w ∧ finished w ∧ Watching "k" 0 ∈ callers w ∧
    (∀ why, ¬ lpanic w why) ∧ ¬ isOpen (chans (reg (ls w))) 0.
Proof.
  assert (∃ w, rtc (lstep false) (start "n") w ∧ finished w ∧ Watching "k" 0 ∈ callers w) as (w&Hr&Hf&Hw).
  { destruct (Set_ (Watch (NewLocalStorage "n") "k").2 5 "key" "v" 0) as [[r l]|] eqn:E; [|done].
    destruct (Close l) as [l2|] eqn:E2; [|vm_compute in E; by simplify_eq].
    exists (mkWorld l2 [Watching "k" 0]). split_and!; [|vm_compute in E; simplify_eq; vm_compute in E2|left].
    - eapply rtc_l; [by apply (l_watch false (start "n") "k"); [constructor|]|].
      etrans; [by eapply Set_run|]. apply Close_run; [|done]. by constructor.
    - by simplify_eq. }
  destruct (local_storage_channels_safe "n" w Hr) as [Hp Ho]. exists w. split_and!; try done.
  rewrite Ho. naive_solver.
Defined.

(* ------------------------------------------------------------------ *)
(** ** Two races *)

(** A clean-up that was decided on an expired item removes the value a later
    Set has stored for ever: both calls returned, the value is lost. *)
Lemma cleanup_loses_fresh_value :
  ∃ w, rtc (lstep false) (start "n") w ∧ callers w = [] ∧ data (ls w) !! "k" = None ∧
    ∃ w1 w2, rtc (lstep false) (start "n") w1 ∧
      data (ls w1) !! "k" = Some (mkItem "fresh" 10 0) ∧
      callers w1 = [GotExpired "k"] ∧ lstep false w1 w2 ∧ w2 = w.
Proof.
  set (w1 := mkWorld (mkLocal {["k" := mkItem "fresh" 10 0]} noWatchers "n" false ∅) [GotExpired "k"]).
  assert (rtc (lstep false) (start "n") w1) as H1.
  { transitivity (mkWorld (mkLocal {["k" := mkItem "old" 0 1]} noWatchers "n" false ∅) []).
    { by apply (Set_run false (NewLocalStorage "n") 0 "k" "old" 1 None). }
    eapply rtc_l; [by apply (l_get_expired false (mkWorld _ _) "k" (mkItem "old" 0 1) 5)|].
    by apply (Set_run false _ 10 "k" "fresh" 0 None). }
  assert (lstep false w1 (mkWorld (mkLocal ∅ noWatchers "n" false ∅) [])) as H2
    by exact (l_get_cleanup false w1 [] [] "k" eq_refl).
  eexists (mkWorld (mkLocal ∅ noWatchers "n" false ∅) []). split_and!; [by eapply rtc_r|done|done|].
  by eexists w1, _.
Qed.

(** Watch does not look at [closed], and Close forgets which channels it
    closed: after Close and a new Watch of the same prefix the end of an old
    watcher's context closes its channel a second time. *)
Lemma watch_after_close_panics :
  ∃ w, rtc (lstep true) (start "n") w ∧ lpanic w "close of closed channel".
Proof.
  set (l0 := (Watch (NewLocalStorage "n") "k").2).
  destruct (Close l0) as [l1|] eqn:E; [|vm_compute in E; done].
  exists (mkWorld (Watch l1 "k").2 [Watching "k" (Watch l1 "k").1; Watching "k" 0]). split.
  - eapply rtc_l; [by apply (l_watch true (start "n") "k"); [constructor|]|].
    transitivity (mkWorld l1 [Watching "k" 0]); [apply Close_run; [by constructor|done]|].
    eapply rtc_l; [|apply rtc_refl]. apply (l_watch true (mkWorld l1 [Watching "k" 0]) "k"); [by constructor|done].
  - vm_compute in E. injection E as <-.
    apply (lp_cancel (mkWorld _ _) [Watching "k" 1] [] "k" 0); [done|by repeat constructor|by vm_compute].
Qed.
