(* ===== verification/RaftFsm.v ===== *)
(** * RaftFsm: the state machine of services/statestorage/raft_storage.go

    Commands as they go through encoding/json, Apply, the reads with the
    clean-ups they start, snapshots and their restoration, the watchers the
    state machine keeps. Replicas that apply the same log agree, whatever is
    read from them, unless a clean-up races with a write; a restored snapshot
    has lost every value. *)

From S2P Require Import Prelude GoStd GoText Errors Storage Watch.

Local Open Scope vpa_scope.

(* ------------------------------------------------------------------ *)
(** ** Commands *)

Definition raftCommandSet : Z := 0.
Definition raftCommandDelete : Z := 1.
Definition raftCommandSetMultiple : Z := 2.

Record raftCommand := mkCommand {
  cmd_Type : Z; cmd_Key : string; cmd_Value : string; cmd_Items : gmap string string;
  cmd_TTL : Z; cmd_NodeID : string; cmd_Timestamp : Z
}.

(** What json.Unmarshal reads of what json.Marshal wrote: strings are
    coerced; of two keys that coincide the later one stays. *)
Definition itemsThroughJSON (items : gmap string string) : gmap string string :=
  foldl (λ m k, <[coerceUTF8 k := items !!! k]> m) ∅ (sortedKeys items).

Definition throughJSON (cmd : raftCommand) : raftCommand :=
  mkCommand (cmd_Type cmd) (coerceUTF8 (cmd_Key cmd)) (cmd_Value cmd) (itemsThroughJSON (cmd_Items cmd))
    (cmd_TTL cmd) (coerceUTF8 (cmd_NodeID cmd)) (cmd_Timestamp cmd).

(* ------------------------------------------------------------------ *)
(** ** The state machine *)

(** The channels are those of the storage; [fwatch] is the state machine's
    own map of watchers. *)
Record raftFSM := mkFSM { fdata : Items; fwatch : gmap string (list nat) }.

Definition createRaftFSM : raftFSM := mkFSM ∅ ∅.

Definition withFData (f : raftFSM) (d : Items) : raftFSM := mkFSM d (fwatch f).

(** A log entry as json.Unmarshal reads it. *)
Definition logData := result raftCommand.

Definition setOne (cmd : raftCommand) (data : Items) (kv : string * string) : Items :=
  <[kv.1 := mkItem kv.2 (cmd_Timestamp cmd) (cmd_TTL cmd)]> data.

Definition eventOf (cmd : raftCommand) (type : Z) (key value : string) : StateEvent :=
  mkStateEvent type key value (cmd_Timestamp cmd) (cmd_NodeID cmd).

(** The response, the state, and the notifications it starts: each runs in a
    goroutine of its own. *)
Definition Apply (f : raftFSM) (log : logData)
  : option goError * raftFSM * list (string * StateEvent) :=
  match log with
  | Err err => (Some err, f, [])
  | Ok cmd =>
      if (cmd_Type cmd =? raftCommandSet)%Z then
        (None, withFData f (setOne cmd (fdata f) (cmd_Key cmd, cmd_Value cmd)),
         [(cmd_Key cmd, eventOf cmd StateEventSet (cmd_Key cmd) (cmd_Value cmd))])
      else if (cmd_Type cmd =? raftCommandDelete)%Z then
        (None, withFData f (delete (cmd_Key cmd) (fdata f)),
         [(cmd_Key cmd, eventOf cmd StateEventDelete (cmd_Key cmd) "")])
      else if (cmd_Type cmd =? raftCommandSetMultiple)%Z then
        let items := map_to_list (cmd_Items cmd) in
        (None, withFData f (foldl (setOne cmd) (fdata f) items),
         map (λ kv, (kv.1, eventOf cmd StateEventSet kv.1 kv.2)) items)
      else (Some (EText ("unknown command type: " +:+ itoa (cmd_Type cmd))), f, [])
  end.

(** The value found, and the key whose clean-up the read starts. *)
Definition fsm_get (f : raftFSM) (now : Z) (key : string) : option string * option string :=
  match fdata f !! key with
  | Some item => if isExpired item now then (None, Some key) else (Some (it_value item), None)
  | None => (None, None)
  end.

Definition fsm_cleanup (f : raftFSM) (key : string) : raftFSM := withFData f (delete key (fdata f)).

Definition fsm_addWatcher (f : raftFSM) (keyPrefix : string) (ch : nat) : raftFSM :=
  mkFSM (fdata f) (addTo (fwatch f) keyPrefix ch).

Definition fsm_removeWatcher (f : raftFSM) (keyPrefix : string) (ch : nat) : raftFSM :=
  mkFSM (fdata f) (removeFrom (fwatch f) keyPrefix ch).

(* ------------------------------------------------------------------ *)
(** ** Snapshots *)

Definition Snapshot (f : raftFSM) (now : Z) : Items :=
  filter (λ kv, isExpired kv.2 now = false) (fdata f).

(** The snapshot as text: an object with an object per item, of which only
    the names of the members are kept. encoding/json writes the exported
    fields of a struct, and storageItem has none. *)
Definition snapshotText := list (string * list string).

Definition exportedFields (si : storageItem) : list string := [].

Definition encodeItems (data : Items) : snapshotText :=
  map (λ k, (coerceUTF8 k, match data !! k with Some si => exportedFields si | None => [] end))
    (sortedKeys data).

(** Persist, with the errors of the sink's Write and Close: the error, what
    the sink holds in the end, and whether it was cancelled. *)
Definition Persist (data : Items) (writeErr closeErr : option goError)
  : option goError * snapshotText * bool :=
  match writeErr with
  | Some err => (Some (errorf_w "failed to encode snapshot" err), [], true)
  | None => (closeErr, encodeItems data, false)
  end.

(** An item decoded from an object: json.Unmarshal finds no field to set. *)
Definition decodeItem (fields : list string) : storageItem := mkItem "" 0 0.

Definition decodeItems (text : snapshotText) : Items :=
  foldl (λ m kv, <[kv.1 := decodeItem kv.2]> m) ∅ text.

Definition Restore (f : raftFSM) (snapshot : result snapshotText) : option goError * raftFSM :=
  match snapshot with
  | Err err => (Some (errorf_w "failed to decode snapshot" err), f)
  | Ok text => (None, withFData f (decodeItems text))
  end.

(* ------------------------------------------------------------------ *)
(** ** Reads that return what is there *)

Lemma fsm_get_spec f now key :
  (fsm_get f now key).1 = itemsView (fdata f) now key ∧
  ∀ k, (fsm_get f now key).2 = Some k → k = key ∧ ∀ t, (now ≤ t)%Z → itemsView (fdata f) t key = None.
Proof.
  unfold fsm_get, itemsView. destruct (fdata f !! key) as [item|]; [|done].
  destruct (isExpired item now) eqn:E; split; try done. simpl. intros k [= <-]. split; [done|].
  intros t Ht. by rewrite (isExpired_mono item now t).
Qed.

(** The effect of an entry on the items alone. *)
Definition applyData (data : Items) (log : logData) : Items := fdata (Apply (mkFSM data ∅) log).1.2.

Lemma Apply_data f log : fdata (Apply f log).1.2 = applyData (fdata f) log ∧ fwatch (Apply f log).1.2 = fwatch f.
Proof. unfold applyData, Apply. destruct log as [cmd|]; [|done]. repeat case_match; done. Qed.

#[export] Instance setOne_same_from now cmd : Proper (same_from now ==> eq ==> same_from now) (setOne cmd).
Proof. intros d1 d2 H kv ? <-. unfold setOne. by apply insert_same_from. Qed.

Lemma setAll_same_from now cmd items d1 d2 :
  same_from now d1 d2 → same_from now (foldl (setOne cmd) d1 items) (foldl (setOne cmd) d2 items).
Proof. revert d1 d2. induction items as [|kv items IH]; intros d1 d2 H; simpl; [done|]. apply IH. by rewrite H. Qed.

#[export] Instance applyData_same_from now : Proper (same_from now ==> eq ==> same_from now) applyData.
Proof.
  intros d1 d2 H log ? <-. unfold applyData, Apply. destruct log as [cmd|]; [|done].
  repeat case_match; simpl; try done; [by apply setOne_same_from|by apply delete_same_from|].
  by apply setAll_same_from.
Qed.

Definition entryKeys (log : logData) : list string :=
  match log with Ok cmd => cmd_Key cmd :: map fst (map_to_list (cmd_Items cmd)) | Err _ => [] end.

Lemma setAll_other cmd items (d : Items) k :
  k ∉ map fst items → foldl (setOne cmd) d items !! k = d !! k.
Proof.
  revert d. induction items as [|kv items IH]; intros d Hk; simpl in *; [done|].
  rewrite IH by set_solver. unfold setOne. rewrite lookup_insert_ne; [done|set_solver].
Qed.

(** An entry leaves the other keys alone. *)
Lemma applyData_other data log k : k ∉ entryKeys log → applyData data log !! k = data !! k.
Proof.
  intros Hk. unfold applyData, Apply. destruct log as [cmd|]; [|done]. simpl in Hk.
  repeat case_match; simpl; try done.
  - unfold setOne. rewrite lookup_insert_ne; [done|set_solver].
  - rewrite lookup_delete_ne; [done|set_solver].
  - apply setAll_other. set_solver.
Qed.

(* ------------------------------------------------------------------ *)
(** ** Replicas *)

(** A state machine with the clean-ups its reads have started. *)
Record replica := mkReplica { r_fsm : raftFSM; r_pending : list string }.

Inductive revent :=
| EvApply (log : logData)
| EvGet (now : Z) (key : string)
| EvCleanup (key : string).

Fixpoint dropOne (key : string) (l : list string) : list string :=
  match l with
  | [] => []
  | k :: l' => if decide (k = key) then l' else k :: dropOne key l'
  end.

Definition rstep (r : replica) (e : revent) : replica :=
  match e with
  | EvApply log => mkReplica (Apply (r_fsm r) log).1.2 (r_pending r)
  | EvGet now key => mkReplica (r_fsm r) (option_list (fsm_get (r_fsm r) now key).2 ++ r_pending r)
  | EvCleanup key =>
      if decide (key ∈ r_pending r)
      then mkReplica (fsm_cleanup (r_fsm r) key) (dropOne key (r_pending r)) else r
  end.

Definition rrun (r : replica) (h : list revent) : replica := foldl rstep r h.

(** No entry writes a key whose clean-up is under way. *)
Fixpoint calm (r : replica) (h : list revent) : Prop :=
  match h with
  | [] => True
  | e :: h' =>
      match e with EvApply log => ∀ k, k ∈ entryKeys log → k ∉ r_pending r | _ => True end ∧
      calm (rstep r e) h'
  end.

Definition logOf (h : list revent) : list logData :=
  omap (λ e, match e with EvApply log => Some log | _ => None end) h.

(** [T] is no earlier than any read. *)
Definition readsBefore (T : Z) (h : list revent) : Prop :=
  Forall (λ e, match e with EvGet now _ => (now ≤ T)%Z | _ => True end) h.

Definition applyLog (data : Items) (log : list logData) : Items := foldl applyData data log.

Definition hidden (T : Z) (data : Items) (k : string) : Prop := ∀ t, (T ≤ t)%Z → itemsView data t k = None.

Lemma hidden_delete T (data : Items) k : hidden T data k → same_from T (delete k data) data.
Proof.
  intros Hh t j Ht. rewrite itemsView_delete. case_decide; [subst; by rewrite Hh|done].
Qed.

Lemma elem_of_dropOne key k l : k ∈ dropOne key l → k ∈ l.
Proof. induction l as [|x l IH]; simpl; [done|]. case_decide; rewrite ?elem_of_cons; naive_solver. Qed.

Lemma rrun_log T r h data :
  calm r h → readsBefore T h → same_from T (fdata (r_fsm r)) data →
  Forall (hidden T (fdata (r_fsm r))) (r_pending r) →
  same_from T (fdata (r_fsm (rrun r h))) (applyLog data (logOf h)).
Proof.
  revert r data. induction h as [|e h IH]; intros r data Hcalm Hreads Hsame Hp; [done|].
  destruct Hcalm as [He Hcalm]. apply Forall_cons in Hreads as [Ht Hreads].
  unfold rrun, logOf, applyLog in *. destruct e as [log|now key|key]; simpl in *.
  - apply (IH _ (applyData data log)); try done; simpl; rewrite (proj1 (Apply_data _ _)).
    + by rewrite Hsame.
    + rewrite Forall_forall in *. intros k Hk t Hle. unfold itemsView.
      rewrite applyData_other; [by apply (Hp k Hk t Hle)|]. intros Hin. by apply (He k Hin).
  - apply IH; try done. simpl. apply Forall_app. split; [|done].
    destruct (fsm_get_spec (r_fsm r) now key) as [_ Hg]. destruct (fsm_get (r_fsm r) now key).2 as [k|]; [|constructor].
    constructor; [|constructor]. destruct (Hg k eq_refl) as [-> Hg']. intros t Hle. apply Hg'. lia.
  - case_decide as Hin; [|by apply IH]. rewrite Forall_forall in Hp.
    pose proof (hidden_delete T _ key (Hp key Hin)) as Hd.
    apply IH; try done; simpl; [by rewrite Hd|]. apply Forall_forall. intros k Hk t Hle.
    rewrite Hd by done. apply Hp; [|done]. by eapply elem_of_dropOne.
Qed.

(** C26: Two replicas that start alike and apply the same log show the same values from
    the latest read on, whatever was read from each and whenever the clean-ups those reads
    started ran, as long as no entry writes a key that is waiting to be cleaned up. *)
Theorem replicas_agree f h1 h2 now :
  let r := mkReplica f [] in
  logOf h1 = logOf h2 → calm r h1 → calm r h2 → readsBefore now h1 → readsBefore now h2 →
  ∀ key, (fsm_get (r_fsm (rrun r h1)) now key).1 = (fsm_get (r_fsm (rrun r h2)) now key).1.
Proof.
  intros r Hlog Hc1 Hc2 Hr1 Hr2 key. rewrite !(proj1 (fsm_get_spec _ _ _)).
  rewrite (rrun_log now r h1 (fdata f)) by (done || constructor || lia).
  rewrite (rrun_log now r h2 (fdata f)) by (done || constructor || lia). by rewrite Hlog.
Qed.

(** A key that expires is read on one replica only, and cleaned up before it
    is written again. *)
Definition setEntry (key value : string) (now ttl : Z) : logData :=
  Ok (throughJSON (mkCommand raftCommandSet key value ∅ ttl "n1" now)).

Lemma replicas_agree_witness :
  let h1 := [EvApply (setEntry "k" "old" 0 1); EvGet 5 "k"; EvGet 6 "k"; EvCleanup "k"; EvCleanup "k";
             EvApply (setEntry "k" "new" 7 0)] in
  let h2 := [EvApply (setEntry "k" "old" 0 1); EvApply (setEntry "k" "new" 7 0)] in
  (fsm_get (r_fsm (rrun (mkReplica createRaftFSM []) h1)) 9 "k").1 = Some "new" ∧
  (fsm_get (r_fsm (rrun (mkReplica createRaftFSM []) h2)) 9 "k").1 = Some "new".
Proof.
  intros h1 h2.
  assert ((fsm_get (r_fsm (rrun (mkReplica createRaftFSM []) h1)) 9 "k").1
    = (fsm_get (r_fsm (rrun (mkReplica createRaftFSM []) h2)) 9 "k").1) as H.
  { apply (replicas_agree createRaftFSM h1 h2 9); [reflexivity|..].
    - vm_compute. repeat split; by intros ? _ ?%elem_of_nil.
    - vm_compute. repeat split; by intros ? _ ?%elem_of_nil.
    - repeat constructor; vm_compute; done.
    - repeat constructor. }
  rewrite H. split; vm_compute; reflexivity.
Defined.

(** The same log makes replicas disagree for ever when the clean-up started
    by a read on one of them runs after the key was written again. *)
Lemma delayed_cleanup_diverges :
  let h1 := [EvApply (setEntry "k" "old" 0 1); EvGet 5 "k"; EvApply (setEntry "k" "new" 7 0); EvCleanup "k"] in
  let h2 := [EvApply (setEntry "k" "old" 0 1); EvApply (setEntry "k" "new" 7 0)] in
  logOf h1 = logOf h2 ∧
  ∀ now, (fsm_get (r_fsm (rrun (mkReplica createRaftFSM []) h1)) now "k").1 = None ∧
         (fsm_get (r_fsm (rrun (mkReplica createRaftFSM []) h2)) now "k").1 = Some "new".
Proof. split; [reflexivity|]. intros now. split; vm_compute; reflexivity. Qed.

(* ------------------------------------------------------------------ *)
(** ** Snapshots *)

(** Keys that come through JSON are valid UTF-8. *)
Definition keysValid (d : Items) : Prop := ∀ k si, d !! k = Some si → validUTF8 k.

Lemma itemsThroughJSON_valid items k v : itemsThroughJSON items !! k = Some v → validUTF8 k.
Proof.
  unfold itemsThroughJSON.
  enough (∀ l (m : gmap string string), (∀ k v, m !! k = Some v → validUTF8 k) →
    ∀ k v, foldl (λ m k, <[coerceUTF8 k := items !!! k]> m) m l !! k = Some v → validUTF8 k) as H.
  { apply H. intros ? ?. by rewrite lookup_empty. }
  induction l as [|x l IH]; intros m Hm; simpl; [done|]. apply IH. intros j w.
  destruct (decide (j = coerceUTF8 x)) as [->|Hne]; [auto with vpa|].
  rewrite lookup_insert_ne by done. apply Hm.
Qed.

Lemma setOne_valid cmd d kv : validUTF8 kv.1 → keysValid d → keysValid (setOne cmd d kv).
Proof.
  intros Hk Hd j si. unfold setOne. destruct (decide (j = kv.1)) as [->|]; [done|].
  rewrite lookup_insert_ne by done. apply Hd.
Qed.

Lemma setAll_valid cmd items d :
  (∀ kv, kv ∈ items → validUTF8 kv.1) → keysValid d → keysValid (foldl (setOne cmd) d items).
Proof.
  revert d. induction items as [|kv l IH]; intros d Hi Hd; simpl; [done|].
  apply IH; [set_solver|]. apply setOne_valid; [apply Hi; left|done].
Qed.

Lemma applyData_valid d cmd : keysValid d → keysValid (applyData d (Ok (throughJSON cmd))).
Proof.
  intros Hd. unfold applyData, Apply. repeat case_match; simpl; try done.
  - apply setOne_valid; simpl; auto with vpa.
  - intros j si Hj. apply lookup_delete_Some in Hj as [_ Hj]. by eapply Hd.
  - apply setAll_valid; [|done].
    intros [j v] Hin%elem_of_map_to_list. by apply itemsThroughJSON_valid in Hin.
Qed.

Lemma decodeItems_lookup text k :
  decodeItems text !! k = if decide (k ∈ map fst text) then Some (mkItem "" 0 0) else None.
Proof.
  unfold decodeItems. induction text as [|kv text IH] using rev_ind; [done|].
  rewrite foldl_app, map_app. simpl. destruct (decide (k = kv.1)) as [->|Hne].
  - rewrite lookup_insert_eq, decide_True by set_solver. done.
  - rewrite lookup_insert_ne by done. rewrite IH.
    by rewrite (decide_ext (k ∈ map fst text ++ [kv.1]) (k ∈ map fst text)) by set_solver.
Qed.

Lemma encodeItems_keys data k :
  keysValid data → k ∈ map fst (encodeItems data) ↔ is_Some (data !! k).
Proof.
  intros Hv. unfold encodeItems. rewrite map_map. simpl. change (map ?f ?l) with (f <$> l).
  rewrite list_elem_of_fmap. split.
  - intros (j&->&[si Hj]%elem_of_sortedKeys). rewrite (Hv j si Hj). by exists si.
  - intros [si Hk]. exists k. by rewrite (Hv k si Hk), elem_of_sortedKeys, Hk.
Qed.

(** C27: Taking a snapshot and restoring it keeps exactly the keys that had not expired,
    leaves the watchers alone, and loses the values and lifetimes: each key then reads as
    the empty value for ever. *)
Theorem snapshot_restore f now g :
  keysValid (fdata f) →
  let '(err, text, cancelled) := Persist (Snapshot f now) None None in
  let '(err', g') := Restore g (Ok text) in
  err = None ∧ cancelled = false ∧ err' = None ∧ fwatch g' = fwatch g ∧
  ∀ t key, itemsView (fdata g') t key
    = match itemsView (fdata f) now key with Some _ => Some "" | None => None end.
Proof.
  intros Hv. simpl. split_and!; try done. intros t key. unfold itemsView at 1.
  rewrite decodeItems_lookup.
  assert (keysValid (Snapshot f now)) as Hv'.
  { intros k si Hk. apply map_lookup_filter_Some in Hk as [Hk _]. by eapply Hv. }
  unfold itemsView. destruct (fdata f !! key) as [si|] eqn:E.
  - destruct (isExpired si now) eqn:He.
    + rewrite decide_False; [done|]. rewrite encodeItems_keys by done. intros [si' Hs].
      apply map_lookup_filter_Some in Hs as [Hs Hf]. simplify_eq/=. congruence.
    + rewrite decide_True; [done|]. rewrite encodeItems_keys by done. exists si.
      by apply map_lookup_filter_Some.
  - rewrite decide_False; [done|]. rewrite encodeItems_keys by done. intros [si' Hs].
    apply map_lookup_filter_Some in Hs as [Hs _]. congruence.
Qed.

Lemma snapshot_restore_witness :
  let f := (Apply createRaftFSM (setEntry "k" "v" 0 0)).1.2 in
  (Restore createRaftFSM (Ok (Persist (Snapshot f 5) None None).1.2)).1 = None ∧
  (fsm_get f 5 "k").1 = Some "v" ∧
  itemsView (fdata (Restore createRaftFSM (Ok (Persist (Snapshot f 5) None None).1.2)).2) 9 "k" = Some "".
Proof.
  intros f. pose proof (snapshot_restore f 5 createRaftFSM) as H.
  assert (keysValid (fdata f)) as Hv.
  { apply (applyData_valid ∅). intros k si. by rewrite lookup_empty. }
  destruct (H Hv) as (_&_&E&_&Hview). split; [exact E|]. split; [vm_compute; reflexivity|].
  etrans; [exact (Hview 9%Z "k")|]. vm_compute. reflexivity.
Defined.
