(* ===== verification/RaftStorage.v ===== *)
(** * RaftStorage: services/statestorage/raft_storage.go

    The storage on top of the state machine. The raft library is the class
    [RaftLib]: its answers, and the log entries it hands to this node's state
    machine before it answers. The goroutines that notify watchers and clean
    up expired items are kept in the state until they run. *)

From Stdlib Require Import Ascii.
From S2P Require Import Prelude GoStd GoText Errors Storage Watch RaftFsm.

Local Open Scope vpa_scope.

(* ------------------------------------------------------------------ *)
(** ** The raft library *)

Inductive RaftState := Follower | Candidate | Leader | Shutdown.

#[export] Instance RaftState_eq_dec : EqDecision RaftState.
Proof. solve_decision. Defined.

Record Server := mkServer { srv_ID : string; srv_Address : string }.

(** The library calls the state machine to apply an entry or to restore a
    snapshot. *)
Inductive fsmCall := FsmApply (log : logData) | FsmRestore (snapshot : result snapshotText).

Class RaftLib (R : Type) := {
  rl_State : R → RaftState;
  rl_Leader : R → string;
  rl_LeaderWithID : R → string * string;
  (* the error of the future, and the entries applied here before it answers *)
  rl_Apply : R → raftCommand → option goError * list logData * R;
  rl_HasExistingState : R → result bool;
  rl_BootstrapCluster : R → list Server → option goError * R;
  rl_AddVoter : R → Server → option goError * R;
  rl_RemoveServer : R → string → option goError * R;
  rl_GetConfiguration : R → result (list Server);
  (* the calls of the state machine while the cluster is recovered *)
  rl_RecoverCluster : R → list Server → option goError * list fsmCall * R;
  rl_Shutdown : R → option goError * R;
  rl_TransportClose : R → option goError
}.

(** A leader whose log only this client writes to: a command that is accepted
    is applied here before the future answers. *)
Class RaftSoleLeader (R : Type) `{RaftLib R} := {
  rl_leads : R → Prop;
  rl_leads_State r : rl_leads r → rl_State r = Leader;
  rl_leads_Apply r cmd :
    rl_leads r → ∃ r', rl_Apply r cmd = (None, [Ok cmd], r') ∧ rl_leads r'
}.

(* ------------------------------------------------------------------ *)
(** ** Configuration *)

Record RaftStorageConfig := mkRaftConfig {
  rc_NodeID : string; rc_BindAddress : string; rc_DataDir : string; rc_Peers : list string;
  rc_HeartbeatTimeout : Z; rc_ElectionTimeout : Z; rc_LeaderLeaseTimeout : Z; rc_CommitTimeout : Z;
  rc_SnapshotRetention : Z; rc_SnapshotThreshold : Z; rc_TrailingLogs : Z; rc_BootstrapExpected : Z
}.

(** The fields of the library's configuration the source sets. *)
Record raftLibConfig := mkLibConfig {
  lc_LocalID : string; lc_HeartbeatTimeout : Z; lc_ElectionTimeout : Z; lc_LeaderLeaseTimeout : Z;
  lc_CommitTimeout : Z; lc_SnapshotThreshold : Z; lc_TrailingLogs : Z
}.

Definition createRaftConfig (c : RaftStorageConfig) : raftLibConfig :=
  mkLibConfig (rc_NodeID c) (rc_HeartbeatTimeout c) (rc_ElectionTimeout c) (rc_LeaderLeaseTimeout c)
    (rc_CommitTimeout c) (rc_SnapshotThreshold c) (rc_TrailingLogs c).

Section Storage.
Context {R : Type} `{HR : RaftLib R}.

Record RaftStorage := mkRaft {
  rs_raft : R;
  rs_fsm : raftFSM;
  rs_config : RaftStorageConfig;
  rs_nodeID : string;
  rs_watchChans : gmap string (list nat);
  rs_chans : list Chan;
  rs_closed : bool;
  rs_bootstrapDeferred : bool;
  rs_notifying : list (string * StateEvent);
  rs_cleaning : list string
}.

Definition withRaft (rs : RaftStorage) (r : R) : RaftStorage :=
  mkRaft r (rs_fsm rs) (rs_config rs) (rs_nodeID rs) (rs_watchChans rs) (rs_chans rs) (rs_closed rs)
    (rs_bootstrapDeferred rs) (rs_notifying rs) (rs_cleaning rs).
Definition withFSM (rs : RaftStorage) (f : raftFSM) : RaftStorage :=
  mkRaft (rs_raft rs) f (rs_config rs) (rs_nodeID rs) (rs_watchChans rs) (rs_chans rs) (rs_closed rs)
    (rs_bootstrapDeferred rs) (rs_notifying rs) (rs_cleaning rs).
Definition withDeferred (rs : RaftStorage) (b : bool) : RaftStorage :=
  mkRaft (rs_raft rs) (rs_fsm rs) (rs_config rs) (rs_nodeID rs) (rs_watchChans rs) (rs_chans rs)
    (rs_closed rs) b (rs_notifying rs) (rs_cleaning rs).
Definition withWatch (rs : RaftStorage) (m : gmap string (list nat)) (cs : list Chan) : RaftStorage :=
  mkRaft (rs_raft rs) (rs_fsm rs) (rs_config rs) (rs_nodeID rs) m cs (rs_closed rs)
    (rs_bootstrapDeferred rs) (rs_notifying rs) (rs_cleaning rs).
Definition withGoroutines (rs : RaftStorage) (ns : list (string * StateEvent)) (ks : list string)
  : RaftStorage :=
  mkRaft (rs_raft rs) (rs_fsm rs) (rs_config rs) (rs_nodeID rs) (rs_watchChans rs) (rs_chans rs)
    (rs_closed rs) (rs_bootstrapDeferred rs) ns ks.
Definition setClosed (rs : RaftStorage) : RaftStorage :=
  mkRaft (rs_raft rs) (rs_fsm rs) (rs_config rs) (rs_nodeID rs) (rs_watchChans rs) (rs_chans rs) true
    (rs_bootstrapDeferred rs) (rs_notifying rs) (rs_cleaning rs).

(* ------------------------------------------------------------------ *)
(** ** Reads *)

Definition startCleanup (rs : RaftStorage) (key : option string) : RaftStorage :=
  withGoroutines rs (rs_notifying rs) (option_list key ++ rs_cleaning rs).

Definition Get (rs : RaftStorage) (now : Z) (key : string) : result string * RaftStorage :=
  if rs_closed rs then (Err (EApp ErrStorageClosed), rs)
  else
    let '(value, cleanup) := fsm_get (rs_fsm rs) now key in
    (match value with Some v => Ok v | None => Err (EApp ErrKeyNotFound) end, startCleanup rs cleanup).

Definition getInto (now : Z) (acc : gmap string string * RaftStorage) (key : string)
  : gmap string string * RaftStorage :=
  let '(value, cleanup) := fsm_get (rs_fsm acc.2) now key in
  (match value with Some v => <[key := v]> acc.1 | None => acc.1 end, startCleanup acc.2 cleanup).

Definition GetMultiple (rs : RaftStorage) (now : Z) (keys : list string)
  : result (gmap string string) * RaftStorage :=
  if rs_closed rs then (Err (EApp ErrStorageClosed), rs)
  else let '(m, rs) := foldl (getInto now) (∅, rs) keys in (Ok m, rs).

Definition Ping (rs : RaftStorage) (now : Z) : option goError :=
  if rs_closed rs then Some (EApp ErrStorageClosed)
  else if decide (rl_State (rs_raft rs) = Shutdown) then Some (EText "raft is shutdown")
  else None.

(* ------------------------------------------------------------------ *)
(** ** Writes *)

Definition leaderError (rs : RaftStorage) (operation : string) : option goError :=
  if decide (rl_State (rs_raft rs) = Leader) then None
  else
    let leader := rl_Leader (rs_raft rs) in
    if String.eqb leader "" then Some (EText ("no leader available for " +:+ operation +:+ " operation"))
    else Some (EText ("not leader, current leader: " +:+ leader)).

(** The state machine applies an entry and starts its notifications. *)
Definition applyEntry (rs : RaftStorage) (log : logData) : RaftStorage :=
  let '(_, f, notifications) := Apply (rs_fsm rs) log in
  withGoroutines (withFSM rs f) (rs_notifying rs ++ notifications) (rs_cleaning rs).

(** json.Marshal cannot fail on a command, whose timestamp is time.Now(). *)
Definition write (rs : RaftStorage) (operation failure : string) (cmd : raftCommand)
  : option goError * RaftStorage :=
  if rs_closed rs then (Some (EApp ErrStorageClosed), rs)
  else
    match leaderError rs operation with
    | Some err => (Some err, rs)
    | None =>
        let '(applyErr, entries, r) := rl_Apply (rs_raft rs) (throughJSON cmd) in
        let rs := foldl applyEntry (withRaft rs r) entries in
        (match applyErr with Some err => Some (errorf_w failure err) | None => None end, rs)
    end.

Definition Set_ (rs : RaftStorage) (now : Z) (key value : string) (ttl : Z) : option goError * RaftStorage :=
  write rs "write" "failed to apply raft command"
    (mkCommand raftCommandSet key value ∅ ttl (rs_nodeID rs) now).

Definition Delete (rs : RaftStorage) (now : Z) (key : string) : option goError * RaftStorage :=
  write rs "delete" "failed to apply raft command"
    (mkCommand raftCommandDelete key "" ∅ 0 (rs_nodeID rs) now).

Definition SetMultiple (rs : RaftStorage) (now : Z) (items : gmap string string) (ttl : Z)
  : option goError * RaftStorage :=
  write rs "bulk write" "failed to apply bulk raft command"
    (mkCommand raftCommandSetMultiple "" "" items ttl (rs_nodeID rs) now).

(* ------------------------------------------------------------------ *)
(** ** Watchers and goroutines *)

Definition Watch (rs : RaftStorage) (keyPrefix : string) : result nat * RaftStorage :=
  if rs_closed rs then (Err (EApp ErrStorageClosed), rs)
  else
    let ch := length (rs_chans rs) in
    let rs := withWatch rs (addTo (rs_watchChans rs) keyPrefix ch) (rs_chans rs ++ [mkChan [] false]) in
    (Ok ch, withFSM rs (fsm_addWatcher (rs_fsm rs) keyPrefix ch)).

(** The goroutine of a watcher, once its context is done. *)
Definition removeWatcherAndClose (rs : RaftStorage) (keyPrefix : string) (ch : nat) : outcome RaftStorage :=
  let rs := withWatch rs (removeFrom (rs_watchChans rs) keyPrefix ch) (rs_chans rs) in
  let rs := withFSM rs (fsm_removeWatcher (rs_fsm rs) keyPrefix ch) in
  do! cs <- drainOrClose ch (rs_chans rs) ;
  Returned (withWatch rs (rs_watchChans rs) cs).

(** The state machine's watchers with the channels. *)
Definition fsmWatchers (rs : RaftStorage) : Watchers := mkWatchers (rs_chans rs) (fwatch (rs_fsm rs)).

(** A notification runs. *)
Definition runNotification (rs : RaftStorage) (n : string * StateEvent) : outcome RaftStorage :=
  do! w <- notify (fsmWatchers rs) n.1 n.2 ; Returned (withWatch rs (rs_watchChans rs) (chans w)).

(** A clean-up runs. *)
Definition runCleanup (rs : RaftStorage) (key : string) : RaftStorage :=
  withFSM rs (fsm_cleanup (rs_fsm rs) key).

(** Every goroutine under way runs, with nothing in between. *)
Definition settle (rs : RaftStorage) : outcome RaftStorage :=
  do! rs' <- foldl (λ m n, do! rs <- m ; runNotification rs n) (Returned rs) (rs_notifying rs) ;
  Returned (withGoroutines (foldl runCleanup rs' (rs_cleaning rs)) [] []).

(** closeAllWatchers: first the storage's own map, then the state machine's. *)
Definition closeOwnWatchers (rs : RaftStorage) : outcome RaftStorage :=
  do! cs <- drainAll (allChannels (mkWatchers (rs_chans rs) (rs_watchChans rs))) (rs_chans rs) ;
  Returned (withWatch rs ∅ cs).

Definition closeFSMWatchers (rs : RaftStorage) : outcome RaftStorage :=
  do! cs <- drainAll (allChannels (fsmWatchers rs)) (rs_chans rs) ;
  Returned (withFSM (withWatch rs (rs_watchChans rs) cs) (mkFSM (fdata (rs_fsm rs)) ∅)).

Definition closeAllWatchers (rs : RaftStorage) : outcome RaftStorage :=
  do! rs <- closeOwnWatchers rs ; closeFSMWatchers rs.

(** The error of raft's Shutdown is only logged. *)
Definition Close (rs : RaftStorage) : outcome (option goError * RaftStorage) :=
  if rs_closed rs then Returned (None, rs)
  else
    do! rs <- closeAllWatchers (setClosed rs) ;
    let rs := withRaft rs (rl_Shutdown (rs_raft rs)).2 in
    Returned (match rl_TransportClose (rs_raft rs) with
              | Some err => Some (EText ("errors during close: [" +:+
                                    Error (errorf_w "transport close error" err) +:+ "]"))
              | None => None
              end, rs).

(* ------------------------------------------------------------------ *)
(** ** Bootstrap and membership *)

Definition DefaultRaftMinPeerParts : nat := 2.

Definition self (c : RaftStorageConfig) : Server := mkServer (rc_NodeID c) (rc_BindAddress c).

(** A configured peer, "nodeID:address", unless it is this node or has no
    colon. *)
Definition peerServer (c : RaftStorageConfig) (peer : string) : option Server :=
  if String.eqb peer (rc_NodeID c +:+ ":" +:+ rc_BindAddress c) then None
  else
    let parts := Split peer ":"%char in
    if (DefaultRaftMinPeerParts <=? length parts)%nat
    then Some (mkServer (default "" (parts !! 0)) (Join (drop 1 parts) ":"))
    else None.

Definition staticServers (c : RaftStorageConfig) : list Server := self c :: omap (peerServer c) (rc_Peers c).

Definition bootstrap (rs : RaftStorage) (servers : list Server) (failure : string)
  : option goError * RaftStorage :=
  let '(err, r) := rl_BootstrapCluster (rs_raft rs) servers in
  (match err with Some err => Some (errorf_w failure err) | None => None end, withRaft rs r).

Definition bootstrapWithStaticPeers (rs : RaftStorage) : option goError * RaftStorage :=
  match staticServers (rs_config rs) with
  | [] => (Some (EText "no valid servers to bootstrap cluster"), rs)
  | servers => bootstrap rs servers "failed to bootstrap cluster"
  end.

(** Only this node: the discovered peers join later. *)
Definition bootstrapWithDiscoveredPeers (rs : RaftStorage) (discoveredPeers : list string)
  : option goError * RaftStorage :=
  bootstrap rs [self (rs_config rs)] "failed to bootstrap cluster".

Definition bootstrapSingleNode (rs : RaftStorage) : option goError * RaftStorage :=
  bootstrap rs [self (rs_config rs)] "failed to bootstrap single-node cluster".

Definition maybeBootstrap (rs : RaftStorage) : option goError * RaftStorage := (None, withDeferred rs true).

Definition bootstrapCluster (rs : RaftStorage) : option goError * RaftStorage :=
  match rl_HasExistingState (rs_raft rs) with
  | Err err => (Some (errorf_w "failed to check existing state" err), rs)
  | Ok true => (None, rs)
  | Ok false =>
      if bool_decide (rc_Peers (rs_config rs) ≠ []) then bootstrapWithStaticPeers rs
      else if (0 <? rc_BootstrapExpected (rs_config rs))%Z then maybeBootstrap rs
      else bootstrapSingleNode rs
  end.

Definition TryDelayedBootstrap (rs : RaftStorage) (discoveredPeers : list string)
  : option goError * RaftStorage :=
  if negb (rs_bootstrapDeferred rs) then (None, rs)
  else
    let totalPeers := (Z.of_nat (length discoveredPeers) + 1)%Z in
    if (totalPeers <? rc_BootstrapExpected (rs_config rs))%Z then (None, rs)
    else bootstrapWithDiscoveredPeers (withDeferred rs false) discoveredPeers.

Definition IsLeader (rs : RaftStorage) : bool := bool_decide (rl_State (rs_raft rs) = Leader).

Definition AddVoter (rs : RaftStorage) (nodeID address : string) : option goError * RaftStorage :=
  if negb (IsLeader rs) then (Some (EText "only leader can add voters"), rs)
  else
    let '(err, r) := rl_AddVoter (rs_raft rs) (mkServer nodeID address) in
    (match err with Some err => Some (errorf_w "failed to add voter" err) | None => None end, withRaft rs r).

Definition RemoveServer (rs : RaftStorage) (nodeID : string) : option goError * RaftStorage :=
  if negb (IsLeader rs) then (Some (EText "only leader can remove servers"), rs)
  else
    let '(err, r) := rl_RemoveServer (rs_raft rs) nodeID in
    (match err with Some err => Some (errorf_w "failed to remove server" err) | None => None end, withRaft rs r).

Definition GetLeader (rs : RaftStorage) : string * string :=
  let '(leaderAddr, leaderID) := rl_LeaderWithID (rs_raft rs) in (leaderID, leaderAddr).

Definition GetPeers (rs : RaftStorage) : result (list string) :=
  match rl_GetConfiguration (rs_raft rs) with
  | Err err => Err (errorf_w "failed to get raft configuration" err)
  | Ok servers => Ok (map srv_ID servers)
  end.

Definition runFsmCall (rs : RaftStorage) (c : fsmCall) : RaftStorage :=
  match c with
  | FsmApply log => applyEntry rs log
  | FsmRestore snapshot => withFSM rs (Restore (rs_fsm rs) snapshot).2
  end.

Definition ForceRecoverCluster (rs : RaftStorage) (nodeID address : string) : option goError * RaftStorage :=
  let '(err, calls, r) := rl_RecoverCluster (rs_raft rs) [mkServer nodeID address] in
  (match err with Some err => Some (errorf_w "emergency cluster recovery failed" err) | None => None end,
   foldl runFsmCall (withRaft rs r) calls).
End Storage.

Arguments RaftStorage : clear implicits.

(* ------------------------------------------------------------------ *)
(** ** Construction *)

Inductive resource := Transport | LogStore | StableStore.

#[export] Instance resource_eq_dec : EqDecision resource.
Proof. solve_decision. Defined.

(** What the calls NewRaftStorage makes answer. *)
Record openings (R : Type) := mkOpenings {
  op_mkdir : option goError; op_resolve : option goError; op_transport : option goError;
  op_logStore : option goError; op_stableStore : option goError; op_snapStore : option goError;
  op_raft : result R
}.
Arguments mkOpenings {R}.
Arguments op_mkdir {R}.
Arguments op_resolve {R}.
Arguments op_transport {R}.
Arguments op_logStore {R}.
Arguments op_stableStore {R}.
Arguments op_snapStore {R}.
Arguments op_raft {R}.

Section Construction.
Context {R : Type} `{HR : RaftLib R}.

(** The error and what it leaves open. *)
Definition createRaftTransport (o : openings R) : option goError * list resource :=
  match op_resolve o with
  | Some err => (Some (errorf_w "failed to resolve bind address" err), [])
  | None =>
      match op_transport o with
      | Some err => (Some (errorf_w "failed to create transport" err), [])
      | None => (None, [Transport])
      end
  end.

Definition createRaftStores (o : openings R) : option goError * list resource :=
  match op_logStore o with
  | Some err => (Some (errorf_w "failed to create log store" err), [])
  | None =>
      match op_stableStore o with
      | Some err => (Some (errorf_w "failed to create stable store" err), list_difference [LogStore] [LogStore])
      | None =>
          match op_snapStore o with
          | Some err => (Some (errorf_w "failed to create snapshot store" err),
                         list_difference [LogStore; StableStore] [LogStore; StableStore])
          | None => (None, [LogStore; StableStore])
          end
      end
  end.

(** cleanupStores closes everything. *)
Definition cleanupStores (opened : list resource) : list resource :=
  list_difference opened [Transport; LogStore; StableStore].

(** The storage or the error, and the resources that are open in the end;
    raft's Shutdown is the library's. *)
Definition NewRaftStorage (c : RaftStorageConfig) (o : openings R)
  : outcome (result (RaftStorage R) * list resource) :=
  match op_mkdir o with
  | Some err => Returned (Err (errorf_w "failed to create data directory" err), [])
  | None =>
      let '(err, transport) := createRaftTransport o in
      match err with
      | Some err => Returned (Err (errorf_w "failed to create transport" err), transport)
      | None =>
          let '(err, stores) := createRaftStores o in
          match err with
          | Some err => Returned (Err err, list_difference (transport ++ stores) [Transport])
          | None =>
              let opened := transport ++ stores in
              match op_raft o with
              | Err err => Returned (Err (errorf_w "failed to create raft instance" err), cleanupStores opened)
              | Ok r =>
                  let rs := mkRaft r createRaftFSM c (rc_NodeID c) ∅ [] false false [] [] in
                  let '(bootstrapErr, rs) := bootstrapCluster rs in
                  match bootstrapErr with
                  | Some err =>
                      do! _ <- Close rs ;
                      Returned (Err (errorf_w "failed to bootstrap cluster" err),
                                list_difference opened [Transport])
                  | None => Returned (Ok rs, opened)
                  end
              end
          end
      end
  end.
End Construction.

(* ------------------------------------------------------------------ *)
(** ** On a leader it meets the specification of a storage

    when the goroutines a call starts run before the next call. *)

Definition settleRead {A R} (r : A * RaftStorage R) : A * RaftStorage R :=
  (r.1, withGoroutines (foldl runCleanup r.2 (rs_cleaning r.2)) (rs_notifying r.2) []).

Definition settleWrite {R} (r : option goError * RaftStorage R) : outcome (option goError * RaftStorage R) :=
  do! rs <- settle r.2 ; Returned (r.1, rs).

#[global] Arguments settleRead : simpl never.
#[global] Arguments settleWrite : simpl never.

#[global] Instance RaftStorage_StateStorage {R} `{RaftLib R} : StateStorage (RaftStorage R) := {
  ss_Get rs now key := settleRead (Get rs now key);
  ss_Set rs now key value ttl := settleWrite (Set_ rs now key value ttl);
  ss_Delete rs now key := settleWrite (Delete rs now key);
  ss_GetMultiple rs now keys := settleRead (GetMultiple rs now keys);
  ss_SetMultiple rs now items ttl := settleWrite (SetMultiple rs now items ttl);
  ss_Ping := Ping
}.

Section Spec.
Context {R : Type} `{HR : RaftLib R, HL : !RaftSoleLeader R}.
Notation RaftStorage := (RaftStorage R).

(** Open, leading, nothing under way, and the watchers of the state machine
    are well formed. *)
Record raft_ok (rs : RaftStorage) : Prop := {
  ok_open : rs_closed rs = false;
  ok_leads : rl_leads (rs_raft rs);
  ok_notifying : rs_notifying rs = [];
  ok_cleaning : rs_cleaning rs = [];
  ok_watchers : watch_wf (fsmWatchers rs)
}.

Definition raft_data (rs : RaftStorage) : Items := fdata (rs_fsm rs).

Lemma runCleanup_all (rs : RaftStorage) keys :
  foldl runCleanup rs keys = withFSM rs (mkFSM (foldl (λ d k, delete k d) (raft_data rs) keys) (fwatch (rs_fsm rs))).
Proof.
  revert rs. induction keys as [|k keys IH]; intros rs; [by destruct rs as [? []]|]. simpl. by rewrite IH.
Qed.

Lemma delete_hidden now keys (d : Items) :
  Forall (hidden now d) keys → same_from now (foldl (λ d k, delete k d) d keys) d.
Proof.
  revert d. induction keys as [|k keys IH]; intros d Hk; [done|]. apply Forall_cons in Hk as [Hk Hks]. simpl.
  pose proof (hidden_delete now d k Hk) as Hd. etrans; [apply IH|exact Hd].
  eapply Forall_impl; [exact Hks|]. intros j Hj t Ht. rewrite Hd by done. by apply Hj.
Qed.

(** Settling after a read whose clean-ups are of expired keys. *)
Lemma settleRead_spec {A} (a : A) rs now ks :
  raft_ok rs → Forall (hidden now (raft_data rs)) ks →
  (settleRead (a, withGoroutines rs (rs_notifying rs) ks)).1 = a ∧
  raft_ok (settleRead (a, withGoroutines rs (rs_notifying rs) ks)).2 ∧
  same_from now (raft_data (settleRead (a, withGoroutines rs (rs_notifying rs) ks)).2) (raft_data rs).
Proof.
  intros [] Hks. unfold settleRead. simpl. rewrite runCleanup_all. split_and!; [done|by split|].
  by apply delete_hidden.
Qed.

Lemma getInto_spec now (rs : RaftStorage) keys m ks :
  Forall (hidden now (raft_data rs)) ks →
  ∃ ks', foldl (getInto now) (m, withGoroutines rs (rs_notifying rs) ks) keys =
    (foldl (λ m k, match itemsView (raft_data rs) now k with Some v => <[k:=v]> m | None => m end) m keys,
     withGoroutines rs (rs_notifying rs) ks') ∧ Forall (hidden now (raft_data rs)) ks'.
Proof.
  revert m ks. induction keys as [|k keys IH]; intros m ks Hks; [by exists ks|]. simpl.
  unfold getInto at 2. simpl. destruct (fsm_get_spec (rs_fsm rs) now k) as [Hv Hc].
  unfold raft_data. rewrite <- Hv. destruct (fsm_get (rs_fsm rs) now k) as [v c]. simpl in *.
  apply IH. apply Forall_app. split; [|done]. destruct c as [k'|]; constructor; [|constructor].
  by destruct (Hc k' eq_refl) as [-> ?].
Qed.

Lemma runNotifications_spec l (rs : RaftStorage) :
  watch_wf (fsmWatchers rs) →
  ∃ cs, foldl (λ m n, do! rs <- m ; runNotification rs n) (Returned rs) l
      = Returned (withWatch rs (rs_watchChans rs) cs) ∧
    watch_wf (mkWatchers cs (fwatch (rs_fsm rs))).
Proof.
  revert rs. induction l as [|n l IH]; intros rs Hw; simpl; [exists (rs_chans rs); by destruct rs|].
  unfold runNotification at 2. destruct (notify_wf _ n.1 n.2 Hw) as (cs&->&Hw'&_). simpl.
  by apply (IH (withWatch rs (rs_watchChans rs) cs)).
Qed.

(** A write on a leader: accepted, applied, and no notification panics. *)
Lemma write_ok rs operation failure cmd :
  raft_ok rs →
  ∃ rs', settleWrite (write rs operation failure cmd) = Returned (None, rs') ∧ raft_ok rs' ∧
    raft_data rs' = applyData (raft_data rs) (Ok (throughJSON cmd)).
Proof.
  intros [Ho Hl Hn Hc Hw]. unfold write. rewrite Ho. unfold leaderError. rewrite rl_leads_State by done.
  rewrite decide_True by done. destruct (rl_leads_Apply (rs_raft rs) (throughJSON cmd) Hl) as (r'&->&Hl').
  change (foldl applyEntry ?a [?e]) with (applyEntry a e). unfold applyEntry.
  change (rs_fsm (withRaft rs r')) with (rs_fsm rs).
  pose proof (Apply_data (rs_fsm rs) (Ok (throughJSON cmd))) as [Hd Hf].
  destruct (Apply (rs_fsm rs) (Ok (throughJSON cmd))) as [[resp f] ns]. simpl in *.
  unfold settleWrite, settle. simpl. rewrite Hn, Hc. simpl.
  match goal with |- context [foldl _ (Returned ?s) ns] => destruct (runNotifications_spec ns s) as (cs&->&Hw') end.
  { unfold fsmWatchers. simpl. by rewrite Hf. }
  simpl. eexists. split; [done|]. split; [by split|done].
Qed.

Lemma raft_ok_view rs : raft_ok rs → rs = withGoroutines rs (rs_notifying rs) [].
Proof. intros []. destruct rs. simpl in *. by subst. Qed.

Lemma setAll_view cmd (m : gmap string string) (d : Items) now t k :
  cmd_Timestamp cmd = now → itemTTL (cmd_TTL cmd) → (now ≤ t)%Z →
  match m !! k with
  | Some v => writeShows v (cmd_TTL cmd) (t - now) (itemsView (foldl (setOne cmd) d (map_to_list m)) t k)
  | None => itemsView (foldl (setOne cmd) d (map_to_list m)) t k = itemsView d t k
  end.
Proof.
  intros Hts Httl Ht. 
  replace (m !! k) with ((list_to_map (map_to_list m) : gmap string string) !! k) by (by rewrite list_to_map_to_list).
  pose proof (NoDup_fst_map_to_list m) as Hnd. revert d. induction (map_to_list m) as [|kv l IH]; intros d; [done|].
  apply NoDup_cons in Hnd as [Hno Hnd]. simpl. specialize (IH Hnd (setOne cmd d kv)).
  destruct (decide (k = kv.1)) as [->|Hne].
  - rewrite lookup_insert_eq. rewrite not_elem_of_list_to_map_1 in IH by done. rewrite IH.
    unfold setOne. rewrite Hts. by apply itemsView_insert.
  - rewrite lookup_insert_ne by done. case_match; [done|]. rewrite IH. by apply itemsView_insert_ne.
Qed.

(** Valid keys come through JSON as they are. *)
Lemma itemsThroughJSON_id items :
  (∀ k v, items !! k = Some v → validUTF8 k) → itemsThroughJSON items = items.
Proof.
  intros Hv. apply (foldl_sortedKeys items coerceUTF8 (λ k, items !!! k)). intros k v Hk.
  split; [by eapply Hv|]. by rewrite lookup_total_alt, Hk.
Qed.

#[global] Instance RaftStorage_StateStorageSpec : StateStorageSpec RaftStorage.
Proof.
  refine {| ss_ok := raft_ok; ss_view rs := itemsView (raft_data rs); ss_ttl := itemTTL; ss_key := validUTF8 |}.
  - intros rs now key Hok. cbn [ss_Get RaftStorage_StateStorage]. unfold Get. rewrite (ok_open rs Hok).
    destruct (fsm_get_spec (rs_fsm rs) now key) as [Hv Hc].
    destruct (fsm_get (rs_fsm rs) now key) as [v c]. cbn [fst snd] in *. unfold startCleanup. rewrite (ok_cleaning rs Hok).
    destruct (settleRead_spec (match v with Some v => Ok v | None => Err (EApp ErrKeyNotFound) end) rs now
      (option_list c ++ []) Hok) as (Ha&Hok'&Hs).
    { rewrite app_nil_r. destruct c as [k|]; constructor; [|constructor]. by destruct (Hc k eq_refl) as [-> ?]. }
    destruct (settleRead _) as [a rs']. cbn [fst snd] in *. split; [|split; [done|apply Hs]].
    unfold raft_data. rewrite <- Hv, Ha. by destruct v.
  - intros rs now keys Hok. cbn [ss_GetMultiple RaftStorage_StateStorage]. unfold GetMultiple. rewrite (ok_open rs Hok).
    destruct (getInto_spec now rs keys ∅ []) as (ks&E&Hks); [constructor|]. rewrite <- raft_ok_view in E by done.
    rewrite E. destruct (settleRead_spec (Ok (foundOf (itemsView (raft_data rs) now) keys)) rs now ks Hok Hks)
      as (Ha&Hok'&Hs). unfold foundOf in Ha. destruct (settleRead _) as [a rs']. cbn [fst snd] in *.
    split; [done|]. split; [done|apply Hs].
  - intros rs now key value ttl Hok Httl Hk. simpl. unfold Set_.
    destruct (write_ok rs "write" "failed to apply raft command"
      (mkCommand raftCommandSet key value ∅ ttl (rs_nodeID rs) now) Hok) as (rs'&->&Hok'&Hd).
    exists rs'. do 2 (split; [done|]). intros t Ht. rewrite Hd. unfold applyData. simpl. rewrite Hk.
    split; [by apply itemsView_insert|]. intros k Hne. by apply itemsView_insert_ne.
  - intros rs now key Hok Hk. simpl. unfold Delete.
    destruct (write_ok rs "delete" "failed to apply raft command"
      (mkCommand raftCommandDelete key "" ∅ 0 (rs_nodeID rs) now) Hok) as (rs'&->&Hok'&Hd).
    exists rs'. do 2 (split; [done|]). intros t k Ht. rewrite Hd. unfold applyData. simpl. rewrite Hk.
    apply itemsView_delete.
  - intros rs now items ttl Hok Httl Hk. simpl. unfold SetMultiple.
    destruct (write_ok rs "bulk write" "failed to apply bulk raft command"
      (mkCommand raftCommandSetMultiple "" "" items ttl (rs_nodeID rs) now) Hok) as (rs'&->&Hok'&Hd).
    exists rs'. do 2 (split; [done|]). intros t k Ht. rewrite Hd. unfold applyData. simpl.
    rewrite itemsThroughJSON_id by done. by apply (setAll_view (mkCommand _ _ _ _ ttl _ now)).
  - intros rs now Hok. simpl. unfold Ping. rewrite (ok_open rs Hok), rl_leads_State by apply Hok.
    by rewrite decide_False.
Defined.
End Spec.

(* ------------------------------------------------------------------ *)
(** ** A raft library for one node *)

Record soloRaft := mkSolo { so_state : RaftState; so_servers : list Server; so_entries : list raftCommand }.

#[global] Instance soloRaft_lib : RaftLib soloRaft := {
  rl_State := so_state;
  rl_Leader r := if decide (so_state r = Leader) then "127.0.0.1:9000" else "";
  rl_LeaderWithID r := ("127.0.0.1:9000", "n1");
  rl_Apply r cmd := (None, [Ok cmd], mkSolo (so_state r) (so_servers r) (so_entries r ++ [cmd]));
  rl_HasExistingState r := Ok (bool_decide (so_servers r ≠ []));
  rl_BootstrapCluster r servers :=
    match so_servers r with
    | [] => (None, mkSolo Leader servers (so_entries r))
    | _ => (Some (EText "bootstrap only works on new clusters"), r)
    end;
  rl_AddVoter r s := (None, mkSolo (so_state r) (so_servers r ++ [s]) (so_entries r));
  rl_RemoveServer r id := (None, mkSolo (so_state r) (filter (λ s, srv_ID s ≠ id) (so_servers r)) (so_entries r));
  rl_GetConfiguration r := Ok (so_servers r);
  rl_RecoverCluster r servers := (None, map (λ c, FsmApply (Ok c)) (so_entries r), mkSolo (so_state r) servers (so_entries r));
  rl_Shutdown r := (None, mkSolo Shutdown (so_servers r) (so_entries r));
  rl_TransportClose r := None
}.

#[global] Instance soloRaft_leader : RaftSoleLeader soloRaft.
Proof.
  refine {| rl_leads r := so_state r = Leader |}; [done|].
  intros r cmd Hr. simpl. by eexists.
Defined.

Definition sampleRaftConfig (peers : list string) (expected : Z) : RaftStorageConfig :=
  mkRaftConfig "n1" "127.0.0.1:9000" "/data" peers Second Second Second Second 3 1024 1024 expected.

Definition allOpened : openings soloRaft := mkOpenings None None None None None None (Ok (mkSolo Follower [] [])).

(** A new single node is usable at once. *)
Lemma NewRaftStorage_ok :
  match NewRaftStorage (sampleRaftConfig [] 0) allOpened with
  | Returned (Ok rs, opened) => raft_ok rs ∧ opened = [Transport; LogStore; StableStore]
  | _ => False
  end.
Proof. simpl. split; [|done]. split; try done. apply noWatchers_wf. Qed.

(* ------------------------------------------------------------------ *)
(** ** Refusals *)

Section Refusals.
Context {R : Type} `{HR : RaftLib R}.
Notation RaftStorage := (RaftStorage R).

(** A write on a closed storage or on a node that does not lead fails, names
    the leader if there is one, and changes nothing. *)
Lemma write_refused (rs : RaftStorage) operation failure cmd :
  rs_closed rs = true ∨ rl_State (rs_raft rs) ≠ Leader →
  ∃ err, write rs operation failure cmd = (Some err, rs) ∧
    err = if rs_closed rs then EApp ErrStorageClosed
          else if String.eqb (rl_Leader (rs_raft rs)) ""
          then EText ("no leader available for " +:+ operation +:+ " operation")
          else EText ("not leader, current leader: " +:+ rl_Leader (rs_raft rs)).
Proof.
  intros H. unfold write, leaderError. destruct (rs_closed rs); [by eexists|].
  destruct H as [?|H]; [done|]. rewrite decide_False by done.
  destruct (String.eqb _ _); by eexists.
Qed.

(** On a closed storage every operation fails. *)
Lemma closed_refuses (rs : RaftStorage) now key value ttl keys items :
  rs_closed rs = true →
  Get rs now key = (Err (EApp ErrStorageClosed), rs) ∧
  GetMultiple rs now keys = (Err (EApp ErrStorageClosed), rs) ∧
  Set_ rs now key value ttl = (Some (EApp ErrStorageClosed), rs) ∧
  Delete rs now key = (Some (EApp ErrStorageClosed), rs) ∧
  SetMultiple rs now items ttl = (Some (EApp ErrStorageClosed), rs) ∧
  Watch rs key = (Err (EApp ErrStorageClosed), rs) ∧
  Ping rs now = Some (EApp ErrStorageClosed) ∧
  Close rs = Returned (None, rs).
Proof.
  intros Hc. unfold Get, GetMultiple, Set_, Delete, SetMultiple, write, Watch, Ping, Close.
  by rewrite Hc.
Qed.

(* ---------------------------------------------------------------- *)
(** ** Bootstrap *)

(** A peer "nodeID:address" other than this node, whose ID has no colon, is
    the server of that ID and address. *)
Lemma peerServer_roundtrip c s :
  hasByte (srv_ID s) ":"%char = false →
  srv_ID s +:+ ":" +:+ srv_Address s ≠ rc_NodeID c +:+ ":" +:+ rc_BindAddress c →
  peerServer c (srv_ID s +:+ ":" +:+ srv_Address s) = Some s.
Proof.
  intros Hid Hne. unfold peerServer.
  destruct (String.eqb_spec (srv_ID s +:+ ":" +:+ srv_Address s) (rc_NodeID c +:+ ":" +:+ rc_BindAddress c)); [done|].
  assert (Split (srv_ID s +:+ ":" +:+ srv_Address s) ":"%char = srv_ID s :: Split (srv_Address s) ":"%char) as ->
    by exact (Split_first (srv_ID s) (srv_Address s) ":"%char Hid).
  pose proof (splitBytes_ne ":"%char [] (String.list_ascii_of_string (srv_Address s))) as Hn.
  pose proof (Join_Split (srv_Address s) ":"%char) as Hj.
  unfold Split in *. destruct (splitBytes _ _ _) as [|a l]; [done|]. destruct s as [id addr]. simpl in *.
  by rewrite <- Hj.
Qed.

(** The cluster is bootstrapped at once unless discovery was asked for; this
    node is always among the servers, and every configured peer with a colon
    is one of them. *)
Lemma bootstrapCluster_servers (rs : RaftStorage) :
  rl_HasExistingState (rs_raft rs) = Ok false →
  if bool_decide (rc_Peers (rs_config rs) = []) && (0 <? rc_BootstrapExpected (rs_config rs))%Z
  then bootstrapCluster rs = (None, withDeferred rs true)
  else ∃ failure, bootstrapCluster rs = bootstrap rs (staticServers (rs_config rs)) failure.
Proof.
  intros He. unfold bootstrapCluster. rewrite He. destruct (rc_Peers (rs_config rs)) as [|p l] eqn:Hp; simpl.
  - destruct (0 <? _)%Z; [done|]. exists "failed to bootstrap single-node cluster".
    unfold staticServers. by rewrite Hp.
  - exists "failed to bootstrap cluster". done.
Qed.

(** A delayed bootstrap happens at the first call with enough peers; when it
    fails, no later call tries again. *)
Lemma TryDelayedBootstrap_once (rs : RaftStorage) peers peers' :
  rs_bootstrapDeferred rs = true →
  (rc_BootstrapExpected (rs_config rs) ≤ Z.of_nat (length peers) + 1)%Z →
  let '(err, rs') := TryDelayedBootstrap rs peers in
  (err, rs') = bootstrap (withDeferred rs false) [self (rs_config rs)] "failed to bootstrap cluster" ∧
  TryDelayedBootstrap rs' peers' = (None, rs').
Proof.
  intros Hd He. unfold TryDelayedBootstrap at 1. rewrite Hd. simpl.
  destruct (Z.ltb_spec (Z.of_nat (length peers) + 1) (rc_BootstrapExpected (rs_config rs))); [lia|].
  unfold bootstrapWithDiscoveredPeers. simpl. unfold bootstrap. simpl.
  by destruct (rl_BootstrapCluster (rs_raft rs) [self (rs_config rs)]) as [err r].
Qed.

Lemma TryDelayedBootstrap_waits (rs : RaftStorage) peers :
  rs_bootstrapDeferred rs = false ∨ (Z.of_nat (length peers) + 1 < rc_BootstrapExpected (rs_config rs))%Z →
  TryDelayedBootstrap rs peers = (None, rs).
Proof.
  intros H. unfold TryDelayedBootstrap. destruct (rs_bootstrapDeferred rs); [|done]. simpl.
  destruct H as [?|H]; [done|]. by rewrite (proj2 (Z.ltb_lt _ _) H).
Qed.

(** Membership changes are for the leader. *)
Lemma membership_needs_leader (rs : RaftStorage) nodeID address :
  rl_State (rs_raft rs) ≠ Leader →
  AddVoter rs nodeID address = (Some (EText "only leader can add voters"), rs) ∧
  RemoveServer rs nodeID = (Some (EText "only leader can remove servers"), rs).
Proof.
  intros H. unfold AddVoter, RemoveServer, IsLeader. by rewrite bool_decide_eq_false_2.
Qed.

(* ---------------------------------------------------------------- *)
(** ** Watchers *)

(** The end of a watcher's context: it is unregistered, but its channel is
    closed only if no event is pending; else one event is lost and the
    receiver never learns that the watch is over. *)
Lemma removeWatcherAndClose_spec (rs : RaftStorage) keyPrefix ch c :
  rs_chans rs !! ch = Some c →
  ∃ rs', removeWatcherAndClose rs keyPrefix ch = Returned rs' ∧
    rs_watchChans rs' = removeFrom (rs_watchChans rs) keyPrefix ch ∧
    fwatch (rs_fsm rs') = removeFrom (fwatch (rs_fsm rs)) keyPrefix ch ∧
    rs_chans rs' !! ch = Some (match buf c with
                               | [] => mkChan [] true
                               | _ :: rest => mkChan rest (chClosed c)
                               end).
Proof.
  intros Hc. unfold removeWatcherAndClose. simpl. rewrite (drainOrClose_spec ch _ c Hc). simpl.
  eexists. split_and!; [done..|]. simpl. rewrite list_lookup_insert_eq; [done|]. by apply lookup_lt_Some in Hc.
Qed.

(** Close never panics, as long as the watchers' channels exist. *)
Lemma Close_returns (rs : RaftStorage) :
  (∀ ch, ch ∈ allChannels (mkWatchers (rs_chans rs) (rs_watchChans rs)) → (ch < length (rs_chans rs))%nat) →
  (∀ ch, ch ∈ allChannels (fsmWatchers rs) → (ch < length (rs_chans rs))%nat) →
  ∃ err rs', Close rs = Returned (err, rs') ∧ rs_closed rs' = true.
Proof.
  intros H1 H2. unfold Close. destruct (rs_closed rs) eqn:Hc; [by exists None, rs|].
  unfold closeAllWatchers, closeOwnWatchers. simpl.
  destruct (drainAll_ok _ _ H1) as (cs&E1&Hl1). unfold allChannels in *. simpl in *. rewrite E1. simpl.
  unfold closeFSMWatchers. simpl. unfold allChannels. simpl.
  destruct (drainAll_ok (map_to_list (fwatch (rs_fsm rs)) ≫= snd) cs) as (cs'&E2&Hl2).
  { intros ch Hch. rewrite Hl1. by apply H2. }
  rewrite E2. simpl. eauto.
Qed.
End Refusals.

(** Between the two halves of closeAllWatchers the state machine still knows
    the channels the storage has closed: a notification that runs there sends
    on a closed channel. *)
Lemma notification_during_close_panics :
  let rs := mkRaft (mkSolo Leader [] []) createRaftFSM (sampleRaftConfig [] 0) "n1" ∅ [] false false [] [] in
  let rs := (Set_ (Watch rs "k").2 0 "key" "v" 0).2 in
  (∃ rs', settle rs = Returned rs') ∧
  match closeOwnWatchers (setClosed rs), rs_notifying rs with
  | Returned rs', [n] => runNotification rs' n = Panicked "send on closed channel"
  | _, _ => False
  end.
Proof. split; [eexists|]; vm_compute; reflexivity. Qed.

(* ------------------------------------------------------------------ *)
(** ** Construction *)

Section Resources.
Context {R : Type} `{HR : RaftLib R}.

(** When the construction fails before the cluster is bootstrapped, what it
    opened is closed again; when bootstrapping fails, the transport is, and
    the two stores are left to the library. *)
Lemma NewRaftStorage_failure c (o : openings R) err opened :
  NewRaftStorage c o = Returned (Err err, opened) →
  opened = [] ∨ (opened = [LogStore; StableStore] ∧ ∃ r, op_raft o = Ok r).
Proof.
  unfold NewRaftStorage, createRaftTransport, createRaftStores. intros H.
  repeat (case_match; simplify_eq/=; auto).
  destruct (Close _); simplify_eq/=. right. eauto.
Qed.
End Resources.
