(* ===== verification/RedisStorage.v ===== *)
(** * RedisStorage: internal/services/statestorage/redis_storage.go

    The Redis client is the class [RedisLib], with the time of the server; the
    laws of a server that is up are [RedisLaws]. Events between nodes go
    through JSON and the server's channel. *)

From Stdlib Require Import Ascii.
From S2P Require Import Prelude GoStd GoText Errors Storage Watch.
From S2P Require GoFormat.

Local Open Scope vpa_scope.

(* ------------------------------------------------------------------ *)
(** ** The client *)

(** The error of a command: redis.Nil, or another one. *)
Inductive redisErr := RedisNil | RedisErr (err : goError).

Definition isNil (e : redisErr) : bool := match e with RedisNil => true | RedisErr _ => false end.

Definition errOf (e : redisErr) : goError :=
  match e with RedisNil => EText "redis: nil" | RedisErr err => err end.

Class RedisLib (R : Type) := {
  rd_Get : R → Z → string → string + redisErr;
  rd_Set : R → Z → string → string → option goError * R;
  rd_SetEx : R → Z → string → string → Z → option goError * R;
  rd_Del : R → Z → string → result Z * R;
  (* Exec's error, which is that of the first command that has one, and the
     results of the commands *)
  rd_PipeGet : R → Z → list string → option redisErr * list (string + redisErr);
  rd_PipeSet : R → Z → list (string * string * option Z) → option goError * R;
  rd_Publish : R → StateEvent → option goError * R;
  rd_Subscribe : R → option goError;
  rd_Ping : R → option goError;
  rd_ClosePubSub : R → option goError;
  rd_Close : R → option goError
}.

(* ------------------------------------------------------------------ *)
(** ** Configuration *)

Record RedisStorageConfig := mkRedisStorageConfig {
  rd_Address : string; rd_Password : string; rd_Database : Z; rd_KeyPrefix : string;
  rd_ConnectTimeout : Z; rd_ReadTimeout : Z; rd_WriteTimeout : Z; rd_PoolSize : Z;
  rd_MinIdleConns : Z; rd_MaxRetries : Z; rd_MinRetryBackoff : Z; rd_MaxRetryBackoff : Z
}.

Definition orDefault (v d : Z) : Z := if (v =? 0)%Z then d else v.

Definition withDefaults (c : RedisStorageConfig) : RedisStorageConfig :=
  mkRedisStorageConfig (rd_Address c) (rd_Password c) (rd_Database c)
    (if String.eqb (rd_KeyPrefix c) "" then "vm-proxy-auth:" else rd_KeyPrefix c)
    (orDefault (rd_ConnectTimeout c) (5 * Second)) (orDefault (rd_ReadTimeout c) (3 * Second))
    (orDefault (rd_WriteTimeout c) (3 * Second)) (orDefault (rd_PoolSize c) 20)
    (orDefault (rd_MinIdleConns c) 10) (rd_MaxRetries c) (rd_MinRetryBackoff c) (rd_MaxRetryBackoff c).

Section Storage.
Context {R : Type} `{HR : RedisLib R} {HU : GoFormat.UnicodePrint}.

Record RedisStorage := mkRedis {
  rd_client : R; rd_config : RedisStorageConfig; rd_nodeID : string;
  rd_watchers : Watchers; rd_closed : bool; rd_closeDone : bool
}.

Definition withClient (rs : RedisStorage) (r : R) : RedisStorage :=
  mkRedis r (rd_config rs) (rd_nodeID rs) (rd_watchers rs) (rd_closed rs) (rd_closeDone rs).
Definition withWatchers (rs : RedisStorage) (w : Watchers) : RedisStorage :=
  mkRedis (rd_client rs) (rd_config rs) (rd_nodeID rs) w (rd_closed rs) (rd_closeDone rs).

(** [connect] is the client for a configuration. *)
Definition NewRedisStorage (connect : RedisStorageConfig → R) (config : RedisStorageConfig) (nodeID : string)
  : result RedisStorage :=
  if String.eqb (rd_Address config) "" then Err (EText "redis address is required")
  else
    let config := withDefaults config in
    let client := connect config in
    match rd_Ping client with
    | Some err => Err (errorf_w "failed to connect to Redis" err)
    | None =>
        match rd_Subscribe client with
        | Some err => Err (errorf_w "failed to start PubSub monitoring"
                             (errorf_w "failed to subscribe to Redis pub/sub" err))
        | None => Ok (mkRedis client config nodeID noWatchers false false)
        end
    end.

Definition formatKey (rs : RedisStorage) (key : string) : string := rd_KeyPrefix (rd_config rs) +:+ key.

Definition checkClosed (rs : RedisStorage) : option goError :=
  if rd_closed rs then Some (EApp ErrStorageUnavailable) else None.

(** fmt's %q *)
Definition quoted (key : string) : string := GoFormat.Quote GoFormat.printable key.

(* ---------------------------------------------------------------- *)
(** ** Events to other nodes *)

Definition eventThroughJSON (e : StateEvent) : StateEvent :=
  mkStateEvent (ev_Type e) (coerceUTF8 (ev_Key e)) (ev_Value e) (ev_Timestamp e) (coerceUTF8 (ev_NodeID e)).

(** A failure is only logged. *)
Definition publishStateEvent (rs : RedisStorage) (event : StateEvent) : RedisStorage :=
  if rd_closed rs then rs
  else withClient rs (rd_Publish (rd_client rs) (eventThroughJSON event)).2.

Definition notifyWatchers (rs : RedisStorage) (key : string) (event : StateEvent) : outcome RedisStorage :=
  if rd_closed rs then Returned rs
  else do! w <- notify (rd_watchers rs) key event ; Returned (withWatchers rs w).

(** A message of the channel, as json.Unmarshal reads it. *)
Definition handlePubSubMessage (rs : RedisStorage) (payload : result StateEvent) : outcome RedisStorage :=
  match payload with
  | Err _ => Returned rs
  | Ok event =>
      if String.eqb (ev_NodeID event) (rd_nodeID rs) then Returned rs
      else if negb (StateEvent_IsValid event) then Returned rs
      else notifyWatchers rs (ev_Key event) event
  end.

(** One tick of processPubSubMessages, once per second: what was received in
    the time allowed, if anything. [None] ends the goroutine. *)
Definition pubSubTick (rs : RedisStorage) (received : result (option (result StateEvent)))
  : option RedisStorage :=
  if rd_closed rs then None
  else
    match received with
    | Err _ => Some rs
    | Ok None => Some rs
    | Ok (Some payload) =>
        match handlePubSubMessage rs payload with
        | Returned rs => Some rs
        | Panicked _ => None
        end
    end.

(* ---------------------------------------------------------------- *)
(** ** Reads and writes *)

Definition Get (rs : RedisStorage) (now : Z) (key : string) : result string :=
  match checkClosed rs with
  | Some err => Err err
  | None =>
      match rd_Get (rd_client rs) now (formatKey rs key) with
      | inl v => Ok v
      | inr e => if isNil e then Err (EApp ErrKeyNotFound)
                 else Err (errorf_w ("failed to get key " +:+ quoted key) (errOf e))
      end
  end.

Definition setEvent (rs : RedisStorage) (now : Z) (key value : string) : StateEvent :=
  mkStateEvent StateEventSet key value now (rd_nodeID rs).

Definition Set_ (rs : RedisStorage) (now : Z) (key value : string) (ttl : Z) : option goError * RedisStorage :=
  match checkClosed rs with
  | Some err => (Some err, rs)
  | None =>
      let redisKey := formatKey rs key in
      let '(err, r) :=
        if (0 <? ttl)%Z then rd_SetEx (rd_client rs) now redisKey value ttl
        else rd_Set (rd_client rs) now redisKey value in
      let rs := withClient rs r in
      match err with
      | Some err => (Some (errorf_w ("failed to set key " +:+ quoted key) err), rs)
      | None => (None, publishStateEvent rs (setEvent rs now key value))
      end
  end.

Definition Delete (rs : RedisStorage) (now : Z) (key : string) : option goError * RedisStorage :=
  match checkClosed rs with
  | Some err => (Some err, rs)
  | None =>
      let '(deleted, r) := rd_Del (rd_client rs) now (formatKey rs key) in
      let rs := withClient rs r in
      match deleted with
      | Err err => (Some (errorf_w ("failed to delete key " +:+ quoted key) err), rs)
      | Ok n =>
          (None, if (0 <? n)%Z
                 then publishStateEvent rs (mkStateEvent StateEventDelete key "" now (rd_nodeID rs)) else rs)
      end
  end.

Definition collect (m : gmap string string) (kr : string * (string + redisErr)) : gmap string string :=
  match kr.2 with inl v => <[kr.1 := v]> m | inr _ => m end.

Definition GetMultiple (rs : RedisStorage) (now : Z) (keys : list string) : result (gmap string string) :=
  match checkClosed rs with
  | Some err => Err err
  | None =>
      if bool_decide (keys = []) then Ok ∅
      else
        let '(err, cmds) := rd_PipeGet (rd_client rs) now (map (formatKey rs) keys) in
        match err with
        | Some (RedisErr err) => Err (errorf_w "failed to execute pipeline GET" err)
        | _ => Ok (foldl collect ∅ (zip keys cmds))
        end
  end.

Definition pipeCmd (rs : RedisStorage) (ttl : Z) (kv : string * string) : string * string * option Z :=
  (formatKey rs kv.1, kv.2, if (0 <? ttl)%Z then Some ttl else None).

Definition SetMultiple (rs : RedisStorage) (now : Z) (items : gmap string string) (ttl : Z)
  : option goError * RedisStorage :=
  match checkClosed rs with
  | Some err => (Some err, rs)
  | None =>
      if bool_decide (items = ∅) then (None, rs)
      else
        let '(err, r) := rd_PipeSet (rd_client rs) now (map (pipeCmd rs ttl) (map_to_list items)) in
        let rs := withClient rs r in
        match err with
        | Some err => (Some (errorf_w "failed to execute pipeline SET" err), rs)
        | None =>
            (None, foldl (λ rs kv, publishStateEvent rs (setEvent rs now kv.1 kv.2)) rs (map_to_list items))
        end
  end.

Definition Ping (rs : RedisStorage) (now : Z) : option goError :=
  match checkClosed rs with
  | Some err => Some err
  | None => match rd_Ping (rd_client rs) with Some err => Some (errorf_w "redis ping failed" err) | None => None end
  end.

(* ---------------------------------------------------------------- *)
(** ** Watchers and shutdown *)

Definition Watch (rs : RedisStorage) (keyPrefix : string) : result nat * RedisStorage :=
  match checkClosed rs with
  | Some err => (Err err, rs)
  | None => let '(ch, w) := addWatcher (rd_watchers rs) keyPrefix in (Ok ch, withWatchers rs w)
  end.

Definition removeWatcherAndClose (rs : RedisStorage) (keyPrefix : string) (ch : nat) : outcome RedisStorage :=
  match watches (rd_watchers rs) !! keyPrefix with
  | None => Returned rs
  | Some _ =>
      let w := removeChannel (rd_watchers rs) keyPrefix ch in
      do! cs <- drainOrClose ch (chans w) ; Returned (withWatchers rs (mkWatchers cs (watches w)))
  end.

Definition closeAllWatchers (rs : RedisStorage) : outcome RedisStorage :=
  do! cs <- drainAll (allChannels (rd_watchers rs)) (chans (rd_watchers rs)) ;
  Returned (withWatchers rs (mkWatchers cs ∅)).

Definition Close (rs : RedisStorage) : outcome (option goError * RedisStorage) :=
  if rd_closeDone rs then Returned (None, rs)
  else
    let pubsubErr := rd_ClosePubSub (rd_client rs) in
    do! rs <- closeAllWatchers (mkRedis (rd_client rs) (rd_config rs) (rd_nodeID rs) (rd_watchers rs) true true) ;
    Returned (match pubsubErr with
              | Some err => Some (errorf_w "failed to close PubSub" err)
              | None =>
                  match rd_Close (rd_client rs) with
                  | Some err => Some (errorf_w "failed to close Redis client" err)
                  | None => None
                  end
              end, rs).
End Storage.

Arguments RedisStorage : clear implicits.

(* ------------------------------------------------------------------ *)
(** ** With a server that is up it meets the specification of a storage *)

(** What the commands do on a server that answers. SETEX counts in seconds. *)
Class RedisLaws (R : Type) `{RedisLib R} := {
  rd_up : R → Prop;
  rd_view : R → Z → string → option string;
  rd_Get_law r now k :
    rd_up r → rd_Get r now k = match rd_view r now k with Some v => inl v | None => inr RedisNil end;
  rd_Set_law r now k v :
    rd_up r → ∃ r', rd_Set r now k v = (None, r') ∧ rd_up r' ∧
      ∀ t j, (now ≤ t)%Z → rd_view r' t j = if decide (j = k) then Some v else rd_view r t j;
  rd_SetEx_law r now k v ttl :
    rd_up r → (0 < ttl < max_int64)%Z → (ttl mod Second = 0)%Z → ∃ r', rd_SetEx r now k v ttl = (None, r') ∧ rd_up r' ∧
      ∀ t, (now ≤ t)%Z → writeShows v ttl (t - now) (rd_view r' t k) ∧
        ∀ j, j ≠ k → rd_view r' t j = rd_view r t j;
  rd_Del_law r now k :
    rd_up r → ∃ r', rd_Del r now k = (Ok (if bool_decide (is_Some (rd_view r now k)) then 1 else 0)%Z, r') ∧ rd_up r' ∧
      ∀ t j, (now ≤ t)%Z → rd_view r' t j = if decide (j = k) then None else rd_view r t j;
  rd_PipeGet_law r now ks :
    rd_up r → rd_PipeGet r now ks =
      (if bool_decide (Forall (λ k, is_Some (rd_view r now k)) ks) then None else Some RedisNil,
       map (rd_Get r now) ks);
  (* a pipeline is its commands one after the other *)
  rd_PipeSet_nil r now : rd_up r → rd_PipeSet r now [] = (None, r);
  rd_PipeSet_cons r now k v ttl cmds :
    rd_up r → rd_PipeSet r now ((k, v, ttl) :: cmds) =
      let '(_, r') := match ttl with Some d => rd_SetEx r now k v d | None => rd_Set r now k v end in
      rd_PipeSet r' now cmds;
  rd_Publish_law r e :
    rd_up r → rd_up (rd_Publish r e).2 ∧ ∀ t k, rd_view (rd_Publish r e).2 t k = rd_view r t k;
  rd_Ping_law r : rd_up r → rd_Ping r = None
}.

#[global] Instance RedisStorage_StateStorage {R} `{RedisLib R} {HU : GoFormat.UnicodePrint} : StateStorage (RedisStorage R) := {
  ss_Get rs now key := (Get rs now key, rs);
  ss_Set rs now key value ttl := Returned (Set_ rs now key value ttl);
  ss_Delete rs now key := Returned (Delete rs now key);
  ss_GetMultiple rs now keys := (GetMultiple rs now keys, rs);
  ss_SetMultiple rs now items ttl := Returned (SetMultiple rs now items ttl);
  ss_Ping := Ping
}.

Lemma append_inj (p a b : string) : p +:+ a = p +:+ b → a = b.
Proof. induction p as [|c p IH]; [done|]. simpl. intros [= H]. by apply IH. Qed.

Section Spec.
Context {R : Type} `{HR : RedisLib R, HL : !RedisLaws R} {HU : GoFormat.UnicodePrint}.
Notation RedisStorage := (RedisStorage R).

Definition redis_ok (rs : RedisStorage) : Prop := rd_closed rs = false ∧ rd_up (rd_client rs).

Definition redis_view (rs : RedisStorage) (t : Z) (k : string) : option string :=
  rd_view (rd_client rs) t (formatKey rs k).

(** Lifetimes in whole seconds. *)
Definition secondsTTL (ttl : Z) : Prop := itemTTL ttl ∧ (ttl mod Second = 0)%Z.

Lemma publish_ok (rs : RedisStorage) e :
  redis_ok rs → redis_ok (publishStateEvent rs e) ∧
  (∀ t k, redis_view (publishStateEvent rs e) t k = redis_view rs t k) ∧
  rd_config (publishStateEvent rs e) = rd_config rs.
Proof.
  intros [Hc Hu]. unfold publishStateEvent. rewrite Hc.
  destruct (rd_Publish_law (rd_client rs) (eventThroughJSON e) Hu) as [Hu' Hv].
  split; [by split|]. split; [|done]. intros t k. apply Hv.
Qed.

Lemma publishAll_ok (rs : RedisStorage) now l :
  redis_ok rs →
  let rs' := foldl (λ rs kv, publishStateEvent rs (setEvent rs now kv.1 kv.2)) rs l in
  redis_ok rs' ∧ ∀ t k, redis_view rs' t k = redis_view rs t k.
Proof.
  revert rs. induction l as [|kv l IH]; intros rs Hok; simpl; [done|].
  destruct (publish_ok rs (setEvent rs now kv.1 kv.2) Hok) as (Hok'&Hv&_).
  destruct (IH _ Hok') as [H1 H2]. split; [done|]. intros t k. by rewrite H2, Hv.
Qed.

(** Either form of the write. *)
Lemma setCmd_ok r now k v ttl :
  rd_up r → secondsTTL ttl →
  ∃ r', (if (0 <? ttl)%Z then rd_SetEx r now k v ttl else rd_Set r now k v) = (None, r') ∧ rd_up r' ∧
    ∀ t, (now ≤ t)%Z → writeShows v ttl (t - now) (rd_view r' t k) ∧
      ∀ j, j ≠ k → rd_view r' t j = rd_view r t j.
Proof.
  intros Hu [[H0 H1] Hs]. destruct (Z.ltb_spec 0 ttl) as [Hlt|Hge]; [by apply rd_SetEx_law|].
  destruct (rd_Set_law r now k v Hu) as (r'&E&Hu'&Hv). exists r'. do 2 (split; [done|]). intros t Ht.
  assert (ttl = 0%Z) as -> by lia. split; [|intros j Hj; by rewrite Hv, decide_False].
  split; [by rewrite Hv, decide_True|lia].
Qed.

Lemma pipeSet_ok r now prefix ttl (l : list (string * string)) :
  rd_up r → secondsTTL ttl → NoDup l.*1 →
  ∃ r', rd_PipeSet r now (map (λ kv, (prefix +:+ kv.1, kv.2, if (0 <? ttl)%Z then Some ttl else None)) l)
      = (None, r') ∧ rd_up r' ∧
    ∀ t k, (now ≤ t)%Z →
      match (list_to_map l : gmap string string) !! k with
      | Some v => writeShows v ttl (t - now) (rd_view r' t (prefix +:+ k))
      | None => rd_view r' t (prefix +:+ k) = rd_view r t (prefix +:+ k)
      end.
Proof.
  intros Hu Httl. revert r Hu. induction l as [|[k v] l IH]; intros r Hu Hnd.
  { exists r. by rewrite rd_PipeSet_nil. }
  apply NoDup_cons in Hnd as [Hno Hnd]. simpl in *. rewrite rd_PipeSet_cons by done.
  destruct (setCmd_ok r now (prefix +:+ k) v ttl Hu Httl) as (r1&E&Hu1&Hv1).
  assert (match (if (0 <? ttl)%Z then Some ttl else None) with
          | Some d => rd_SetEx r now (prefix +:+ k) v d
          | None => rd_Set r now (prefix +:+ k) v end = (None, r1)) as -> by (by destruct (0 <? ttl)%Z).
  destruct (IH r1 Hu1 Hnd) as (r2&->&Hu2&Hv2). exists r2. do 2 (split; [done|]). intros t j Ht.
  specialize (Hv1 t Ht) as [Hv1 Hv1']. specialize (Hv2 t j Ht). destruct (decide (j = k)) as [->|Hne].
  - rewrite lookup_insert_eq. rewrite not_elem_of_list_to_map_1 in Hv2 by done. by rewrite Hv2.
  - rewrite lookup_insert_ne by done. case_match; [done|]. rewrite Hv2. apply Hv1'.
    intros E'. by apply append_inj in E'.
Qed.

Lemma getMultiple_ok (rs : RedisStorage) now keys :
  redis_ok rs → GetMultiple rs now keys = Ok (foundOf (redis_view rs now) keys).
Proof.
  intros [Hc Hu]. unfold GetMultiple, checkClosed. rewrite Hc.
  case_bool_decide as Hk; [by subst|]. rewrite rd_PipeGet_law by done.
  assert (∀ m, foldl collect m (zip keys (map (rd_Get (rd_client rs) now) (map (formatKey rs) keys)))
    = foldl (λ m k, match redis_view rs now k with Some v => <[k:=v]> m | None => m end) m keys) as Hm.
  { clear Hk. induction keys as [|k keys IH]; intros m; [done|]. simpl. rewrite IH. f_equal.
    unfold collect. simpl. rewrite rd_Get_law by done. unfold redis_view. by destruct (rd_view _ _ _). }
  rewrite Hm. by case_bool_decide.
Qed.

#[global] Instance RedisStorage_StateStorageSpec : StateStorageSpec RedisStorage.
Proof.
  refine {| ss_ok := redis_ok; ss_view := redis_view; ss_ttl := secondsTTL; ss_key _ := True |}.
  - intros rs now key Hok. simpl. split; [|done]. destruct Hok as [Hc Hu].
    unfold Get, checkClosed. rewrite Hc, rd_Get_law by done. unfold redis_view. by destruct (rd_view _ _ _).
  - intros rs now keys Hok. simpl. split; [|done]. by apply getMultiple_ok.
  - intros rs now key value ttl [Hc Hu] Httl _. simpl. unfold Set_, checkClosed. rewrite Hc.
    destruct (setCmd_ok (rd_client rs) now (formatKey rs key) value ttl Hu Httl) as (r&->&Hu'&Hv).
    destruct (publish_ok (withClient rs r) (setEvent (withClient rs r) now key value)) as (Hok'&Hpv&_); [by split|].
    eexists. split; [done|]. split; [done|]. intros t Ht. rewrite Hpv. destruct (Hv t Ht) as [H1 H2].
    split; [done|]. intros k Hk. rewrite Hpv. apply H2. intros E. by apply append_inj in E.
  - intros rs now key [Hc Hu] _. simpl. unfold Delete, checkClosed. rewrite Hc.
    destruct (rd_Del_law (rd_client rs) now (formatKey rs key) Hu) as (r&->&Hu'&Hv).
    assert (redis_ok (withClient rs r)) as Hok by by split.
    set (e := mkStateEvent StateEventDelete key "" now (rd_nodeID (withClient rs r))).
    destruct (publish_ok _ e Hok) as (Hok'&Hpv&_).
    assert (∀ t k, (now ≤ t)%Z → redis_view (withClient rs r) t k = if decide (k = key) then None else redis_view rs t k) as Hv'.
    { intros t k Ht. unfold redis_view. simpl. rewrite Hv by done. unfold formatKey. simpl.
      destruct (decide (k = key)) as [->|Hne]; [by rewrite decide_True|]. rewrite decide_False; [done|].
      intros E. by apply append_inj in E. }
    destruct (0 <? _)%Z; eexists; (split; [done|]); (split; [done|]); intros t k Ht; rewrite ?Hpv; by apply Hv'.
  - intros rs now items ttl [Hc Hu] Httl _. simpl. unfold SetMultiple, checkClosed. rewrite Hc.
    case_bool_decide as Hi; [subst; exists rs; split; [done|]; split; [done|]; intros; by rewrite lookup_empty|].
    destruct (pipeSet_ok (rd_client rs) now (rd_KeyPrefix (rd_config rs)) ttl (map_to_list items) Hu Httl)
      as (r&E&Hu'&Hv); [apply NoDup_fst_map_to_list|].
    change (map (pipeCmd rs ttl) (map_to_list items)) with
      (map (λ kv : string * string, (rd_KeyPrefix (rd_config rs) +:+ kv.1, kv.2, if (0 <? ttl)%Z then Some ttl else None))
         (map_to_list items)). rewrite E.
    destruct (publishAll_ok (withClient rs r) now (map_to_list items)) as [Hok' Hpv]; [by split|].
    eexists. split; [done|]. split; [done|]. intros t k Ht. rewrite list_to_map_to_list in Hv.
    specialize (Hv t k Ht). destruct (items !! k); rewrite Hpv; apply Hv.
  - intros rs now [Hc Hu]. simpl. unfold Ping, checkClosed. rewrite Hc. by rewrite rd_Ping_law.
Defined.
End Spec.

(* ------------------------------------------------------------------ *)
(** ** A server that satisfies the laws *)

Record toyRedis := mkToyRedis { tr_items : Items; tr_published : list StateEvent }.

Definition toySet (r : toyRedis) (now : Z) (k v : string) (ttl : Z) : toyRedis :=
  mkToyRedis (<[k := mkItem v now ttl]> (tr_items r)) (tr_published r).

Definition toyPipeSet (now : Z) (r : toyRedis) (c : string * string * option Z) : toyRedis :=
  match c.2 with Some d => toySet r now c.1.1 c.1.2 d | None => toySet r now c.1.1 c.1.2 0 end.

#[global] Instance toyRedis_lib : RedisLib toyRedis := {
  rd_Get r now k := match itemsView (tr_items r) now k with Some v => inl v | None => inr RedisNil end;
  rd_Set r now k v := (None, toySet r now k v 0);
  rd_SetEx r now k v ttl := (None, toySet r now k v ttl);
  rd_Del r now k :=
    (Ok (if bool_decide (is_Some (itemsView (tr_items r) now k)) then 1 else 0)%Z,
     mkToyRedis (delete k (tr_items r)) (tr_published r));
  rd_PipeGet r now ks :=
    (if bool_decide (Forall (λ k, is_Some (itemsView (tr_items r) now k)) ks) then None else Some RedisNil,
     map (λ k, match itemsView (tr_items r) now k with Some v => inl v | None => inr RedisNil end) ks);
  rd_PipeSet r now cmds := (None, foldl (toyPipeSet now) r cmds);
  rd_Publish r e := (None, mkToyRedis (tr_items r) (tr_published r ++ [e]));
  rd_Subscribe r := None;
  rd_Ping r := None;
  rd_ClosePubSub r := None;
  rd_Close r := None
}.

#[global] Instance toyRedis_laws : RedisLaws toyRedis.
Proof.
  refine {| rd_up _ := True; rd_view r := itemsView (tr_items r) |}; simpl.
  - done.
  - intros r now k v _. eexists. do 2 (split; [done|]). intros t j Ht. simpl. case_decide as Hj; subst.
    + apply (itemsView_insert (tr_items r) k v 0 now t Ht); [|by left]. unfold itemTTL, max_int64. lia.
    + by apply itemsView_insert_ne.
  - intros r now k v ttl _ Httl _. eexists. do 2 (split; [done|]). intros t Ht. simpl.
    split; [apply itemsView_insert; unfold itemTTL; lia|]. intros j Hj. by apply itemsView_insert_ne.
  - intros r now k _. eexists. do 2 (split; [done|]). intros t j Ht. apply itemsView_delete.
  - done.
  - done.
  - intros r now k v [d|] cmds _; done.
  - done.
  - done.
Defined.

(* ------------------------------------------------------------------ *)
(** ** Watching across nodes *)

Section Watching.
Context {R : Type} `{HR : RedisLib R} {HU : GoFormat.UnicodePrint}.
Notation RedisStorage := (RedisStorage R).

(** Of a node's own changes its watchers see nothing: its own messages are
    skipped, and a write does not notify. *)
Lemma own_changes_are_not_watched (rs : RedisStorage) now key value :
  handlePubSubMessage rs (Ok (setEvent rs now key value)) = Returned rs ∧
  ∀ ttl, rd_watchers (Set_ rs now key value ttl).2 = rd_watchers rs.
Proof.
  split; [by unfold handlePubSubMessage; simpl; rewrite String.eqb_refl|].
  intros ttl. unfold Set_. destruct (checkClosed rs); [done|].
  destruct (if (0 <? ttl)%Z then _ else _) as [[err|] r]; [done|]. unfold publishStateEvent. by case_match.
Qed.

(** A change published by another node reaches every watcher here whose
    prefix matches and whose channel has room, exactly once, and no other. *)
Lemma change_reaches_watchers (rs : RedisStorage) event :
  watch_wf (rd_watchers rs) → rd_closed rs = false →
  ev_NodeID event ≠ rd_nodeID rs → StateEvent_IsValid event = true →
  ∃ rs', handlePubSubMessage rs (Ok event) = Returned rs' ∧ watch_wf (rd_watchers rs') ∧
    pubSubTick rs (Ok (Some (Ok event))) = Some rs' ∧
    ∀ ch, chans (rd_watchers rs') !! ch =
      if decide (ch ∈ targets (rd_watchers rs) (ev_Key event))
      then push event <$> chans (rd_watchers rs) !! ch else chans (rd_watchers rs) !! ch.
Proof.
  intros Hw Hc Hn Hv. unfold pubSubTick, handlePubSubMessage, notifyWatchers. rewrite Hc.
  destruct (String.eqb_spec (ev_NodeID event) (rd_nodeID rs)); [done|]. rewrite Hv. simpl.
  destruct (notify_wf (rd_watchers rs) (ev_Key event) event Hw) as (cs&->&Hw'&Hcs). simpl. eauto.
Qed.

(** Published and received, an event of valid strings is unchanged. *)
Lemma event_roundtrip e :
  validUTF8 (ev_Key e) → validUTF8 (ev_NodeID e) → eventThroughJSON e = e.
Proof. intros Hk Hn. destruct e. unfold eventThroughJSON. simpl in *. by rewrite Hk, Hn. Qed.

(** A pending event keeps a watcher's channel from being closed when its
    context ends, and is lost. *)
Lemma redis_watch_end (rs : RedisStorage) keyPrefix ch c :
  chans (rd_watchers rs) !! ch = Some c → registered (rd_watchers rs) keyPrefix ch →
  ∃ rs', removeWatcherAndClose rs keyPrefix ch = Returned rs' ∧
    chans (rd_watchers rs') !! ch = Some (match buf c with
                                          | [] => mkChan [] true
                                          | _ :: rest => mkChan rest (chClosed c)
                                          end).
Proof.
  intros Hc Hr. unfold removeWatcherAndClose. unfold registered, channelsOf in Hr.
  destruct (watches (rd_watchers rs) !! keyPrefix); [|by apply elem_of_nil in Hr]. simpl.
  rewrite (drainOrClose_spec ch _ c Hc). simpl. eexists. split; [done|]. simpl.
  rewrite list_lookup_insert_eq; [done|]. by apply lookup_lt_Some in Hc.
Qed.
End Watching.
