(* ===== verification/Config.v ===== *)
(** * Config: internal/config and its modules

    The configuration records, their Validate methods, the defaults, and the
    two validators of the whole configuration. url.Parse is an argument.
    Durations are nanoseconds. *)

From S2P Require Import Prelude GoStd Errors Domain.

(** [if bad { return err }] and [if err := r; err != nil { return Errorf(p, err) }]. *)
Notation "'refuse!' bad 'with' e ; k" := (if bad then Some e else k)
  (at level 10, bad at level 100, e at level 100, k at level 200) : vpa_scope.
Notation "'within!' r 'as' p ; k" :=
  (match r with Some err => Some (errorf_w p err) | None => k end)
  (at level 10, r at level 100, p at level 100, k at level 200) : vpa_scope.
Notation "'pass!' r ; k" := (match r with Some err => Some err | None => k end)
  (at level 10, r at level 100, k at level 200) : vpa_scope.

Open Scope vpa_scope.

(** The first error of a validation over a slice, with its index. *)
Fixpoint firstInvalid {A} (valid : A → option goError) (prefix : Z → string) (i : Z) (l : list A)
  : option goError :=
  match l with
  | [] => None
  | x :: rest =>
      within! valid x as prefix i;
      firstInvalid valid prefix (i + 1) rest
  end.

(* ------------------------------------------------------------------ *)
(** ** metadata *)

Definition MaxNodeIDLength : Z := 64.

Record MetadataConfig := mkMetadata {
  md_NodeID : string; md_Role : string; md_Environment : string; md_Region : string
}.

Definition MetadataConfig_Validate (m : MetadataConfig) : option goError :=
  refuse! String.eqb (md_NodeID m) "" with EText "node ID is required";
  refuse! String.eqb (md_Role m) "" with EText "role is required";
  refuse! String.eqb (md_Environment m) "" with EText "environment is required";
  refuse! String.eqb (md_Region m) "" with EText "region is required";
  refuse! (MaxNodeIDLength <? Z.of_nat (String.length (md_NodeID m)))%Z
    with EText ("node ID is too long (max " +:+ itoa MaxNodeIDLength +:+ " characters): "
                +:+ itoa (Z.of_nat (String.length (md_NodeID m))));
  None.

Definition MetadataConfig_GetDefaults : MetadataConfig :=
  mkMetadata "vm-proxy-auth-1" "gateway" "development" "local".

(* ------------------------------------------------------------------ *)
(** ** logging *)

Record LoggingConfig := mkLogging { lg_Level : string; lg_Format : string }.

Definition validLevels : list string := ["debug"; "info"; "warn"; "error"].
Definition validFormats : list string := ["json"; "text"].

Definition LoggingConfig_Validate (l : LoggingConfig) : option goError :=
  refuse! negb (slices_contains validLevels (lg_Level l))
    with EText ("invalid log level: " +:+ lg_Level l +:+ " (valid: " +:+ formatStrings validLevels +:+ ")");
  refuse! negb (slices_contains validFormats (lg_Format l))
    with EText ("invalid log format: " +:+ lg_Format l +:+ " (valid: " +:+ formatStrings validFormats +:+ ")");
  None.

Definition LoggingConfig_GetDefaults : LoggingConfig := mkLogging "info" "json".

(* ------------------------------------------------------------------ *)
(** ** metrics *)

Record MetricsConfig := mkMetricsConfig { mc_Enabled : bool; mc_Path : string }.

Definition MetricsConfig_Validate (m : MetricsConfig) : option goError :=
  refuse! mc_Enabled m && String.eqb (mc_Path m) ""
    with EText "metrics path is required when metrics are enabled";
  refuse! str_nonempty (mc_Path m) && negb (hasPrefix (mc_Path m) "/")
    with EText "metrics path must start with /";
  None.

Definition MetricsConfig_GetDefaults : MetricsConfig := mkMetricsConfig true "/metrics".

(* ------------------------------------------------------------------ *)
(** ** server *)

Record Timeouts := mkTimeouts { to_Read : Z; to_Write : Z; to_Idle : Z }.
Record ServerConfig := mkServer { sv_Address : string; sv_Timeouts : Timeouts }.

Definition ServerConfig_Validate (c : ServerConfig) : option goError :=
  refuse! String.eqb (sv_Address c) "" with EText "server address is required";
  match SplitHostPort (sv_Address c) with
  | inr err => Some (errorf_w "invalid server address format" (EText err))
  | inl _ =>
      refuse! (to_Read (sv_Timeouts c) <=? 0)%Z
        with EText ("server read timeout must be positive, got " +:+ Duration_String (to_Read (sv_Timeouts c)));
      refuse! (to_Write (sv_Timeouts c) <=? 0)%Z
        with EText ("server write timeout must be positive, got " +:+ Duration_String (to_Write (sv_Timeouts c)));
      refuse! (to_Idle (sv_Timeouts c) <=? 0)%Z
        with EText ("server idle timeout must be positive, got " +:+ Duration_String (to_Idle (sv_Timeouts c)));
      None
  end.

Definition ServerConfig_GetDefaults : ServerConfig :=
  mkServer "0.0.0.0:8080" (mkTimeouts (30 * Second) (30 * Second) (60 * Second)).

(* ------------------------------------------------------------------ *)
(** ** proxy *)

Record UpstreamConfig := mkUpstream { up_URL : string; up_Weight : Z }.

Record HealthCheckConfig := mkHealthCheck {
  hk_Interval : Z; hk_Timeout : Z; hk_Endpoint : string;
  hk_HealthyThreshold : Z; hk_UnhealthyThreshold : Z
}.

Record RoutingConfig := mkRouting { rt_Strategy : string; rt_HealthCheck : HealthCheckConfig }.

Record QueueConfig := mkQueueConfig { qc_Enabled : bool; qc_MaxSize : Z; qc_Timeout : Z }.

Record ReliabilityConfig := mkReliability {
  rl_Timeout : Z; rl_Retries : Z; rl_Backoff : Z; rl_Queue : QueueConfig
}.

Record ProxyConfig := mkProxyConfig {
  px_Upstreams : list UpstreamConfig; px_Routing : RoutingConfig; px_Reliability : ReliabilityConfig
}.

(** [parseError u] is the error of url.Parse on [u]. *)
Definition UpstreamConfig_Validate (parseError : string → option goError) (u : UpstreamConfig)
  : option goError :=
  refuse! String.eqb (up_URL u) "" with EText "upstream URL is required";
  within! parseError (up_URL u) as "invalid upstream URL";
  refuse! (up_Weight u <? 0)%Z
    with EText ("upstream weight must be non-negative, got " +:+ itoa (up_Weight u));
  None.

Definition HealthCheckConfig_Validate (h : HealthCheckConfig) : option goError :=
  refuse! (hk_Interval h <=? 0)%Z
    with EText ("health check interval must be positive, got " +:+ Duration_String (hk_Interval h));
  refuse! (hk_Timeout h <=? 0)%Z
    with EText ("health check timeout must be positive, got " +:+ Duration_String (hk_Timeout h));
  refuse! (hk_Interval h <=? hk_Timeout h)%Z
    with EText ("health check timeout (" +:+ Duration_String (hk_Timeout h)
                +:+ ") must be less than interval (" +:+ Duration_String (hk_Interval h) +:+ ")");
  refuse! (hk_HealthyThreshold h <=? 0)%Z
    with EText ("healthy threshold must be positive, got " +:+ itoa (hk_HealthyThreshold h));
  refuse! (hk_UnhealthyThreshold h <=? 0)%Z
    with EText ("unhealthy threshold must be positive, got " +:+ itoa (hk_UnhealthyThreshold h));
  refuse! String.eqb (hk_Endpoint h) "" with EText "health check endpoint is required";
  None.

Definition validStrategies : list string :=
  ["round-robin"; "weighted-round-robin"; "least-connections"].

Definition RoutingConfig_Validate (r : RoutingConfig) : option goError :=
  refuse! negb (existsb (String.eqb (rt_Strategy r)) validStrategies)
    with EText ("invalid routing strategy: " +:+ rt_Strategy r
                +:+ " (valid: " +:+ formatStrings validStrategies +:+ ")");
  HealthCheckConfig_Validate (rt_HealthCheck r).

Definition QueueConfig_Validate (q : QueueConfig) : option goError :=
  if qc_Enabled q then
    refuse! (qc_MaxSize q <=? 0)%Z
      with EText ("queue max size must be positive when enabled, got " +:+ itoa (qc_MaxSize q));
    refuse! (qc_Timeout q <=? 0)%Z
      with EText ("queue timeout must be positive when enabled, got " +:+ Duration_String (qc_Timeout q));
    None
  else None.

Definition ReliabilityConfig_Validate (r : ReliabilityConfig) : option goError :=
  refuse! (rl_Timeout r <=? 0)%Z
    with EText ("timeout must be positive, got " +:+ Duration_String (rl_Timeout r));
  refuse! (rl_Retries r <? 0)%Z
    with EText ("retries must be non-negative, got " +:+ itoa (rl_Retries r));
  refuse! (rl_Backoff r <? 0)%Z
    with EText ("backoff must be non-negative, got " +:+ Duration_String (rl_Backoff r));
  QueueConfig_Validate (rl_Queue r).

Definition ProxyConfig_Validate (parseError : string → option goError) (c : ProxyConfig)
  : option goError :=
  refuse! bool_decide (px_Upstreams c = []) with EText "at least one upstream is required";
  pass! firstInvalid (UpstreamConfig_Validate parseError)
          (λ i, "upstream " +:+ itoa i +:+ " validation failed") 0 (px_Upstreams c);
  within! RoutingConfig_Validate (px_Routing c) as "routing validation failed";
  within! ReliabilityConfig_Validate (px_Reliability c) as "reliability validation failed";
  None.

Definition ProxyConfig_GetDefaults : ProxyConfig :=
  mkProxyConfig []
    (mkRouting "round-robin" (mkHealthCheck (30 * Second) (10 * Second) "/health" 2 3))
    (mkReliability (30 * Second) 3 (100 * Millisecond) (mkQueueConfig true 1000 (5 * Second))).

(* ------------------------------------------------------------------ *)
(** ** auth *)

Record ValidationConfig := mkValidation {
  vl_Audience : bool; vl_Issuer : bool; vl_RequiredIssuer : string; vl_RequiredAudience : list string
}.
Record CacheConfig := mkCacheConfig { cc_TokenTTL : Z; cc_JwksTTL : Z }.
Record JWTConfig := mkJWT {
  jw_Algorithm : string; jw_JwksURL : string; jw_Secret : string;
  jw_Validation : ValidationConfig; jw_UserGroups : string; jw_Cache : CacheConfig
}.

Definition JWTConfig_Validate (j : JWTConfig) : option goError :=
  refuse! String.eqb (jw_JwksURL j) "" && String.eqb (jw_Secret j) ""
    with EText "either jwksUrl or secret is required for JWT authentication";
  refuse! negb (String.eqb (jw_Algorithm j) "RS256" || String.eqb (jw_Algorithm j) "HS256")
    with EText ("unsupported JWT algorithm: " +:+ jw_Algorithm j +:+ " (supported: RS256, HS256)");
  refuse! String.eqb (jw_Algorithm j) "RS256" && String.eqb (jw_JwksURL j) ""
    with EText "RS256 algorithm requires jwksUrl";
  refuse! String.eqb (jw_Algorithm j) "HS256" && String.eqb (jw_Secret j) ""
    with EText "HS256 algorithm requires secret";
  refuse! vl_Issuer (jw_Validation j) && String.eqb (vl_RequiredIssuer (jw_Validation j)) ""
    with EText "requiredIssuer must be specified when issuer validation is enabled";
  refuse! vl_Audience (jw_Validation j) && bool_decide (vl_RequiredAudience (jw_Validation j) = [])
    with EText "requiredAudience must be specified when audience validation is enabled";
  refuse! (cc_TokenTTL (jw_Cache j) <=? 0)%Z
    with EText ("token TTL must be positive, got " +:+ Duration_String (cc_TokenTTL (jw_Cache j)));
  refuse! (cc_JwksTTL (jw_Cache j) <=? 0)%Z
    with EText ("JWKS TTL must be positive, got " +:+ Duration_String (cc_JwksTTL (jw_Cache j)));
  None.

Definition JWTConfig_GetDefaults : JWTConfig :=
  mkJWT "RS256" "" "" (mkValidation false false "" []) "groups" (mkCacheConfig (1 * Hour) (15 * Minute)).

(* ------------------------------------------------------------------ *)
(** ** tenants *)

Record LabelsConfig := mkLabels { lc_Account : string; lc_Project : string; lc_UseProjectID : bool }.
Record FilterConfig := mkFilterConfig { fc_Strategy : string; fc_Labels : LabelsConfig }.
Record VMTenantConfig := mkVMTenantConfig { vt_Account : string; vt_Project : string }.
Record MappingConfig := mkMapping {
  mp_Groups : list string; mp_VMTenants : list VMTenantConfig; mp_Permissions : list string
}.
Record TenantConfig := mkTenantConfig { tc_Filter : FilterConfig; tc_Mappings : list MappingConfig }.

Definition LabelsConfig_Validate (l : LabelsConfig) : option goError :=
  refuse! String.eqb (lc_Account l) "" with EText "account label is required";
  refuse! String.eqb (lc_Project l) "" with EText "project label is required";
  None.

Definition filterStrategies : list string := ["orConditions"; "andConditions"].

Definition FilterConfig_Validate (f : FilterConfig) : option goError :=
  refuse! negb (slices_contains filterStrategies (fc_Strategy f))
    with EText ("invalid filter strategy: " +:+ fc_Strategy f
                +:+ " (valid: " +:+ formatStrings filterStrategies +:+ ")");
  LabelsConfig_Validate (fc_Labels f).

Definition VMTenantConfig_Validate (v : VMTenantConfig) : option goError :=
  refuse! String.eqb (vt_Account v) "" with EText "VM tenant account is required";
  None.

Definition validPermissions : list string := ["read"; "write"].

Fixpoint firstBadPermission (perms : list string) : option goError :=
  match perms with
  | [] => None
  | perm :: rest =>
      refuse! negb (slices_contains validPermissions perm)
        with EText ("invalid permission: " +:+ perm +:+ " (valid: " +:+ formatStrings validPermissions +:+ ")");
      firstBadPermission rest
  end.

Definition MappingConfig_Validate (m : MappingConfig) : option goError :=
  refuse! bool_decide (mp_Groups m = []) with EText "at least one group is required in mapping";
  refuse! bool_decide (length (mp_VMTenants m) = 0%nat)
    with EText "at least one VM tenant is required in mapping";
  pass! firstInvalid VMTenantConfig_Validate
          (λ i, "VM tenant " +:+ itoa i +:+ " validation failed") 0 (mp_VMTenants m);
  firstBadPermission (mp_Permissions m).

Definition TenantConfig_Validate (c : TenantConfig) : option goError :=
  within! FilterConfig_Validate (tc_Filter c) as "filter validation failed";
  refuse! bool_decide (length (tc_Mappings c) = 0%nat)
    with EText "at least one tenant mapping is required";
  firstInvalid MappingConfig_Validate
    (λ i, "mapping " +:+ itoa i +:+ " validation failed") 0 (tc_Mappings c).

Definition TenantConfig_GetDefaults : TenantConfig :=
  mkTenantConfig (mkFilterConfig "orConditions" (mkLabels "vm_account_id" "vm_project_id" true)) [].

(* ------------------------------------------------------------------ *)
(** ** storage *)

Record RedisPoolConfig := mkRedisPool { rp_Size : Z; rp_MinIdle : Z }.
Record RedisTimeoutsConfig := mkRedisTimeouts { rt_Connect : Z; rt_Read : Z; rt_Write : Z }.
Record BackoffConfig := mkBackoff { bo_Min : Z; bo_Max : Z }.
Record RedisRetryConfig := mkRedisRetry { rr_MaxAttempts : Z; rr_Backoff : BackoffConfig }.
Record RedisConfig := mkRedis {
  rd_Address : string; rd_Password : string; rd_Database : Z; rd_KeyPrefix : string;
  rd_Pool : RedisPoolConfig; rd_Timeouts : RedisTimeoutsConfig; rd_Retry : RedisRetryConfig
}.
Record RaftConfig := mkRaft {
  rf_BindAddress : string; rf_DataDir : string; rf_BootstrapExpected : Z; rf_Peers : list string
}.
Record StorageConfig := mkStorage { sg_Type : string; sg_Redis : RedisConfig; sg_Raft : RaftConfig }.

Definition StateStorageTypeLocal : string := "local".
Definition StateStorageTypeRedis : string := "redis".
Definition StateStorageTypeRaft : string := "raft".

Definition RedisPoolConfig_Validate (p : RedisPoolConfig) : option goError :=
  refuse! (rp_Size p <=? 0)%Z
    with EText ("redis pool size must be positive, got " +:+ itoa (rp_Size p));
  refuse! (rp_MinIdle p <? 0)%Z
    with EText ("redis min idle connections cannot be negative, got " +:+ itoa (rp_MinIdle p));
  refuse! (rp_Size p <? rp_MinIdle p)%Z
    with EText ("redis min idle connections (" +:+ itoa (rp_MinIdle p)
                +:+ ") cannot exceed pool size (" +:+ itoa (rp_Size p) +:+ ")");
  None.

Definition RedisTimeoutsConfig_Validate (t : RedisTimeoutsConfig) : option goError :=
  refuse! (rt_Connect t <=? 0)%Z
    with EText ("redis connect timeout must be positive, got " +:+ Duration_String (rt_Connect t));
  refuse! (rt_Read t <=? 0)%Z
    with EText ("redis read timeout must be positive, got " +:+ Duration_String (rt_Read t));
  refuse! (rt_Write t <=? 0)%Z
    with EText ("redis write timeout must be positive, got " +:+ Duration_String (rt_Write t));
  None.

Definition RedisRetryConfig_Validate (r : RedisRetryConfig) : option goError :=
  refuse! (rr_MaxAttempts r <? 0)%Z
    with EText ("redis max retry attempts cannot be negative, got " +:+ itoa (rr_MaxAttempts r));
  refuse! (bo_Min (rr_Backoff r) <? 0)%Z
    with EText ("redis min retry backoff cannot be negative, got "
                +:+ Duration_String (bo_Min (rr_Backoff r)));
  refuse! (bo_Max (rr_Backoff r) <? 0)%Z
    with EText ("redis max retry backoff cannot be negative, got "
                +:+ Duration_String (bo_Max (rr_Backoff r)));
  refuse! (bo_Max (rr_Backoff r) <? bo_Min (rr_Backoff r))%Z
    with EText ("redis min retry backoff (" +:+ Duration_String (bo_Min (rr_Backoff r))
                +:+ ") cannot exceed max backoff (" +:+ Duration_String (bo_Max (rr_Backoff r)) +:+ ")");
  None.

Definition RedisConfig_Validate (r : RedisConfig) : option goError :=
  refuse! String.eqb (rd_Address r) "" with EText "redis address is required";
  refuse! (rd_Database r <? 0)%Z
    with EText ("redis database must be non-negative, got " +:+ itoa (rd_Database r));
  within! RedisPoolConfig_Validate (rd_Pool r) as "redis pool validation failed";
  within! RedisTimeoutsConfig_Validate (rd_Timeouts r) as "redis timeouts validation failed";
  within! RedisRetryConfig_Validate (rd_Retry r) as "redis retry validation failed";
  None.

Definition RaftConfig_Validate (r : RaftConfig) : option goError :=
  refuse! String.eqb (rf_BindAddress r) "" with EText "raft bind address is required";
  refuse! String.eqb (rf_DataDir r) "" with EText "raft data directory is required";
  refuse! (rf_BootstrapExpected r <? 0)%Z
    with EText ("raft bootstrap expected must be non-negative, got " +:+ itoa (rf_BootstrapExpected r));
  refuse! (0 <? rf_BootstrapExpected r)%Z && negb (bool_decide (rf_Peers r = []))
    with EText "cannot specify both bootstrap expected and static peers for raft";
  None.

Definition validTypes : list string :=
  [StateStorageTypeLocal; StateStorageTypeRedis; StateStorageTypeRaft].

Definition StorageConfig_Validate (c : StorageConfig) : option goError :=
  refuse! negb (slices_contains validTypes (sg_Type c))
    with EText ("invalid storage type: " +:+ sg_Type c +:+ " (valid: " +:+ formatStrings validTypes +:+ ")");
  if String.eqb (sg_Type c) StateStorageTypeRedis then RedisConfig_Validate (sg_Redis c)
  else if String.eqb (sg_Type c) StateStorageTypeRaft then RaftConfig_Validate (sg_Raft c)
  else if String.eqb (sg_Type c) StateStorageTypeLocal then None
  else Some (EText ("unsupported storage type: " +:+ sg_Type c)).

Definition StorageConfig_GetDefaults : StorageConfig :=
  mkStorage StateStorageTypeLocal
    (mkRedis "" "" 0 "vm-proxy-auth:" (mkRedisPool 20 10)
       (mkRedisTimeouts (5 * Second) (3 * Second) (3 * Second))
       (mkRedisRetry 3 (mkBackoff (100 * Millisecond) (1 * Second))))
    (mkRaft "127.0.0.1:9000" "/data/raft" 0 []).

(* ------------------------------------------------------------------ *)
(** ** cluster *)

Record GossipConfig := mkGossip { gs_Interval : Z; gs_Nodes : Z }.
Record ProbeConfig := mkProbe { pb_Interval : Z; pb_Timeout : Z }.
Record MemberlistConfig := mkMemberlistConfig {
  mb_BindAddress : string; mb_AdvertiseAddress : string; mb_Join : list string; mb_Encryption : string;
  mb_Gossip : GossipConfig; mb_Probe : ProbeConfig; mb_Metadata : gmap string string
}.
Record MDNSConfig := mkMDNS {
  dn_Enabled : bool; dn_ServiceName : string; dn_Domain : string; dn_Hostname : string;
  dn_Port : Z; dn_TXTRecords : gmap string string
}.
(** [ds_Static] is a pointer to the list of peers. *)
Record DiscoveryConfig := mkDiscovery {
  ds_Enabled : bool; ds_Interval : Z; ds_Providers : list string;
  ds_Static : option (list string); ds_MDNS : MDNSConfig
}.
Record ClusterConfig := mkCluster { cl_Memberlist : MemberlistConfig; cl_Discovery : DiscoveryConfig }.

(** The error of net.SplitHostPort. *)
Definition splitError (address : string) : option goError :=
  match SplitHostPort address with inr why => Some (EText why) | inl _ => None end.

Definition GossipConfig_Validate (g : GossipConfig) : option goError :=
  refuse! (gs_Interval g <=? 0)%Z
    with EText ("gossip interval must be positive, got " +:+ Duration_String (gs_Interval g));
  refuse! (gs_Nodes g <=? 0)%Z with EText ("gossip nodes must be positive, got " +:+ itoa (gs_Nodes g));
  None.

Definition ProbeConfig_Validate (p : ProbeConfig) : option goError :=
  refuse! (pb_Interval p <=? 0)%Z
    with EText ("probe interval must be positive, got " +:+ Duration_String (pb_Interval p));
  refuse! (pb_Timeout p <=? 0)%Z
    with EText ("probe timeout must be positive, got " +:+ Duration_String (pb_Timeout p));
  refuse! (pb_Interval p <=? pb_Timeout p)%Z
    with EText ("probe timeout (" +:+ Duration_String (pb_Timeout p)
                +:+ ") must be less than interval (" +:+ Duration_String (pb_Interval p) +:+ ")");
  None.

Definition MemberlistConfig_Validate (m : MemberlistConfig) : option goError :=
  refuse! String.eqb (mb_BindAddress m) "" with EText "memberlist bind address is required";
  within! splitError (mb_BindAddress m) as "invalid memberlist bind address format";
  within! (if str_nonempty (mb_AdvertiseAddress m) then splitError (mb_AdvertiseAddress m) else None)
    as "invalid memberlist advertise address format";
  within! GossipConfig_Validate (mb_Gossip m) as "gossip validation failed";
  within! ProbeConfig_Validate (mb_Probe m) as "probe validation failed";
  None.

(** The loop over the static peers. *)
Fixpoint StaticConfig_Validate (i : Z) (peers : list string) : option goError :=
  match peers with
  | [] => None
  | peer :: rest =>
      refuse! String.eqb peer "" with EText ("static peer " +:+ itoa i +:+ " cannot be empty");
      within! splitError peer
        as ("invalid static peer " +:+ itoa i +:+ " address format (" +:+ peer +:+ ")");
      StaticConfig_Validate (i + 1) rest
  end.

Definition MDNSConfig_Validate (m : MDNSConfig) : option goError :=
  if dn_Enabled m then
    refuse! String.eqb (dn_ServiceName m) "" with EText "mDNS service name is required when mDNS is enabled";
    refuse! String.eqb (dn_Domain m) "" with EText "mDNS domain is required when mDNS is enabled";
    refuse! (dn_Port m <=? 0)%Z
      with EText ("mDNS port must be positive when mDNS is enabled, got " +:+ itoa (dn_Port m));
    None
  else None.

Definition DiscoveryConfig_Validate (d : DiscoveryConfig) : option goError :=
  refuse! (ds_Interval d <=? 0)%Z
    with EText ("discovery interval must be positive, got " +:+ Duration_String (ds_Interval d));
  within! (match ds_Static d with Some peers => StaticConfig_Validate 0 peers | None => None end)
    as "static discovery validation failed";
  within! MDNSConfig_Validate (ds_MDNS d) as "mDNS discovery validation failed";
  None.

Definition ClusterConfig_Validate (c : ClusterConfig) : option goError :=
  within! MemberlistConfig_Validate (cl_Memberlist c) as "memberlist validation failed";
  within! DiscoveryConfig_Validate (cl_Discovery c) as "discovery validation failed";
  None.

Definition ClusterConfig_GetDefaults : ClusterConfig :=
  mkCluster
    (mkMemberlistConfig "0.0.0.0:7946" "" [] "" (mkGossip (200 * Millisecond) 3)
       (mkProbe (1 * Second) (500 * Millisecond)) ∅)
    (mkDiscovery false (30 * Second) [] None
       (mkMDNS true "_vm-proxy-auth._tcp" "local." "" 7946 ∅)).

(* ------------------------------------------------------------------ *)
(** ** The whole configuration *)

Record Config := mkConfig {
  cf_Metadata : MetadataConfig; cf_Logging : LoggingConfig; cf_Metrics : MetricsConfig;
  cf_Server : ServerConfig; cf_Proxy : ProxyConfig; cf_Auth : JWTConfig; cf_Tenants : TenantConfig;
  cf_Storage : StorageConfig; cf_Cluster : ClusterConfig
}.

(** config.Validate, the method LoadConfig calls. *)
Definition Config_Validate (parseError : string → option goError) (c : Config) : option goError :=
  pass! ServerConfig_Validate (cf_Server c);
  pass! ProxyConfig_Validate parseError (cf_Proxy c);
  pass! JWTConfig_Validate (cf_Auth c);
  pass! TenantConfig_Validate (cf_Tenants c);
  pass! StorageConfig_Validate (cf_Storage c);
  pass! (if String.eqb (sg_Type (cf_Storage c)) "raft" then ClusterConfig_Validate (cf_Cluster c) else None);
  None.

Definition IsClusterEnabled (c : Config) : bool := String.eqb (sg_Type (cf_Storage c)) "raft".

Definition validateCrossModule (c : Config) : option goError :=
  refuse! String.eqb (jw_Algorithm (cf_Auth c)) "RS256" && String.eqb (jw_JwksURL (cf_Auth c)) ""
    with EText "RS256 algorithm requires jwksUrl to be set";
  refuse! String.eqb (jw_Algorithm (cf_Auth c)) "HS256" && String.eqb (jw_Secret (cf_Auth c)) ""
    with EText "HS256 algorithm requires secret to be set";
  refuse! bool_decide (px_Upstreams (cf_Proxy c) = []) with EText "at least one proxy upstream is required";
  let storage := cf_Storage c in
  if String.eqb (sg_Type storage) StateStorageTypeRedis then
    refuse! String.eqb (rd_Address (sg_Redis storage)) ""
      with EText "redis address is required when storage type is redis";
    None
  else if String.eqb (sg_Type storage) StateStorageTypeRaft then
    refuse! String.eqb (rf_DataDir (sg_Raft storage)) ""
      with EText "raft data directory is required when storage type is raft";
    refuse! String.eqb (rf_BindAddress (sg_Raft storage)) ""
      with EText "raft bind address is required when storage type is raft";
    None
  else if String.eqb (sg_Type storage) StateStorageTypeLocal then None
  else Some (EText ("unsupported storage type: " +:+ sg_Type storage)).

(** validator.go *)
Definition ValidateConfig (parseError : string → option goError) (c : Config) : option goError :=
  within! MetadataConfig_Validate (cf_Metadata c) as "metadata validation failed";
  within! LoggingConfig_Validate (cf_Logging c) as "logging validation failed";
  within! MetricsConfig_Validate (cf_Metrics c) as "metrics validation failed";
  within! ServerConfig_Validate (cf_Server c) as "server validation failed";
  within! ProxyConfig_Validate parseError (cf_Proxy c) as "proxy validation failed";
  within! JWTConfig_Validate (cf_Auth c) as "auth validation failed";
  within! TenantConfig_Validate (cf_Tenants c) as "tenants validation failed";
  within! StorageConfig_Validate (cf_Storage c) as "storage validation failed";
  within! (if IsClusterEnabled c then ClusterConfig_Validate (cf_Cluster c) else None)
    as "cluster validation failed";
  within! validateCrossModule c as "cross-module validation failed";
  None.

Definition GetDefaults : Config :=
  mkConfig MetadataConfig_GetDefaults LoggingConfig_GetDefaults MetricsConfig_GetDefaults
    ServerConfig_GetDefaults ProxyConfig_GetDefaults JWTConfig_GetDefaults TenantConfig_GetDefaults
    StorageConfig_GetDefaults ClusterConfig_GetDefaults.

(* ------------------------------------------------------------------ *)
(** ** What a valid configuration guarantees *)

(** Peels one passed check off a successful validation. *)
Ltac passed H :=
  lazymatch type of H with
  | (if ?b then Some _ else _) = None => let E := fresh "E" in destruct b eqn:E; [discriminate H|]
  | (match ?r with Some _ => _ | None => _ end) = None =>
      let E := fresh "E" in destruct r eqn:E; [discriminate H|]
  end.

(** What a valid proxy configuration gives the components built from it. *)
Definition usable_proxy (c : ProxyConfig) : Prop :=
  px_Upstreams c ≠ [] ∧
  LoadBalancingStrategy_IsValid (rt_Strategy (px_Routing c)) = true ∧
  (0 < hk_Timeout (rt_HealthCheck (px_Routing c)) < hk_Interval (rt_HealthCheck (px_Routing c)))%Z ∧
  (0 < hk_HealthyThreshold (rt_HealthCheck (px_Routing c)))%Z ∧
  (0 < hk_UnhealthyThreshold (rt_HealthCheck (px_Routing c)))%Z ∧
  (0 < rl_Timeout (px_Reliability c))%Z ∧
  (0 ≤ rl_Retries (px_Reliability c))%Z ∧
  (qc_Enabled (rl_Queue (px_Reliability c)) = true →
     0 < qc_MaxSize (rl_Queue (px_Reliability c)) ∧ 0 < qc_Timeout (rl_Queue (px_Reliability c)))%Z.

Lemma HealthCheckConfig_valid h :
  HealthCheckConfig_Validate h = None →
  (0 < hk_Timeout h < hk_Interval h)%Z ∧ (0 < hk_HealthyThreshold h)%Z ∧ (0 < hk_UnhealthyThreshold h)%Z.
Proof.
  unfold HealthCheckConfig_Validate. intros H. do 5 passed H.
  apply Z.leb_gt in E, E0, E1, E2, E3. lia.
Qed.

Lemma ReliabilityConfig_valid r :
  ReliabilityConfig_Validate r = None →
  (0 < rl_Timeout r)%Z ∧ (0 ≤ rl_Retries r)%Z ∧
  (qc_Enabled (rl_Queue r) = true → 0 < qc_MaxSize (rl_Queue r) ∧ 0 < qc_Timeout (rl_Queue r))%Z.
Proof.
  unfold ReliabilityConfig_Validate, QueueConfig_Validate. intros H. do 3 passed H.
  apply Z.leb_gt in E. apply Z.ltb_ge in E0. do 2 (split; [done|]). intros Hq. rewrite Hq in H. do 2 passed H.
  apply Z.leb_gt in E2, E3. done.
Qed.

Lemma ProxyConfig_valid parseError c : ProxyConfig_Validate parseError c = None → usable_proxy c.
Proof.
  unfold ProxyConfig_Validate, usable_proxy. intros H. do 4 passed H.
  apply bool_decide_eq_false in E. apply ReliabilityConfig_valid in E2 as (?&?&?).
  unfold RoutingConfig_Validate in E1. passed E1. apply HealthCheckConfig_valid in E1 as (?&?&?).
  apply negb_false_iff, existsb_exists in E2 as (s&Hs&->%String.eqb_eq).
  split; [done|]. split; [|done]. apply list_elem_of_In in Hs. revert Hs. unfold validStrategies.
  by intros [->|[->|[->|Hs%elem_of_nil]%elem_of_cons]%elem_of_cons]%elem_of_cons.
Qed.

Lemma passed_within {r : option goError} {p : string} {k : option goError} :
  (match r with Some err => Some (errorf_w p err) | None => k end) = None ↔ r = None ∧ k = None.
Proof. destruct r; naive_solver. Qed.

Lemma passed_pass {r k : option goError} :
  (match r with Some err => Some err | None => k end) = None ↔ r = None ∧ k = None.
Proof. destruct r; naive_solver. Qed.

Lemma passed_refuse {b : bool} {e : goError} {k : option goError} :
  (if b then Some e else k) = None ↔ b = false ∧ k = None.
Proof. destruct b; naive_solver. Qed.

#[export] Hint Rewrite @passed_within @passed_pass @passed_refuse : vpa.

(** What a valid authentication configuration gives the verifier. *)
Definition usable_auth (j : JWTConfig) : Prop :=
  (jw_Algorithm j = "RS256" ∧ jw_JwksURL j ≠ "" ∨ jw_Algorithm j = "HS256" ∧ jw_Secret j ≠ "") ∧
  (0 < cc_TokenTTL (jw_Cache j))%Z ∧ (0 < cc_JwksTTL (jw_Cache j))%Z.

Lemma JWTConfig_valid j : JWTConfig_Validate j = None → usable_auth j.
Proof.
  unfold JWTConfig_Validate. autorewrite with vpa. intros (_&Ha&Hr&Hh&_&_&Ht&Hj&_).
  apply negb_false_iff, orb_true_iff in Ha. apply Z.leb_gt in Ht, Hj. split; [|done].
  destruct Ha as [Ha|Ha]; rewrite Ha in *; simpl in *; [left|right]; apply String.eqb_eq in Ha;
    (split; [done|by apply String.eqb_neq]).
Qed.

Lemma firstInvalid_None {A} (valid : A → option goError) prefix i l :
  firstInvalid valid prefix i l = None ↔ Forall (λ x, valid x = None) l.
Proof.
  revert i. induction l as [|x l IH]; intros i; simpl; [done|].
  rewrite passed_within, IH, Forall_cons. done.
Qed.

(** What a valid tenant configuration gives the filter and the mapping. *)
Definition usable_tenants (c : TenantConfig) : Prop :=
  TenantFilterStrategy_IsValid (fc_Strategy (tc_Filter c)) = true ∧
  lc_Account (fc_Labels (tc_Filter c)) ≠ "" ∧ lc_Project (fc_Labels (tc_Filter c)) ≠ "" ∧
  tc_Mappings c ≠ [] ∧
  Forall (λ m, mp_Groups m ≠ [] ∧ mp_VMTenants m ≠ [] ∧ Forall (λ t, vt_Account t ≠ "") (mp_VMTenants m))
    (tc_Mappings c).

Lemma TenantConfig_valid c : TenantConfig_Validate c = None → usable_tenants c.
Proof.
  unfold TenantConfig_Validate, FilterConfig_Validate, LabelsConfig_Validate. autorewrite with vpa.
  intros ((Hs&Ha%String.eqb_neq&Hp%String.eqb_neq&_)&Hm&Hf). rewrite firstInvalid_None in Hf.
  split; [|split; [done|split; [done|split]]].
  - apply negb_false_iff, bool_decide_eq_true in Hs. revert Hs. unfold filterStrategies.
    by intros [->|[->|Hs%elem_of_nil]%elem_of_cons]%elem_of_cons.
  - by destruct (tc_Mappings c).
  - eapply Forall_impl; [exact Hf|]. intros m. simpl. unfold MappingConfig_Validate. autorewrite with vpa.
    intros (Hg%bool_decide_eq_false&Ht&Hv&_). split; [done|]. split; [by destruct (mp_VMTenants m)|].
    rewrite firstInvalid_None in Hv. eapply Forall_impl; [exact Hv|]. intros t. simpl.
    unfold VMTenantConfig_Validate. autorewrite with vpa. by intros [?%String.eqb_neq _].
Qed.

Lemma StorageConfig_cross c :
  StorageConfig_Validate c = None →
  (sg_Type c = StateStorageTypeRedis ∧ rd_Address (sg_Redis c) ≠ "") ∨
  (sg_Type c = StateStorageTypeRaft ∧ rf_BindAddress (sg_Raft c) ≠ "" ∧ rf_DataDir (sg_Raft c) ≠ "") ∨
  sg_Type c = StateStorageTypeLocal.
Proof.
  unfold StorageConfig_Validate. rewrite passed_refuse. intros [_ H].
  destruct (String.eqb_spec (sg_Type c) StateStorageTypeRedis).
  { left. split; [done|]. unfold RedisConfig_Validate in H. rewrite passed_refuse in H.
    by destruct H as [?%String.eqb_neq _]. }
  destruct (String.eqb_spec (sg_Type c) StateStorageTypeRaft).
  { right; left. unfold RaftConfig_Validate in H. rewrite !passed_refuse in H.
    destruct H as (?%String.eqb_neq&?%String.eqb_neq&_). done. }
  destruct (String.eqb_spec (sg_Type c) StateStorageTypeLocal); [auto|done].
Qed.

(** The cross-module checks never refuse what the module checks accept. *)
Lemma validateCrossModule_redundant parseError c :
  Config_Validate parseError c = None → validateCrossModule c = None.
Proof.
  unfold Config_Validate. autorewrite with vpa. intros (_&Hp&Ha&_&Hs&_).
  apply ProxyConfig_valid in Hp as (Hu&_). apply JWTConfig_valid in Ha as [Ha _].
  apply StorageConfig_cross in Hs. unfold validateCrossModule. rewrite !passed_refuse.
  split; [|split; [|split; [by apply bool_decide_eq_false|]]].
  - destruct Ha as [[-> ?]|[-> ?]]; [by apply String.eqb_neq|done].
  - destruct Ha as [[-> ?]|[-> ?]]; [done|by apply String.eqb_neq].
  - cbv zeta. destruct Hs as [[-> Hx]|[(->&Hx&Hy)| ->]]; [simpl|simpl|done].
    + by apply String.eqb_neq in Hx as ->.
    + by apply String.eqb_neq in Hx as ->; apply String.eqb_neq in Hy as ->.
Qed.

(** ValidateConfig accepts exactly the configurations that Config.Validate and the
    validators of the metadata, logging and metrics sections accept: its cross-module
    checks add nothing. *)
Theorem validators_agree parseError c :
  ValidateConfig parseError c = None ↔
  MetadataConfig_Validate (cf_Metadata c) = None ∧ LoggingConfig_Validate (cf_Logging c) = None ∧
  MetricsConfig_Validate (cf_Metrics c) = None ∧ Config_Validate parseError c = None.
Proof.
  split.
  - unfold ValidateConfig, Config_Validate. autorewrite with vpa.
    intros (?&?&?&?&?&?&?&?&?&?&_). unfold IsClusterEnabled in *. tauto.
  - intros (?&?&?&H). pose proof (validateCrossModule_redundant _ _ H).
    unfold ValidateConfig, Config_Validate in *. autorewrite with vpa in *. unfold IsClusterEnabled. tauto.
Qed.

Lemma Config_usable parseError c :
  Config_Validate parseError c = None →
  ProxyConfig_Validate parseError (cf_Proxy c) = None ∧
  usable_proxy (cf_Proxy c) ∧ usable_auth (cf_Auth c) ∧ usable_tenants (cf_Tenants c).
Proof.
  unfold Config_Validate. autorewrite with vpa. intros (_&Hp&Ha&Ht&_).
  split; [done|]. split; [by eapply ProxyConfig_valid|]. split; [by apply JWTConfig_valid|].
  by apply TenantConfig_valid.
Qed.

(** A configuration that Validate accepts has what its consumers rely on: a strategy the
    balancer factory knows, positive thresholds and timeouts, key material for the
    configured algorithm, tenant mappings with accounts, and upstreams that parse. *)
Theorem valid_config_is_usable parseError c :
  Config_Validate parseError c = None →
  usable_proxy (cf_Proxy c) ∧ usable_auth (cf_Auth c) ∧ usable_tenants (cf_Tenants c) ∧
  Forall (λ u, up_URL u ≠ "" ∧ parseError (up_URL u) = None ∧ (0 ≤ up_Weight u)%Z)
    (px_Upstreams (cf_Proxy c)).
Proof.
  intros Hc. destruct (Config_usable _ _ Hc) as (Hp&?&?&?). do 3 (split; [done|]).
  unfold ProxyConfig_Validate in Hp. autorewrite with vpa in Hp.
  destruct Hp as (_&Hu&_). rewrite firstInvalid_None in Hu.
  eapply Forall_impl; [exact Hu|]. intros u. simpl. unfold UpstreamConfig_Validate. autorewrite with vpa.
  intros (?%String.eqb_neq&?&?%Z.ltb_ge&_). done.
Qed.

(** The defaults with the parts that have none: an upstream, a JWKS URL and a
    tenant mapping. *)
Definition completed : Config :=
  mkConfig MetadataConfig_GetDefaults LoggingConfig_GetDefaults MetricsConfig_GetDefaults
    ServerConfig_GetDefaults
    (mkProxyConfig [mkUpstream "http://vm:8428" 1] (px_Routing ProxyConfig_GetDefaults)
       (px_Reliability ProxyConfig_GetDefaults))
    (mkJWT "RS256" "http://idp/jwks" "" (jw_Validation JWTConfig_GetDefaults) "groups"
       (jw_Cache JWTConfig_GetDefaults))
    (mkTenantConfig (tc_Filter TenantConfig_GetDefaults)
       [mkMapping ["team"] [mkVMTenantConfig "1" "7"] ["read"]])
    StorageConfig_GetDefaults ClusterConfig_GetDefaults.

Lemma completed_valid : Config_Validate (λ _, None) completed = None.
Proof. vm_compute. reflexivity. Qed.

Lemma defaults_incomplete :
  Config_Validate (λ _, None) GetDefaults = Some (EText "at least one upstream is required").
Proof. vm_compute. reflexivity. Qed.

Lemma valid_config_is_usable_witness :
  usable_proxy (cf_Proxy completed) ∧ usable_auth (cf_Auth completed) ∧
  usable_tenants (cf_Tenants completed) ∧
  Forall (λ u, up_URL u ≠ "" ∧ (λ _, None : option goError) (up_URL u) = None ∧ (0 ≤ up_Weight u)%Z)
    (px_Upstreams (cf_Proxy completed)).
Proof. apply (valid_config_is_usable (λ _, None) completed). vm_compute. reflexivity. Defined.
