(* ===== verification/LoadBalancer.v ===== *)
(** * LoadBalancer: the interface domain.LoadBalancer

    The operations a balancer offers to the proxy service (a type class, as
    the source has an interface) and the contract every implementation is
    proved to satisfy. The proxy's theorems use the contract only. *)

From S2P Require Import Prelude Errors Domain.

(** The methods of domain.LoadBalancer, and [UpdateBackendState], which the
    proxy service reaches by a type assertion and every balancer has. *)
Class LoadBalancer (S : Type) := {
  lb_NextBackend : S → outcome (result Backend) * S;
  lb_ReportResult : S → Backend → option goError → Z → S;
  lb_BackendsStatus : S → Z → list BackendStatus;
  lb_UpdateBackendState : S → string → BackendState → S;
  lb_Close : S → S
}.

(** What a balancer promises: a view of its backends and of the closed flag,
    a well-formedness invariant, and the effect of each method on them. *)
Class LoadBalancerSpec (S : Type) `{LoadBalancer S} := {
  lb_backends : S → list Backend;
  lb_closed : S → bool;
  lb_wf : S → Prop;

  lb_next_candidate s b s' :
    lb_wf s → lb_NextBackend s = (Returned (Ok b), s') →
    lb_closed s = false ∧ candidate (lb_backends s) b;
  lb_next_error s e s' :
    lb_wf s → lb_NextBackend s = (Returned (Err e), s') →
    e = EApp ErrNoHealthyBackends ∧ (lb_closed s = true ∨ no_candidate (lb_backends s));
  lb_next_closed s :
    lb_closed s = true → (lb_NextBackend s).1 = Returned (Err (EApp ErrNoHealthyBackends));
  lb_next_frame s :
    lb_wf s →
    let s' := (lb_NextBackend s).2 in
    lb_wf s' ∧ lb_backends s' = lb_backends s ∧ lb_closed s' = lb_closed s;

  lb_report_frame s b e code :
    lb_wf s →
    let s' := lb_ReportResult s b e code in
    lb_wf s' ∧ lb_backends s' = lb_backends s ∧ lb_closed s' = lb_closed s;

  lb_update_view s url st :
    lb_wf s →
    let s' := lb_UpdateBackendState s url st in
    lb_wf s' ∧ lb_backends s' = setFirstState url st (lb_backends s) ∧ lb_closed s' = lb_closed s;

  lb_close_view s :
    lb_wf s →
    let s' := lb_Close s in
    lb_wf s' ∧ lb_backends s' = lb_backends s ∧ lb_closed s' = true;

  lb_status_view s now :
    lb_wf s →
    map bs_Backend (lb_BackendsStatus s now) = lb_backends s ∧
    Forall (λ st, bs_IsHealthy st = healthy (bs_Backend st)) (lb_BackendsStatus s now)
}.

(** Repeated selection: the outcomes of [n] calls of NextBackend. *)
Fixpoint select_n {S} `{LoadBalancer S} (n : nat) (s : S) : list (outcome (result Backend)) * S :=
  match n with
  | 0 => ([], s)
  | Datatypes.S n' =>
      let '(r, s1) := lb_NextBackend s in
      let '(rs, s2) := select_n n' s1 in
      (r :: rs, s2)
  end.

(** The backends a selection chooses among: the healthy ones, or else the
    rate-limited ones. *)
Definition pool (bs : list Backend) : list Backend :=
  match filter (λ b, healthy b = true) bs with
  | [] => filter (λ b, fallback b = true) bs
  | h => h
  end.

Definition pool_indices (bs : list Backend) : list nat :=
  match indices_from 0 healthy bs with
  | [] => indices_from 0 fallback bs
  | h => h
  end.

Lemma pool_candidate bs b : b ∈ pool bs → candidate bs b.
Proof.
  unfold pool, candidate. destruct (filter (λ b, healthy b = true) bs) eqn:Hh; intros Hb.
  - apply list_elem_of_filter in Hb as [? ?]. split; [done|]. right. split; [done|].
    apply Forall_forall. intros b' Hb'. destruct (healthy b') eqn:E; [|done].
    assert (b' ∈ filter (λ b, healthy b = true) bs) as Hin by by apply list_elem_of_filter.
    rewrite Hh in Hin. by apply elem_of_nil in Hin.
  - rewrite <- Hh in Hb. apply list_elem_of_filter in Hb as [? ?]. auto.
Qed.

Lemma pool_nil bs : pool bs = [] → no_candidate bs.
Proof.
  unfold pool, no_candidate. destruct (filter (λ b, healthy b = true) bs) eqn:Hh; [|done].
  intros Hf. apply Forall_forall. intros b Hb. split.
  - destruct (healthy b) eqn:E; [|done]. exfalso. apply (elem_of_nil b). rewrite <- Hh.
    by apply list_elem_of_filter.
  - destruct (fallback b) eqn:E; [|done]. exfalso. apply (elem_of_nil b). rewrite <- Hf.
    by apply list_elem_of_filter.
Qed.

Lemma pool_indices_candidate bs i b :
  i ∈ pool_indices bs → bs !! i = Some b → candidate bs b.
Proof.
  unfold pool_indices, candidate. intros Hi Hb.
  assert (b ∈ bs) by (by eapply list_elem_of_lookup_2).
  split; [done|]. destruct (indices_from 0 healthy bs) eqn:Hh.
  - right. apply elem_of_indices in Hi as (b'&?&?). simplify_eq. split; [done|].
    apply Forall_forall. intros c [j Hj]%list_elem_of_lookup_1.
    destruct (healthy c) eqn:E; [|done].
    assert (j ∈ indices_from 0 healthy bs) as Hin by (apply elem_of_indices; eauto).
    rewrite Hh in Hin. by apply elem_of_nil in Hin.
  - rewrite <- Hh in Hi. apply elem_of_indices in Hi as (b'&?&?). simplify_eq. auto.
Qed.

Lemma pool_indices_nil bs : pool_indices bs = [] → no_candidate bs.
Proof.
  unfold pool_indices. destruct (indices_from 0 healthy bs) eqn:Hh; [|done].
  intros Hf. apply Forall_forall. intros b [j Hj]%list_elem_of_lookup_1. split.
  - destruct (healthy b) eqn:E; [|done]. exfalso. apply (elem_of_nil j). rewrite <- Hh.
    apply elem_of_indices; eauto.
  - destruct (fallback b) eqn:E; [|done]. exfalso. apply (elem_of_nil j). rewrite <- Hf.
    apply elem_of_indices; eauto.
Qed.

Lemma pool_indices_NoDup bs : NoDup (pool_indices bs).
Proof.
  unfold pool_indices. pose proof (NoDup_indices_from healthy bs 0).
  pose proof (NoDup_indices_from fallback bs 0). by destruct (indices_from 0 healthy bs).
Qed.

Lemma pool_indices_lookup bs i : i ∈ pool_indices bs → is_Some (bs !! i).
Proof.
  unfold pool_indices. intros Hi. destruct (indices_from 0 healthy bs) eqn:Hh.
  - apply elem_of_indices in Hi as (b&?&?). eauto.
  - rewrite <- Hh in Hi. apply elem_of_indices in Hi as (b&?&?). eauto.
Qed.

(** The status list every balancer without connection counts returns. *)
Definition statusOf (now : Z) (conns : Z) (b : Backend) : BackendStatus :=
  mkBackendStatus b (IsAvailable (State b)) conns now 0.

Lemma status_view bs now :
  map bs_Backend (map (statusOf now 0) bs) = bs ∧
  Forall (λ st, bs_IsHealthy st = healthy (bs_Backend st)) (map (statusOf now 0) bs).
Proof.
  split.
  - induction bs; simpl; congruence.
  - induction bs; constructor; done.
Qed.

#[export] Hint Resolve pool_candidate pool_nil pool_indices_candidate pool_indices_nil
  pool_indices_NoDup pool_indices_lookup status_view : vpa.
