(* ===== verification/RoundRobin.v ===== *)
(** * RoundRobin: internal/services/loadbalancer/round_robin.go

    The balancer's state is the backend slice, the int32 counter and the
    closed flag; the counter is kept at its width. *)

From S2P Require Import Prelude Errors Domain LoadBalancer.

(* ------------------------------------------------------------------ *)
(** ** State and operations *)

Record RoundRobinBalancer := mkRoundRobin {
  backends : list Backend;
  current : Z;
  closed : bool
}.

Definition NewRoundRobinBalancer (bs : list Backend) : RoundRobinBalancer :=
  mkRoundRobin bs (-1) false.

Definition getHealthyBackends (rrb : RoundRobinBalancer) : list Backend :=
  filter (λ b, IsAvailable (State b) = true) (backends rrb).

Definition getFallbackBackends (rrb : RoundRobinBalancer) : list Backend :=
  filter (λ b, IsAvailableWithFallback (State b) && negb (IsAvailable (State b)) = true)
    (backends rrb).

Definition NextBackend (rrb : RoundRobinBalancer)
  : outcome (result Backend) * RoundRobinBalancer :=
  if closed rrb then (Returned (Err (EApp ErrNoHealthyBackends)), rrb)
  else
    let healthyBackends :=
      match getHealthyBackends rrb with
      | [] => getFallbackBackends rrb
      | bs => bs
      end in
    match healthyBackends with
    | [] => (Returned (Err (EApp ErrNoHealthyBackends)), rrb)
    | [backend] => (Returned (Ok backend), rrb)
    | _ =>
        let healthyCount := Z.of_nat (length healthyBackends) in
        if (max_int32 <? healthyCount)%Z
        then (Returned (Err (EApp ErrNoHealthyBackends)), rrb)
        else
          let next := wrap32 (current rrb + 1) in
          let index := Z.rem next (wrap32 healthyCount) in
          (obind (slice_at healthyBackends index) (λ b, Returned (Ok b)),
           mkRoundRobin (backends rrb) next (closed rrb))
    end.

(** Only logs. *)
Definition ReportResult (rrb : RoundRobinBalancer) (backend : Backend)
    (err : option goError) (statusCode : Z) : RoundRobinBalancer := rrb.

Definition BackendsStatus (rrb : RoundRobinBalancer) (now : Z) : list BackendStatus :=
  map (λ backend, mkBackendStatus backend (IsAvailable (State backend)) 0 now 0) (backends rrb).

Definition Close (rrb : RoundRobinBalancer) : RoundRobinBalancer :=
  if closed rrb then rrb else mkRoundRobin (backends rrb) (current rrb) true.

Definition UpdateBackendState (rrb : RoundRobinBalancer) (backendURL : string)
    (newState : BackendState) : RoundRobinBalancer :=
  mkRoundRobin (setFirstState backendURL newState (backends rrb)) (current rrb) (closed rrb).

Definition GetBackendCount (rrb : RoundRobinBalancer) : Z := Z.of_nat (length (backends rrb)).

Definition GetHealthyBackendCount (rrb : RoundRobinBalancer) : Z :=
  Z.of_nat (length (getHealthyBackends rrb)).

#[export] Instance RoundRobin_LoadBalancer : LoadBalancer RoundRobinBalancer := {
  lb_NextBackend := NextBackend;
  lb_ReportResult := ReportResult;
  lb_BackendsStatus := BackendsStatus;
  lb_UpdateBackendState := UpdateBackendState;
  lb_Close := Close
}.

(* ------------------------------------------------------------------ *)
(** ** The contract *)

(** A slice longer than an int32 is refused by NextBackend. *)
Definition rr_wf (rrb : RoundRobinBalancer) : Prop :=
  (Z.of_nat (length (backends rrb)) ≤ max_int32)%Z.

(** NextBackend in terms of the pool of candidates. *)
Lemma rr_NextBackend_pool rrb :
  closed rrb = false →
  NextBackend rrb =
  match pool (backends rrb) with
  | [] => (Returned (Err (EApp ErrNoHealthyBackends)), rrb)
  | [b] => (Returned (Ok b), rrb)
  | p =>
      if (max_int32 <? Z.of_nat (length p))%Z
      then (Returned (Err (EApp ErrNoHealthyBackends)), rrb)
      else
        let next := wrap32 (current rrb + 1) in
        (obind (slice_at p (Z.rem next (wrap32 (Z.of_nat (length p)))))
           (λ b, Returned (Ok b)),
         mkRoundRobin (backends rrb) next (closed rrb))
  end.
Proof.
  intros Hc. unfold NextBackend, pool, healthy, fallback, getHealthyBackends, getFallbackBackends.
  rewrite Hc. by repeat case_match.
Qed.

Lemma pool_length bs : (length (pool bs) ≤ length bs)%nat.
Proof.
  unfold pool.
  pose proof (length_filter (λ b, healthy b = true) bs).
  pose proof (length_filter (λ b, fallback b = true) bs).
  destruct (filter (λ b, healthy b = true) bs); simpl in *; lia.
Qed.

(** With at least two candidates the counter picks the backend. *)
Lemma rr_NextBackend_many rrb :
  closed rrb = false → rr_wf rrb → (2 ≤ length (pool (backends rrb)))%nat →
  NextBackend rrb =
  (obind (slice_at (pool (backends rrb))
            (Z.rem (wrap32 (current rrb + 1)) (Z.of_nat (length (pool (backends rrb))))))
     (λ b, Returned (Ok b)),
   mkRoundRobin (backends rrb) (wrap32 (current rrb + 1)) false).
Proof.
  intros Hc Hwf Hk. rewrite rr_NextBackend_pool by done.
  pose proof (pool_length (backends rrb)) as Hlen. unfold rr_wf in Hwf.
  set (p := pool (backends rrb)) in *. clearbody p.
  destruct p as [|b1 [|b2 p]]; [simpl in Hk; lia..|]. cbv zeta.
  destruct (max_int32 <? _)%Z eqn:Hlt; [apply Z.ltb_lt in Hlt; lia|].
  rewrite (wrap32_id (Z.of_nat _)) by (unfold min_int32, max_int32 in *; lia).
  by rewrite Hc.
Qed.

#[export] Instance RoundRobin_Spec : LoadBalancerSpec RoundRobinBalancer.
Proof.
  refine {| lb_backends := backends; lb_closed := closed; lb_wf := rr_wf |}; simpl.
  - intros s b s' Hwf Hn. destruct (closed s) eqn:Hc.
    { unfold NextBackend in Hn. rewrite Hc in Hn. done. }
    split; [done|]. apply pool_candidate. rewrite rr_NextBackend_pool in Hn by done.
    destruct (pool (backends s)) as [|b1 [|b2 p]]; simplify_eq; [by constructor|].
    cbv zeta in Hn. destruct (max_int32 <? _)%Z; [done|]. injection Hn as Hn _.
    destruct (slice_at _ _) eqn:Hs; simplify_eq/=. apply slice_at_Some in Hs as [_ Hs].
    by eapply list_elem_of_lookup_2.
  - intros s e s' Hwf Hn. destruct (closed s) eqn:Hc.
    { unfold NextBackend in Hn. rewrite Hc in Hn. naive_solver. }
    rewrite rr_NextBackend_pool in Hn by done. pose proof (pool_length (backends s)).
    pose proof (pool_nil (backends s)). unfold rr_wf in Hwf.
    destruct (pool (backends s)) as [|b1 [|b2 p]]; simplify_eq; [by auto|].
    cbv zeta in Hn. destruct (Z.ltb_spec max_int32 (Z.of_nat (length (b1 :: b2 :: p)))); [lia|].
    injection Hn as Hn _. destruct (slice_at _ _); simplify_eq/=.
  - intros s Hc. unfold NextBackend. by rewrite Hc.
  - intros s Hwf. unfold NextBackend, rr_wf in *. repeat case_match; simpl; auto.
  - done.
  - intros s url st Hwf. unfold rr_wf in *. simpl. by rewrite setFirstState_length.
  - intros s Hwf. unfold Close. destruct (closed s) eqn:Hc; simpl; auto.
  - intros s now _. apply status_view.
Defined.

(* ------------------------------------------------------------------ *)
(** ** Fairness and the int32 counter *)

(** One selection while the counter is in range: it advances by one and the
    pool is indexed by the new counter modulo the pool size. *)
Lemma rr_NextBackend_in_range rrb p :
  pool (backends rrb) = p → closed rrb = false → rr_wf rrb →
  (2 ≤ length p)%nat → (-1 ≤ current rrb < max_int32)%Z →
  ∃ b, p !! (Z.to_nat (current rrb + 1) mod length p)%nat = Some b ∧
    NextBackend rrb = (Returned (Ok b), mkRoundRobin (backends rrb) (current rrb + 1) false).
Proof.
  intros <- Hc Hwf Hk Hr. rewrite rr_NextBackend_many by done.
  rewrite wrap32_id by (unfold min_int32, max_int32 in *; lia).
  set (p := pool (backends rrb)) in *.
  destruct (lookup_lt_is_Some_2 p (Z.to_nat (current rrb + 1) mod length p)) as [b Hb].
  { apply Nat.mod_upper_bound. lia. }
  exists b. split; [done|]. f_equal.
  rewrite Z.rem_mod_nonneg by lia.
  replace ((current rrb + 1) mod Z.of_nat (length p))%Z
    with (Z.of_nat (Z.to_nat (current rrb + 1) mod length p)) by (rewrite Nat2Z.inj_mod; f_equal; lia).
  by rewrite (slice_at_lookup p _ b).
Qed.

(** [n] selections from an open balancer whose counter stays in range. *)
Lemma select_n_in_range n rrb p :
  pool (backends rrb) = p → closed rrb = false → rr_wf rrb →
  (2 ≤ length p)%nat → (-1 ≤ current rrb)%Z → (current rrb + Z.of_nat n ≤ max_int32)%Z →
  ∃ picks,
    select_n n rrb = (map (λ b, Returned (Ok b)) picks,
                      mkRoundRobin (backends rrb) (current rrb + Z.of_nat n) false) ∧
    length picks = n ∧
    ∀ j, (j < n)%nat → picks !! j = p !! ((Z.to_nat (current rrb + 1) + j) mod length p)%nat.
Proof.
  revert rrb. induction n as [|n IH]; intros rrb Hp Hc Hwf Hk Hlo Hhi.
  { exists []. split; [|split; [done|lia]]. destruct rrb; simpl in *. do 2 f_equal; [lia|done]. }
  destruct (rr_NextBackend_in_range rrb p) as (b&Hb&Hn); [done..|lia|].
  destruct (IH (mkRoundRobin (backends rrb) (current rrb + 1) false)) as (picks&Hs&Hl&Hj);
    simpl; [done..|lia|lia|].
  exists (b :: picks). simpl. rewrite Hn. simpl in Hs. rewrite Hs. split; [|split].
  - do 2 f_equal; simpl; try done. lia.
  - simpl; lia.
  - intros [|j] Hlt; simpl; [by rewrite Nat.add_0_r|].
    rewrite Hj by lia. simpl. do 2 f_equal. lia.
Qed.

(** A list read off at consecutive indices modulo its length is a rotation. *)
Lemma consecutive_mod_Permutation {A} (p picks : list A) (s : nat) :
  length picks = length p →
  (∀ j, (j < length p)%nat → picks !! j = p !! ((s + j) mod length p)%nat) →
  picks ≡ₚ p.
Proof.
  intros Hlen Hj. destruct (decide (length p = 0)) as [H0|H0].
  { destruct p, picks; simpl in *; (lia || done). }
  assert (picks = rotate s p) as ->.
  { apply list_eq_same_length with (length p); [by rewrite length_rotate|done|].
    intros i x y Hi Hx Hy. rewrite lookup_rotate_r in Hy by lia.
    rewrite Hj in Hx by lia. unfold rotate_nat_add in Hy.
    rewrite <- Nat2Z.inj_add, <- Nat2Z.inj_mod, Nat2Z.id in Hy. congruence. }
  unfold rotate. rewrite Permutation_app_comm. by rewrite take_drop.
Qed.

(** C12: While the balancer is open, has at least two backends to choose among (and at
    most 2^31-1 in all) and its 32-bit counter does not run over within the round, as many
    consecutive selections as there are candidates return each of them exactly once. (Past
    2^31-1 the counter wraps and a selection panics: see the finding on
    round_robin_counter_overflow_panics.) *)
Theorem round_robin_fair rrb p :
  pool (backends rrb) = p → closed rrb = false →
  (2 ≤ length p)%nat → (Z.of_nat (length (backends rrb)) ≤ max_int32)%Z →
  (-1 ≤ current rrb)%Z → (current rrb + Z.of_nat (length p) ≤ max_int32)%Z →
  ∃ picks,
    select_n (length p) rrb =
      (map (λ b, Returned (Ok b)) picks,
       mkRoundRobin (backends rrb) (current rrb + Z.of_nat (length p)) false) ∧
    picks ≡ₚ p.
Proof.
  intros Hp Hc Hk Hwf Hlo Hhi.
  destruct (select_n_in_range (length p) rrb p) as (picks&Hs&Hl&Hj); [done..|].
  exists picks. split; [done|]. by eapply consecutive_mod_Permutation.
Qed.

Definition trio : list Backend :=
  [mkBackend "http://a" 1 BackendHealthy; mkBackend "http://b" 1 BackendHealthy;
   mkBackend "http://c" 1 BackendMaintenance].

Lemma round_robin_fair_witness :
  ∃ picks,
    select_n 2 (NewRoundRobinBalancer trio) =
      (map (λ b, Returned (Ok b)) picks, mkRoundRobin trio 1 false) ∧
    picks ≡ₚ take 2 trio.
Proof.
  apply (round_robin_fair (NewRoundRobinBalancer trio) (take 2 trio));
    (reflexivity || (simpl; unfold max_int32; lia)).
Defined.

(** Between two consecutive negative numbers at most one is a multiple. *)
Lemma rem_succ_negative (a k : Z) :
  Z.rem a k = 0%Z → (a + 1 ≤ 0)%Z → (2 ≤ k)%Z → (Z.rem (a + 1) k < 0)%Z.
Proof.
  intros H0 Ha Hk.
  pose proof (Z.rem_nonpos (a + 1) k ltac:(lia) ltac:(lia)).
  assert (Z.rem (a + 1) k ≠ 0)%Z as Hne; [|lia]. intros E.
  pose proof (Z.quot_rem' a k) as E1. pose proof (Z.quot_rem' (a + 1) k) as E2.
  rewrite H0 in E1. rewrite E in E2.
  assert (k * (Z.quot (a + 1) k - Z.quot a k) = 1)%Z as H1 by lia.
  apply Z.mul_eq_1 in H1. lia.
Qed.

(** When the 32-bit counter is at its maximum, one of the next two selections among
    several candidates panics with an index out of range. *)
Theorem round_robin_counter_overflow_panics rrb p :
  pool (backends rrb) = p → closed rrb = false →
  (2 ≤ length p)%nat → (Z.of_nat (length (backends rrb)) ≤ max_int32)%Z →
  current rrb = max_int32 →
  Panicked "index out of range" ∈ (select_n 2 rrb).1.
Proof.
  intros Hp Hc Hk Hwf Hcur. cbn [select_n lb_NextBackend RoundRobin_LoadBalancer].
  rewrite rr_NextBackend_many by (try done; congruence). rewrite Hp, Hcur.
  replace (wrap32 (max_int32 + 1)) with min_int32 by reflexivity.
  pose proof (pool_length (backends rrb)) as Hlen. rewrite Hp in Hlen.
  destruct (decide (Z.rem min_int32 (Z.of_nat (length p)) = 0%Z)) as [H0|H0].
  - (* the smallest int32 is a multiple of the pool size: the next call fails *)
    rewrite rr_NextBackend_many by (simpl; try done; rewrite ?Hp; lia). simpl. rewrite Hp.
    replace (wrap32 (min_int32 + 1)) with (min_int32 + 1)%Z by reflexivity.
    rewrite (slice_at_negative p (Z.rem (min_int32 + 1) _)).
    { right; left. }
    apply rem_succ_negative; [done| |lia]. unfold min_int32. lia.
  - rewrite (slice_at_negative p (Z.rem min_int32 _)).
    { destruct (NextBackend _). left. }
    pose proof (Z.rem_nonpos min_int32 (Z.of_nat (length p))). unfold min_int32 in *. lia.
Qed.

Lemma round_robin_counter_overflow_panics_witness :
  Panicked "index out of range" ∈ (select_n 2 (mkRoundRobin trio max_int32 false)).1.
Proof.
  apply (round_robin_counter_overflow_panics _ (take 2 trio));
    (reflexivity || (simpl; unfold max_int32; lia)).
Defined.
