(* ===== verification/LeastConn.v ===== *)
(** * LeastConn: internal/services/loadbalancer/least_connections.go

    The state holds one int32 connection count and one int64 request count
    per backend. The two count slices are allocated with the length of the
    backend slice and never resized ([lc_wf]), so an index taken from the
    backends is in range; outside that invariant a read yields 0. *)

From S2P Require Import Prelude Errors Domain LoadBalancer.

(* ------------------------------------------------------------------ *)
(** ** State and operations *)

Record LeastConnectionsBalancer := mkLeastConn {
  backends : list Backend;
  activeConns : list Z;
  totalRequests : list Z;
  closed : bool
}.

Definition NewLeastConnectionsBalancer (bs : list Backend) : LeastConnectionsBalancer :=
  mkLeastConn bs (replicate (length bs) 0%Z) (replicate (length bs) 0%Z) false.

Definition getHealthyBackendIndices (lcb : LeastConnectionsBalancer) : list nat :=
  indices_from 0 (λ b, IsAvailable (State b)) (backends lcb).

Definition getFallbackBackendIndices (lcb : LeastConnectionsBalancer) : list nat :=
  indices_from 0 (λ b, IsAvailableWithFallback (State b) && negb (IsAvailable (State b)))
    (backends lcb).

(** The loop [for _, idx := range healthyIndices[1:]] with its two locals. *)
Fixpoint leastLoop (conns : list Z) (minConnections : Z) (selectedIdx : nat) (idxs : list nat) : nat :=
  match idxs with
  | [] => selectedIdx
  | idx :: rest =>
      if (conns !!! idx <? minConnections)%Z
      then leastLoop conns (conns !!! idx) idx rest
      else leastLoop conns minConnections selectedIdx rest
  end.

(** Both counters of the selected backend go up by one. *)
Definition incrementAt (lcb : LeastConnectionsBalancer) (idx : nat) : LeastConnectionsBalancer :=
  mkLeastConn (backends lcb)
    (<[idx := wrap32 (activeConns lcb !!! idx + 1)]> (activeConns lcb))
    (<[idx := wrap64 (totalRequests lcb !!! idx + 1)]> (totalRequests lcb))
    (closed lcb).

Definition NextBackend (lcb : LeastConnectionsBalancer)
  : outcome (result Backend) * LeastConnectionsBalancer :=
  if closed lcb then (Returned (Err (EApp ErrNoHealthyBackends)), lcb)
  else
    let healthyIndices :=
      match getHealthyBackendIndices lcb with
      | [] => getFallbackBackendIndices lcb
      | idxs => idxs
      end in
    match healthyIndices with
    | [] => (Returned (Err (EApp ErrNoHealthyBackends)), lcb)
    | [idx] =>
        (obind (slice_at (backends lcb) (Z.of_nat idx)) (λ b, Returned (Ok b)),
         incrementAt lcb idx)
    | first :: rest =>
        let selectedIdx := leastLoop (activeConns lcb) (activeConns lcb !!! first) first rest in
        (obind (slice_at (backends lcb) (Z.of_nat selectedIdx)) (λ b, Returned (Ok b)),
         incrementAt lcb selectedIdx)
    end.

Definition ReportResult (lcb : LeastConnectionsBalancer) (backend : Backend)
    (err : option goError) (statusCode : Z) : LeastConnectionsBalancer :=
  match firstIndex (URL backend) (backends lcb) with
  | Some i =>
      if (0 <? activeConns lcb !!! i)%Z
      then mkLeastConn (backends lcb)
             (<[i := wrap32 (activeConns lcb !!! i - 1)]> (activeConns lcb))
             (totalRequests lcb) (closed lcb)
      else lcb
  | None => lcb
  end.

Definition BackendsStatus (lcb : LeastConnectionsBalancer) (now : Z) : list BackendStatus :=
  imap (λ i backend,
          mkBackendStatus backend (IsAvailable (State backend)) (activeConns lcb !!! i) now 0)
    (backends lcb).

Definition Close (lcb : LeastConnectionsBalancer) : LeastConnectionsBalancer :=
  if closed lcb then lcb
  else mkLeastConn (backends lcb) (activeConns lcb) (totalRequests lcb) true.

Definition UpdateBackendState (lcb : LeastConnectionsBalancer) (backendURL : string)
    (newState : BackendState) : LeastConnectionsBalancer :=
  mkLeastConn (setFirstState backendURL newState (backends lcb))
    (activeConns lcb) (totalRequests lcb) (closed lcb).

Definition GetBackendCount (lcb : LeastConnectionsBalancer) : Z := Z.of_nat (length (backends lcb)).

Definition GetHealthyBackendCount (lcb : LeastConnectionsBalancer) : Z :=
  Z.of_nat (length (getHealthyBackendIndices lcb)).

Definition GetBackendConnections (lcb : LeastConnectionsBalancer) (backendURL : string) : Z :=
  match firstIndex backendURL (backends lcb) with
  | Some i => activeConns lcb !!! i
  | None => -1
  end.

Definition GetBackendTotalRequests (lcb : LeastConnectionsBalancer) (backendURL : string) : Z :=
  match firstIndex backendURL (backends lcb) with
  | Some i => totalRequests lcb !!! i
  | None => -1
  end.

Definition ResetStats (lcb : LeastConnectionsBalancer) : LeastConnectionsBalancer :=
  mkLeastConn (backends lcb) (map (λ _, 0%Z) (activeConns lcb))
    (imap (λ i r, if decide (i < length (activeConns lcb))%nat then 0%Z else r)
       (totalRequests lcb)) (closed lcb).

#[export] Instance LeastConn_LoadBalancer : LoadBalancer LeastConnectionsBalancer := {
  lb_NextBackend := NextBackend;
  lb_ReportResult := ReportResult;
  lb_BackendsStatus := BackendsStatus;
  lb_UpdateBackendState := UpdateBackendState;
  lb_Close := Close
}.

(* ------------------------------------------------------------------ *)
(** ** The selection loop *)

Definition lc_wf (lcb : LeastConnectionsBalancer) : Prop :=
  length (activeConns lcb) = length (backends lcb) ∧
  length (totalRequests lcb) = length (backends lcb).

(** The loop returns an index of the list with the least count, the earliest
    one among equals. *)
Lemma leastLoop_spec conns m sel idxs :
  m = conns !!! sel →
  let i := leastLoop conns m sel idxs in
  i ∈ sel :: idxs ∧ (∀ k, k ∈ sel :: idxs → (conns !!! i ≤ conns !!! k)%Z).
Proof.
  revert m sel. induction idxs as [|x rest IH]; intros m sel ->; simpl.
  { split; [left|]. intros k ->%list_elem_of_singleton. lia. }
  destruct (Z.ltb_spec (conns !!! x) (conns !!! sel)) as [Hlt|Hge].
  - destruct (IH _ x eq_refl) as [Hin Hmin]. split; [by right|].
    intros k [->|Hk]%elem_of_cons; [|by apply Hmin].
    etrans; [apply Hmin; left|lia].
  - destruct (IH _ sel eq_refl) as [Hin Hmin]. split.
    + apply elem_of_cons in Hin as [Hin|Hin]; [rewrite Hin; left|by do 2 right].
    + intros k [->|[->|Hk]%elem_of_cons]%elem_of_cons.
      * apply Hmin; left.
      * etrans; [apply Hmin; left|lia].
      * apply Hmin. by right.
Qed.

Lemma lc_healthyIndices_pool lcb :
  match getHealthyBackendIndices lcb with
  | [] => getFallbackBackendIndices lcb
  | idxs => idxs
  end = pool_indices (backends lcb).
Proof. done. Qed.

(** One selection: an index of the pool with the least connection count, whose
    backend is returned and whose counters go up. *)
Lemma lc_NextBackend_pool lcb :
  closed lcb = false → pool_indices (backends lcb) ≠ [] →
  ∃ i b,
    i ∈ pool_indices (backends lcb) ∧ backends lcb !! i = Some b ∧
    (∀ k, k ∈ pool_indices (backends lcb) → (activeConns lcb !!! i ≤ activeConns lcb !!! k)%Z) ∧
    NextBackend lcb = (Returned (Ok b), incrementAt lcb i).
Proof.
  intros Hc Hp. unfold NextBackend. rewrite Hc, lc_healthyIndices_pool. cbv zeta.
  pose proof (pool_indices_lookup (backends lcb)) as Hlk.
  destruct (pool_indices (backends lcb)) as [|first [|second rest]]; [done| |].
  - destruct (Hlk first) as [b Hb]; [left|]. exists first, b.
    split; [left|]. split; [done|]. split; [intros k ->%list_elem_of_singleton; lia|].
    by rewrite (slice_at_lookup _ _ b).
  - destruct (leastLoop_spec (activeConns lcb) _ first (second :: rest) eq_refl) as [Hin Hmin].
    set (i := leastLoop _ _ _ _) in *. destruct (Hlk i Hin) as [b Hb].
    exists i, b. repeat (split; [done|]). by rewrite (slice_at_lookup _ _ b).
Qed.

Lemma lc_NextBackend_empty lcb :
  closed lcb = false → pool_indices (backends lcb) = [] →
  NextBackend lcb = (Returned (Err (EApp ErrNoHealthyBackends)), lcb).
Proof. intros Hc Hp. unfold NextBackend. by rewrite Hc, lc_healthyIndices_pool, Hp. Qed.

Lemma lc_NextBackend_closed lcb :
  closed lcb = true → NextBackend lcb = (Returned (Err (EApp ErrNoHealthyBackends)), lcb).
Proof. intros Hc. unfold NextBackend. by rewrite Hc. Qed.

(** The three ways a selection can go. *)
Lemma lc_NextBackend_cases lcb :
  (NextBackend lcb = (Returned (Err (EApp ErrNoHealthyBackends)), lcb) ∧
   (closed lcb = true ∨ no_candidate (backends lcb))) ∨
  (closed lcb = false ∧
   ∃ i b, i ∈ pool_indices (backends lcb) ∧ backends lcb !! i = Some b ∧
     (∀ k, k ∈ pool_indices (backends lcb) → (activeConns lcb !!! i ≤ activeConns lcb !!! k)%Z) ∧
     NextBackend lcb = (Returned (Ok b), incrementAt lcb i)).
Proof.
  destruct (closed lcb) eqn:Hc.
  { left. rewrite lc_NextBackend_closed by done. auto. }
  destruct (decide (pool_indices (backends lcb) = [])) as [Hp|Hp].
  - left. rewrite lc_NextBackend_empty by done. auto using pool_indices_nil.
  - right. split; [done|]. by apply lc_NextBackend_pool.
Qed.

(** A selection never panics. *)
Lemma lc_NextBackend_returns lcb : returns (NextBackend lcb).1 = true.
Proof. by destruct (lc_NextBackend_cases lcb) as [[-> _]|(_&i&b&_&_&_&->)]. Qed.

Lemma incrementAt_wf lcb i : lc_wf lcb → lc_wf (incrementAt lcb i).
Proof. intros []. split; simpl; by rewrite length_insert. Qed.

Lemma ReportResult_wf lcb b e code : lc_wf lcb → lc_wf (ReportResult lcb b e code).
Proof.
  intros []. unfold ReportResult, lc_wf. repeat case_match; simpl; rewrite ?length_insert; auto.
Qed.

#[export] Hint Resolve incrementAt_wf ReportResult_wf : vpa.

#[export] Instance LeastConn_Spec : LoadBalancerSpec LeastConnectionsBalancer.
Proof.
  refine {| lb_backends := backends; lb_closed := closed; lb_wf := lc_wf |}; simpl.
  - intros s b s' _ Hn. destruct (lc_NextBackend_cases s) as [[Hn' _]|(Hc&i&b'&Hi&Hb&_&Hn')];
      rewrite Hn' in Hn; simplify_eq. eauto with vpa.
  - intros s e s' _ Hn. destruct (lc_NextBackend_cases s) as [[Hn' Hw]|(Hc&i&b'&Hi&Hb&_&Hn')];
      rewrite Hn' in Hn; by simplify_eq.
  - intros s Hc. by rewrite lc_NextBackend_closed.
  - intros s Hwf. destruct (lc_NextBackend_cases s) as [[-> _]|(Hc&i&b'&Hi&Hb&_&->)];
      simpl; auto with vpa.
  - intros s b e code Hwf. split; [auto with vpa|]. unfold ReportResult. by repeat case_match.
  - intros s url st [??]. unfold lc_wf. simpl. by rewrite setFirstState_length.
  - intros s [??]. unfold Close, lc_wf. by destruct (closed s) eqn:Hc.
  - intros s now _. unfold BackendsStatus. split.
    + generalize (activeConns s). induction (backends s) as [|b bs IH] using rev_ind; intros cs; [done|].
      rewrite imap_app, map_app, IH. done.
    + apply Forall_lookup. intros i st. rewrite list_lookup_imap, fmap_Some.
      by intros (b&_&->).
Defined.

(* ------------------------------------------------------------------ *)
(** ** Balance

    [loads] are the connection counts of the backends of the pool. *)

Definition loads (lcb : LeastConnectionsBalancer) : list Z :=
  map (λ i, activeConns lcb !!! i) (pool_indices (backends lcb)).

Lemma pool_indices_bound bs i : i ∈ pool_indices bs → (i < length bs)%nat.
Proof. intros Hi. by apply lookup_lt_is_Some, pool_indices_lookup. Qed.

Lemma incrementAt_conns lcb i k :
  lc_wf lcb → (i < length (backends lcb))%nat → (0 ≤ activeConns lcb !!! i < max_int32)%Z →
  activeConns (incrementAt lcb i) !!! k =
  (if decide (k = i) then activeConns lcb !!! k + 1 else activeConns lcb !!! k)%Z.
Proof.
  intros [Hl _] Hi Hr. simpl. case_decide; [subst k|].
  - rewrite list_lookup_total_insert_eq by lia. apply wrap32_id. unfold min_int32, max_int32 in *. lia.
  - by rewrite list_lookup_total_insert_ne by done.
Qed.

(** The invariant of a run of selections: the counts of the pool differ by at
    most one, are not negative, and add up to the number of selections. *)
Definition balanced (n : Z) (lcb : LeastConnectionsBalancer) : Prop :=
  (∀ x y, x ∈ loads lcb → y ∈ loads lcb → (0 ≤ x ∧ x ≤ y + 1)%Z) ∧ sumZ (loads lcb) = n.

Lemma incrementAt_balanced n lcb i :
  lc_wf lcb → (n < max_int32)%Z → i ∈ pool_indices (backends lcb) →
  (∀ k, k ∈ pool_indices (backends lcb) → activeConns lcb !!! i ≤ activeConns lcb !!! k)%Z →
  balanced n lcb → balanced (n + 1) (incrementAt lcb i).
Proof.
  intros Hwf Hn Hi Hmin [Hb Hs].
  assert (Hin : ∀ k, k ∈ pool_indices (backends lcb) → activeConns lcb !!! k ∈ loads lcb)
    by (intros k Hk; by apply (list_elem_of_fmap_2 (λ i, activeConns lcb !!! i))).
  assert (0 ≤ activeConns lcb !!! i < max_int32)%Z as Hr.
  { split; [by apply (Hb _ _ (Hin i Hi) (Hin i Hi))|].
    opose proof (sumZ_member_le (loads lcb) _ _ (Hin i Hi)); [|lia]. intros y Hy. by apply (Hb y y). }
  assert (Hc := λ k, incrementAt_conns lcb i k Hwf (pool_indices_bound _ _ Hi) Hr).
  split.
  - intros x y (kx&->&Hkx)%list_elem_of_fmap_1 (ky&->&Hky)%list_elem_of_fmap_1.
    simpl in Hkx, Hky. rewrite !Hc.
    pose proof (Hmin _ Hkx). pose proof (Hmin _ Hky). pose proof (Hb _ _ (Hin _ Hkx) (Hin _ Hky)).
    pose proof (Hb _ _ (Hin _ Hkx) (Hin _ Hi)).
    repeat case_decide; subst; lia.
  - unfold loads. change (backends (incrementAt lcb i)) with (backends lcb).
    rewrite (sumZ_map_ext _ _ _ (λ k _, Hc k)).
    rewrite sumZ_map_update by (auto with vpa). unfold loads in Hs. lia.
Qed.

Lemma New_balanced bs : balanced 0 (NewLeastConnectionsBalancer bs).
Proof.
  assert (H0 : ∀ i, i ∈ pool_indices bs → (replicate (length bs) 0 !!! i = 0)%Z)
    by (intros i ?%pool_indices_bound; by apply lookup_total_replicate_2).
  split.
  - intros x y (kx&->&Hkx)%list_elem_of_fmap_1 (ky&->&Hky)%list_elem_of_fmap_1. simpl in *.
    rewrite !H0 by done. lia.
  - unfold loads. simpl. rewrite (sumZ_map_ext _ _ _ H0). clear. induction (pool_indices bs); simpl in *; lia.
Qed.

Lemma lc_New_wf bs : lc_wf (NewLeastConnectionsBalancer bs).
Proof. split; simpl; by rewrite length_replicate. Qed.

(** Balanced selections: all of them succeed. *)
Lemma select_n_balanced n lcb (m : Z) :
  lc_wf lcb → closed lcb = false → pool_indices (backends lcb) ≠ [] →
  (0 ≤ m)%Z → (m + Z.of_nat n ≤ max_int32)%Z → balanced m lcb →
  let '(rs, lcb') := select_n n lcb in
  Forall (λ r, ∃ b, r = Returned (Ok b) ∧ candidate (backends lcb) b) rs ∧
  lc_wf lcb' ∧ backends lcb' = backends lcb ∧ balanced (m + Z.of_nat n) lcb'.
Proof.
  revert lcb m. induction n as [|n IH]; intros lcb m Hwf Hc Hp Hm Hmax Hb.
  { simpl. split; [constructor|]. split; [done|]. split; [done|]. by rewrite Z.add_0_r. }
  destruct (lc_NextBackend_pool lcb Hc Hp) as (i&b&Hi&Hib&Hmin&Hn).
  cbn [select_n lb_NextBackend LeastConn_LoadBalancer]. rewrite Hn.
  opose proof (IH (incrementAt lcb i) (m + 1)%Z _ _ _ _ _ _) as IH'; auto with vpa; [lia..| |].
  { apply incrementAt_balanced; auto. lia. }
  destruct (select_n n (incrementAt lcb i)) as [rs s'].
  destruct IH' as (HF&Hwf'&Hbs&Hb'). split; [constructor; [|done]|].
  - exists b. split; [done|]. by eapply pool_indices_candidate.
  - split; [done|]. split; [done|]. by replace (m + Z.of_nat (S n))%Z with (m + 1 + Z.of_nat n)%Z by lia.
Qed.

(** C15: With at least one candidate, n selections (n up to 2^31-1) from a new balancer
    without a report never fail, hand out candidates only, and leave n connections in
    total that differ by at most one between any two candidates. *)
Theorem least_connections_balanced bs n :
  pool_indices bs ≠ [] → (Z.of_nat n ≤ max_int32)%Z →
  let '(rs, lcb) := select_n n (NewLeastConnectionsBalancer bs) in
  Forall (λ r, ∃ b, r = Returned (Ok b) ∧ candidate bs b) rs ∧
  sumZ (loads lcb) = Z.of_nat n ∧
  ∀ x y, x ∈ loads lcb → y ∈ loads lcb → (Z.abs (x - y) ≤ 1)%Z.
Proof.
  intros Hp Hn.
  opose proof (select_n_balanced n (NewLeastConnectionsBalancer bs) 0 (lc_New_wf bs) _ _ _ _ (New_balanced bs))
    as H; [done..|].
  destruct (select_n n _) as [rs lcb]. destruct H as (HF&_&_&[Hb Hs]).
  split; [done|]. split; [done|]. intros x y Hx Hy.
  pose proof (Hb x y Hx Hy). pose proof (Hb y x Hy Hx). lia.
Qed.

Definition pair : list Backend :=
  [mkBackend "http://a" 1 BackendHealthy; mkBackend "http://b" 1 BackendHealthy].

Lemma least_connections_balanced_witness :
  let '(rs, lcb) := select_n 5 (NewLeastConnectionsBalancer pair) in
  Forall (λ r, ∃ b, r = Returned (Ok b) ∧ candidate pair b) rs ∧
  sumZ (loads lcb) = 5%Z ∧
  ∀ x y, x ∈ loads lcb → y ∈ loads lcb → (Z.abs (x - y) ≤ 1)%Z.
Proof. apply (least_connections_balanced pair 5); [done|unfold max_int32; lia]. Defined.

(* ------------------------------------------------------------------ *)
(** ** Conservation of connections

    The balancer together with the requests in flight, as the URLs of the
    backends they were sent to. A request starts with NextBackend and ends
    with ReportResult; states change in between. *)

Inductive lc_step : LeastConnectionsBalancer * list string → LeastConnectionsBalancer * list string → Prop :=
| lc_start s infl b s' :
    NextBackend s = (Returned (Ok b), s') → (Z.of_nat (length infl) < max_int32)%Z →
    lc_step (s, infl) (s', URL b :: infl)
| lc_start_fails s infl e s' :
    NextBackend s = (Returned (Err e), s') → lc_step (s, infl) (s', infl)
| lc_finish s infl1 infl2 b e code :
    lc_step (s, infl1 ++ URL b :: infl2) (ReportResult s b e code, infl1 ++ infl2)
| lc_set_state s infl url st :
    lc_step (s, infl) (UpdateBackendState s url st, infl)
| lc_close s infl : lc_step (s, infl) (Close s, infl).

Definition inflight (url : string) (infl : list string) : Z :=
  Z.of_nat (length (filter (eq url) infl)).

Lemma inflight_cons url u infl :
  inflight url (u :: infl) = (inflight url infl + if decide (url = u) then 1 else 0)%Z.
Proof. unfold inflight. rewrite filter_cons. case_decide; simpl; lia. Qed.

Lemma inflight_middle url u infl1 infl2 :
  inflight url (infl1 ++ u :: infl2) = inflight url (u :: infl1 ++ infl2).
Proof. unfold inflight. by rewrite Permutation_middle. Qed.

Lemma inflight_bound url infl : (0 ≤ inflight url infl ≤ Z.of_nat (length infl))%Z.
Proof. unfold inflight. pose proof (length_filter (eq url) infl). lia. Qed.

(** Every count is the number of requests in flight to that backend. *)
Definition lc_conserved (urls : list string) (c : LeastConnectionsBalancer * list string) : Prop :=
  lc_wf c.1 ∧ map URL (backends c.1) = urls ∧
  (Z.of_nat (length c.2) ≤ max_int32)%Z ∧
  ∀ i url, urls !! i = Some url → activeConns c.1 !!! i = inflight url c.2.

Lemma lc_step_conserved urls c c' :
  NoDup urls → lc_conserved urls c → lc_step c c' → lc_conserved urls c'.
Proof.
  intros Hnd (Hwf&Hu&Hl&Hinv). unfold lc_conserved.
  assert (Hurl : ∀ i b, backends c.1 !! i = Some b → urls !! i = Some (URL b)).
  { intros i b Hb. rewrite <- Hu. change (map URL ?l) with (URL <$> l).
    by rewrite list_lookup_fmap, Hb. }
  intros Hstep. destruct Hstep as [s infl b s' Hn Hlt|s infl e s' Hn|s infl1 infl2 b e code
    |s infl url st|s infl]; simpl in *.
  - destruct (lc_NextBackend_cases s) as [[Hn' _]|(Hc&i&b'&Hi&Hb&_&Hn')];
      rewrite Hn' in Hn; simplify_eq. simpl.
    split; [by apply incrementAt_wf|]. split; [done|]. split; [lia|].
    intros k url Hk. rewrite inflight_cons, <- (Hinv k url Hk).
    assert (0 ≤ activeConns s !!! i < max_int32)%Z as Hr.
    { rewrite (Hinv i _ (Hurl _ _ Hb)). pose proof (inflight_bound (URL b) infl). lia. }
    pose proof (incrementAt_conns s i k Hwf (pool_indices_bound _ _ Hi) Hr) as Hc'.
    simpl in Hc'. rewrite Hc'. pose proof (Hurl _ _ Hb) as Hib.
    destruct (decide (k = i)) as [->|Hki]; case_decide as Hd; simplify_eq; try lia.
    destruct Hki. by eapply NoDup_lookup.
  - destruct (lc_NextBackend_cases s) as [[Hn' _]|(Hc&i&b'&Hi&Hb&_&Hn')];
      rewrite Hn' in Hn; by simplify_eq.
  - split; [by apply ReportResult_wf|].
    assert (length (infl1 ++ infl2) < length (infl1 ++ URL b :: infl2))%nat
      by (rewrite !length_app; simpl; lia).
    setoid_rewrite inflight_middle in Hinv. setoid_rewrite inflight_cons in Hinv.
    unfold ReportResult. destruct (firstIndex (URL b) (backends s)) as [i|] eqn:Hf.
    + apply firstIndex_Some in Hf as [(b'&Hb'&HU) _].
      pose proof (Hurl _ _ Hb') as Hib. rewrite HU in Hib.
      pose proof (Hinv i _ Hib) as Hi0. rewrite decide_True in Hi0 by done.
      pose proof (inflight_bound (URL b) (infl1 ++ infl2)).
      destruct (Z.ltb_spec 0 (activeConns s !!! i)); [|lia]. simpl.
      split; [done|]. split; [lia|]. intros k url Hk. destruct Hwf as [Hwf _].
      destruct (decide (k = i)) as [->|Hki].
      * simplify_eq. rewrite list_lookup_total_insert_eq.
        2: { apply lookup_lt_Some in Hb'. lia. }
        rewrite wrap32_id; [lia|]. unfold min_int32, max_int32 in *. lia.
      * rewrite list_lookup_total_insert_ne by done. rewrite (Hinv k url Hk), decide_False; [lia|].
        intros ->. destruct Hki. by eapply NoDup_lookup.
    + split; [done|]. split; [lia|]. intros k url Hk. rewrite (Hinv k url Hk), decide_False; [lia|].
      intros ->. apply firstIndex_None in Hf. apply Hf. rewrite Hu. by eapply list_elem_of_lookup_2.
  - split; [|by rewrite setFirstState_URLs]. destruct Hwf. unfold lc_wf. simpl.
    by rewrite setFirstState_length.
  - unfold Close. by destruct (closed s).
Qed.

(** C16: With distinct URLs, in every history of selections, reports of requests in
    flight, state updates and close, each backend's connection count is the number of its
    requests in flight. *)
Theorem least_connections_conserved bs s infl :
  NoDup (map URL bs) →
  rtc lc_step (NewLeastConnectionsBalancer bs, []) (s, infl) →
  ∀ i b, backends s !! i = Some b → activeConns s !!! i = inflight (URL b) infl.
Proof.
  intros Hnd Hr.
  assert (lc_conserved (map URL bs) (s, infl)) as (_&Hu&_&Hinv).
  { remember (NewLeastConnectionsBalancer bs, []) as c0 eqn:E0. remember (s, infl) as c eqn:E.
    assert (lc_conserved (map URL bs) c0) as H0.
    { subst c0. split; [apply lc_New_wf|]. split; [done|]. split; [done|].
      intros i url Hi. simpl. apply lookup_total_replicate_2. apply lookup_lt_Some in Hi.
      by rewrite length_map in Hi. }
    clear E0 E. induction Hr; [done|]. eauto using lc_step_conserved. }
  intros i b Hb. apply Hinv. rewrite <- Hu. change (map URL ?l) with (URL <$> l).
  simpl. by rewrite list_lookup_fmap, Hb.
Qed.

(** Two requests start, the first one finishes. *)
Lemma least_connections_conserved_witness :
  let s2 := (NextBackend (NextBackend (NewLeastConnectionsBalancer pair)).2).2 in
  let s3 := ReportResult s2 (mkBackend "http://a" 1 BackendHealthy) None 200 in
  activeConns s3 !!! 0 = inflight "http://a" ["http://b"] ∧
  activeConns s3 !!! 1 = inflight "http://b" ["http://b"] ∧
  activeConns s3 = [0; 1]%Z.
Proof.
  intros s2 s3.
  assert (∀ i b, backends s3 !! i = Some b → activeConns s3 !!! i = inflight (URL b) ["http://b"]) as H.
  2:{ split; [|split].
      - by apply (H 0 (mkBackend "http://a" 1 BackendHealthy)).
      - by apply (H 1 (mkBackend "http://b" 1 BackendHealthy)).
      - reflexivity. }
  apply (least_connections_conserved pair).
  - change (NoDup ["http://a"; "http://b"]).
    constructor; [by intros ?%list_elem_of_singleton|]. apply NoDup_singleton.
  - eapply rtc_l; [eapply lc_start; [reflexivity|done]|].
    eapply rtc_l; [eapply lc_start; [reflexivity|done]|].
    eapply rtc_l; [|apply rtc_refl].
    exact (lc_finish _ ["http://b"] [] (mkBackend "http://a" 1 BackendHealthy) None 200).
Defined.

(** With a duplicate URL the count of the second copy is never given back:
    ReportResult stops at the first backend with the URL. *)
Definition twins : list Backend :=
  [mkBackend "http://a" 1 BackendHealthy; mkBackend "http://a" 1 BackendHealthy].

Lemma duplicate_url_leaks :
  let s1 := (NextBackend (NewLeastConnectionsBalancer twins)).2 in
  let s2 := (NextBackend s1).2 in
  let a := mkBackend "http://a" 1 BackendHealthy in
  activeConns (ReportResult (ReportResult s2 a None 200) a None 200) = [0; 1]%Z.
Proof. reflexivity. Qed.
