(* ===== verification/Weighted.v ===== *)
(** * Weighted: internal/services/loadbalancer/weighted_round_robin.go

    Smooth weighted round-robin. The configured weights are Go ints, the
    current weights int32 values whose overflow guards and wrap-around are
    written out. The index the selection returns is -1 when it picked
    nothing, and the caller indexes the backends with it. *)

From S2P Require Import Prelude Errors Domain LoadBalancer.

(* ------------------------------------------------------------------ *)
(** ** State and operations *)

(** proxy.DefaultBackendWeight *)
Definition DefaultBackendWeight : Z := 1.

Record WeightedRoundRobinBalancer := mkWeighted {
  backends : list Backend;
  weights : list Z;
  currentWeights : list Z;
  totalWeight : Z;
  closed : bool
}.

(** The weight stored for a backend. *)
Definition storedWeight (b : Backend) : Z :=
  if (Weight b <=? 0)%Z then DefaultBackendWeight else Weight b.

(** One iteration of the constructor's loop on the running total. *)
Definition addTotalWeight (total : Z) (b : Backend) : Z :=
  let weight := storedWeight b in
  let weight := if (max_int32 <? weight)%Z then DefaultBackendWeight else weight in
  let weightInt32 := wrap32 weight in
  let weightInt32 :=
    if (wrap32 (max_int32 - weightInt32) <? total)%Z then DefaultBackendWeight else weightInt32 in
  wrap32 (total + weightInt32).

Definition NewWeightedRoundRobinBalancer (bs : list Backend) : WeightedRoundRobinBalancer :=
  mkWeighted bs (map storedWeight bs) (replicate (length bs) 0%Z)
    (foldl addTotalWeight 0%Z bs) false.

Definition getHealthyBackendIndices (wrr : WeightedRoundRobinBalancer) : list nat :=
  indices_from 0 (λ b, IsAvailable (State b)) (backends wrr).

Definition getFallbackBackendIndices (wrr : WeightedRoundRobinBalancer) : list nat :=
  indices_from 0 (λ b, IsAvailableWithFallback (State b) && negb (IsAvailable (State b)))
    (backends wrr).

(** The first loop of selectByWeight. *)
Fixpoint totalHealthyLoop (ws : list Z) (totalHealthyWeight : Z) (idxs : list nat) : Z :=
  match idxs with
  | [] => totalHealthyWeight
  | idx :: rest =>
      if (max_int32 <? ws !!! idx)%Z then totalHealthyLoop ws totalHealthyWeight rest
      else
        let weight := wrap32 (ws !!! idx) in
        let weight :=
          if (wrap32 (max_int32 - weight) <? totalHealthyWeight)%Z
          then DefaultBackendWeight else weight in
        totalHealthyLoop ws (wrap32 (totalHealthyWeight + weight)) rest
  end.

(** The second loop, with its locals [maxCurrentWeight] and [bestIdx]. *)
Fixpoint pickLoop (ws cw : list Z) (maxCurrentWeight bestIdx : Z) (idxs : list nat)
  : list Z * Z :=
  match idxs with
  | [] => (cw, bestIdx)
  | idx :: rest =>
      if (max_int32 <? ws !!! idx)%Z then pickLoop ws cw maxCurrentWeight bestIdx rest
      else
        let weight := wrap32 (ws !!! idx) in
        let weight :=
          if (wrap32 (max_int32 - weight) <? cw !!! idx)%Z then DefaultBackendWeight else weight in
        let next := wrap32 (cw !!! idx + weight) in
        let cw := <[idx := next]> cw in
        if (maxCurrentWeight <? next)%Z
        then pickLoop ws cw next (Z.of_nat idx) rest
        else pickLoop ws cw maxCurrentWeight bestIdx rest
  end.

Definition setCurrentWeights (wrr : WeightedRoundRobinBalancer) (cw : list Z)
  : WeightedRoundRobinBalancer :=
  mkWeighted (backends wrr) (weights wrr) cw (totalWeight wrr) (closed wrr).

Definition selectByWeight (wrr : WeightedRoundRobinBalancer) (healthyIndices : list nat)
  : Z * WeightedRoundRobinBalancer :=
  let totalHealthyWeight := totalHealthyLoop (weights wrr) 0 healthyIndices in
  let '(cw, bestIdx) := pickLoop (weights wrr) (currentWeights wrr) (-1) (-1) healthyIndices in
  let cw :=
    if (bestIdx =? -1)%Z then cw
    else <[Z.to_nat bestIdx := wrap32 (cw !!! Z.to_nat bestIdx - totalHealthyWeight)]> cw in
  (bestIdx, setCurrentWeights wrr cw).

Definition NextBackend (wrr : WeightedRoundRobinBalancer)
  : outcome (result Backend) * WeightedRoundRobinBalancer :=
  if closed wrr then (Returned (Err (EApp ErrNoHealthyBackends)), wrr)
  else
    let healthyIndices :=
      match getHealthyBackendIndices wrr with
      | [] => getFallbackBackendIndices wrr
      | idxs => idxs
      end in
    match healthyIndices with
    | [] => (Returned (Err (EApp ErrNoHealthyBackends)), wrr)
    | [idx] =>
        (obind (slice_at (backends wrr) (Z.of_nat idx)) (λ b, Returned (Ok b)), wrr)
    | _ =>
        let '(selectedIdx, wrr') := selectByWeight wrr healthyIndices in
        (obind (slice_at (backends wrr) selectedIdx) (λ b, Returned (Ok b)), wrr')
    end.

(** Looks the weight up for the log entry and changes nothing. *)
Definition ReportResult (wrr : WeightedRoundRobinBalancer) (backend : Backend)
    (err : option goError) (statusCode : Z) : WeightedRoundRobinBalancer := wrr.

Definition BackendsStatus (wrr : WeightedRoundRobinBalancer) (now : Z) : list BackendStatus :=
  map (λ backend, mkBackendStatus backend (IsAvailable (State backend)) 0 now 0) (backends wrr).

Definition Close (wrr : WeightedRoundRobinBalancer) : WeightedRoundRobinBalancer :=
  if closed wrr then wrr
  else mkWeighted (backends wrr) (weights wrr) (currentWeights wrr) (totalWeight wrr) true.

Definition UpdateBackendState (wrr : WeightedRoundRobinBalancer) (backendURL : string)
    (newState : BackendState) : WeightedRoundRobinBalancer :=
  mkWeighted (setFirstState backendURL newState (backends wrr)) (weights wrr)
    (currentWeights wrr) (totalWeight wrr) (closed wrr).

Definition GetBackendCount (wrr : WeightedRoundRobinBalancer) : Z :=
  Z.of_nat (length (backends wrr)).

Definition GetHealthyBackendCount (wrr : WeightedRoundRobinBalancer) : Z :=
  Z.of_nat (length (getHealthyBackendIndices wrr)).

Definition GetTotalWeight (wrr : WeightedRoundRobinBalancer) : Z := totalWeight wrr.

Definition GetBackendWeight (wrr : WeightedRoundRobinBalancer) (backendURL : string) : Z :=
  match firstIndex backendURL (backends wrr) with
  | Some i => weights wrr !!! i
  | None => 0
  end.

#[export] Instance Weighted_LoadBalancer : LoadBalancer WeightedRoundRobinBalancer := {
  lb_NextBackend := NextBackend;
  lb_ReportResult := ReportResult;
  lb_BackendsStatus := BackendsStatus;
  lb_UpdateBackendState := UpdateBackendState;
  lb_Close := Close
}.

(* ------------------------------------------------------------------ *)
(** ** The selection loop *)

(** The value a backend's current weight takes in the second loop; [None]
    when its configured weight does not fit an int32 and it is skipped. *)
Definition advanced (w c : Z) : option Z :=
  if (max_int32 <? w)%Z then None
  else
    Some (wrap32 (c + if (wrap32 (max_int32 - wrap32 w) <? c)%Z
                      then DefaultBackendWeight else wrap32 w)).

Lemma advanced_regular w c :
  (0 < w ≤ max_int32)%Z → (min_int32 ≤ c)%Z → (c + w ≤ max_int32)%Z →
  advanced w c = Some (c + w)%Z.
Proof.
  unfold advanced, min_int32, max_int32. intros Hw Hc Hs.
  destruct (Z.ltb_spec 2147483647 w); [lia|].
  rewrite (wrap32_id w) by (unfold min_int32, max_int32; lia).
  rewrite (wrap32_id (2147483647 - w)) by (unfold min_int32, max_int32; lia).
  destruct (Z.ltb_spec (2147483647 - w) c); [lia|].
  by rewrite wrap32_id by (unfold min_int32, max_int32; lia).
Qed.

Lemma pickLoop_spec ws cw maxc best idxs cw' best' :
  NoDup idxs → (∀ k, k ∈ idxs → k < length cw)%nat →
  pickLoop ws cw maxc best idxs = (cw', best') →
  length cw' = length cw ∧
  (∀ k, cw' !!! k =
     if decide (k ∈ idxs) then default (cw !!! k) (advanced (ws !!! k) (cw !!! k)) else cw !!! k) ∧
  ((best' = best ∧ ∀ k v, k ∈ idxs → advanced (ws !!! k) (cw !!! k) = Some v → (v ≤ maxc)%Z) ∨
   (∃ b v, b ∈ idxs ∧ best' = Z.of_nat b ∧ advanced (ws !!! b) (cw !!! b) = Some v ∧ (maxc < v)%Z ∧
     ∀ k v', k ∈ idxs → advanced (ws !!! k) (cw !!! k) = Some v' → (v' ≤ v)%Z)).
Proof.
  intros Hnd. revert cw maxc best. induction Hnd as [|i idxs Hi Hnd IH]; intros cw maxc best Hr Hp.
  { simpl in Hp. simplify_eq. split; [done|]. split.
    - intros k. by destruct (decide (k ∈ [])) as [?%elem_of_nil|].
    - left. split; [done|]. by intros k v ?%elem_of_nil. }
  simpl in Hp.
  assert (Hrest : ∀ k, k ∈ idxs → k ≠ i) by (intros k ? ->; done).
  destruct (Z.ltb_spec max_int32 (ws !!! i)) as [Hskip|Hfit].
  - (* a weight that does not fit is skipped *)
    assert (Hno : advanced (ws !!! i) (cw !!! i) = None)
      by (unfold advanced; by rewrite (proj2 (Z.ltb_lt _ _) Hskip)).
    destruct (IH cw maxc best) as (Hl&Hcw&Hbest); [intros; apply Hr; by right|done|].
    split; [done|]. split.
    + intros k. rewrite Hcw. destruct (decide (k = i)) as [->|].
      * rewrite decide_False by done. rewrite decide_True by left. by rewrite Hno.
      * destruct (decide (k ∈ idxs)); [rewrite decide_True by (by right)|rewrite decide_False]; [done|done|].
        by intros [?|?]%elem_of_cons.
    + destruct Hbest as [[-> Hmax]|(b&v&?&->&?&?&Hmax)].
      * left. split; [done|]. intros k v [->|?]%elem_of_cons ?; [congruence|]. by eapply Hmax.
      * right. exists b, v. split; [by right|]. repeat (split; [done|]).
        intros k v' [->|?]%elem_of_cons ?; [congruence|]. by eapply Hmax.
  - set (next := wrap32 _) in Hp.
    assert (Hadv : advanced (ws !!! i) (cw !!! i) = Some next)
      by (unfold advanced; by rewrite (proj2 (Z.ltb_ge _ _) Hfit)).
    assert (Hin : (i < length cw)%nat) by (apply Hr; left).
    assert (Hr' : ∀ k, k ∈ idxs → (k < length (<[i:=next]> cw))%nat)
      by (intros; rewrite length_insert; apply Hr; by right).
    assert (Hsame : ∀ k, k ∈ idxs → <[i:=next]> cw !!! k = cw !!! k)
      by (intros; rewrite list_lookup_total_insert_ne; [done|]; by apply not_eq_sym, Hrest).
    assert (Hfin : ∀ m b, pickLoop ws (<[i:=next]> cw) m b idxs = (cw', best') →
      length cw' = length cw ∧
      ∀ k, cw' !!! k =
        if decide (k ∈ i :: idxs) then default (cw !!! k) (advanced (ws !!! k) (cw !!! k)) else cw !!! k).
    { intros m b Hm. destruct (IH _ m b Hr' Hm) as (Hl&Hcw&_).
      rewrite length_insert in Hl. split; [done|]. intros k. rewrite Hcw.
      destruct (decide (k = i)) as [->|Hk].
      - rewrite decide_False by done. rewrite decide_True by left.
        by rewrite list_lookup_total_insert_eq, Hadv.
      - rewrite list_lookup_total_insert_ne by done.
        destruct (decide (k ∈ idxs)); [rewrite decide_True by (by right)|rewrite decide_False]; [done|done|].
        by intros [?|?]%elem_of_cons. }
    destruct (Z.ltb_spec maxc next) as [Hlt|Hge]; destruct (Hfin _ _ Hp) as [Hl Hcw];
      destruct (IH _ _ _ Hr' Hp) as (_&_&Hbest); (split; [done|]); (split; [done|]).
    + right. destruct Hbest as [[-> Hmax]|(b&v&Hb&->&Hv&?&Hmax)].
      * exists i, next. split; [left|]. repeat (split; [done|]).
        intros k v' [->|Hk]%elem_of_cons Hv'; [simplify_eq; lia|].
        apply (Hmax k v' Hk). by rewrite Hsame.
      * rewrite Hsame in Hv by done. exists b, v. split; [by right|]. do 2 (split; [done|]).
        split; [lia|]. intros k v' [->|Hk]%elem_of_cons Hv'; [simplify_eq; lia|].
        apply (Hmax k v' Hk). by rewrite Hsame.
    + destruct Hbest as [[-> Hmax]|(b&v&Hb&->&Hv&?&Hmax)].
      * left. split; [done|]. intros k v' [->|Hk]%elem_of_cons Hv'; [simplify_eq; lia|].
        apply (Hmax k v' Hk). by rewrite Hsame.
      * rewrite Hsame in Hv by done. right. exists b, v. split; [by right|]. do 3 (split; [done|]).
        intros k v' [->|Hk]%elem_of_cons Hv'; [simplify_eq; lia|].
        apply (Hmax k v' Hk). by rewrite Hsame.
Qed.

(* ------------------------------------------------------------------ *)
(** ** One selection *)

Definition wrr_wf (wrr : WeightedRoundRobinBalancer) : Prop :=
  length (weights wrr) = length (backends wrr) ∧
  length (currentWeights wrr) = length (backends wrr).

Lemma wrr_New_wf bs : wrr_wf (NewWeightedRoundRobinBalancer bs).
Proof. split; simpl; [by rewrite length_map|by rewrite length_replicate]. Qed.

Lemma wrr_healthyIndices_pool wrr :
  match getHealthyBackendIndices wrr with
  | [] => getFallbackBackendIndices wrr
  | idxs => idxs
  end = pool_indices (backends wrr).
Proof. done. Qed.

Lemma pool_index_range wrr k :
  wrr_wf wrr → k ∈ pool_indices (backends wrr) → (k < length (currentWeights wrr))%nat.
Proof. intros [_ ->] Hk. by apply lookup_lt_is_Some, pool_indices_lookup. Qed.

(** What the first step of a backend's turn makes of its current weight. *)
Definition advancedAt (wrr : WeightedRoundRobinBalancer) (k : nat) : option Z :=
  advanced (weights wrr !!! k) (currentWeights wrr !!! k).

(** The call with at least two candidates: either some member of the pool
    reaches a non-negative weight and the largest is chosen, or the call
    panics on index -1. *)
Lemma wrr_NextBackend_many wrr :
  wrr_wf wrr → closed wrr = false → (2 ≤ length (pool_indices (backends wrr)))%nat →
  ∃ cw,
    length cw = length (currentWeights wrr) ∧
    (∀ k, k ∈ pool_indices (backends wrr) →
       cw !!! k = default (currentWeights wrr !!! k) (advancedAt wrr k)) ∧
    ((∃ i b v, i ∈ pool_indices (backends wrr) ∧ backends wrr !! i = Some b ∧
       advancedAt wrr i = Some v ∧ (0 ≤ v)%Z ∧
       (∀ k v', k ∈ pool_indices (backends wrr) → advancedAt wrr k = Some v' → (v' ≤ v)%Z) ∧
       NextBackend wrr =
         (Returned (Ok b),
          setCurrentWeights wrr
            (<[i := wrap32 (v - totalHealthyLoop (weights wrr) 0 (pool_indices (backends wrr)))]> cw))) ∨
     ((∀ k v, k ∈ pool_indices (backends wrr) → advancedAt wrr k = Some v → (v ≤ -1)%Z) ∧
      NextBackend wrr = (Panicked "index out of range", setCurrentWeights wrr cw))).
Proof.
  intros Hwf Hc Hk. unfold NextBackend. rewrite Hc, wrr_healthyIndices_pool. cbv zeta.
  pose proof (pool_indices_lookup (backends wrr)) as Hlk.
  pose proof (pool_indices_NoDup (backends wrr)) as Hnd.
  pose proof (λ k, pool_index_range wrr k Hwf) as Hr.
  set (P := pool_indices (backends wrr)) in *. clearbody P.
  assert (∀ X (x : nat → X) (y z : X),
    match P with [] => y | [idx] => x idx | _ => z end = z) as Hm
    by (intros; destruct P as [|? [|? ?]]; simpl in Hk; (lia || done)).
  assert (∀ X (y : X) x z, match P with [] => y | [idx] => x idx | _ :: _ :: _ => z end = z)
    as -> by (intros; apply Hm).
  unfold selectByWeight. destruct (pickLoop _ _ _ _ _) as [cw best] eqn:Hp.
  apply pickLoop_spec in Hp as (Hl&Hcw&Hbest); [|done|done].
  exists cw. split; [done|]. split; [intros k Hin; by rewrite Hcw, decide_True|].
  destruct Hbest as [[-> Hmax]|(b&v&Hb&->&Hv&Hpos&Hmax)].
  - right. split; [done|]. done.
  - left. destruct (Hlk b Hb) as [bk Hbk]. exists b, bk, v.
    split; [done|]. split; [done|]. split; [done|]. split; [lia|]. split; [done|].
    destruct (Z.eqb_spec (Z.of_nat b) (-1)); [lia|]. rewrite Nat2Z.id, (slice_at_lookup _ _ bk) by done.
    simpl. by rewrite (Hcw b), decide_True, Hv by done.
Qed.

(** Zero or one candidate. *)
Lemma wrr_NextBackend_few wrr :
  closed wrr = false → (length (pool_indices (backends wrr)) < 2)%nat →
  (pool_indices (backends wrr) = [] ∧
   NextBackend wrr = (Returned (Err (EApp ErrNoHealthyBackends)), wrr)) ∨
  (∃ i b, pool_indices (backends wrr) = [i] ∧ backends wrr !! i = Some b ∧
     NextBackend wrr = (Returned (Ok b), wrr)).
Proof.
  intros Hc Hk. unfold NextBackend. rewrite Hc, wrr_healthyIndices_pool. cbv zeta.
  pose proof (pool_indices_lookup (backends wrr)) as Hlk.
  destruct (pool_indices (backends wrr)) as [|i [|? ?]]; [by left| |simpl in Hk; lia].
  right. destruct (Hlk i) as [b Hb]; [left|]. exists i, b. split; [done|]. split; [done|].
  by rewrite (slice_at_lookup _ _ b).
Qed.

Lemma wrr_NextBackend_closed wrr :
  closed wrr = true → NextBackend wrr = (Returned (Err (EApp ErrNoHealthyBackends)), wrr).
Proof. intros Hc. unfold NextBackend. by rewrite Hc. Qed.

(** Every outcome of a call, with the state it leaves. *)
Lemma wrr_NextBackend_cases wrr :
  wrr_wf wrr →
  ∃ cw, length cw = length (backends wrr) ∧ (NextBackend wrr).2 = setCurrentWeights wrr cw ∧
  (((NextBackend wrr).1 = Returned (Err (EApp ErrNoHealthyBackends)) ∧
    (closed wrr = true ∨ no_candidate (backends wrr))) ∨
   (∃ b, (NextBackend wrr).1 = Returned (Ok b) ∧ closed wrr = false ∧ candidate (backends wrr) b) ∨
   (∃ why, (NextBackend wrr).1 = Panicked why)).
Proof.
  intros Hwf. pose proof Hwf as [_ Hlen].
  assert (wrr = setCurrentWeights wrr (currentWeights wrr)) as Hself by by destruct wrr.
  destruct (closed wrr) eqn:Hc.
  { rewrite wrr_NextBackend_closed by done. exists (currentWeights wrr).
    split; [done|]. split; [done|]. left. split; [done|by left]. }
  destruct (decide (2 ≤ length (pool_indices (backends wrr)))%nat) as [Hk|Hk].
  - destruct (wrr_NextBackend_many wrr Hwf Hc Hk) as (cw&Hl&_&[(i&b&v&Hi&Hb&_&_&_&->)|(_&->)]).
    + eexists. split; [|split; [done|]]; [by rewrite length_insert, Hl|].
      right; left. exists b. eauto with vpa.
    + exists cw. split; [by rewrite Hl|]. simpl. eauto.
  - exists (currentWeights wrr). split; [done|].
    destruct (wrr_NextBackend_few wrr Hc) as [[Hp ->]|(i&b&Hp&Hb&->)]; [lia| |]; (split; [done|]); simpl.
    + left. split; [done|]. auto using pool_indices_nil.
    + right; left. exists b. split; [done|]. split; [done|].
      apply (pool_indices_candidate _ i); [rewrite Hp; left|done].
Qed.

#[export] Instance Weighted_Spec : LoadBalancerSpec WeightedRoundRobinBalancer.
Proof.
  refine {| lb_backends := backends; lb_closed := closed; lb_wf := wrr_wf |}; simpl.
  - intros s b s' Hwf Hn. destruct (wrr_NextBackend_cases s Hwf) as (cw&_&_&H). rewrite Hn in H.
    destruct H as [[? _]|[(b'&?&?&?)|(why&?)]]; by simplify_eq/=.
  - intros s e s' Hwf Hn. destruct (wrr_NextBackend_cases s Hwf) as (cw&_&_&H). rewrite Hn in H.
    destruct H as [[? ?]|[(b'&?&?&?)|(why&?)]]; by simplify_eq/=.
  - intros s Hc. by rewrite wrr_NextBackend_closed.
  - intros s Hwf. destruct (wrr_NextBackend_cases s Hwf) as (cw&Hl&->&_). destruct Hwf. by repeat split.
  - done.
  - intros s url st [??]. unfold wrr_wf. simpl. by rewrite setFirstState_length.
  - intros s [??]. unfold Close, wrr_wf. by destruct (closed s) eqn:Hc.
  - intros s now _. apply status_view.
Defined.

(* ------------------------------------------------------------------ *)
(** ** The selection that finds nothing *)

(** A selection by an open weighted balancer panics (index -1) exactly when at least two
    candidates are left and every one of them ends the weight update below zero or was
    skipped. *)
Theorem weighted_round_robin_panics_iff wrr :
  wrr_wf wrr → closed wrr = false →
  ((NextBackend wrr).1 = Panicked "index out of range" ↔
   (2 ≤ length (pool_indices (backends wrr)))%nat ∧
   ∀ k v, k ∈ pool_indices (backends wrr) →
     advanced (weights wrr !!! k) (currentWeights wrr !!! k) = Some v → (v ≤ -1)%Z).
Proof.
  intros Hwf Hc.
  destruct (decide (2 ≤ length (pool_indices (backends wrr)))%nat) as [Hk|Hk].
  - destruct (wrr_NextBackend_many wrr Hwf Hc Hk) as (cw&_&_&[(i&b&v&Hi&_&Hv&Hpos&_&->)|(Hneg&->)]); simpl.
    + split; [done|]. intros [_ H]. specialize (H i v Hi Hv). lia.
    + split; [intros _; split; [done|]; apply Hneg|done].
  - destruct (wrr_NextBackend_few wrr Hc) as [[_ ->]|(i&b&_&_&->)]; [lia| |]; simpl; (split; [done|]); lia.
Qed.

(** Eight selections over weights 1, 1 and 10 leave the current weights -4, -4
    and 8; when the health checker then takes the heavy backend out, both
    remaining backends stay below zero and the next request panics. *)
Definition skewed : list Backend :=
  [mkBackend "http://a" 1 BackendHealthy; mkBackend "http://b" 1 BackendHealthy;
   mkBackend "http://c" 10 BackendHealthy].

Definition skewed_then_down : WeightedRoundRobinBalancer :=
  UpdateBackendState (select_n 8 (NewWeightedRoundRobinBalancer skewed)).2
    "http://c" BackendUnhealthy.

Lemma weighted_round_robin_panics_iff_witness :
  (NextBackend skewed_then_down).1 = Panicked "index out of range".
Proof.
  assert (pool_indices (backends skewed_then_down) = [0; 1]) as Hp by (vm_compute; reflexivity).
  assert (weights skewed_then_down = [1; 1; 10]%Z) as Hw by (vm_compute; reflexivity).
  assert (currentWeights skewed_then_down = [-4; -4; 8]%Z) as Hcw by (vm_compute; reflexivity).
  refine (proj2 (weighted_round_robin_panics_iff skewed_then_down _ _) _);
    [by split; vm_compute|by vm_compute|]. rewrite Hp, Hw, Hcw. split; [simpl; lia|].
  intros k v Hk Hv. apply elem_of_cons in Hk as [->|Hk].
  { assert (advanced 1 (-4) = Some (-3)%Z) as E by (vm_compute; reflexivity).
    change (advanced 1 (-4) = Some v) in Hv. rewrite E in Hv. injection Hv as <-. lia. }
  apply list_elem_of_singleton in Hk as ->.
  assert (advanced 1 (-4) = Some (-3)%Z) as E by (vm_compute; reflexivity).
  change (advanced 1 (-4) = Some v) in Hv. rewrite E in Hv. injection Hv as <-. lia.
Defined.

(* ------------------------------------------------------------------ *)
(** ** Fairness *)

(** The sum of the weights of the pool, in mathematical integers. *)
Definition poolWeight (wrr : WeightedRoundRobinBalancer) : Z :=
  sumZ (map (λ i, weights wrr !!! i) (pool_indices (backends wrr))).

(** Conditions under which no overflow guard fires: positive weights, and
    the pool size times the weight of the pool fits an int32. *)
Definition wrr_regular (wrr : WeightedRoundRobinBalancer) : Prop :=
  wrr_wf wrr ∧ closed wrr = false ∧ (2 ≤ length (pool_indices (backends wrr)))%nat ∧
  (∀ i, i ∈ pool_indices (backends wrr) → 0 < weights wrr !!! i)%Z ∧
  (Z.of_nat (length (pool_indices (backends wrr))) * poolWeight wrr ≤ max_int32)%Z.

(** The current weights after [picks]: the weight a backend is owed minus the
    share it was given. *)
Definition smooth (wrr : WeightedRoundRobinBalancer) (picks : list nat) (cw : list Z) : Prop :=
  length cw = length (backends wrr) ∧
  (∀ k, k ∈ picks → k ∈ pool_indices (backends wrr)) ∧
  ∀ i, i ∈ pool_indices (backends wrr) →
    cw !!! i = (Z.of_nat (length picks) * weights wrr !!! i - poolWeight wrr * occurrences i picks)%Z ∧
    (- poolWeight wrr < cw !!! i)%Z.

Lemma totalHealthyLoop_sum ws idxs acc :
  (0 ≤ acc)%Z → (∀ i, i ∈ idxs → 0 < ws !!! i)%Z →
  (acc + sumZ (map (λ i, ws !!! i) idxs) ≤ max_int32)%Z →
  totalHealthyLoop ws acc idxs = (acc + sumZ (map (λ i, ws !!! i) idxs))%Z.
Proof.
  revert acc. induction idxs as [|i idxs IH]; intros acc Hacc Hpos Hmax; cbn [totalHealthyLoop map sumZ foldr] in *.
  { unfold sumZ. simpl. lia. }
  assert (0 ≤ sumZ (map (λ i, ws !!! i) idxs))%Z.
  { apply sumZ_map_nonneg. intros x Hx. pose proof (Hpos x ltac:(by right)). lia. }
  pose proof (Hpos i ltac:(left)). unfold sumZ in *. simpl in *.
  destruct (Z.ltb_spec max_int32 (ws !!! i)); [lia|].
  unfold max_int32 in *. rewrite (wrap32_id (ws !!! i)) by (unfold min_int32, max_int32; lia).
  rewrite (wrap32_id (2147483647 - _)) by (unfold min_int32, max_int32; lia).
  destruct (Z.ltb_spec (2147483647 - ws !!! i) acc); [lia|].
  rewrite wrap32_id by (unfold min_int32, max_int32; lia).
  rewrite IH; [lia|lia|intros; apply Hpos; by right|lia].
Qed.

Section Smooth.
Context (wrr : WeightedRoundRobinBalancer) (Hreg : wrr_regular wrr).

Let P := pool_indices (backends wrr).
Let W := poolWeight wrr.
Let K := Z.of_nat (length P).

Lemma weight_bounds i : i ∈ P → (0 < weights wrr !!! i ≤ W)%Z.
Proof using Hreg.
  destruct Hreg as (_&_&_&Hpos&_). intros Hi. split; [by apply Hpos|].
  apply sumZ_member_le; [|by apply (list_elem_of_fmap_2 (λ i, weights wrr !!! i))].
  intros y (k&->&Hk)%list_elem_of_fmap_1. pose proof (Hpos k Hk). lia.
Qed.

Lemma poolWeight_pos : (0 < W ∧ K * W ≤ max_int32 ∧ 2 ≤ K)%Z.
Proof using Hreg.
  destruct Hreg as (_&_&Hk&_&Hmax). split; [|split; [done|unfold K, P; lia]].
  assert (∃ i, i ∈ P) as [i Hi].
  { unfold P in *. destruct (pool_indices (backends wrr)) as [|i l]; [simpl in Hk; lia|].
    exists i. left. }
  pose proof (weight_bounds i Hi). lia.
Qed.

(** The credits of the pool cancel, so none exceeds (K - 1) * W. *)
Lemma smooth_sum picks cw : smooth wrr picks cw → sumZ (map (λ i, cw !!! i) P) = 0%Z.
Proof using Hreg.
  intros (_&Hin&Hcw). rewrite (sumZ_map_ext _ (λ i, Z.of_nat (length picks) * weights wrr !!! i
    + (- W) * occurrences i picks)%Z).
  2: { intros i Hi. destruct (Hcw i Hi) as [-> _]. fold W. lia. }
  rewrite sumZ_map_add, !sumZ_map_mul, sumZ_occurrences; [|apply pool_indices_NoDup|done].
  unfold W, poolWeight, P. lia.
Qed.

Lemma smooth_upper picks cw i :
  smooth wrr picks cw → i ∈ P → (cw !!! i ≤ (K - 1) * W)%Z.
Proof using Hreg.
  intros Hs Hi. pose proof (smooth_sum _ _ Hs) as H0. destruct Hs as (_&_&Hcw).
  pose proof (sumZ_lower_bound (λ i, cw !!! i) P i W Hi (pool_indices_NoDup _)) as H.
  rewrite H0 in H. opose proof (H _); [|unfold K; lia].
  intros y Hy. destruct (Hcw y Hy) as [_ ?]. fold W in H1. lia.
Qed.

Lemma smooth_advanced picks cw i :
  smooth wrr picks cw → i ∈ P →
  advancedAt (setCurrentWeights wrr cw) i = Some (cw !!! i + weights wrr !!! i)%Z.
Proof using Hreg.
  intros Hs Hi. pose proof (smooth_upper _ _ _ Hs Hi). pose proof (weight_bounds i Hi).
  pose proof poolWeight_pos. destruct Hs as (_&_&Hcw). destruct (Hcw i Hi) as [_ Hlo]. fold W in Hlo.
  apply advanced_regular; simpl; unfold min_int32, max_int32 in *; nia.
Qed.

(** A selection keeps the invariant. *)
Lemma smooth_step picks cw :
  smooth wrr picks cw →
  ∃ i b cw', backends wrr !! i = Some b ∧
    NextBackend (setCurrentWeights wrr cw) = (Returned (Ok b), setCurrentWeights wrr cw') ∧
    smooth wrr (picks ++ [i]) cw'.
Proof using Hreg.
  intros Hs. pose proof Hs as (Hl&Hin&Hcw). pose proof Hreg as ([Hlw _]&Hc&Hk&Hpos&Hmax).
  pose proof poolWeight_pos as (HW&HKW&HK).
  assert (wrr_wf (setCurrentWeights wrr cw)) as Hwf by by split.
  assert (Hadv : ∀ k, k ∈ P →
    advancedAt (setCurrentWeights wrr cw) k = Some (cw !!! k + weights wrr !!! k)%Z)
    by (intros; by eapply smooth_advanced).
  assert (∃ k, k ∈ P ∧ (0 < cw !!! k + weights wrr !!! k)%Z) as (j&Hj&Hjpos).
  { apply (sumZ_pos_member (λ k, cw !!! k + weights wrr !!! k)%Z).
    rewrite sumZ_map_add, (smooth_sum picks) by done. exact HW. }
  destruct (wrr_NextBackend_many _ Hwf Hc Hk) as (cw1&Hl1&Hcw1&Hcase). simpl in Hl1, Hcw1.
  fold P in Hcw1.
  destruct Hcase as [(i&b&v&Hi&Hb&Hv&_&Hbest&Hn)|[Hneg _]].
  2: { pose proof (Hneg j _ Hj (Hadv j Hj)). lia. }
  simpl in Hi, Hb, Hbest, Hn. fold P in Hi, Hbest, Hn.
  rewrite (Hadv i Hi) in Hv. injection Hv as <-.
  pose proof (Hbest j _ Hj (Hadv j Hj)) as Hij.
  pose proof (smooth_upper _ _ _ Hs Hi) as Hup. pose proof (weight_bounds i Hi) as Hwi.
  rewrite totalHealthyLoop_sum in Hn; [|lia|done|change (0 + W ≤ max_int32)%Z; nia].
  change (0 + _)%Z with (sumZ (map (λ i, weights wrr !!! i) P)) in Hn.
  change (sumZ (map (λ i, weights wrr !!! i) P)) with W in Hn.
  rewrite wrap32_id in Hn by (unfold min_int32, max_int32 in *; nia).
  exists i, b, (<[i := (cw !!! i + weights wrr !!! i - W)%Z]> cw1).
  split; [done|]. split; [done|]. split; [by rewrite length_insert, Hl1|]. split.
  { intros k [Hk'|Hk']%elem_of_app; [by apply Hin|by apply list_elem_of_singleton in Hk' as ->]. }
  intros k Hkin. rewrite occurrences_snoc, length_app. simpl length. fold W.
  destruct (Hcw k Hkin) as [Hk1 Hk2]. fold W in Hk1, Hk2. pose proof (weight_bounds k Hkin).
  destruct (decide (k = i)) as [->|Hne].
  - rewrite list_lookup_total_insert_eq by (rewrite Hl1, Hl; by apply lookup_lt_is_Some, pool_indices_lookup).
    split; lia.
  - rewrite list_lookup_total_insert_ne, Hcw1, Hadv by done. simpl. split; lia.
Qed.

Lemma smooth_run n picks cw :
  smooth wrr picks cw →
  ∃ more rs cw',
    select_n n (setCurrentWeights wrr cw) = (rs, setCurrentWeights wrr cw') ∧
    Forall2 (λ i r, ∃ b, backends wrr !! i = Some b ∧ r = Returned (Ok b)) more rs ∧
    length more = n ∧ smooth wrr (picks ++ more) cw'.
Proof using Hreg.
  revert picks cw. induction n as [|n IH]; intros picks cw Hs.
  { exists [], [], cw. split; [done|]. split; [constructor|]. split; [done|]. by rewrite app_nil_r. }
  destruct (smooth_step _ _ Hs) as (i&b&cw1&Hb&Hn&Hs1).
  destruct (IH _ _ Hs1) as (more&rs&cw2&Hsel&HF&Hlen&Hs2).
  exists (i :: more), (Returned (Ok b) :: rs), cw2.
  cbn [select_n lb_NextBackend Weighted_LoadBalancer]. rewrite Hn, Hsel. split; [done|].
  split; [constructor; eauto|]. split; [simpl; lia|]. by rewrite <- app_assoc in Hs2.
Qed.

(** After a whole number of rounds nothing is owed. *)
Lemma smooth_round picks cw (m : Z) :
  smooth wrr picks cw → Z.of_nat (length picks) = (m * W)%Z →
  ∀ i, i ∈ P → occurrences i picks = (m * weights wrr !!! i)%Z ∧ cw !!! i = 0%Z.
Proof using Hreg.
  intros (_&Hin&Hcw) Hlen. pose proof poolWeight_pos as (HW&_&_).
  assert (∀ i, i ∈ P → occurrences i picks = (m * weights wrr !!! i)%Z) as Hocc.
  { apply sumZ_map_le_eq.
    - intros i Hi. destruct (Hcw i Hi) as [H1 H2]. fold W in H1, H2. nia.
    - rewrite sumZ_occurrences; [|apply pool_indices_NoDup|done].
      rewrite sumZ_map_mul. exact Hlen. }
  intros i Hi. split; [by apply Hocc|]. destruct (Hcw i Hi) as [-> _]. fold W.
  rewrite Hocc, Hlen by done. lia.
Qed.
End Smooth.

Definition zero_weights (wrr : WeightedRoundRobinBalancer) : Prop :=
  ∀ i, i ∈ pool_indices (backends wrr) → currentWeights wrr !!! i = 0%Z.

Lemma smooth_start wrr : wrr_regular wrr → zero_weights wrr → smooth wrr [] (currentWeights wrr).
Proof.
  intros Hreg H0. pose proof (poolWeight_pos wrr Hreg) as (?&_&_).
  pose proof Hreg as ([_ Hl]&_). split; [done|]. split; [by intros k ?%elem_of_nil|].
  intros i Hi. rewrite occurrences_nil, H0 by done. simpl. lia.
Qed.

(** C13: For an open balancer with at least two candidates of positive weight, whose
    number times total weight fits an int32: from zero current weights, m rounds of as
    many selections as the candidates' total weight select each candidate exactly m times
    its weight, never panic, and end with zero current weights again. *)
Theorem weighted_round_robin_exact wrr m :
  wrr_regular wrr → zero_weights wrr → (0 ≤ m)%Z →
  ∃ picks rs wrr',
    select_n (Z.to_nat (m * poolWeight wrr)) wrr = (rs, wrr') ∧
    Forall2 (λ i r, ∃ b, backends wrr !! i = Some b ∧ r = Returned (Ok b)) picks rs ∧
    (∀ i, i ∈ picks → i ∈ pool_indices (backends wrr)) ∧
    (∀ i, i ∈ pool_indices (backends wrr) → occurrences i picks = (m * weights wrr !!! i)%Z) ∧
    backends wrr' = backends wrr ∧ zero_weights wrr'.
Proof.
  intros Hreg H0 Hm. pose proof (poolWeight_pos wrr Hreg) as (HW&_&_).
  destruct (smooth_run wrr Hreg (Z.to_nat (m * poolWeight wrr)) _ _ (smooth_start wrr Hreg H0))
    as (picks&rs&cw&Hsel&HF&Hlen&Hs). simpl in Hs.
  exists picks, rs, (setCurrentWeights wrr cw). split; [by destruct wrr|]. split; [done|].
  opose proof (smooth_round wrr Hreg picks cw m Hs _) as Hr; [rewrite Hlen, Z2Nat.id; nia|].
  split; [by destruct Hs as (_&?&_)|]. split; [intros; by apply Hr|]. split; [done|].
  intros i Hi. by apply Hr.
Qed.

(** C14: For an open balancer with at least two candidates of positive weight, whose
    number times total weight fits an int32: after any number n of selections from zero
    current weights, the number of times a candidate was selected deviates from its exact
    share n*weight/total by less than one selection upwards and by at most the number of
    other candidates downwards. *)
Theorem weighted_round_robin_smooth wrr n :
  wrr_regular wrr → zero_weights wrr →
  ∃ picks rs wrr',
    select_n n wrr = (rs, wrr') ∧ length picks = n ∧
    Forall2 (λ i r, ∃ b, backends wrr !! i = Some b ∧ r = Returned (Ok b)) picks rs ∧
    ∀ i, i ∈ pool_indices (backends wrr) →
      (- poolWeight wrr
       < Z.of_nat n * weights wrr !!! i - poolWeight wrr * occurrences i picks
       ≤ (Z.of_nat (length (pool_indices (backends wrr))) - 1) * poolWeight wrr)%Z.
Proof.
  intros Hreg H0.
  destruct (smooth_run wrr Hreg n _ _ (smooth_start wrr Hreg H0))
    as (picks&rs&cw&Hsel&HF&Hlen&Hs). simpl in Hs.
  exists picks, rs, (setCurrentWeights wrr cw). split; [by destruct wrr|]. split; [done|].
  split; [done|]. intros i Hi. pose proof (smooth_upper wrr Hreg _ _ _ Hs Hi).
  destruct Hs as (_&_&Hcw). destruct (Hcw i Hi) as [E ?]. rewrite Hlen in E. lia.
Qed.

Lemma skewed_regular : wrr_regular (NewWeightedRoundRobinBalancer skewed).
Proof.
  assert (pool_indices (backends (NewWeightedRoundRobinBalancer skewed)) = [0; 1; 2]) as Hp by done.
  split; [by split|]. split; [done|]. unfold poolWeight. rewrite Hp. split; [simpl; lia|].
  split; [|by vm_compute].
  intros i [->|[->|Hi]%elem_of_cons]%elem_of_cons; [by vm_compute..|].
  apply list_elem_of_singleton in Hi as ->. by vm_compute.
Qed.

Lemma skewed_zero : zero_weights (NewWeightedRoundRobinBalancer skewed).
Proof.
  intros i Hi. apply (lookup_total_replicate_2 3). by apply (lookup_lt_is_Some skewed), pool_indices_lookup.
Qed.

Lemma weighted_round_robin_exact_witness :
  ∃ picks rs wrr',
    select_n 12 (NewWeightedRoundRobinBalancer skewed) = (rs, wrr') ∧
    Forall2 (λ i r, ∃ b, skewed !! i = Some b ∧ r = Returned (Ok b)) picks rs ∧
    (∀ i, i ∈ picks → i ∈ pool_indices skewed) ∧
    (∀ i, i ∈ pool_indices skewed → occurrences i picks = (1 * [1; 1; 10]%Z !!! i)%Z) ∧
    backends wrr' = skewed ∧ zero_weights wrr'.
Proof.
  apply (weighted_round_robin_exact (NewWeightedRoundRobinBalancer skewed) 1);
    [apply skewed_regular|apply skewed_zero|lia].
Defined.

Lemma weighted_round_robin_smooth_witness :
  ∃ picks rs wrr',
    select_n 5 (NewWeightedRoundRobinBalancer skewed) = (rs, wrr') ∧ length picks = 5 ∧
    Forall2 (λ i r, ∃ b, skewed !! i = Some b ∧ r = Returned (Ok b)) picks rs ∧
    ∀ i, i ∈ pool_indices skewed →
      (- 12 < 5 * [1; 1; 10]%Z !!! i - 12 * occurrences i picks ≤ 24)%Z.
Proof.
  apply (weighted_round_robin_smooth (NewWeightedRoundRobinBalancer skewed) 5);
    [apply skewed_regular|apply skewed_zero].
Defined.
