(* ===== verification/LBFactory.v ===== *)
(** * LBFactory: internal/services/loadbalancer/factory.go

    The strategy switch, and the interface value it returns: one of the three
    balancers, with the methods dispatched as Go dispatches an interface call. *)

From S2P Require Import Prelude GoStd Errors Domain LoadBalancer.
From S2P Require RoundRobin LeastConn Weighted.

#[export] Existing Instances RoundRobin.RoundRobin_LoadBalancer RoundRobin.RoundRobin_Spec
  LeastConn.LeastConn_LoadBalancer LeastConn.LeastConn_Spec
  Weighted.Weighted_LoadBalancer Weighted.Weighted_Spec.

(** The dynamic type of a domain.LoadBalancer made by the factory. *)
Inductive Balancer :=
| RR (s : RoundRobin.RoundRobinBalancer)
| WRR (s : Weighted.WeightedRoundRobinBalancer)
| LC (s : LeastConn.LeastConnectionsBalancer).

#[export] Instance Balancer_LoadBalancer : LoadBalancer Balancer := {
  lb_NextBackend l :=
    match l with
    | RR s => let '(r, s') := lb_NextBackend s in (r, RR s')
    | WRR s => let '(r, s') := lb_NextBackend s in (r, WRR s')
    | LC s => let '(r, s') := lb_NextBackend s in (r, LC s')
    end;
  lb_ReportResult l b e code :=
    match l with
    | RR s => RR (lb_ReportResult s b e code)
    | WRR s => WRR (lb_ReportResult s b e code)
    | LC s => LC (lb_ReportResult s b e code)
    end;
  lb_BackendsStatus l now :=
    match l with
    | RR s => lb_BackendsStatus s now
    | WRR s => lb_BackendsStatus s now
    | LC s => lb_BackendsStatus s now
    end;
  lb_UpdateBackendState l url st :=
    match l with
    | RR s => RR (lb_UpdateBackendState s url st)
    | WRR s => WRR (lb_UpdateBackendState s url st)
    | LC s => LC (lb_UpdateBackendState s url st)
    end;
  lb_Close l :=
    match l with
    | RR s => RR (lb_Close s)
    | WRR s => WRR (lb_Close s)
    | LC s => LC (lb_Close s)
    end
}.

#[export] Instance Balancer_Spec : LoadBalancerSpec Balancer.
Proof.
  refine {|
    lb_backends l :=
      match l with RR s => lb_backends s | WRR s => lb_backends s | LC s => lb_backends s end;
    lb_closed l :=
      match l with RR s => lb_closed s | WRR s => lb_closed s | LC s => lb_closed s end;
    lb_wf l :=
      match l with RR s => lb_wf s | WRR s => lb_wf s | LC s => lb_wf s end
  |}.
  - intros [s|s|s] b s' Hwf Hn; cbn [lb_NextBackend Balancer_LoadBalancer] in Hn;
      destruct (lb_NextBackend s) eqn:E; simplify_eq; by eapply lb_next_candidate.
  - intros [s|s|s] e s' Hwf Hn; cbn [lb_NextBackend Balancer_LoadBalancer] in Hn;
      destruct (lb_NextBackend s) eqn:E; simplify_eq; by eapply lb_next_error.
  - intros [s|s|s] Hc; pose proof (lb_next_closed s Hc) as Hn;
      cbn [lb_NextBackend Balancer_LoadBalancer]; by destruct (lb_NextBackend s).
  - intros [s|s|s] Hwf; pose proof (lb_next_frame s Hwf) as Hf;
      cbn [lb_NextBackend Balancer_LoadBalancer]; by destruct (lb_NextBackend s).
  - intros [s|s|s] b e code Hwf; apply (lb_report_frame s b e code Hwf).
  - intros [s|s|s] url st Hwf; apply (lb_update_view s url st Hwf).
  - intros [s|s|s] Hwf; apply (lb_close_view s Hwf).
  - intros [s|s|s] now Hwf; apply (lb_status_view s now Hwf).
Defined.

(** Factory.CreateLoadBalancer *)
Definition CreateLoadBalancer (strategy : string) (backends : list Backend) : result Balancer :=
  match backends with
  | [] => Err (EText "cannot create load balancer with empty backends list")
  | _ =>
      if String.eqb strategy LoadBalancingStrategyRoundRobin
      then Ok (RR (RoundRobin.NewRoundRobinBalancer backends))
      else if String.eqb strategy LoadBalancingStrategyWeighted
      then Ok (WRR (Weighted.NewWeightedRoundRobinBalancer backends))
      else if String.eqb strategy LoadBalancingStrategyLeastConnection
      then Ok (LC (LeastConn.NewLeastConnectionsBalancer backends))
      else Err (EText ("unsupported load balancing strategy: " +:+ strategy))
  end.

Definition GetSupportedStrategies : list string :=
  [LoadBalancingStrategyRoundRobin; LoadBalancingStrategyWeighted;
   LoadBalancingStrategyLeastConnection].

Definition ValidateStrategy (strategy : string) : option goError :=
  if slices_contains GetSupportedStrategies strategy then None
  else Some (EText ("unsupported load balancing strategy: " +:+ strategy
                    +:+ ". Supported strategies: " +:+ formatStrings GetSupportedStrategies)).

Definition GetStrategyDescription (strategy : string) : string :=
  if String.eqb strategy LoadBalancingStrategyRoundRobin
  then "Round Robin: Distributes requests evenly across all healthy backends in sequence"
  else if String.eqb strategy LoadBalancingStrategyWeighted
  then "Weighted Round Robin: Distributes requests based on backend weights using smooth algorithm"
  else if String.eqb strategy LoadBalancingStrategyLeastConnection
  then "Least Connections: Routes requests to the backend with the fewest active connections"
  else "Unknown strategy: " +:+ strategy.

(** The factory and the domain type accept the same strategies. *)
Lemma strategy_validators_agree strategy :
  LoadBalancingStrategy_IsValid strategy = true ↔ ValidateStrategy strategy = None.
Proof.
  unfold ValidateStrategy, slices_contains, GetSupportedStrategies, LoadBalancingStrategy_IsValid.
  rewrite !orb_true_iff, !String.eqb_eq. case_bool_decide as H.
  - split; [done|]. intros _. apply elem_of_cons in H as [|[|?%list_elem_of_singleton]%elem_of_cons]; auto.
  - split; [|done]. intros [[->| ->]| ->]; destruct H; rewrite ?elem_of_cons; auto.
Qed.

(** The factory succeeds on a known strategy and some backends. *)
Lemma CreateLoadBalancer_ok strategy backends :
  (Z.of_nat (length backends) ≤ max_int32)%Z → backends ≠ [] →
  LoadBalancingStrategy_IsValid strategy = true →
  ∃ l, CreateLoadBalancer strategy backends = Ok l ∧
    lb_wf l ∧ lb_closed l = false ∧ lb_backends l = backends.
Proof.
  intros Hlen Hne Hv. unfold CreateLoadBalancer. destruct backends as [|b bs]; [done|].
  unfold LoadBalancingStrategy_IsValid in Hv. apply orb_true_iff in Hv as [[->| ->]%orb_true_iff| ->].
  - by eexists.
  - destruct (String.eqb _ LoadBalancingStrategyRoundRobin); eexists; (split; [done|]);
      [done|split; [apply Weighted.wrr_New_wf|done]].
  - destruct (String.eqb _ LoadBalancingStrategyRoundRobin); [by eexists|].
    destruct (String.eqb _ LoadBalancingStrategyWeighted); eexists; (split; [done|]);
      [split; [apply Weighted.wrr_New_wf|done]|split; [apply LeastConn.lc_New_wf|done]].
Qed.

(** The factory makes a well-formed open balancer over exactly the given backends when
    there are some and the strategy is supported, and fails otherwise. *)
Theorem create_load_balancer_spec strategy backends :
  (Z.of_nat (length backends) ≤ max_int32)%Z →
  match CreateLoadBalancer strategy backends with
  | Ok l =>
      backends ≠ [] ∧ ValidateStrategy strategy = None ∧
      LoadBalancingStrategy_IsValid strategy = true ∧
      lb_wf l ∧ lb_closed l = false ∧ lb_backends l = backends
  | Err _ => backends = [] ∨ ValidateStrategy strategy ≠ None
  end.
Proof.
  intros Hlen. destruct backends as [|b bs]; [by left|].
  destruct (LoadBalancingStrategy_IsValid strategy) eqn:Hv.
  - destruct (CreateLoadBalancer_ok strategy (b :: bs)) as (l&->&?&?&?); [done..|].
    by apply strategy_validators_agree in Hv as ?.
  - destruct (CreateLoadBalancer strategy (b :: bs)) as [l|e] eqn:E.
    + exfalso. unfold CreateLoadBalancer in E. unfold LoadBalancingStrategy_IsValid in Hv.
      apply orb_false_iff in Hv as [[Hr Hw]%orb_false_iff Hl]. by rewrite Hr, Hw, Hl in E.
    + right. rewrite <- strategy_validators_agree. congruence.
Qed.

Lemma create_load_balancer_spec_witness :
  match CreateLoadBalancer "least-connections" LeastConn.pair with
  | Ok l =>
      LeastConn.pair ≠ [] ∧ ValidateStrategy "least-connections" = None ∧
      LoadBalancingStrategy_IsValid "least-connections" = true ∧
      lb_wf l ∧ lb_closed l = false ∧ lb_backends l = LeastConn.pair
  | Err _ => LeastConn.pair = [] ∨ ValidateStrategy "least-connections" ≠ None
  end.
Proof. apply (create_load_balancer_spec "least-connections" LeastConn.pair). by vm_compute. Defined.
