(* ===== verification/Access.v ===== *)
(** * Access: internal/services/access/service.go *)

From S2P Require Import Prelude Errors Domain.

Definition writeHTTPMethods : list string := ["POST"; "PUT"; "PATCH"; "DELETE"].

Definition writePaths : list string :=
  ["/api/v1/admin/"; "/api/v1/write"; "/write"; "/receive"].

Definition isWriteOperation (method path : string) : bool :=
  if slices_contains writeHTTPMethods method then true
  else existsb (hasPrefix path) writePaths.

Definition restrictedPaths : list string := ["/api/v1/admin/"; "/metrics"; "/debug/"; "/-/"].

Definition isRestrictedPath (path : string) : bool := existsb (hasPrefix path) restrictedPaths.

Definition isAdmin (user : User) : bool := slices_contains (user_Groups user) "admin".

(** Service.CanAccess; the user is a pointer, nil when absent. *)
Definition CanAccess (user : option User) (path method : string) : option goError :=
  match user with
  | None => Some (EApp ErrUnauthorized)
  | Some user =>
      if user_ReadOnly user && isWriteOperation method path then Some (EApp ErrReadOnlyAccess)
      else if isRestrictedPath path && negb (isAdmin user) then Some (EApp ErrAdminRequired)
      else None
  end.

(** Access is granted exactly to a present user who, when read-only, does not
    write, and, when not an administrator, stays off the restricted paths. *)
Lemma CanAccess_granted user path method :
  CanAccess user path method = None ↔
  ∃ u, user = Some u ∧
    (user_ReadOnly u = true → isWriteOperation method path = false) ∧
    (isRestrictedPath path = true → isAdmin u = true).
Proof.
  unfold CanAccess. destruct user as [u|]; [|naive_solver].
  split.
  - intros H. exists u.
    by destruct (user_ReadOnly u), (isWriteOperation method path), (isRestrictedPath path), (isAdmin u).
  - intros (?&[= <-]&Hw&Hr).
    destruct (user_ReadOnly u); [rewrite Hw by done|];
      (destruct (isRestrictedPath path); [by rewrite Hr by done|done]).
Qed.

(** Every refusal is one of three errors, with its HTTP status. *)
Lemma CanAccess_refused user path method e :
  CanAccess user path method = Some e →
  (user = None ∧ e = EApp ErrUnauthorized) ∨ e = EApp ErrReadOnlyAccess ∨ e = EApp ErrAdminRequired.
Proof. unfold CanAccess. repeat case_match; naive_solver. Qed.

Lemma existsb_prefix_false path ps :
  existsb (hasPrefix path) ps = false ↔ ∀ p, p ∈ ps → hasPrefix path p = false.
Proof.
  induction ps as [|p ps IH]; simpl; [split; [by intros _ p ?%elem_of_nil|done]|].
  rewrite orb_false_iff, IH. setoid_rewrite elem_of_cons. naive_solver.
Qed.

Lemma isWriteOperation_false method path :
  isWriteOperation method path = false ↔
  (method ∉ writeHTTPMethods) ∧ ∀ p, p ∈ writePaths → hasPrefix path p = false.
Proof.
  unfold isWriteOperation, slices_contains. rewrite <- existsb_prefix_false.
  case_bool_decide; naive_solver.
Qed.

(** Access is granted exactly to a present user who, when read-only, uses no write method
    and no write path and, when no administrator, no restricted path; a refusal has status
    401 without a user and 403 otherwise. *)
Theorem can_access_spec user path method :
  (CanAccess user path method = None ↔
   ∃ u, user = Some u ∧
     (user_ReadOnly u = true →
        (method ∉ writeHTTPMethods) ∧ ∀ p, p ∈ writePaths → hasPrefix path p = false) ∧
     (("admin" ∉ user_Groups u) → ∀ p, p ∈ restrictedPaths → hasPrefix path p = false)) ∧
  (∀ e, CanAccess user path method = Some e → ∃ a, e = EApp a ∧
     (HTTPStatus a = StatusUnauthorized ↔ user = None) ∧
     (HTTPStatus a = StatusForbidden ↔ user ≠ None)).
Proof.
  split.
  - rewrite CanAccess_granted. setoid_rewrite isWriteOperation_false.
    setoid_rewrite <- (existsb_prefix_false path restrictedPaths).
    unfold isAdmin, slices_contains, isRestrictedPath. setoid_rewrite bool_decide_eq_true.
    split; intros (u&->&Hw&Hr); exists u; (split; [done|]); (split; [done|]).
    + intros Hn. by destruct (existsb _ _); [destruct (Hn (Hr eq_refl))|].
    + intros E. destruct (decide ("admin" ∈ user_Groups u)) as [|n]; [done|].
      by rewrite (Hr n) in E.
  - intros e He. destruct user as [u|].
    + apply CanAccess_refused in He as [[? _]|[->| ->]]; [done|..]; by eexists.
    + simpl in He. simplify_eq. by eexists.
Qed.
