(* ===== verification/Health.v ===== *)
(** * Health: internal/services/health/checker.go

    The checker's own copy of the backends, the counters per URL, the
    transition rule and the monitoring goroutine's lifecycle. A probe's HTTP
    exchange is an argument ([probe]); the state-change callback's calls are
    returned as a list. *)

From S2P Require Import Prelude Float64 Errors Domain.

(* ------------------------------------------------------------------ *)
(** ** State *)

Record CheckerConfig := mkCheckerConfig {
  CheckInterval : Z;
  Timeout : Z;
  HealthyThreshold : Z;
  UnhealthyThreshold : Z;
  HealthEndpoint : string
}.

Record backendState := mkBackendState {
  consecutiveSuccesses : Z;
  consecutiveFailures : Z;
  lastCheckTime : Z;
  lastError : option goError;
  totalChecks : Z;
  totalFailures : Z
}.

(** [stopCh] and [stoppedCh] are channels without buffer that are only ever
    closed: a flag each. *)
Record Checker := mkChecker {
  config : CheckerConfig;
  backends : list Backend;
  backendStates : gmap string backendState;
  stopCh : bool;
  stoppedCh : bool;
  running : bool
}.

(** A call of onStateChange: URL, old state, new state. *)
Definition stateChange : Type := string * BackendState * BackendState.

Definition defaultHealthCheckTimeout : Z := 10 * 1000000000.

Definition freshState (now : Z) : backendState := mkBackendState 0 0 now None 0 0.

Definition NewChecker (config : CheckerConfig) (bs : list Backend) (now : Z) : Checker :=
  let config :=
    mkCheckerConfig (CheckInterval config)
      (if (Timeout config =? 0)%Z then defaultHealthCheckTimeout else Timeout config)
      (if (HealthyThreshold config =? 0)%Z then 2 else HealthyThreshold config)
      (if (UnhealthyThreshold config =? 0)%Z then 3 else UnhealthyThreshold config)
      (if str_nonempty (HealthEndpoint config) then HealthEndpoint config else "/health") in
  mkChecker config bs
    (foldl (λ m b, <[URL b := freshState now]> m) ∅ bs) false false false.

(* ------------------------------------------------------------------ *)
(** ** One health check *)

(** The counters after a check. *)
Definition countCheck (state : backendState) (isHealthy : bool) (checkErr : option goError)
    (now : Z) : backendState :=
  if isHealthy
  then mkBackendState (wrap64 (consecutiveSuccesses state + 1)) 0 now checkErr
         (wrap64 (totalChecks state + 1)) (totalFailures state)
  else mkBackendState 0 (wrap64 (consecutiveFailures state + 1)) now checkErr
         (wrap64 (totalChecks state + 1)) (wrap64 (totalFailures state + 1)).

(** The switch on the thresholds. *)
Definition nextState (config : CheckerConfig) (state : backendState) (isHealthy : bool)
    (currentState : BackendState) : BackendState :=
  if isHealthy && (HealthyThreshold config <=? consecutiveSuccesses state)%Z then BackendHealthy
  else if negb isHealthy && (UnhealthyThreshold config <=? consecutiveFailures state)%Z
  then BackendUnhealthy
  else currentState.

Definition recordHealthCheck (hc : Checker) (backendURL : string) (isHealthy : bool)
    (checkErr : option goError) (now : Z) : Checker * list stateChange :=
  match backendStates hc !! backendURL with
  | None => (hc, [])
  | Some state0 =>
      let state := countCheck state0 isHealthy checkErr now in
      let hc := mkChecker (config hc) (backends hc) (<[backendURL := state]> (backendStates hc))
                  (stopCh hc) (stoppedCh hc) (running hc) in
      match findBackend backendURL (backends hc) with
      | None => (hc, [])
      | Some currentBackend =>
          if bool_decide (State currentBackend = BackendMaintenance) then (hc, [])
          else
            let currentState := State currentBackend in
            let newState := nextState (config hc) state isHealthy currentState in
            if bool_decide (newState ≠ currentState)
            then (mkChecker (config hc) (setFirstState backendURL newState (backends hc))
                    (backendStates hc) (stopCh hc) (stoppedCh hc) (running hc),
                  [(backendURL, currentState, newState)])
            else (hc, [])
      end
  end.

(** What http.NewRequestWithContext and httpClient.Do give for a URL. *)
Inductive probeResult :=
| RequestError (err : goError)
| TransportError (err : goError)
| Response (statusCode : Z).

Definition CheckHealth (hc : Checker) (backend : Backend) (probe : string → probeResult) (now : Z)
  : option goError * Checker * list stateChange :=
  if bool_decide (State backend = BackendMaintenance) then (None, hc, [])
  else
    let healthURL := URL backend +:+ HealthEndpoint (config hc) in
    match probe healthURL with
    | RequestError err =>
        let '(hc', calls) := recordHealthCheck hc (URL backend) false (Some err) now in
        (Some (errorf_w "failed to create health check request" err), hc', calls)
    | TransportError err =>
        let '(hc', calls) := recordHealthCheck hc (URL backend) false (Some err) now in
        (Some (errorf_w "health check request failed" err), hc', calls)
    | Response code =>
        let isHealthy := (200 <=? code)%Z && (code <? 300)%Z in
        if negb isHealthy then
          let err := EText ("health check returned status: " +:+ itoa code) in
          let '(hc', calls) := recordHealthCheck hc (URL backend) false (Some err) now in
          (Some err, hc', calls)
        else
          let '(hc', calls) := recordHealthCheck hc (URL backend) true None now in
          (None, hc', calls)
    end.

(** The goroutines of performHealthChecks: each check takes the statistics
    lock for its whole update, so the checks happen one after the other in
    the order the scheduler picks; each reads the clock for itself. *)
Fixpoint runChecks (hc : Checker) (schedule : list (Backend * Z)) (probe : string → probeResult)
  : Checker * list stateChange :=
  match schedule with
  | [] => (hc, [])
  | (b, now) :: rest =>
      let '(_, hc1, calls1) := CheckHealth hc b probe now in
      let '(hc2, calls2) := runChecks hc1 rest probe in
      (hc2, calls1 ++ calls2)
  end.

(** The backends a round checks, copied before the goroutines start. *)
Definition toCheck (hc : Checker) : list Backend :=
  filter (λ b, State b ≠ BackendMaintenance) (backends hc).

(** A round under a schedule: every backend of the copy once, in some order,
    with the time its result is recorded. *)
Definition performHealthChecks (hc : Checker) (probe : string → probeResult) (schedule : list (Backend * Z))
    (out : Checker * list stateChange) : Prop :=
  schedule.*1 ≡ₚ toCheck hc ∧ runChecks hc schedule probe = out.

(* ------------------------------------------------------------------ *)
(** ** Lifecycle *)

Definition withLife (hc : Checker) (stop stopped run : bool) : Checker :=
  mkChecker (config hc) (backends hc) (backendStates hc) stop stopped run.

(** StartMonitoring: the error, whether the goroutine is started, the state. *)
Definition StartMonitoring (hc : Checker) : option goError * bool * Checker :=
  if (CheckInterval (config hc) <=? 0)%Z then (None, false, hc)
  else if running hc then (Some (EText "health checker is already running"), false, hc)
  else (None, true, withLife hc (stopCh hc) (stoppedCh hc) true).

(** The deferred calls of monitoringLoop, run when the loop returns. *)
Definition monitoringLoopExit (hc : Checker) : outcome Checker :=
  if stoppedCh hc then Panicked "close of closed channel"
  else Returned (withLife hc (stopCh hc) true false).

(** Stop, up to the point where it waits for the goroutine. *)
Definition Stop (hc : Checker) : outcome Checker :=
  if negb (running hc) then Returned hc
  else if stopCh hc then Panicked "close of closed channel"
  else Returned (withLife hc true (stoppedCh hc) (running hc)).

(* ------------------------------------------------------------------ *)
(** ** Statistics *)

Record BackendHealthStats := mkStats {
  hs_Backend : Backend;
  hs_ConsecutiveSuccesses : Z;
  hs_ConsecutiveFailures : Z;
  hs_TotalChecks : Z;
  hs_TotalFailures : Z;
  hs_LastCheckTime : Z;
  hs_LastError : option goError;
  hs_SuccessRate : float64
}.

Definition calculateSuccessRate (state : backendState) : float64 :=
  if (totalChecks state =? 0)%Z then toFloat 0
  else percentage (wrap64 (totalChecks state - totalFailures state)) (totalChecks state).

Definition GetStats (hc : Checker) : gmap string BackendHealthStats :=
  map_imap (λ backendURL state,
    (λ b, mkStats b (consecutiveSuccesses state) (consecutiveFailures state)
            (totalChecks state) (totalFailures state) (lastCheckTime state) (lastError state)
            (calculateSuccessRate state))
    <$> findBackend backendURL (backends hc)) (backendStates hc).

(** Up to a hundred checks, the rate falls below a hundred with the first
    failure. *)
Lemma success_rate_counts_failures state :
  (1 ≤ totalChecks state ≤ 100)%Z → (0 ≤ totalFailures state ≤ totalChecks state)%Z →
  ltFloat (calculateSuccessRate state) (toFloat 100) = (0 <? totalFailures state)%Z.
Proof.
  intros Hc Hf. unfold calculateSuccessRate. destruct (Z.eqb_spec (totalChecks state) 0); [lia|].
  rewrite wrap64_id by (unfold max_int64; lia).
  assert (∀ whole, whole ∈ map Z.of_nat (seq 1 100) → comparesExactly 100 whole = true) as H.
  { apply Forall_forall, (bool_decide_unpack _). vm_compute. exact I. }
  rewrite comparesExactly_spec; [|apply H|lia].
  - destruct (Z.ltb_spec 0 (totalFailures state)), (Z.ltb_spec (100 * (totalChecks state - totalFailures state)) (100 * totalChecks state)); lia || done.
  - apply list_elem_of_In, in_map_iff. exists (Z.to_nat (totalChecks state)). rewrite in_seq. lia.
Qed.

Definition BackendHealthStats_IsHealthy (bhs : BackendHealthStats) : bool :=
  IsAvailable (State (hs_Backend bhs)).

(* ------------------------------------------------------------------ *)
(** ** What one check does to one backend *)

Definition tracked (hc : Checker) (url : string) (st : backendState) (b : Backend) : Prop :=
  backendStates hc !! url = Some st ∧ findBackend url (backends hc) = Some b.

(** The transition, maintenance included. *)
Definition stateAfter (cfg : CheckerConfig) (st : backendState) (ok : bool) (s : BackendState)
  : BackendState :=
  if decide (s = BackendMaintenance) then s else nextState cfg st ok s.

Lemma withState_same b : withState b (State b) = b.
Proof. by destruct b. Qed.

Lemma record_tracked hc url st b ok err now :
  tracked hc url st b →
  let st' := countCheck st ok err now in
  let s' := stateAfter (config hc) st' ok (State b) in
  recordHealthCheck hc url ok err now =
  (mkChecker (config hc) (setFirstState url s' (backends hc)) (<[url := st']> (backendStates hc))
     (stopCh hc) (stoppedCh hc) (running hc),
   if decide (s' = State b) then [] else [(url, State b, s')]).
Proof.
  intros [Hst Hb] st' s'. unfold recordHealthCheck. rewrite Hst. cbv zeta.
  cbn [backends config backendStates stopCh stoppedCh running]. rewrite Hb. fold st'.
  assert (setFirstState url (State b) (backends hc) = backends hc) as Hsame
    by by apply setFirstState_same.
  unfold s', stateAfter. case_bool_decide as Hm.
  - rewrite decide_True by done. rewrite decide_True by done. by rewrite Hsame.
  - rewrite decide_False by done. case_bool_decide as Hn.
    + by rewrite decide_False.
    + rewrite decide_True by done. by rewrite Hn, Hsame.
Qed.

Lemma tracked_record hc url st b ok err now :
  tracked hc url st b →
  let st' := countCheck st ok err now in
  tracked (recordHealthCheck hc url ok err now).1 url st'
    (withState b (stateAfter (config hc) st' ok (State b))).
Proof.
  intros Ht st'. rewrite (record_tracked _ _ _ _ _ _ _ Ht). destruct Ht as [_ Hb].
  split; cbn [fst backends backendStates].
  - by rewrite lookup_insert_eq.
  - by rewrite findBackend_setFirstState, decide_True, Hb by done.
Qed.

Lemma tracked_other hc url url' st b ok err now :
  url ≠ url' → tracked hc url st b → tracked (recordHealthCheck hc url' ok err now).1 url st b.
Proof.
  intros Hne [Hst Hb]. unfold recordHealthCheck, tracked.
  repeat case_match; simpl; rewrite ?lookup_insert_ne by done; try done.
  by rewrite findBackend_setFirstState, decide_False.
Qed.

Lemma record_config hc url ok err now :
  config (recordHealthCheck hc url ok err now).1 = config hc.
Proof. unfold recordHealthCheck. by repeat case_match. Qed.

Lemma tracked_New cfg bs now url b :
  findBackend url bs = Some b → tracked (NewChecker cfg bs now) url (freshState now) b.
Proof.
  intros Hb. split; [|done]. simpl.
  assert (∀ m : gmap string backendState, (url ∈ map URL bs ∨ m !! url = Some (freshState now)) →
    foldl (λ m b, <[URL b := freshState now]> m) m bs !! url = Some (freshState now)) as H.
  { clear Hb. induction bs as [|b' bs IH]; intros m Hm; simpl in *.
    { by destruct Hm as [?%elem_of_nil|]. }
    apply IH. destruct (decide (URL b' = url)) as [<-|Hne].
    - right. by rewrite lookup_insert_eq.
    - rewrite lookup_insert_ne by done. destruct Hm as [[?|?]%elem_of_cons|?]; auto. congruence. }
  apply H. left. destruct (decide (url ∈ map URL bs)); [done|].
  by rewrite (proj2 (findBackend_None url bs)) in Hb.
Qed.

(* ------------------------------------------------------------------ *)
(** ** Histories *)

Record check := mkCheck {
  ck_url : string; ck_ok : bool; ck_err : option goError; ck_now : Z
}.

Definition recordCheck (hc : Checker) (c : check) : Checker :=
  (recordHealthCheck hc (ck_url c) (ck_ok c) (ck_err c) (ck_now c)).1.

Definition run (hc : Checker) (h : list check) : Checker := foldl recordCheck hc h.

(** The outcomes of the checks of one URL, oldest first. *)
Definition results (url : string) (h : list check) : list bool :=
  map ck_ok (filter (λ c, ck_url c = url) h).

(** The number of equal outcomes a history ends with. *)
Fixpoint leading (ok : bool) (l : list bool) : Z :=
  match l with
  | [] => 0
  | x :: l' => if Bool.eqb x ok then (leading ok l' + 1)%Z else 0%Z
  end.

Definition streak (ok : bool) (l : list bool) : Z := leading ok (reverse l).

Definition countFalse (l : list bool) : Z := Z.of_nat (length (filter (λ x, x = false) l)).

Lemma streak_nil ok : streak ok [] = 0%Z.
Proof. done. Qed.

Lemma streak_snoc ok l x : streak ok (l ++ [x]) = if Bool.eqb x ok then (streak ok l + 1)%Z else 0%Z.
Proof. unfold streak. by rewrite reverse_snoc. Qed.

Lemma streak_bound ok l : (0 ≤ streak ok l ≤ Z.of_nat (length l))%Z.
Proof.
  induction l as [|x l IH] using rev_ind; [done|].
  rewrite streak_snoc, length_app. destruct (Bool.eqb x ok); simpl; lia.
Qed.

Lemma countFalse_snoc l x : countFalse (l ++ [x]) = (countFalse l + if x then 0 else 1)%Z.
Proof. unfold countFalse. rewrite filter_app, length_app, filter_cons. destruct x; simpl; lia. Qed.

Lemma countFalse_bound l : (0 ≤ countFalse l ≤ Z.of_nat (length l))%Z.
Proof. unfold countFalse. pose proof (length_filter (λ x, x = false) l). lia. Qed.

Lemma results_snoc url h c :
  results url (h ++ [c]) = if decide (ck_url c = url) then results url h ++ [ck_ok c] else results url h.
Proof.
  unfold results. rewrite filter_app, filter_cons, filter_nil, map_app.
  case_decide; simpl; [done|by rewrite app_nil_r].
Qed.

Lemma results_length url h : (length (results url h) ≤ length h)%nat.
Proof. unfold results. rewrite length_map. apply length_filter. Qed.

Lemma run_snoc hc h c : run hc (h ++ [c]) = recordCheck (run hc h) c.
Proof. unfold run. by rewrite foldl_app. Qed.

Lemma run_config hc h : config (run hc h) = config hc.
Proof.
  induction h as [|c h IH] using rev_ind; [done|].
  rewrite run_snoc, <- IH. apply record_config.
Qed.

(** The counters of a URL, as functions of its history. *)
Definition counters_of (st : backendState) (rs : list bool) : Prop :=
  consecutiveSuccesses st = streak true rs ∧ consecutiveFailures st = streak false rs ∧
  totalChecks st = Z.of_nat (length rs) ∧ totalFailures st = countFalse rs.

(** The state a history leads to, in terms of its streaks: the last result
    moves the state exactly when its streak reaches the threshold. *)
Inductive history_state (cfg : CheckerConfig) (s0 : BackendState) : list bool → BackendState → Prop :=
| hs_start : history_state cfg s0 [] s0
| hs_up rs s :
    history_state cfg s0 rs s → s ≠ BackendMaintenance →
    (HealthyThreshold cfg ≤ streak true (rs ++ [true]))%Z →
    history_state cfg s0 (rs ++ [true]) BackendHealthy
| hs_down rs s :
    history_state cfg s0 rs s → s ≠ BackendMaintenance →
    (UnhealthyThreshold cfg ≤ streak false (rs ++ [false]))%Z →
    history_state cfg s0 (rs ++ [false]) BackendUnhealthy
| hs_keep rs s ok :
    history_state cfg s0 rs s →
    (s ≠ BackendMaintenance →
     streak ok (rs ++ [ok]) < if ok then HealthyThreshold cfg else UnhealthyThreshold cfg)%Z →
    history_state cfg s0 (rs ++ [ok]) s.

Lemma counters_step st rs ok err now :
  (Z.of_nat (length rs) < max_int64)%Z → counters_of st rs →
  counters_of (countCheck st ok err now) (rs ++ [ok]).
Proof.
  intros Hmax (H1&H2&H3&H4). pose proof (streak_bound true rs). pose proof (streak_bound false rs).
  pose proof (countFalse_bound rs). unfold counters_of. rewrite !streak_snoc, countFalse_snoc, length_app.
  unfold max_int64 in *.
  destruct ok; simpl; rewrite ?H1, ?H2, ?H3, ?H4, ?wrap64_id by (unfold max_int64; lia); lia.
Qed.

Lemma history_step cfg s0 rs s st ok :
  history_state cfg s0 rs s → counters_of st (rs ++ [ok]) →
  history_state cfg s0 (rs ++ [ok]) (stateAfter cfg st ok s).
Proof.
  intros Hh (H1&H2&_&_). unfold stateAfter. case_decide as Hm.
  { by apply hs_keep. }
  unfold nextState. rewrite H1, H2. destruct ok; simpl.
  - destruct (Z.leb_spec (HealthyThreshold cfg) (streak true (rs ++ [true]))); [by eapply hs_up|].
    by apply hs_keep.
  - destruct (Z.leb_spec (UnhealthyThreshold cfg) (streak false (rs ++ [false]))); [by eapply hs_down|].
    by apply hs_keep.
Qed.

(** After any history the statistics of a backend are the streaks of its own
    results, and its state follows the thresholds. *)
Lemma run_tracked cfg bs now h url b :
  findBackend url bs = Some b → (Z.of_nat (length h) ≤ max_int64)%Z →
  ∃ st b', tracked (run (NewChecker cfg bs now) h) url st b' ∧ counters_of st (results url h) ∧
    history_state (config (NewChecker cfg bs now)) (State b) (results url h) (State b').
Proof.
  intros Hb. induction h as [|c h IH] using rev_ind; intros Hlen.
  { exists (freshState now), b. split; [by apply tracked_New|]. split; [done|]. constructor. }
  rewrite length_app in Hlen. simpl in Hlen. destruct IH as (st&b'&Ht&Hc&Hs); [lia|].
  rewrite run_snoc, results_snoc. unfold recordCheck. destruct (decide (ck_url c = url)) as [<-|Hne].
  - pose proof (results_length (ck_url c) h).
    assert (counters_of (countCheck st (ck_ok c) (ck_err c) (ck_now c)) (results (ck_url c) h ++ [ck_ok c]))
      as Hc' by (apply counters_step; [lia|done]).
    eexists _, _. split; [by apply tracked_record|]. split; [done|].
    rewrite run_config. by apply history_step.
  - exists st, b'. split; [|done]. apply tracked_other; [congruence|done].
Qed.

(** Consequences of the transition rule. *)
Lemma history_maintenance cfg s0 rs s :
  history_state cfg s0 rs s → (s = BackendMaintenance ↔ s0 = BackendMaintenance).
Proof. induction 1; naive_solver. Qed.

Lemma streak_pos_last ok rs : (0 < streak ok rs)%Z → ∃ rs', rs = rs' ++ [ok].
Proof.
  destruct rs as [|x rs] using rev_ind; [done|]. rewrite streak_snoc.
  destruct (Bool.eqb_spec x ok) as [->|]; [eauto|lia].
Qed.

Lemma history_up cfg s0 rs s :
  s0 ≠ BackendMaintenance → history_state cfg s0 rs s →
  (0 < streak true rs)%Z → (HealthyThreshold cfg ≤ streak true rs)%Z → s = BackendHealthy.
Proof.
  intros H0 Hh Hp Ht. pose proof (history_maintenance _ _ _ _ Hh). destruct Hh; try done.
  - rewrite streak_snoc in Hp. simpl in Hp. lia.
  - destruct ok; [naive_solver lia|]. rewrite streak_snoc in Hp. simpl in Hp. lia.
Qed.

Lemma history_down cfg s0 rs s :
  s0 ≠ BackendMaintenance → history_state cfg s0 rs s →
  (0 < streak false rs)%Z → (UnhealthyThreshold cfg ≤ streak false rs)%Z → s = BackendUnhealthy.
Proof.
  intros H0 Hh Hp Ht. pose proof (history_maintenance _ _ _ _ Hh). destruct Hh; try done.
  - rewrite streak_snoc in Hp. simpl in Hp. lia.
  - destruct ok; [|naive_solver lia]. rewrite streak_snoc in Hp. simpl in Hp. lia.
Qed.

(** A history without a long enough streak leaves the state alone. *)
Lemma history_flapping cfg s0 rs s :
  history_state cfg s0 rs s →
  (∀ p, p `prefix_of` rs → streak true p < HealthyThreshold cfg ∧ streak false p < UnhealthyThreshold cfg)%Z →
  s = s0.
Proof.
  induction 1 as [|rs s Hh IH Hm Ht|rs s Hh IH Hm Ht|rs s ok Hh IH Hk]; intros Hp; [done|..].
  - destruct (Hp (rs ++ [true]) ltac:(done)). lia.
  - destruct (Hp (rs ++ [false]) ltac:(done)). lia.
  - apply IH. intros p Hpre. apply Hp. by apply prefix_app_r.
Qed.

(** After any sequence of checks a backend's counters are the streaks and totals of its
    own results; it is healthy when the streak of successes reached the threshold,
    unhealthy when the streak of failures did, unchanged when neither was ever reached,
    and in maintenance for ever. *)
Theorem health_state_follows_streaks cfg bs now h url b :
  findBackend url bs = Some b → (Z.of_nat (length h) ≤ max_int64)%Z →
  let hc := run (NewChecker cfg bs now) h in
  let rs := results url h in
  ∃ st b',
    backendStates hc !! url = Some st ∧ findBackend url (backends hc) = Some b' ∧
    consecutiveSuccesses st = streak true rs ∧ consecutiveFailures st = streak false rs ∧
    totalChecks st = Z.of_nat (length rs) ∧ totalFailures st = countFalse rs ∧
    (State b = BackendMaintenance → State b' = BackendMaintenance) ∧
    (State b ≠ BackendMaintenance →
      (0 < streak true rs → HealthyThreshold (config hc) ≤ streak true rs → State b' = BackendHealthy)%Z ∧
      (0 < streak false rs → UnhealthyThreshold (config hc) ≤ streak false rs → State b' = BackendUnhealthy)%Z ∧
      ((∀ p, p `prefix_of` rs → streak true p < HealthyThreshold (config hc) ∧
          streak false p < UnhealthyThreshold (config hc))%Z → State b' = State b)).
Proof.
  intros Hb Hlen hc rs. destruct (run_tracked cfg bs now h url b Hb Hlen) as (st&b'&[Hst Hb']&(?&?&?&?)&Hs).
  assert (config hc = config (NewChecker cfg bs now)) as -> by apply run_config.
  exists st, b'. do 6 (split; [done|]). split; [by apply history_maintenance in Hs as [_ ?]|].
  intros Hm. split; [by eapply history_up|]. split; [by eapply history_down|]. by apply history_flapping.
Qed.

(* ------------------------------------------------------------------ *)
(** ** The callback keeps a mirror of the states up to date *)

(** What the balancer does with the callback's arguments. *)
Definition applyChange (bs : list Backend) (ev : stateChange) : list Backend :=
  let '(url, _, new) := ev in setFirstState url new bs.

(** A check reports exactly the state change it made. *)
Lemma record_calls_mirror hc url ok err now :
  let '(hc', calls) := recordHealthCheck hc url ok err now in
  foldl applyChange (backends hc) calls = backends hc'.
Proof.
  destruct (recordHealthCheck hc url ok err now) as [hc' calls] eqn:E.
  revert E. unfold recordHealthCheck. repeat case_match; intros; by simplify_eq/=.
Qed.

Lemma check_calls_mirror hc b probe now :
  let '(_, hc', calls) := CheckHealth hc b probe now in
  foldl applyChange (backends hc) calls = backends hc'.
Proof.
  unfold CheckHealth. case_bool_decide; [done|]. cbv zeta.
  destruct (probe _) as [err|err|code]; [| |destruct (negb _)]; cbv zeta;
    match goal with |- context [recordHealthCheck ?a ?b ?c ?d ?e] =>
      pose proof (record_calls_mirror a b c d e); by destruct (recordHealthCheck a b c d e) end.
Qed.

Lemma runChecks_mirror schedule hc probe :
  let '(hc', calls) := runChecks hc schedule probe in
  foldl applyChange (backends hc) calls = backends hc'.
Proof.
  revert hc. induction schedule as [|[b now] schedule IH]; intros hc; simpl; [done|].
  pose proof (check_calls_mirror hc b probe now). destruct (CheckHealth hc b probe now) as [[e hc1] calls1].
  pose proof (IH hc1). destruct (runChecks hc1 schedule probe) as [hc2 calls2].
  rewrite foldl_app. congruence.
Qed.

(* ------------------------------------------------------------------ *)
(** ** Rounds do not depend on the schedule *)

(** The part of a check that reaches the state, for a backend that is checked. *)
Definition probeOk (r : probeResult) : bool :=
  match r with Response code => (200 <=? code)%Z && (code <? 300)%Z | _ => false end.

Definition probeErr (r : probeResult) : option goError :=
  match r with
  | RequestError err | TransportError err => Some err
  | Response code =>
      if (200 <=? code)%Z && (code <? 300)%Z then None
      else Some (EText ("health check returned status: " +:+ itoa code))
  end.

Lemma CheckHealth_record hc b probe now :
  State b ≠ BackendMaintenance →
  let r := probe (URL b +:+ HealthEndpoint (config hc)) in
  (CheckHealth hc b probe now).1.2 =
    (recordHealthCheck hc (URL b) (probeOk r) (probeErr r) now).1 ∧
  (CheckHealth hc b probe now).2 =
    (recordHealthCheck hc (URL b) (probeOk r) (probeErr r) now).2.
Proof.
  intros Hm r. unfold CheckHealth. rewrite bool_decide_false by done. cbv zeta. fold r.
  destruct r as [err|err|code]; simpl;
    [by destruct (recordHealthCheck _ _ _ _ _)..|].
  destruct ((200 <=? code)%Z && (code <? 300)%Z); simpl; by destruct (recordHealthCheck _ _ _ _ _).
Qed.

Lemma record_unfold hc url ok err now :
  recordHealthCheck hc url ok err now =
  match backendStates hc !! url, findBackend url (backends hc) with
  | None, _ => (hc, [])
  | Some st, None =>
      (mkChecker (config hc) (backends hc) (<[url := countCheck st ok err now]> (backendStates hc))
         (stopCh hc) (stoppedCh hc) (running hc), [])
  | Some st, Some b =>
      let st' := countCheck st ok err now in
      let s' := stateAfter (config hc) st' ok (State b) in
      (mkChecker (config hc) (setFirstState url s' (backends hc)) (<[url := st']> (backendStates hc))
         (stopCh hc) (stoppedCh hc) (running hc),
       if decide (s' = State b) then [] else [(url, State b, s')])
  end.
Proof.
  destruct (backendStates hc !! url) as [st|] eqn:Hst; [destruct (findBackend url (backends hc)) as [b|] eqn:Hb|].
  - by apply record_tracked.
  - unfold recordHealthCheck. rewrite Hst. cbv zeta.
    cbn [backends config backendStates stopCh stoppedCh running]. by rewrite Hb.
  - unfold recordHealthCheck. by rewrite Hst.
Qed.

(** Two checks of different backends commute. *)
Lemma record_comm hc url1 ok1 err1 now1 url2 ok2 err2 now2 :
  url1 ≠ url2 →
  let hc1 := (recordHealthCheck hc url1 ok1 err1 now1).1 in
  let hc2 := (recordHealthCheck hc url2 ok2 err2 now2).1 in
  (recordHealthCheck hc1 url2 ok2 err2 now2).1 = (recordHealthCheck hc2 url1 ok1 err1 now1).1 ∧
  (recordHealthCheck hc1 url2 ok2 err2 now2).2 = (recordHealthCheck hc url2 ok2 err2 now2).2.
Proof.
  intros Hne. cbv zeta.
  rewrite (record_unfold hc url1), (record_unfold hc url2).
  destruct (backendStates hc !! url1) as [st1|] eqn:H1, (findBackend url1 (backends hc)) as [b1|] eqn:B1,
    (backendStates hc !! url2) as [st2|] eqn:H2, (findBackend url2 (backends hc)) as [b2|] eqn:B2;
    cbn [fst snd]; rewrite !record_unfold; cbn [fst snd backends config backendStates stopCh stoppedCh running];
    rewrite ?lookup_insert_ne, ?H1, ?H2, ?findBackend_setFirstState by congruence;
    rewrite ?decide_False by congruence; rewrite ?B1, ?B2; cbv zeta; cbn [fst snd];
    rewrite ?(insert_insert_ne _ url1 url2), ?(setFirstState_comm url1 _ url2) by done; done.
Qed.

(** The record made for a backend of a round. *)
Definition recordOf (ep : string) (probe : string → probeResult) (hc : Checker) (s : Backend * Z)
  : Checker * list stateChange :=
  let r := probe (URL s.1 +:+ ep) in recordHealthCheck hc (URL s.1) (probeOk r) (probeErr r) s.2.

Lemma runChecks_cons hc s l probe :
  State s.1 ≠ BackendMaintenance →
  let rc := recordOf (HealthEndpoint (config hc)) probe hc s in
  runChecks hc (s :: l) probe = ((runChecks rc.1 l probe).1, rc.2 ++ (runChecks rc.1 l probe).2).
Proof.
  intros Hm rc. destruct s as [b now]. destruct (CheckHealth_record hc b probe now Hm) as [H1 H2]. simpl.
  destruct (CheckHealth hc b probe now) as [[e hc1] calls1]. simpl in H1, H2. subst hc1 calls1.
  change (recordHealthCheck _ _ _ _ _) with rc.
  by destruct (runChecks rc.1 l probe).
Qed.

Lemma recordOf_config ep probe hc s : config (recordOf ep probe hc s).1 = config hc.
Proof. apply record_config. Qed.

(** The order does not matter when each backend keeps its clock reading. *)
Lemma runChecks_Permutation probe l1 l2 :
  l1 ≡ₚ l2 → ∀ hc, NoDup (map URL l1.*1) → Forall (λ s, State s.1 ≠ BackendMaintenance) l1 →
  (runChecks hc l1 probe).1 = (runChecks hc l2 probe).1 ∧
  (runChecks hc l1 probe).2 ≡ₚ (runChecks hc l2 probe).2.
Proof.
  induction 1 as [|s l1 l2 Hp IH|[a ta] [b tb] l|l1 l2 l3 Hp1 IH1 Hp2 IH2]; intros hc Hnd Hm; [done|..].
  - apply NoDup_cons in Hnd as [_ Hnd]. apply Forall_cons in Hm as [Hb Hm].
    rewrite !runChecks_cons by done. simpl.
    destruct (IH (recordOf (HealthEndpoint (config hc)) probe hc s).1 Hnd Hm) as [-> ->]. done.
  - simpl in Hnd. apply NoDup_cons in Hnd as [Hab _].
    apply Forall_cons in Hm as [Hb [Ha Hm]%Forall_cons].
    rewrite !runChecks_cons by done. cbn [fst snd]. rewrite !recordOf_config.
    set (ep := HealthEndpoint (config hc)).
    assert (URL b ≠ URL a) as Hne by (intros E; apply Hab; rewrite E; left).
    destruct (record_comm hc (URL b) (probeOk (probe (URL b +:+ ep))) (probeErr (probe (URL b +:+ ep))) tb
      (URL a) (probeOk (probe (URL a +:+ ep))) (probeErr (probe (URL a +:+ ep))) ta Hne) as [H1 H2].
    destruct (record_comm hc (URL a) (probeOk (probe (URL a +:+ ep))) (probeErr (probe (URL a +:+ ep))) ta
      (URL b) (probeOk (probe (URL b +:+ ep))) (probeErr (probe (URL b +:+ ep))) tb (not_eq_sym Hne)) as [_ H3].
    unfold recordOf in *. cbn [fst snd] in *. rewrite H1, H2, H3. split; [done|].
    rewrite !app_assoc. apply Permutation_app_tail, Permutation_app_comm.
  - destruct (IH1 hc Hnd Hm) as [-> ->]. apply IH2; [by rewrite <- Hp1|by rewrite <- Hp1].
Qed.

(** ** States that differ in the times of the checks only *)

Definition untimed (st : backendState) : backendState :=
  mkBackendState (consecutiveSuccesses st) (consecutiveFailures st) 0 (lastError st) (totalChecks st) (totalFailures st).

Definition sameButTimes (hc hc' : Checker) : Prop :=
  config hc = config hc' ∧ backends hc = backends hc' ∧
  untimed <$> backendStates hc = untimed <$> backendStates hc' ∧
  (stopCh hc, stoppedCh hc, running hc) = (stopCh hc', stoppedCh hc', running hc').

#[export] Instance sameButTimes_equiv : Equivalence sameButTimes.
Proof.
  split; unfold sameButTimes; [done|by intros a b (->&->&->&->)|].
  intros a b c (->&->&->&->) (->&->&->&->). done.
Qed.

Lemma countCheck_untimed st st' ok err t t' :
  untimed st = untimed st' → untimed (countCheck st ok err t) = untimed (countCheck st' ok err t').
Proof. destruct st, st'. unfold untimed, countCheck. simpl. intros [= <- <- <- <- <-]. by destruct ok. Qed.

Lemma stateAfter_untimed cfg st st' ok s :
  untimed st = untimed st' → stateAfter cfg st ok s = stateAfter cfg st' ok s.
Proof. destruct st, st'. unfold untimed, stateAfter, nextState. simpl. by intros [= <- <- _ _ _]. Qed.

Lemma record_untimed hc hc' url ok err t t' :
  sameButTimes hc hc' →
  sameButTimes (recordHealthCheck hc url ok err t).1 (recordHealthCheck hc' url ok err t').1 ∧
  (recordHealthCheck hc url ok err t).2 = (recordHealthCheck hc' url ok err t').2.
Proof.
  intros Hs. destruct (id Hs) as (Hc&Hb&Hst&Hl). rewrite !record_unfold, Hb, Hc.
  assert (untimed <$> backendStates hc !! url = untimed <$> backendStates hc' !! url) as Hu.
  { rewrite <- !lookup_fmap. by rewrite Hst. }
  destruct (backendStates hc !! url) as [st|], (backendStates hc' !! url) as [st'|]; try done. simpl in Hu.
  injection Hu. intros _ _ _ _ _. assert (untimed st = untimed st') as Hu' by congruence.
  pose proof (countCheck_untimed st st' ok err t t' Hu') as Hk.
  destruct (findBackend url (backends hc')) as [b|]; cbv zeta; cbn [fst snd];
    rewrite ?(stateAfter_untimed _ _ _ _ _ Hk); (split; [|done]);
    unfold sameButTimes; cbn [config backends backendStates stopCh stoppedCh running]; by rewrite !fmap_insert, Hst, Hk.
Qed.

Lemma runChecks_untimed probe l1 l2 :
  l1.*1 = l2.*1 → Forall (λ s, State s.1 ≠ BackendMaintenance) l1 → ∀ hc1 hc2, sameButTimes hc1 hc2 →
  sameButTimes (runChecks hc1 l1 probe).1 (runChecks hc2 l2 probe).1 ∧
  (runChecks hc1 l1 probe).2 = (runChecks hc2 l2 probe).2.
Proof.
  revert l2. induction l1 as [|[b t] l1 IH]; intros [|[b' t'] l2] Hl Hm hc1 hc2 Hs; try done.
  apply Forall_cons in Hm as [Hb Hm]. simpl in Hl, Hb. injection Hl as <- Hl.
  rewrite !runChecks_cons by done. cbn [fst snd]. destruct (id Hs) as (Hc&_). unfold recordOf. cbn [fst snd]. rewrite Hc.
  set (r := probe _). destruct (record_untimed hc1 hc2 (URL b) (probeOk r) (probeErr r) t t' Hs) as [H1 H2].
  destruct (IH l2 Hl Hm _ _ H1) as [H3 ->]. by rewrite H2.
Qed.

Lemma toCheck_URLs hc : NoDup (map URL (backends hc)) → NoDup (map URL (toCheck hc)).
Proof.
  unfold toCheck. induction (backends hc) as [|b bs IH]; simpl; [done|]. intros [Hn Hnd]%NoDup_cons.
  rewrite filter_cons. case_decide; [|by apply IH]. simpl. apply NoDup_cons. split; [|by apply IH].
  intros (b'&Hu&[_ Hb']%list_elem_of_filter)%list_elem_of_fmap_1. apply Hn. rewrite Hu.
  by apply (list_elem_of_fmap_2 URL).
Qed.

(** The time of a check is that of its own record. *)
Lemma record_lookup hc url url' ok err now :
  lastCheckTime <$> backendStates (recordHealthCheck hc url ok err now).1 !! url' =
    if decide (url = url') then (λ _, now) <$> backendStates hc !! url'
    else lastCheckTime <$> backendStates hc !! url'.
Proof.
  rewrite record_unfold. case_decide as Hu.
  - subst url'. destruct (backendStates hc !! url) as [st|] eqn:E; [|simpl; by rewrite E].
    destruct (findBackend _ _); simpl; rewrite lookup_insert_eq; by destruct ok.
  - destruct (backendStates hc !! url) as [st|]; [|done].
    destruct (findBackend _ _); simpl; by rewrite lookup_insert_ne.
Qed.

Lemma runChecks_times probe l hc url :
  NoDup (map URL l.*1) → Forall (λ s, State s.1 ≠ BackendMaintenance) l →
  (url ∉ map URL l.*1 →
   lastCheckTime <$> backendStates (runChecks hc l probe).1 !! url = lastCheckTime <$> backendStates hc !! url) ∧
  ∀ b t, (b, t) ∈ l → URL b = url →
    lastCheckTime <$> backendStates (runChecks hc l probe).1 !! url = (λ _, t) <$> backendStates hc !! url.
Proof.
  revert hc. induction l as [|[b t] l IH]; intros hc Hnd Hm; [split; [done|by intros ?? ?%elem_of_nil]|].
  apply Forall_cons in Hm as [Hb Hm]. simpl in Hnd, Hb. apply NoDup_cons in Hnd as [Hn Hnd].
  rewrite runChecks_cons by done. cbn [fst]. unfold recordOf. cbn [fst snd]. set (r := probe _).
  destruct (IH (recordHealthCheck hc (URL b) (probeOk r) (probeErr r) t).1 Hnd Hm) as [H1 H2].
  pose proof (record_lookup hc (URL b) url (probeOk r) (probeErr r) t) as Hr. split.
  - intros [Hu Hl]%not_elem_of_cons. rewrite H1, Hr by done. by rewrite decide_False.
  - intros b' t' [E|Hin]%elem_of_cons Hu.
    + injection E as -> ->. rewrite H1, Hr by (by rewrite <- Hu). by rewrite decide_True.
    + rewrite (H2 _ _ Hin Hu). apply (f_equal (λ o, (λ _, t') <$> o)) in Hr.
      rewrite decide_False in Hr by (intros E; apply Hn; rewrite E, <- Hu; by apply (list_elem_of_fmap_2 fst), (list_elem_of_fmap_2 URL) in Hin).
      by rewrite <- !option_fmap_compose in Hr.
Qed.

(** C21: With distinct URLs, two rounds of concurrent health checks whose probes get the
    same answers leave the same state but for the times of the checks, whatever the orders
    in which the results are recorded and the clock readings; the time kept of each check
    is the reading of its own record; the callbacks are the same up to order, and
    replaying them on a copy of the backends gives the checker's backends. *)
Theorem health_round_schedule_independent hc probe schedule1 schedule2 out1 out2 :
  NoDup (map URL (backends hc)) →
  performHealthChecks hc probe schedule1 out1 → performHealthChecks hc probe schedule2 out2 →
  sameButTimes out1.1 out2.1 ∧
  (∀ b t, (b, t) ∈ schedule1 →
     lastCheckTime <$> backendStates out1.1 !! URL b = (λ _, t) <$> backendStates hc !! URL b) ∧
  out1.2 ≡ₚ out2.2 ∧ foldl applyChange (backends hc) out1.2 = backends out2.1.
Proof.
  intros Hnd (Hs1&<-) (Hs2&<-).
  assert (∀ s : list (Backend * Z), s.*1 ≡ₚ toCheck hc → NoDup (map URL s.*1) ∧ Forall (λ x : Backend * Z, State x.1 ≠ BackendMaintenance) s) as Hok.
  { intros s Hs. split; [change (NoDup (URL <$> s.*1)); rewrite Hs; by apply toCheck_URLs|].
    apply Forall_forall. intros [b t] Hb%(list_elem_of_fmap_2 fst). rewrite Hs in Hb.
    by apply list_elem_of_filter in Hb as [? _]. }
  destruct (Hok _ Hs1) as [Hn1 Hm1], (Hok _ Hs2) as [Hn2 Hm2].
  assert (∃ l, schedule2.*1 = l.*1 ∧ schedule1 ≡ₚ l) as (l&Hl&Hp)
    by (apply Permutation_map_inv; change (schedule2.*1 ≡ₚ schedule1.*1); by rewrite Hs2, <- Hs1).
  destruct (runChecks_Permutation probe schedule1 l Hp hc Hn1 Hm1) as [H1 H2].
  destruct (runChecks_untimed probe l schedule2) with hc hc as [H3 H4]; [done|by rewrite <- Hp|done|].
  split; [by rewrite H1|]. split; [|split; [by rewrite H2, H4|]].
  - intros b t Hb. destruct (runChecks_times probe schedule1 hc (URL b) Hn1 Hm1) as [_ Ht]. by apply (Ht b).
  - pose proof (runChecks_mirror schedule1 hc probe) as Hmi. destruct (runChecks hc schedule1 probe) as [hc1 calls1].
    simpl in *. subst hc1. rewrite Hmi. apply H3.
Qed.

(* ------------------------------------------------------------------ *)
(** ** The lifecycle is one-shot *)

(** The checker's lifecycle: a second start while running is an error, a second stop
    before the loop ends panics, stop after the end does nothing, and a restart after the
    end makes the loop's exit panic. *)
Theorem health_checker_one_shot cfg bs now :
  (0 < CheckInterval cfg)%Z →
  ∃ hc1 hc2 hc3 hc4,
    StartMonitoring (NewChecker cfg bs now) = (None, true, hc1) ∧
    StartMonitoring hc1 = (Some (EText "health checker is already running"), false, hc1) ∧
    Stop hc1 = Returned hc2 ∧
    Stop hc2 = Panicked "close of closed channel" ∧
    monitoringLoopExit hc2 = Returned hc3 ∧
    Stop hc3 = Returned hc3 ∧ backends hc3 = bs ∧
    StartMonitoring hc3 = (None, true, hc4) ∧
    monitoringLoopExit hc4 = Panicked "close of closed channel".
Proof.
  intros Hi. unfold StartMonitoring. simpl.
  destruct (Z.leb_spec (CheckInterval cfg) 0); [lia|]. eexists _, _, _, _.
  split; [done|]. simpl. destruct (Z.leb_spec (CheckInterval cfg) 0); [lia|].
  repeat (split; [done|]). simpl. destruct (Z.leb_spec (CheckInterval cfg) 0); [lia|]. done.
Qed.

(* ------------------------------------------------------------------ *)
(** ** Witnesses *)

Definition sampleConfig : CheckerConfig := mkCheckerConfig 30 10 2 3 "/health".

Definition sampleBackends : list Backend :=
  [mkBackend "http://a" 1 BackendHealthy; mkBackend "http://b" 1 BackendUnhealthy].

Definition sampleHistory : list check :=
  [mkCheck "http://a" false None 1; mkCheck "http://b" true None 2; mkCheck "http://a" false None 3;
   mkCheck "http://b" true None 4; mkCheck "http://a" false None 5].

Lemma health_state_follows_streaks_witness :
  State <$> backends (run (NewChecker sampleConfig sampleBackends 0) sampleHistory)
    = [BackendUnhealthy; BackendHealthy] ∧
  ∃ st b',
    backendStates (run (NewChecker sampleConfig sampleBackends 0) sampleHistory) !! "http://a" = Some st ∧
    findBackend "http://a" (backends (run (NewChecker sampleConfig sampleBackends 0) sampleHistory)) = Some b' ∧
    State b' = BackendUnhealthy.
Proof.
  split; [vm_compute; reflexivity|].
  destruct (health_state_follows_streaks sampleConfig sampleBackends 0 sampleHistory "http://a"
    (mkBackend "http://a" 1 BackendHealthy)) as (st&b'&Hst&Hb'&_&_&_&_&_&H);
    [reflexivity|vm_compute; discriminate|].
  exists st, b'. split; [exact Hst|]. split; [exact Hb'|].
  apply H; [discriminate|vm_compute; reflexivity|vm_compute; discriminate].
Defined.

Definition sampleProbe (url : string) : probeResult :=
  if String.eqb url "http://a/health" then Response 500 else Response 200.

Definition at_ (hc : Checker) (now : Z) : list (Backend * Z) := map (λ b, (b, now)) (toCheck hc).

Lemma health_round_schedule_independent_witness :
  let hc := run (NewChecker sampleConfig sampleBackends 0) (take 4 sampleHistory) in
  let there := runChecks hc (at_ hc 9) sampleProbe in
  let back := runChecks hc (reverse (at_ hc 12)) sampleProbe in
  sameButTimes there.1 back.1 ∧ there.2 ≡ₚ back.2 ∧ there.2 = [("http://a", BackendHealthy, BackendUnhealthy)] ∧
  lastCheckTime <$> backendStates there.1 !! "http://a" = Some 9%Z.
Proof.
  intros hc there back.
  destruct (health_round_schedule_independent hc sampleProbe (at_ hc 9) (reverse (at_ hc 12)) there back) as (H1&H2&H3&_).
  - assert (map URL (backends hc) = ["http://a"; "http://b"]) as -> by (vm_compute; reflexivity).
    constructor; [by intros ?%list_elem_of_singleton|]. apply NoDup_singleton.
  - split; [|reflexivity]. vm_compute. reflexivity.
  - split; [|reflexivity]. rewrite reverse_Permutation. vm_compute. reflexivity.
  - split; [exact H1|]. split; [exact H3|]. split; [vm_compute; reflexivity|].
    etransitivity; [apply (H2 (mkBackend "http://a" 1 BackendHealthy) 9%Z); vm_compute; left|vm_compute; reflexivity].
Defined.

Lemma health_checker_one_shot_witness :
  ∃ hc1 hc2 hc3 hc4,
    StartMonitoring (NewChecker sampleConfig sampleBackends 0) = (None, true, hc1) ∧
    StartMonitoring hc1 = (Some (EText "health checker is already running"), false, hc1) ∧
    Stop hc1 = Returned hc2 ∧
    Stop hc2 = Panicked "close of closed channel" ∧
    monitoringLoopExit hc2 = Returned hc3 ∧
    Stop hc3 = Returned hc3 ∧ backends hc3 = sampleBackends ∧
    StartMonitoring hc3 = (None, true, hc4) ∧
    monitoringLoopExit hc4 = Panicked "close of closed channel".
Proof. apply (health_checker_one_shot sampleConfig sampleBackends 0). reflexivity. Defined.
