(* ===== verification/Monitor.v ===== *)
(** * Monitor: the goroutines of services/health/checker.go

    [Health] has a check, a round and the lifecycle as functions. Here they run
    beside each other: the monitoring loops that were started, with the
    goroutines of their rounds, callers of Stop between its two steps, other
    callers of CheckHealth, and the context. Each lock makes one step. *)

From S2P Require Import Prelude Errors Domain LoadBalancer Health.

(* ------------------------------------------------------------------ *)
(** ** The world *)

(** Where a loop is. [Checking pending]: a round whose goroutines for
    [pending] have not recorded their result. *)
Inductive loop :=
| Copying
| Checking (pending : list Backend)
| Waiting
| Returning
| Closing.

(** [stopping]: calls of Stop that saw the checker running and close the
    channel next; [changes]: the calls of onStateChange so far. *)
Record monitor := mkMonitor {
  checker : Checker;
  loops : list loop;
  stopping : nat;
  cancelled : bool;
  changes : list stateChange
}.

Definition newMonitor (config : CheckerConfig) (bs : list Backend) (now : Z) : monitor :=
  mkMonitor (NewChecker config bs now) [] 0 false [].

(** The deferred calls of the loop, last first: running is reset under its
    lock, then the channel is closed. *)
Definition resetRunning (hc : Checker) : Checker := withLife hc (stopCh hc) (stoppedCh hc) false.
Definition closeStopped (hc : Checker) : outcome Checker :=
  if stoppedCh hc then Panicked "close of closed channel" else Returned (withLife hc (stopCh hc) true (running hc)).

(** Stop's second step. *)
Definition closeStop (hc : Checker) : outcome Checker :=
  if stopCh hc then Panicked "close of closed channel" else Returned (withLife hc true (stoppedCh hc) (running hc)).

Definition withLoops (w : monitor) (hc : Checker) (ls : list loop) : monitor :=
  mkMonitor hc ls (stopping w) (cancelled w) (changes w).

(** Who takes a step, and the check that ends in it: the backend CheckHealth
    was called with, what the exchange gives for a URL, and the time of the
    record. *)
Inductive actor := AStart | AStop | ALoop | ATick | AOther.

Record checkCall := mkCall { cc_backend : Backend; cc_probe : string → probeResult; cc_now : Z }.

Definition event : Type := actor * option checkCall.

#[export] Instance actor_eq_dec : EqDecision actor.
Proof. solve_decision. Defined.

Inductive mstep : monitor → event → monitor → Prop :=
| m_start w hc : StartMonitoring (checker w) = (None, true, hc) →
    mstep w (AStart, None) (withLoops w hc (Copying :: loops w))
| m_copy w l1 l2 : loops w = l1 ++ Copying :: l2 →
    mstep w (ALoop, None) (withLoops w (checker w) (l1 ++ Checking (toCheck (checker w)) :: l2))
| m_check w l1 l2 p1 b p2 probe now err hc calls : loops w = l1 ++ Checking (p1 ++ b :: p2) :: l2 →
    CheckHealth (checker w) b probe now = (err, hc, calls) →
    mstep w (ALoop, Some (mkCall b probe now)) (mkMonitor hc (l1 ++ Checking (p1 ++ p2) :: l2) (stopping w) (cancelled w) (changes w ++ calls))
| m_wait w l1 l2 : loops w = l1 ++ Checking [] :: l2 →
    mstep w (ALoop, None) (withLoops w (checker w) (l1 ++ Waiting :: l2))
| m_tick w l1 l2 : loops w = l1 ++ Waiting :: l2 →
    mstep w (ATick, None) (withLoops w (checker w) (l1 ++ Copying :: l2))
| m_leave w l1 l2 : loops w = l1 ++ Waiting :: l2 → cancelled w || stopCh (checker w) = true →
    mstep w (ALoop, None) (withLoops w (checker w) (l1 ++ Returning :: l2))
| m_reset w l1 l2 : loops w = l1 ++ Returning :: l2 →
    mstep w (ALoop, None) (withLoops w (resetRunning (checker w)) (l1 ++ Closing :: l2))
| m_close w l1 l2 hc : loops w = l1 ++ Closing :: l2 → closeStopped (checker w) = Returned hc →
    mstep w (ALoop, None) (withLoops w hc (l1 ++ l2))
| m_stop w : running (checker w) = true →
    mstep w (AStop, None) (mkMonitor (checker w) (loops w) (S (stopping w)) (cancelled w) (changes w))
| m_stop_close w n hc : stopping w = S n → closeStop (checker w) = Returned hc →
    mstep w (AOther, None) (mkMonitor hc (loops w) n (cancelled w) (changes w))
| m_cancel w : mstep w (AOther, None) (mkMonitor (checker w) (loops w) (stopping w) true (changes w))
| m_outside w b probe now err hc calls : CheckHealth (checker w) b probe now = (err, hc, calls) →
    mstep w (AOther, Some (mkCall b probe now)) (mkMonitor hc (loops w) (stopping w) (cancelled w) (changes w ++ calls)).

(** A step that panics. *)
Inductive mpanics (w : monitor) : string → Prop :=
| p_close l1 l2 why : loops w = l1 ++ Closing :: l2 → closeStopped (checker w) = Panicked why → mpanics w why
| p_stop n why : stopping w = S n → closeStop (checker w) = Panicked why → mpanics w why.

Inductive mrun : monitor → list event → monitor → Prop :=
| r_nil w : mrun w [] w
| r_snoc w tr w' a w'' : mrun w tr w' → mstep w' a w'' → mrun w (tr ++ [a]) w''.

Lemma resetRunning_closeStopped hc : closeStopped (resetRunning hc) = monitoringLoopExit hc.
Proof. done. Qed.

Lemma closeStop_Stop hc : running hc = true → closeStop hc = Stop hc.
Proof. unfold Stop, closeStop. by intros ->. Qed.

(* ------------------------------------------------------------------ *)
(** ** A run is a history of checks *)

(** All that checks look at. *)
Definition sameChecks (hc hc' : Checker) : Prop :=
  config hc = config hc' ∧ backends hc = backends hc' ∧ backendStates hc = backendStates hc'.

#[local] Instance sameChecks_equiv : Equivalence sameChecks.
Proof.
  split; unfold sameChecks; [done|by intros a b (->&->&->)|by intros a b c (->&->&->)].
Qed.

Lemma record_sameChecks hc hc' url ok err now :
  sameChecks hc hc' →
  sameChecks (recordHealthCheck hc url ok err now).1 (recordHealthCheck hc' url ok err now).1 ∧
  (recordHealthCheck hc url ok err now).2 = (recordHealthCheck hc' url ok err now).2.
Proof.
  intros (Hc&Hb&Hs). unfold recordHealthCheck, sameChecks. rewrite Hs. destruct (backendStates hc' !! url); [|done].
  cbv zeta. cbn [backends config]. rewrite Hb, Hc. by repeat case_match.
Qed.

Lemma StartMonitoring_sameChecks hc hc' err b : StartMonitoring hc = (err, b, hc') → sameChecks hc' hc.
Proof. unfold StartMonitoring. repeat case_match; intros [= _ _ <-]; done. Qed.

Lemma closeStopped_sameChecks hc hc' : closeStopped hc = Returned hc' → sameChecks hc' hc.
Proof. unfold closeStopped. case_match; by intros [= <-]. Qed.

Lemma closeStop_sameChecks hc hc' : closeStop hc = Returned hc' → sameChecks hc' hc.
Proof. unfold closeStop. case_match; by intros [= <-]. Qed.

(** The result a call of CheckHealth has to record: none in maintenance,
    otherwise success exactly when the health URL answered with 2xx. *)
Definition checkOf (endpoint : string) (e : event) : option check :=
  match e.2 with
  | Some (mkCall b probe now) =>
      if decide (State b = BackendMaintenance) then None
      else let r := probe (URL b +:+ endpoint) in Some (mkCheck (URL b) (probeOk r) (probeErr r) now)
  | None => None
  end.

Definition checksOf (endpoint : string) (tr : list event) : list check := omap (checkOf endpoint) tr.

(** The checker is where the checks of a run lead, and so are the backends
    that its calls of the callback were replayed on. *)
Definition follows (cfg : CheckerConfig) (bs : list Backend) (now : Z) (w : monitor) (tr : list event) : Prop :=
  sameChecks (checker w) (run (NewChecker cfg bs now) (checksOf (HealthEndpoint (config (checker w))) tr)) ∧
  foldl applyChange bs (changes w) = backends (checker w).

Lemma checksOf_snoc ep tr e : checksOf ep (tr ++ [e]) = checksOf ep tr ++ option_list (checkOf ep e).
Proof. unfold checksOf. rewrite omap_app. simpl. by destruct (checkOf ep e). Qed.

Lemma checksOf_length ep tr : (length (checksOf ep tr) ≤ length tr)%nat.
Proof.
  induction tr as [|e tr IH] using rev_ind; [done|]. rewrite checksOf_snoc, !length_app. destruct (checkOf ep e); simpl; lia.
Qed.

Lemma follows_same cfg bs now w w' tr a :
  follows cfg bs now w tr → sameChecks (checker w') (checker w) → changes w' = changes w →
  follows cfg bs now w' (tr ++ [(a, None)]).
Proof.
  intros [H1 H2] Hs Hc. unfold follows. rewrite checksOf_snoc, app_nil_r. destruct (id Hs) as (->&Hb&_).
  split; [by transitivity (checker w)|]. by rewrite Hc, H2.
Qed.

Lemma follows_check cfg bs now0 w w' tr a b probe now err hc calls :
  follows cfg bs now0 w tr → CheckHealth (checker w) b probe now = (err, hc, calls) →
  checker w' = hc → changes w' = changes w ++ calls →
  follows cfg bs now0 w' (tr ++ [(a, Some (mkCall b probe now))]).
Proof.
  intros [Hs Hf] E. pose proof (check_calls_mirror (checker w) b probe now) as Hm. rewrite E in Hm. intros Hc Hw.
  unfold follows. rewrite checksOf_snoc, Hw, foldl_app, Hf, Hm, Hc. split; [|done]. unfold checkOf. simpl. case_decide as Hb.
  - unfold CheckHealth in E. rewrite bool_decide_true in E by done. injection E as _ <- _. by rewrite app_nil_r.
  - destruct (CheckHealth_record (checker w) b probe now Hb) as [H1 _]. rewrite E in H1. cbn [fst snd] in H1.
    rewrite H1, record_config. simpl. rewrite run_snoc. by apply record_sameChecks.
Qed.

Lemma run_follows cfg bs now tr w :
  mrun (newMonitor cfg bs now) tr w → follows cfg bs now w tr.
Proof.
  remember (newMonitor cfg bs now) as w0 eqn:E. induction 1 as [|? tr w' a w'' _ IH Hst]; subst; [done|].
  specialize (IH eq_refl). destruct Hst;
    try (eapply follows_same; [exact IH| |done]; simpl;
      first [done | by eapply StartMonitoring_sameChecks | by eapply closeStopped_sameChecks | by eapply closeStop_sameChecks]).
  all: by eapply follows_check.
Qed.

(** C8: In every run of the checker, with any number of monitoring loops, the goroutines
    of their rounds in any order, other callers of CheckHealth, Start, Stop and
    cancellation in between: the state-change callbacks, replayed on the initial backends,
    give the checker's backends, and each backend's counters and state follow, by the
    thresholds, the streaks of the answers its health URL gave to the checks of this very
    run: a success exactly for a 2xx, and every check of a backend that was not in
    maintenance counted once. *)
Theorem monitor_follows_streaks cfg bs now tr w :
  mrun (newMonitor cfg bs now) tr w → (Z.of_nat (length tr) ≤ max_int64)%Z →
  foldl applyChange bs (changes w) = backends (checker w) ∧
  ∀ url b, findBackend url bs = Some b →
    let answers := results url (checksOf (HealthEndpoint (config (checker w))) tr) in
    ∃ st b', tracked (checker w) url st b' ∧ counters_of st answers ∧
      history_state (config (checker w)) (State b) answers (State b').
Proof.
  intros [(Hc&Hb&Hs) Hm]%run_follows Hmax. split; [done|]. intros url b Hu. set (ep := HealthEndpoint _) in *.
  pose proof (checksOf_length ep tr). destruct (run_tracked cfg bs now (checksOf ep tr) url b Hu) as (st&b'&[H1 H2]&Hco&Hh); [lia|].
  exists st, b'. unfold tracked. rewrite Hs, Hb. split; [done|]. split; [done|].
  by rewrite Hc, run_config.
Qed.

(** A balancer that is told of every change has the checker's backends, in
    every run. *)
Lemma balancer_mirrors_monitor {LB} `{HLB : LoadBalancer LB, !LoadBalancerSpec LB} (lb : LB) cfg bs now tr w :
  lb_wf lb → lb_backends lb = bs → mrun (newMonitor cfg bs now) tr w →
  lb_backends (foldl (λ s c, lb_UpdateBackendState s c.1.1 c.2) lb (changes w)) = backends (checker w).
Proof.
  intros Hwf Hb [_ <-]%run_follows. subst bs. revert lb Hwf. induction (changes w) as [|[[url old] new] l IH]; intros lb Hwf; [done|].
  destruct (lb_update_view lb url new Hwf) as (Hwf'&Hv&_). simpl. rewrite (IH _ Hwf'), Hv. done.
Qed.

(* ------------------------------------------------------------------ *)
(** ** One start and one stop *)

Definition countOf (a : actor) (tr : list event) : nat := length (filter (λ e : event, e.1 = a) tr).

Lemma countOf_snoc a tr x : countOf a (tr ++ [x]) = (countOf a tr + if decide (x.1 = a) then 1 else 0)%nat.
Proof. unfold countOf. rewrite filter_app, length_app, filter_cons. by case_decide. Qed.

Definition asNat (b : bool) : nat := if b then 1 else 0.

Lemma CheckHealth_life hc b probe now err hc' calls :
  CheckHealth hc b probe now = (err, hc', calls) →
  stopCh hc' = stopCh hc ∧ stoppedCh hc' = stoppedCh hc ∧ running hc' = running hc ∧
  length (backends hc') = length (backends hc).
Proof.
  intros E. unfold CheckHealth in E. case_bool_decide; [by simplify_eq|]. cbv zeta in E.
  assert (∀ ok err now, let hc1 := (recordHealthCheck hc (URL b) ok err now).1 in
    stopCh hc1 = stopCh hc ∧ stoppedCh hc1 = stoppedCh hc ∧ running hc1 = running hc ∧
    length (backends hc1) = length (backends hc)) as Hr.
  { intros ok e t. unfold recordHealthCheck. repeat case_match; simpl; rewrite ?setFirstState_length; done. }
  destruct (probe _) as [e|e|code]; [| |destruct (negb _)];
    match type of E with context [recordHealthCheck hc ?u ?o ?e ?t] =>
      specialize (Hr o e t); destruct (recordHealthCheck hc u o e t); simpl in Hr; by simplify_eq end.
Qed.

(** Each start makes one loop, which closes stoppedCh once; each Stop that
    went on closes stopCh once. *)
Lemma channels_are_counted cfg bs now tr w :
  mrun (newMonitor cfg bs now) tr w →
  (length (loops w) + asNat (stoppedCh (checker w)) ≤ countOf AStart tr ∧
   stopping w + asNat (stopCh (checker w)) ≤ countOf AStop tr)%nat.
Proof.
  remember (newMonitor cfg bs now) as w0 eqn:E. induction 1 as [|? tr w' a w'' _ IH Hst]; subst; [by simpl; lia|].
  specialize (IH eq_refl). rewrite !countOf_snoc. destruct Hst; simpl;
    try match goal with H : CheckHealth _ _ _ _ = _ |- _ => apply CheckHealth_life in H as (->&->&_) end;
    try match goal with H : loops _ = _ |- _ => rewrite H in IH; rewrite length_app in * end; simpl in *; try lia.
  - unfold StartMonitoring in *. repeat case_match; simplify_eq/=. lia.
  - unfold closeStopped in *. case_match; simplify_eq/=. lia.
  - unfold closeStop in *. case_match; simplify_eq/=. lia.
Qed.

(** Started once and stopped once at most, the checker never closes a channel
    twice. *)
Theorem one_start_and_stop_never_panic cfg bs now tr w why :
  mrun (newMonitor cfg bs now) tr w → (countOf AStart tr ≤ 1)%nat → (countOf AStop tr ≤ 1)%nat →
  ¬ mpanics w why.
Proof.
  intros [H1 H2]%channels_are_counted Hs Hp Hw. destruct Hw as [l1 l2 why Hl Hc|n why Hn Hc].
  - rewrite Hl, length_app in H1. simpl in H1. unfold closeStopped in Hc. destruct (stoppedCh (checker w)); [simpl in H1; lia|done].
  - rewrite Hn in H2. unfold closeStop in Hc. destruct (stopCh (checker w)); [simpl in H2; lia|done].
Qed.

(* ------------------------------------------------------------------ *)
(** ** A stopped monitor ends *)












(* ------------------------------------------------------------------ *)
(** ** Rounds *)

Lemma mrun_cons w a w' tr w'' : mstep w a w' → mrun w' tr w'' → mrun w (a :: tr) w''.
Proof.
  intros Hst. induction 1 as [|? tr w1 b w2 _ IH Hb]; [exact (r_snoc _ [] _ _ _ (r_nil w) Hst)|].
  rewrite app_comm_cons. eapply r_snoc; [by apply IH|exact Hb].
Qed.

(** The events of a round under a schedule. *)
Definition eventsOf (schedule : list (Backend * Z)) (probe : string → probeResult) : list event :=
  map (λ s, (ALoop, Some (mkCall s.1 probe s.2))) schedule.

Lemma checks_run schedule pending hc probe stop cancel ch hc' calls :
  schedule.*1 ≡ₚ pending → runChecks hc schedule probe = (hc', calls) →
  mrun (mkMonitor hc [Checking pending] stop cancel ch) (eventsOf schedule probe)
    (mkMonitor hc' [Checking []] stop cancel (ch ++ calls)).
Proof.
  revert pending hc ch hc' calls. induction schedule as [|[b now] schedule IH]; intros pending hc ch hc' calls Hp E.
  - apply Permutation_nil in Hp as ->. injection E as <- <-. rewrite app_nil_r. constructor.
  - simpl in E, Hp. destruct (CheckHealth hc b probe now) as [[err hc1] calls1] eqn:E1.
    destruct (runChecks hc1 schedule probe) as [hc2 calls2] eqn:E2. injection E as <- <-.
    assert (b ∈ pending) as (p1&p2&->)%list_elem_of_split by (rewrite <- Hp; by left).
    apply Permutation_cons_app_inv in Hp. simpl. eapply mrun_cons.
    + by apply (m_check (mkMonitor hc [Checking (p1 ++ b :: p2)] stop cancel ch) [] [] p1 b p2 probe now err hc1 calls1).
    + cbn [changes stopping cancelled app]. rewrite app_assoc. by apply IH.
Qed.

(** A round as [performHealthChecks] describes it is a run of one loop,
    whatever the schedule of its goroutines. *)
Lemma round_runs hc probe schedule hc' calls stop cancel ch :
  performHealthChecks hc probe schedule (hc', calls) →
  mrun (mkMonitor hc [Copying] stop cancel ch) ((ALoop, None) :: eventsOf schedule probe ++ [(ALoop, None)])
    (mkMonitor hc' [Waiting] stop cancel (ch ++ calls)).
Proof.
  intros (Hp&E). eapply mrun_cons; [by apply (m_copy (mkMonitor hc [Copying] stop cancel ch) [] [])|].
  eapply r_snoc; [by apply (checks_run schedule _ hc probe stop cancel ch hc' calls)|].
  by apply (m_wait (mkMonitor hc' [Checking []] stop cancel (ch ++ calls)) [] []).
Qed.

(* ------------------------------------------------------------------ *)
(** ** A run *)

Definition quickConfig : CheckerConfig := mkCheckerConfig 30 10 1 1 "/health".
Definition downProbe (url : string) : probeResult := Response (if String.eqb url "http://a/health" then 503 else 200).

Definition backendA : Backend := mkBackend "http://a" 1 BackendHealthy.
Definition backendB : Backend := mkBackend "http://b" 1 BackendUnhealthy.

(** One goes down and the other comes up; then Stop. *)
Definition sampleTrace : list event :=
  [(AStart, None); (ALoop, None); (ALoop, Some (mkCall backendB downProbe 1)); (ALoop, Some (mkCall backendA downProbe 2));
   (ALoop, None); (AStop, None); (AOther, None)].

Definition startedChecker : Checker := withLife (NewChecker quickConfig sampleBackends 0) false false true.
Definition checkedB : Checker := (CheckHealth startedChecker backendB downProbe 1).1.2.
Definition checkedA : Checker := (CheckHealth checkedB backendA downProbe 2).1.2.
Definition stateChanges : list stateChange :=
  [("http://b", BackendUnhealthy, BackendHealthy); ("http://a", BackendHealthy, BackendUnhealthy)].
Definition stoppedMonitor : monitor := mkMonitor (withLife checkedA true false true) [Waiting] 0 false stateChanges.

Lemma sample_run : mrun (newMonitor quickConfig sampleBackends 0) sampleTrace stoppedMonitor.
Proof.
  apply (mrun_cons _ _ (mkMonitor startedChecker [Copying] 0 false [])); [by apply m_start|].
  apply (mrun_cons _ _ (mkMonitor startedChecker [Checking [backendA; backendB]] 0 false [])); [by apply (m_copy (mkMonitor startedChecker [Copying] 0 false []) [] [])|].
  apply (mrun_cons _ _ (mkMonitor checkedB [Checking [backendA]] 0 false (take 1 stateChanges))).
  { eapply (m_check (mkMonitor startedChecker [Checking [backendA; backendB]] 0 false []) [] [] [backendA] backendB [] downProbe 1 None);
      vm_compute; reflexivity. }
  apply (mrun_cons _ _ (mkMonitor checkedA [Checking []] 0 false stateChanges)).
  { eapply (m_check (mkMonitor checkedB [Checking [backendA]] 0 false (take 1 stateChanges)) [] [] [] backendA [] downProbe 2 _ _ (drop 1 stateChanges));
      vm_compute; reflexivity. }
  apply (mrun_cons _ _ (mkMonitor checkedA [Waiting] 0 false stateChanges)); [by apply (m_wait (mkMonitor checkedA [Checking []] 0 false stateChanges) [] [])|].
  assert (checkedA = withLife checkedA false false true) as Hl by (vm_compute; reflexivity).
  apply (mrun_cons _ _ (mkMonitor checkedA [Waiting] 1 false stateChanges)); [apply (m_stop (mkMonitor checkedA [Waiting] 0 false stateChanges)); by rewrite Hl|].
  eapply mrun_cons; [|constructor]. apply (m_stop_close (mkMonitor checkedA [Waiting] 1 false stateChanges) 0); [done|]. by rewrite Hl.
Qed.

Lemma monitor_follows_streaks_witness :
  foldl applyChange sampleBackends (changes stoppedMonitor) = backends (checker stoppedMonitor) ∧
  results "http://a" (checksOf "/health" sampleTrace) = [false] ∧
  ∃ st b', tracked (checker stoppedMonitor) "http://a" st b' ∧ State b' = BackendUnhealthy ∧ totalFailures st = 1%Z.
Proof.
  destruct (monitor_follows_streaks quickConfig sampleBackends 0 sampleTrace stoppedMonitor sample_run) as (Hm&H);
    [vm_compute; discriminate|].
  split; [exact Hm|]. split; [vm_compute; reflexivity|]. destruct (H "http://a" backendA eq_refl) as (st&b'&Ht&Hc&_).
  exists st, b'. split; [exact Ht|]. split.
  - destruct Ht as [_ Hf]. rewrite <- Hm in Hf. vm_compute in Hf. by injection Hf as <-.
  - destruct Hc as (_&_&_&->). vm_compute. reflexivity.
Defined.

Lemma one_start_and_stop_never_panic_witness :
  stopCh (checker stoppedMonitor) = true ∧ ¬ mpanics stoppedMonitor "close of closed channel".
Proof.
  split; [reflexivity|].
  apply (one_start_and_stop_never_panic quickConfig sampleBackends 0 sampleTrace stoppedMonitor _ sample_run); vm_compute; lia.
Defined.

