(* ===== verification/Queue.v ===== *)
(** * Queue: internal/services/queue/memory_queue.go

    The queue is a buffered channel with a closed flag and three counters.
    [Enqueue] and [Dequeue] are first given as a goroutine runs them when no
    other one interferes; then as the separate atomic steps they consist of
    (the check of the closed flag, the channel operation, the counter), so
    that concurrent callers and [Close] can come in between. *)

From S2P Require Import Prelude Float64 Errors Domain.

Section MemoryQueue.
Context {Req : Type}.

(* ---------------------------------------------------------------- *)
(** ** State and operations *)

(** [closed] is written together with the close of the channel under
    closeMu, so it tells about the channel as well. *)
Record MemoryQueue := mkQueue {
  queue : list Req;
  maxSize : Z;
  timeout : Z;
  closed : bool;
  enqueuedCount : Z;
  dequeuedCount : Z;
  droppedCount : Z
}.

(** make(chan, n) panics on a negative size. *)
Definition NewMemoryQueue (maxSize timeout : Z) : outcome MemoryQueue :=
  if (maxSize <? 0)%Z then Panicked "makechan: size out of range"
  else Returned (mkQueue [] maxSize timeout false 0 0 0).

Definition withQueue (mq : MemoryQueue) (q : list Req) : MemoryQueue :=
  mkQueue q (maxSize mq) (timeout mq) (closed mq)
    (enqueuedCount mq) (dequeuedCount mq) (droppedCount mq).

Definition countEnqueued (mq : MemoryQueue) : MemoryQueue :=
  mkQueue (queue mq) (maxSize mq) (timeout mq) (closed mq)
    (wrap64 (enqueuedCount mq + 1)) (dequeuedCount mq) (droppedCount mq).

Definition countDequeued (mq : MemoryQueue) : MemoryQueue :=
  mkQueue (queue mq) (maxSize mq) (timeout mq) (closed mq)
    (enqueuedCount mq) (wrap64 (dequeuedCount mq + 1)) (droppedCount mq).

Definition countDropped (mq : MemoryQueue) : MemoryQueue :=
  mkQueue (queue mq) (maxSize mq) (timeout mq) (closed mq)
    (enqueuedCount mq) (dequeuedCount mq) (wrap64 (droppedCount mq + 1)).

Definition hasRoom (mq : MemoryQueue) : bool := (Z.of_nat (length (queue mq)) <? maxSize mq)%Z.

(** [ctxErr] is the error of a context that is done. When the context is
    done and the channel is ready too, select picks either: [preferCtx]. *)
Definition Enqueue (mq : MemoryQueue) (ctxErr : option goError) (preferCtx : bool) (req : Req)
  : option goError * MemoryQueue :=
  if closed mq then (Some (EApp ErrQueueClosed), mq)
  else
    match ctxErr with
    | Some e =>
        if hasRoom mq && negb preferCtx
        then (None, countEnqueued (withQueue mq (queue mq ++ [req])))
        else (Some e, mq)
    | None =>
        if hasRoom mq
        then (None, countEnqueued (withQueue mq (queue mq ++ [req])))
        else (Some (EApp ErrQueueFull), countDropped mq)
    end.

(** What ends the inner, blocking select of Dequeue. *)
Inductive wakeUp :=
| WakeRequest (req : Req)   (* a request arrives and is received *)
| WakeContext (err : goError)
| WakeTimeout.

(** A request that arrives while Dequeue waits is received at once: the
    queue is empty before and after. *)
Definition Dequeue (mq : MemoryQueue) (ctxErr : option goError) (preferCtx : bool) (wake : wakeUp)
  : result Req * MemoryQueue :=
  if closed mq then (Err (EApp ErrQueueClosed), mq)
  else
    match queue mq, ctxErr with
    | req :: rest, None => (Ok req, countDequeued (withQueue mq rest))
    | req :: rest, Some e =>
        if preferCtx then (Err e, mq) else (Ok req, countDequeued (withQueue mq rest))
    | [], Some e => (Err e, mq)
    | [], None =>
        if (timeout mq <=? 0)%Z then (Err (EApp ErrQueueEmpty), mq)
        else
          match wake with
          | WakeRequest req => (Ok req, countDequeued mq)
          | WakeContext e => (Err e, mq)
          | WakeTimeout => (Err (EApp ErrQueueTimeout), mq)
          end
    end.

Definition Size (mq : MemoryQueue) : Z := Z.of_nat (length (queue mq)).

Definition Close (mq : MemoryQueue) : MemoryQueue :=
  if closed mq then mq
  else mkQueue (queue mq) (maxSize mq) (timeout mq) true
         (enqueuedCount mq) (dequeuedCount mq) (droppedCount mq).

Record Stats := mkQueueStats {
  st_Size : Z; st_MaxSize : Z; st_EnqueuedTotal : Z; st_DequeuedTotal : Z;
  st_DroppedTotal : Z; st_IsClosed : bool
}.

Definition getStats (mq : MemoryQueue) : Stats :=
  mkQueueStats (Size mq) (maxSize mq) (enqueuedCount mq) (dequeuedCount mq)
    (droppedCount mq) (closed mq).

Definition UtilizationPercent (qs : Stats) : float64 :=
  if (st_MaxSize qs =? 0)%Z then toFloat 0 else percentage (st_Size qs) (st_MaxSize qs).

Definition Stats_IsHealthy (qs : Stats) : bool :=
  if st_IsClosed qs then false else ltFloat (percentage (st_Size qs) (st_MaxSize qs)) (toFloat 90).

(* ---------------------------------------------------------------- *)
(** ** Concurrent callers

    A caller between two of its atomic steps. *)
Inductive caller :=
| Sending (req : Req)  (* Enqueue saw the queue open; the send comes next *)
| Sent                 (* the request is in the channel, not yet counted *)
| Rejected             (* the channel was full, not yet counted *)
| Receiving            (* Dequeue saw the queue open; the receive comes next *)
| Received (req : Req) (* a request was received, not yet counted *).

(** The queue, the callers under way, and the requests sent to and received
    from the channel so far, oldest first. *)
Record world := mkWorld {
  mq : MemoryQueue;
  callers : list caller;
  sent : list Req;
  received : list Req
}.

Inductive qstep : world → world → Prop :=
| q_enqueue w req :
    closed (mq w) = false →
    qstep w (mkWorld (mq w) (Sending req :: callers w) (sent w) (received w))
| q_send w c1 c2 req :
    callers w = c1 ++ Sending req :: c2 → closed (mq w) = false → hasRoom (mq w) = true →
    qstep w (mkWorld (withQueue (mq w) (queue (mq w) ++ [req])) (c1 ++ Sent :: c2)
               (sent w ++ [req]) (received w))
| q_full w c1 c2 req :
    callers w = c1 ++ Sending req :: c2 → closed (mq w) = false → hasRoom (mq w) = false →
    qstep w (mkWorld (mq w) (c1 ++ Rejected :: c2) (sent w) (received w))
| q_enqueue_cancelled w c1 c2 req :
    callers w = c1 ++ Sending req :: c2 →
    qstep w (mkWorld (mq w) (c1 ++ c2) (sent w) (received w))
| q_count_sent w c1 c2 :
    callers w = c1 ++ Sent :: c2 →
    qstep w (mkWorld (countEnqueued (mq w)) (c1 ++ c2) (sent w) (received w))
| q_count_rejected w c1 c2 :
    callers w = c1 ++ Rejected :: c2 →
    qstep w (mkWorld (countDropped (mq w)) (c1 ++ c2) (sent w) (received w))
| q_dequeue w :
    closed (mq w) = false →
    qstep w (mkWorld (mq w) (Receiving :: callers w) (sent w) (received w))
| q_receive w c1 c2 req rest :
    callers w = c1 ++ Receiving :: c2 → queue (mq w) = req :: rest →
    qstep w (mkWorld (withQueue (mq w) rest) (c1 ++ Received req :: c2)
               (sent w) (received w ++ [req]))
| q_dequeue_gives_up w c1 c2 :
    callers w = c1 ++ Receiving :: c2 →
    qstep w (mkWorld (mq w) (c1 ++ c2) (sent w) (received w))
| q_count_received w c1 c2 req :
    callers w = c1 ++ Received req :: c2 →
    qstep w (mkWorld (countDequeued (mq w)) (c1 ++ c2) (sent w) (received w))
| q_close w :
    qstep w (mkWorld (Close (mq w)) (callers w) (sent w) (received w)).

(** The steps that panic: a send on the closed channel, and the use of the
    nil request a receive from the closed and drained channel gives. *)
Inductive qpanic : world → string → Prop :=
| p_send_closed w c1 c2 req :
    callers w = c1 ++ Sending req :: c2 → closed (mq w) = true →
    qpanic w "send on closed channel"
| p_receive_nil w c1 c2 :
    callers w = c1 ++ Receiving :: c2 → closed (mq w) = true → queue (mq w) = [] →
    qpanic w "nil pointer dereference".

(* ---------------------------------------------------------------- *)
(** ** Invariants *)

Definition countWhere (p : caller → bool) (w : world) : nat :=
  length (filter (λ c, p c = true) (callers w)).

Definition isSent (c : caller) : bool := match c with Sent => true | _ => false end.
Definition isReceived (c : caller) : bool := match c with Received _ => true | _ => false end.

Definition queue_inv (w : world) : Prop :=
  (Z.of_nat (length (queue (mq w))) ≤ maxSize (mq w))%Z ∧
  sent w = received w ++ queue (mq w) ∧
  enqueuedCount (mq w) = wrap64 (Z.of_nat (length (sent w)) - Z.of_nat (countWhere isSent w)) ∧
  dequeuedCount (mq w) = wrap64 (Z.of_nat (length (received w)) - Z.of_nat (countWhere isReceived w)).

Lemma countWhere_split p m s r c1 c c2 :
  countWhere p (mkWorld m (c1 ++ c :: c2) s r) =
  (countWhere p (mkWorld m (c1 ++ c2) s r) + if p c then 1 else 0)%nat.
Proof.
  unfold countWhere. simpl. rewrite !filter_app, filter_cons, !length_app.
  destruct (p c); simpl; lia.
Qed.

Lemma countWhere_callers p w m s r cs : callers w = cs → countWhere p w = countWhere p (mkWorld m cs s r).
Proof. intros <-. done. Qed.

(** Counts one caller out of the pool in the two counter equations. *)
Ltac split_counts_with Hsplit Henq Hdeq :=
  match goal with
  | E : callers ?w = _ ++ _ :: _ |- _ =>
      rewrite (Hsplit isSent (mq w) (sent w) (received w) _ _ _ E) in Henq;
      rewrite (Hsplit isReceived (mq w) (sent w) (received w) _ _ _ E) in Hdeq;
      simpl in *; rewrite ?Nat.add_0_r in *
  end.

Lemma queue_inv_step w w' : queue_inv w → qstep w w' → queue_inv w'.
Proof.
  intros (Hcap&Hfifo&Henq&Hdeq) Hs.
  assert (Hsplit : ∀ p m s r c1 c c2, callers w = c1 ++ c :: c2 →
    countWhere p w = (countWhere p (mkWorld m (c1 ++ c2) s r) + if p c then 1 else 0)%nat).
  { intros p m s r c1 c c2 E. rewrite (countWhere_callers p w m s r _ E). apply countWhere_split. }
  assert (Hcons : ∀ p m s r c, p c = false →
    countWhere p (mkWorld m (c :: callers w) s r) = countWhere p w).
  { intros p m s r c E. unfold countWhere. simpl. rewrite filter_cons, E. by case_decide. }
  destruct Hs as [w req Hc|w c1 c2 req E Hc Hr|w c1 c2 req E Hc Hr|w c1 c2 req E|w c1 c2 E|w c1 c2 E
    |w Hc|w c1 c2 req rest E Hq|w c1 c2 E|w c1 c2 req E|w]; unfold queue_inv; simpl.
  - rewrite !Hcons by done. auto.
  - apply Z.ltb_lt in Hr. rewrite !countWhere_split.
    split_counts_with Hsplit Henq Hdeq.
    rewrite !length_app. simpl. split; [lia|]. split; [by rewrite Hfifo, app_assoc|].
    split; [rewrite Henq; f_equal; unfold countWhere; simpl; lia|done].
  - rewrite !countWhere_split.
    split_counts_with Hsplit Henq Hdeq. done.
  - split_counts_with Hsplit Henq Hdeq. done.
  - split_counts_with Hsplit Henq Hdeq. do 2 (split; [done|]). split; [|done].
    rewrite Henq, wrap64_succ. f_equal. unfold countWhere. simpl. lia.
  - split_counts_with Hsplit Henq Hdeq. done.
  - rewrite !Hcons by done. auto.
  - rewrite !countWhere_split.
    split_counts_with Hsplit Henq Hdeq.
    rewrite Hq in *. simpl in *. rewrite !length_app. simpl. split; [lia|].
    split; [by rewrite <- app_assoc|]. split; [done|].
    rewrite Hdeq. f_equal. unfold countWhere. simpl. lia.
  - split_counts_with Hsplit Henq Hdeq. done.
  - split_counts_with Hsplit Henq Hdeq. do 3 (split; [done|]).
    rewrite Hdeq, wrap64_succ. f_equal. unfold countWhere. simpl. lia.
  - unfold Close. by destruct (closed (mq w)).
Qed.

Definition emptyWorld (mq : MemoryQueue) : world := mkWorld mq [] [] [].

Lemma queue_inv_reachable size tmo m w :
  NewMemoryQueue size tmo = Returned m → rtc qstep (emptyWorld m) w →
  queue_inv w ∧ maxSize (mq w) = size.
Proof.
  unfold NewMemoryQueue. destruct (Z.ltb_spec size 0); [done|]. intros [= <-] Hr.
  assert (∀ w w', qstep w w' → maxSize (mq w') = maxSize (mq w)) as Hsize.
  { intros v v' []; try done. simpl. unfold Close. by destruct (closed (mq w0)). }
  remember (emptyWorld _) as w0 eqn:E0.
  assert (queue_inv w0 ∧ maxSize (mq w0) = size) as H0 by (subst w0; by repeat split).
  clear E0. induction Hr as [|w0 w1 w2 Hs Hr IH]; [done|].
  apply IH. destruct H0 as [H0 <-]. split; [by eapply queue_inv_step|by apply Hsize].
Qed.

(* ---------------------------------------------------------------- *)
(** ** A call without interference is a run of its steps *)

Definition sentBy (r : option goError) (req : Req) : list Req :=
  match r with None => [req] | Some _ => [] end.

Lemma Enqueue_run m ctxErr pref req cs s r res m' :
  Enqueue m ctxErr pref req = (res, m') →
  rtc qstep (mkWorld m cs s r) (mkWorld m' cs (s ++ sentBy res req) r).
Proof.
  unfold Enqueue. intros H. destruct (closed m) eqn:Hc.
  { simplify_eq. simpl. rewrite app_nil_r. apply rtc_refl. }
  assert (Hstart : qstep (mkWorld m cs s r) (mkWorld m (Sending req :: cs) s r))
    by by apply (q_enqueue (mkWorld m cs s r)).
  assert (Hgo : hasRoom m = true →
    rtc qstep (mkWorld m (Sending req :: cs) s r)
      (mkWorld (countEnqueued (withQueue m (queue m ++ [req]))) cs (s ++ [req]) r)).
  { intros Hroom. eapply rtc_l.
    - by apply (q_send (mkWorld m (Sending req :: cs) s r) [] cs req).
    - eapply rtc_once. by apply (q_count_sent (mkWorld (withQueue m (queue m ++ [req])) (Sent :: cs) (s ++ [req]) r) [] cs). }
  destruct ctxErr as [e|]; [destruct pref|]; destruct (hasRoom m) eqn:Hroom; simpl in H; simplify_eq; simpl;
    rewrite ?app_nil_r; (eapply rtc_l; [exact Hstart|]); auto;
    try (apply rtc_once; by apply (q_enqueue_cancelled (mkWorld _ (Sending req :: cs) s r) [] cs req)).
  eapply rtc_l; [by apply (q_full (mkWorld m (Sending req :: cs) s r) [] cs req)|].
  apply rtc_once. by apply (q_count_rejected (mkWorld m (Rejected :: cs) s r) [] cs).
Qed.

Definition receivedBy (r : result Req) : list Req := match r with Ok req => [req] | Err _ => [] end.

(** While Dequeue waits the request it gets is sent by another caller,
    which is left with its counter to update. *)
Definition wokenBy (m : MemoryQueue) (ctxErr : option goError) (wake : wakeUp) : option Req :=
  if closed m then None
  else
    match queue m, ctxErr, wake with
    | [], None, WakeRequest req => if (timeout m <=? 0)%Z then None else Some req
    | _, _, _ => None
    end.

Lemma Dequeue_run m ctxErr pref wake cs s r res m' :
  (0 < maxSize m)%Z →
  Dequeue m ctxErr pref wake = (res, m') →
  rtc qstep
    (mkWorld m (match wokenBy m ctxErr wake with Some q => Sending q :: cs | None => cs end) s r)
    (mkWorld m' (match wokenBy m ctxErr wake with Some _ => Sent :: cs | None => cs end)
       (s ++ match wokenBy m ctxErr wake with Some q => [q] | None => [] end)
       (r ++ receivedBy res)).
Proof.
  unfold Dequeue, wokenBy. intros Hmax H. destruct (closed m) eqn:Hc.
  { simplify_eq. simpl. rewrite !app_nil_r. apply rtc_refl. }
  assert (Hstart : ∀ cs, qstep (mkWorld m cs s r) (mkWorld m (Receiving :: cs) s r))
    by (intros cs'; by apply (q_dequeue (mkWorld m cs' s r))).
  assert (Hgive : rtc qstep (mkWorld m cs s r) (mkWorld m cs s r)) by apply rtc_refl.
  assert (Hgot : ∀ q rest, queue m = q :: rest →
    rtc qstep (mkWorld m cs s r) (mkWorld (countDequeued (withQueue m rest)) cs s (r ++ [q]))).
  { intros q rest Hq. eapply rtc_l; [apply Hstart|].
    eapply rtc_l; [by apply (q_receive (mkWorld m (Receiving :: cs) s r) [] cs q rest)|].
    apply rtc_once.
    by apply (q_count_received (mkWorld (withQueue m rest) (Received q :: cs) s (r ++ [q])) [] cs q). }
  destruct (queue m) as [|q rest] eqn:Hq.
  - destruct ctxErr as [e|]; [by simplify_eq/=; rewrite !app_nil_r|].
    destruct (timeout m <=? 0)%Z; [by destruct wake; simplify_eq/=; rewrite !app_nil_r|].
    destruct wake as [q|e|]; simplify_eq/=; rewrite ?app_nil_r; try done.
    eapply rtc_l; [apply Hstart|].
    eapply rtc_l; [apply (q_send (mkWorld m (Receiving :: Sending q :: cs) s r) [Receiving] cs q)|];
      [done|done|unfold hasRoom; simpl; rewrite Hq; by apply Z.ltb_lt|].
    simpl. rewrite Hq. simpl.
    eapply rtc_l; [by apply (q_receive (mkWorld (withQueue m [q]) (Receiving :: Sent :: cs) (s ++ [q]) r) [] (Sent :: cs) q [])|].
    eapply rtc_l; [by apply (q_count_received (mkWorld _ (Received q :: Sent :: cs) (s ++ [q]) (r ++ [q])) [] (Sent :: cs) q)|].
    simpl. assert (withQueue (withQueue m [q]) [] = m) as -> by (destruct m; simpl in *; by subst).
    apply rtc_refl.
  - assert (match ctxErr, wake with
            | None, WakeRequest _ | _, _ => (None : option Req) end = None) as Hn
      by by destruct ctxErr, wake.
    destruct ctxErr as [e|]; [destruct pref|]; simplify_eq/=; rewrite ?app_nil_r; auto.
Qed.

(** ** Statistics *)

(** A queue of the default size is healthy while it is open and less than
    nine tenths full. *)
Lemma default_queue_IsHealthy (mq : MemoryQueue) :
  maxSize mq = 1000%Z → (Size mq ≤ 1000)%Z →
  Stats_IsHealthy (getStats mq) = negb (closed mq) && (Size mq <? 900)%Z.
Proof.
  intros Hm Hs. unfold Stats_IsHealthy, getStats. cbn [st_IsClosed st_Size st_MaxSize]. rewrite Hm. destruct (closed mq); [done|].
  rewrite (comparesExactly_spec 90 1000 (Size mq)); [|vm_compute; reflexivity|split; [unfold Size; lia|done]].
  cbn [negb andb]. destruct (Z.ltb_spec (Size mq) 900), (Z.ltb_spec (100 * Size mq) (90 * 1000)); lia || done.
Qed.
End MemoryQueue.
Arguments MemoryQueue : clear implicits.
Arguments wakeUp : clear implicits.
Arguments world : clear implicits.
Arguments caller : clear implicits.

(** C11: Under any interleaving of the atomic steps of concurrent Enqueue, Dequeue and
    Close calls the queue is first-in first-out without loss or duplication and never
    longer than its capacity; with no call under way the counters are the numbers of
    requests sent and received. *)
Theorem queue_fifo_bounded {Req} size tmo (m : MemoryQueue Req) w :
  NewMemoryQueue size tmo = Returned m → rtc qstep (emptyWorld m) w →
  sent w = received w ++ queue (mq w) ∧
  (Size (mq w) ≤ size)%Z ∧
  (callers w = [] → (Z.of_nat (length (sent w)) ≤ max_int64)%Z →
    enqueuedCount (mq w) = Z.of_nat (length (sent w)) ∧
    dequeuedCount (mq w) = Z.of_nat (length (received w)) ∧
    Size (mq w) = (enqueuedCount (mq w) - dequeuedCount (mq w))%Z).
Proof.
  intros Hn Hr. destruct (queue_inv_reachable size tmo m w Hn Hr) as [(Hcap&Hfifo&Henq&Hdeq) <-].
  split; [done|]. split; [done|]. intros Hq Hmax.
  assert (length (sent w) = length (received w) + length (queue (mq w)))%nat as Hlen
    by (rewrite Hfifo; apply length_app).
  unfold countWhere in Henq, Hdeq. rewrite Hq in Henq, Hdeq. simpl in Henq, Hdeq.
  rewrite wrap64_id in Henq by (unfold max_int64 in *; lia).
  rewrite wrap64_id in Hdeq by (unfold max_int64 in *; lia).
  unfold Size. lia.
Qed.

Lemma queue_fifo_bounded_witness :
  let m := mkQueue [] 2 0 false 0 0 0 in
  let m1 := (Enqueue m None false "a").2 in
  let m2 := (Enqueue m1 None false "b").2 in
  let m3 := (Dequeue m2 None false WakeTimeout).2 in
  (Dequeue m2 None false WakeTimeout).1 = Ok "a" ∧ queue m3 = ["b"] ∧
  Size m3 = (enqueuedCount m3 - dequeuedCount m3)%Z.
Proof.
  intros m m1 m2 m3. split; [reflexivity|]. split; [reflexivity|].
  apply (queue_fifo_bounded 2 0 m (mkWorld m3 [] ["a"; "b"] ["a"])); [reflexivity| |reflexivity|vm_compute; discriminate].
  etrans; [apply (Enqueue_run m None false "a" [] [] [] None m1); reflexivity|].
  etrans; [apply (Enqueue_run m1 None false "b" [] ["a"] [] None m2); reflexivity|].
  apply (Dequeue_run m2 None false WakeTimeout [] ["a"; "b"] [] (Ok "a") m3); reflexivity.
Defined.

(** An Enqueue or a non-blocking Dequeue call, as a function on the queue, is a run of its
    atomic steps, with the request sent or received exactly when the call says so. *)
Theorem queue_calls_are_runs {Req} (m : MemoryQueue Req) ctxErr pref (req : Req) wake cs s r :
  (0 < maxSize m)%Z →
  (let '(res, m') := Enqueue m ctxErr pref req in
   rtc qstep (mkWorld m cs s r) (mkWorld m' cs (s ++ sentBy res req) r)) ∧
  (wokenBy m ctxErr wake = None →
   let '(res, m') := Dequeue m ctxErr pref wake in
   rtc qstep (mkWorld m cs s r) (mkWorld m' cs s (r ++ receivedBy res))).
Proof.
  intros Hmax. split.
  - destruct (Enqueue m ctxErr pref req) eqn:E. by eapply Enqueue_run.
  - intros Hw. destruct (Dequeue m ctxErr pref wake) as [res m'] eqn:E.
    pose proof (Dequeue_run m ctxErr pref wake cs s r res m' Hmax E) as Hr.
    rewrite Hw, app_nil_r in Hr. done.
Qed.

Lemma queue_calls_are_runs_witness :
  let m := mkQueue ["x"] 1 0 false 1 0 0 in
  (Enqueue m None false "y").1 = Some (EApp ErrQueueFull) ∧
  (Dequeue m None false WakeTimeout).1 = Ok "x" ∧
  rtc qstep (mkWorld m [] ["x"] []) (mkWorld (Enqueue m None false "y").2 [] ["x"] []) ∧
  rtc qstep (mkWorld m [] ["x"] []) (mkWorld (Dequeue m None false WakeTimeout).2 [] ["x"] ["x"]).
Proof.
  intros m. split; [reflexivity|]. split; [reflexivity|].
  destruct (queue_calls_are_runs m None false "y" WakeTimeout [] ["x"] []) as [H1 H2]; [reflexivity|].
  split; [exact H1|exact (H2 eq_refl)].
Defined.

(** Both panics of the queue are reachable, a send on the closed channel and a nil request
    from it, and both need a Close that comes in while a call is under way. *)
Theorem queue_close_races {Req} size tmo (m : MemoryQueue Req) (req : Req) :
  NewMemoryQueue size tmo = Returned m →
  (∃ w, rtc qstep (emptyWorld m) w ∧ qpanic w "send on closed channel") ∧
  (∃ w, rtc qstep (emptyWorld m) w ∧ qpanic w "nil pointer dereference") ∧
  (∀ w why, rtc qstep (emptyWorld m) w → qpanic w why → closed (mq w) = true ∧ callers w ≠ []).
Proof.
  unfold NewMemoryQueue. destruct (size <? 0)%Z; [done|]. intros [= <-].
  set (m := mkQueue [] size tmo false 0 0 0). split; [|split].
  - eexists. split; [|by apply (p_send_closed (mkWorld (Close m) [Sending req] [] []) [] [] req)].
    eapply rtc_l; [by apply (q_enqueue (emptyWorld m) req)|]. apply rtc_once.
    apply (q_close (mkWorld m [Sending req] [] [])).
  - eexists. split; [|by apply (p_receive_nil (mkWorld (Close m) [Receiving] [] []) [] [])].
    eapply rtc_l; [by apply (q_dequeue (emptyWorld m))|]. apply rtc_once.
    apply (q_close (mkWorld m [Receiving] [] [])).
  - intros w why _ [w' c1 c2 r E Hc|w' c1 c2 E Hc _]; (split; [done|]); rewrite E; by destruct c1.
Qed.

Lemma queue_close_races_witness :
  (∃ w, rtc qstep (emptyWorld (mkQueue (Req := nat) [] 4 0 false 0 0 0)) w ∧ qpanic w "send on closed channel") ∧
  (∃ w, rtc qstep (emptyWorld (mkQueue (Req := nat) [] 4 0 false 0 0 0)) w ∧
    qpanic w "nil pointer dereference").
Proof.
  destruct (queue_close_races 4 0 (mkQueue [] 4 0 false 0 0 0) 7) as (H1&H2&_); [reflexivity|].
  split; [exact H1|exact H2].
Defined.
