(* ===== verification/Http.v ===== *)
(** * Http: the parts of net/http, net/textproto and net/url the source uses

    Header maps with canonical keys, query-string parsing and encoding, and
    requests. These are the language's standard library, written out as far
    as the handlers rely on it; url.Parse and the transport are not (they are
    arguments where they are used). *)

From Stdlib Require Import Ascii.
From S2P Require Import Prelude.

(* ------------------------------------------------------------------ *)
(** ** Characters *)

Definition code (c : ascii) : N := N_of_ascii c.

Definition between (lo hi : N) (c : ascii) : bool := ((lo <=? code c) && (code c <=? hi))%N.

Definition isLower (c : ascii) : bool := between 97 122 c.
Definition isUpper (c : ascii) : bool := between 65 90 c.
Definition isDigit (c : ascii) : bool := between 48 57 c.

Definition toUpper (c : ascii) : ascii :=
  if isLower c then ascii_of_N (code c - 32) else c.
Definition toLower (c : ascii) : ascii :=
  if isUpper c then ascii_of_N (code c + 32) else c.

(** Characters of an RFC 7230 token. *)
Definition isToken (c : ascii) : bool :=
  isLower c || isUpper c || isDigit c
  || bool_decide (c ∈ String.list_ascii_of_string "!#$%&'*+-.^_`|~").

(* ------------------------------------------------------------------ *)
(** ** Headers *)

Fixpoint canonicalLoop (upper : bool) (s : string) : string :=
  match s with
  | EmptyString => EmptyString
  | String.String c s' =>
      let c' := if upper then toUpper c else toLower c in
      String.String c' (canonicalLoop (Ascii.eqb c' "-") s')
  end.

(** textproto.CanonicalMIMEHeaderKey: a key with a byte that is not a token
    character is returned as it is. *)
Definition canonicalHeaderKey (s : string) : string :=
  if forallb isToken (String.list_ascii_of_string s) then canonicalLoop true s else s.

Notation Header := (gmap string (list string)).

Definition Header_Get (h : Header) (key : string) : string :=
  match h !! canonicalHeaderKey key with
  | Some (v :: _) => v
  | _ => ""
  end.

Definition Header_Add (h : Header) (key value : string) : Header :=
  let k := canonicalHeaderKey key in <[k := default [] (h !! k) ++ [value]]> h.

Definition Header_Set (h : Header) (key value : string) : Header :=
  <[canonicalHeaderKey key := [value]]> h.

Lemma Header_Get_Set h key value : Header_Get (Header_Set h key value) key = value.
Proof. unfold Header_Get, Header_Set. by rewrite lookup_insert_eq. Qed.

Lemma Header_Get_Set_other h key key' value :
  canonicalHeaderKey key ≠ canonicalHeaderKey key' →
  Header_Get (Header_Set h key' value) key = Header_Get h key.
Proof. intros Hne. unfold Header_Get, Header_Set. by rewrite lookup_insert_ne by congruence. Qed.

(* ------------------------------------------------------------------ *)
(** ** Query escaping *)

Definition hexDigit (n : N) : ascii :=
  if (n <? 10)%N then ascii_of_N (48 + n) else ascii_of_N (55 + n).

Definition unhex (c : ascii) : option N :=
  if isDigit c then Some (code c - 48)%N
  else if between 97 102 c then Some (code c - 87)%N
  else if between 65 70 c then Some (code c - 55)%N
  else None.

Definition isUnreserved (c : ascii) : bool :=
  isLower c || isUpper c || isDigit c || bool_decide (c ∈ String.list_ascii_of_string "-_.~").

(** url.QueryEscape *)
Fixpoint QueryEscape (s : string) : string :=
  match s with
  | EmptyString => EmptyString
  | String.String c s' =>
      if isUnreserved c then String.String c (QueryEscape s')
      else if Ascii.eqb c " " then String.String "+" (QueryEscape s')
      else String.String "%" (String.String (hexDigit (code c / 16))
             (String.String (hexDigit (code c mod 16)) (QueryEscape s')))
  end.

(** url.QueryUnescape; [None] stands for its EscapeError. *)
Fixpoint QueryUnescape (s : string) : option string :=
  match s with
  | EmptyString => Some EmptyString
  | String.String c s' =>
      if Ascii.eqb c "%" then
        match s' with
        | String.String a (String.String b s'') =>
            match unhex a, unhex b, QueryUnescape s'' with
            | Some x, Some y, Some r => Some (String.String (ascii_of_N (16 * x + y)) r)
            | _, _, _ => None
            end
        | _ => None
        end
      else if Ascii.eqb c "+" then String.String " " <$> QueryUnescape s'
      else String.String c <$> QueryUnescape s'
  end.

(** A property of all 256 bytes is checked by evaluation. *)
Lemma all_bytes (P : ascii → bool) :
  forallb (λ n, P (ascii_of_nat n)) (seq 0 256) = true → ∀ c, P c = true.
Proof.
  intros H c. rewrite forallb_forall in H. rewrite <- (ascii_nat_embedding c).
  apply H, in_seq. pose proof (nat_ascii_bounded c). lia.
Qed.

Lemma unhex_hexDigit c :
  unhex (hexDigit (code c / 16)) = Some (code c / 16)%N ∧
  unhex (hexDigit (code c mod 16)) = Some (code c mod 16)%N ∧
  ascii_of_N (16 * (code c / 16) + code c mod 16) = c.
Proof.
  assert (bool_decide (unhex (hexDigit (code c / 16)) = Some (code c / 16)%N) &&
          bool_decide (unhex (hexDigit (code c mod 16)) = Some (code c mod 16)%N) &&
          Ascii.eqb (ascii_of_N (16 * (code c / 16) + code c mod 16)) c = true) as H.
  { revert c. apply all_bytes. vm_compute. reflexivity. }
  apply andb_true_iff in H as [[H1 H2]%andb_true_iff H3%Ascii.eqb_eq].
  by apply bool_decide_eq_true in H1, H2.
Qed.

Lemma unreserved_plain c : isUnreserved c = true → Ascii.eqb c "%" = false ∧ Ascii.eqb c "+" = false.
Proof.
  assert (implb (isUnreserved c) (negb (Ascii.eqb c "%") && negb (Ascii.eqb c "+")) = true) as H.
  { revert c. apply all_bytes. vm_compute. reflexivity. }
  intros Hu. rewrite Hu in H. simpl in H. by destruct (Ascii.eqb c "%"), (Ascii.eqb c "+").
Qed.

(** Escaping is undone by unescaping, whatever the bytes. *)
Lemma QueryUnescape_QueryEscape s : QueryUnescape (QueryEscape s) = Some s.
Proof.
  induction s as [|c s IH]; [done|]. cbn [QueryEscape].
  destruct (isUnreserved c) eqn:Hu.
  - destruct (unreserved_plain c Hu) as [H1 H2]. cbn [QueryUnescape]. by rewrite H1, H2, IH.
  - destruct (Ascii.eqb_spec c " ") as [->|].
    + cbn [QueryUnescape]. by rewrite IH.
    + destruct (unhex_hexDigit c) as (H1&H2&H3). cbn [QueryUnescape Ascii.eqb].
      change (Ascii.eqb "%" "%") with true. cbv iota. by rewrite H1, H2, IH, H3.
Qed.

(* ------------------------------------------------------------------ *)
(** ** url.Values *)

Notation Values := (gmap string (list string)).

Definition Values_Get (v : Values) (key : string) : string :=
  match v !! key with Some (x :: _) => x | _ => "" end.

Definition Values_Set (v : Values) (key value : string) : Values := <[key := [value]]> v.

(** strings.Cut at a one-byte separator: before and after. *)
Fixpoint cut (sep : ascii) (s : string) : string * string :=
  match s with
  | EmptyString => ("", "")
  | String.String c s' =>
      if Ascii.eqb c sep then ("", s')
      else let '(a, b) := cut sep s' in (String.String c a, b)
  end.

(** The pieces between separators. *)
Fixpoint split (sep : ascii) (s : string) : list string :=
  match s with
  | EmptyString => [""]
  | String.String c s' =>
      if Ascii.eqb c sep then "" :: split sep s'
      else match split sep s' with
           | p :: ps => String.String c p :: ps
           | [] => [String.String c ""]
           end
  end.

Definition hasChar (c : ascii) (s : string) : bool :=
  bool_decide (c ∈ String.list_ascii_of_string s).

(** One iteration of the loop of url.parseQuery on a piece between two
    ampersands; the flag is the error so far. *)
Definition parsePair (acc : Values * bool) (piece : string) : Values * bool :=
  let '(m, err) := acc in
  if hasChar ";" piece then (m, true)
  else if String.eqb piece "" then (m, err)
  else
    let '(key, value) := cut "=" piece in
    match QueryUnescape key with
    | None => (m, true)
    | Some key =>
        match QueryUnescape value with
        | None => (m, true)
        | Some value => (<[key := default [] (m !! key) ++ [value]]> m, err)
        end
    end.

(** url.ParseQuery: what could be parsed, and whether there was an error. *)
Definition ParseQuery (query : string) : Values * bool :=
  foldl parsePair (∅, false) (split "&" query).

(** Values.Encode: the keys in order, each with its values. *)
Definition encodePairs (v : Values) : list (string * string) :=
  concat (map (λ k, map (λ x, (k, x)) (default [] (v !! k)))
            (merge_sort String.le (map fst (map_to_list v)))).

Definition Encode (v : Values) : string :=
  String.concat "&" (map (λ '(k, x), QueryEscape k +:+ "=" +:+ QueryEscape x) (encodePairs v)).

(* ------------------------------------------------------------------ *)
(** ** Decoding an encoded query *)

Definition bytes (s : string) : list ascii := String.list_ascii_of_string s.

Lemma bytes_app a b : bytes (a +:+ b) = bytes a ++ bytes b.
Proof. induction a as [|c a IH]; [done|]. unfold bytes in *. simpl. by rewrite IH. Qed.

(** The separators of a query string. *)
Definition separators : list ascii := ["&"; "="; ";"]%char.

Lemma escape_avoids s c : c ∈ separators → c ∉ bytes (QueryEscape s).
Proof.
  intros Hc.
  assert (Hd : ∀ d, isUnreserved d = true → d ≠ c).
  { intros d Hd ->.
    assert (implb (isUnreserved c) (negb (bool_decide (c ∈ separators))) = true) as H
      by (revert c Hc Hd; intros c _ _; revert c; apply all_bytes; vm_compute; reflexivity).
    by rewrite Hd, bool_decide_true in H. }
  assert (Hh : ∀ b, hexDigit (code b / 16) ≠ c ∧ hexDigit (code b mod 16) ≠ c).
  { intros b.
    assert (negb (bool_decide (hexDigit (code b / 16) ∈ separators)) &&
            negb (bool_decide (hexDigit (code b mod 16) ∈ separators)) = true) as H
      by (revert b; apply all_bytes; vm_compute; reflexivity).
    apply andb_true_iff in H as [H1%negb_true_iff H2%negb_true_iff].
    apply bool_decide_eq_false in H1, H2. split; congruence. }
  assert (Hp : "+"%char ≠ c ∧ "%"%char ≠ c).
  { split; intros <-; revert Hc; refine (bool_decide_eq_false_1 _ _); by vm_compute. }
  induction s as [|b s IH]; [by intros ?%elem_of_nil|]. cbn [QueryEscape].
  destruct (isUnreserved b) eqn:Hb; [|destruct (Ascii.eqb b " ")]; unfold bytes in *; simpl.
  - intros [E|?]%elem_of_cons; [by apply (Hd b)|done].
  - intros [E|?]%elem_of_cons; [by destruct Hp|done].
  - destruct (Hh b). intros [E|[E|[E|?]%elem_of_cons]%elem_of_cons]%elem_of_cons; by destruct Hp.
Qed.

Lemma cut_app sep a b : sep ∉ bytes a → cut sep (a +:+ String.String sep b) = (a, b).
Proof.
  induction a as [|c a IH]; unfold bytes; simpl; intros Ha.
  - by rewrite Ascii.eqb_refl.
  - apply not_elem_of_cons in Ha as [Hc Ha]. destruct (Ascii.eqb_spec c sep); [congruence|].
    fold bytes in Ha. by rewrite IH.
Qed.

Lemma split_plain sep a : sep ∉ bytes a → split sep a = [a].
Proof.
  induction a as [|c a IH]; unfold bytes; simpl; intros Ha; [done|].
  apply not_elem_of_cons in Ha as [Hc Ha]. destruct (Ascii.eqb_spec c sep); [congruence|].
  by rewrite IH.
Qed.

Lemma split_app sep a b : sep ∉ bytes a → split sep (a +:+ String.String sep b) = a :: split sep b.
Proof.
  induction a as [|c a IH]; unfold bytes; simpl; intros Ha.
  - by rewrite Ascii.eqb_refl.
  - apply not_elem_of_cons in Ha as [Hc Ha]. destruct (Ascii.eqb_spec c sep); [congruence|].
    by rewrite IH.
Qed.

Lemma split_concat sep ps :
  ps ≠ [] → Forall (λ p, sep ∉ bytes p) ps →
  split sep (String.concat (String.String sep "") ps) = ps.
Proof.
  intros Hne Hps. induction Hps as [|p ps Hp Hps IH]; [done|].
  destruct ps as [|q ps]; [by apply split_plain|].
  change (String.concat (String.String sep "") (p :: q :: ps))
    with (p +:+ String.String sep (String.concat (String.String sep "") (q :: ps))).
  rewrite split_app by done. by rewrite IH.
Qed.

Definition encodePair (p : string * string) : string :=
  QueryEscape p.1 +:+ "=" +:+ QueryEscape p.2.

Lemma encodePair_avoids p c : c ∈ ["&"; ";"]%char → c ∉ bytes (encodePair p).
Proof.
  intros Hc. unfold encodePair. rewrite !bytes_app, !not_elem_of_app.
  assert (c ∈ separators) by (apply elem_of_cons in Hc as [->|Hc%list_elem_of_singleton]; subst; unfold separators; repeat constructor).
  split; [by apply escape_avoids|]. split; [|by apply escape_avoids].
  intros ->%list_elem_of_singleton. revert Hc. refine (bool_decide_eq_false_1 _ _); by vm_compute.
Qed.

Definition addPair (m : Values) (p : string * string) : Values :=
  <[p.1 := default [] (m !! p.1) ++ [p.2]]> m.

Lemma parsePair_encodePair m err p : parsePair (m, err) (encodePair p) = (addPair m p, err).
Proof.
  unfold parsePair. unfold hasChar. rewrite bool_decide_false.
  2: { apply encodePair_avoids. by right; left. }
  destruct (String.eqb_spec (encodePair p) "") as [E|_].
  { exfalso. assert (bytes (encodePair p) = []) as E' by by rewrite E.
    unfold encodePair in E'. rewrite !bytes_app in E'. by apply app_nil in E' as [_ [? _]%app_nil]. }
  unfold encodePair at 1. change ("=" +:+ ?x) with (String.String "=" x).
  rewrite cut_app by (apply escape_avoids; by right; left).
  by rewrite !QueryUnescape_QueryEscape.
Qed.

Definition valuesOf (k : string) (ps : list (string * string)) : list string :=
  map snd (filter (λ p, p.1 = k) ps).

Lemma foldl_addPair_lookup ps m k :
  foldl addPair m ps !! k =
  match valuesOf k ps with [] => m !! k | xs => Some (default [] (m !! k) ++ xs) end.
Proof.
  revert m. induction ps as [|p ps IH]; intros m; [done|]. simpl. rewrite IH.
  unfold valuesOf, addPair. rewrite filter_cons. case_decide as Hp; simpl.
  - subst k. rewrite lookup_insert_eq. destruct (map snd _) eqn:E; simpl; rewrite <- ?app_assoc; done.
  - by rewrite lookup_insert_ne by done.
Qed.

Lemma valuesOf_app k a b : valuesOf k (a ++ b) = valuesOf k a ++ valuesOf k b.
Proof. unfold valuesOf. by rewrite filter_app, map_app. Qed.

Lemma valuesOf_key k k' xs :
  valuesOf k (map (λ x, (k', x)) xs) = if decide (k' = k) then xs else [].
Proof.
  unfold valuesOf. induction xs as [|x xs IH]; simpl; [by destruct (decide _)|].
  rewrite filter_cons. simpl. destruct (decide (k' = k)); simpl; [by rewrite IH|done].
Qed.

Lemma valuesOf_encodePairs v k : valuesOf k (encodePairs v) = default [] (v !! k).
Proof.
  unfold encodePairs. set (keys := merge_sort String.le (map fst (map_to_list v))).
  assert (NoDup keys) as Hnd.
  { unfold keys. rewrite merge_sort_Permutation. apply NoDup_fst_map_to_list. }
  assert (Hk : k ∈ keys ↔ is_Some (v !! k)).
  { unfold keys. rewrite merge_sort_Permutation. change (map fst ?l) with (fst <$> l).
    rewrite list_elem_of_fmap. split.
    - intros ([k' x]&->&Hx%elem_of_map_to_list). by exists x.
    - intros [x Hx]. exists (k, x). split; [done|]. by apply elem_of_map_to_list. }
  assert (∀ l, NoDup l → valuesOf k (concat (map (λ k0, map (λ x, (k0, x)) (default [] (v !! k0))) l))
    = if decide (k ∈ l) then default [] (v !! k) else []) as Hl.
  { clear. induction 1 as [|k' l Hn Hnd IH].
    { rewrite decide_False; [done|]. by intros ?%elem_of_nil. }
    cbn [map concat].
    rewrite valuesOf_app, valuesOf_key, IH. destruct (decide (k' = k)) as [->|Hne].
    - rewrite decide_False by done. rewrite decide_True by left. by rewrite app_nil_r.
    - simpl. destruct (decide (k ∈ l)) as [|Hk]; [by rewrite decide_True by (by right)|].
      rewrite decide_False; [done|]. by intros [?|?]%elem_of_cons. }
  rewrite Hl by done. case_decide as Hin; [done|].
  destruct (v !! k) eqn:E; [|done]. destruct Hin. apply Hk. eauto.
Qed.

(** Encoding and parsing again gives back every key with its values. *)
Lemma ParseQuery_Encode v :
  (ParseQuery (Encode v)).2 = false ∧
  ∀ k, default [] ((ParseQuery (Encode v)).1 !! k) = default [] (v !! k).
Proof.
  assert (Hfold : ∀ ps m err, foldl parsePair (m, err) (map encodePair ps) = (foldl addPair m ps, err)).
  { induction ps as [|p ps IH]; intros m err; [done|]. cbn [map foldl]. by rewrite parsePair_encodePair, IH. }
  assert (ParseQuery (Encode v) = (foldl addPair ∅ (encodePairs v), false)) as ->.
  { unfold ParseQuery, Encode.
    assert (map (λ '(k, x), QueryEscape k +:+ "=" +:+ QueryEscape x) (encodePairs v)
            = map encodePair (encodePairs v)) as -> by (apply map_ext; by intros []).
    destruct (encodePairs v) as [|p ps] eqn:E; [done|]. rewrite <- E.
    change "&" with (String.String "&" "").
    rewrite split_concat; [apply Hfold|by rewrite E|].
    apply Forall_fmap, Forall_forall. intros q _. apply encodePair_avoids. left. }
  split; [done|]. intros k. simpl. rewrite foldl_addPair_lookup, valuesOf_encodePairs, lookup_empty.
  by destruct (default [] (v !! k)).
Qed.

Lemma Values_Get_alt v k : Values_Get v k = default "" (head (default [] (v !! k))).
Proof. unfold Values_Get. by destruct (v !! k) as [[]|]. Qed.

Lemma Values_Get_ParseQuery_Encode v k : Values_Get (ParseQuery (Encode v)).1 k = Values_Get v k.
Proof. rewrite !Values_Get_alt. by rewrite (proj2 (ParseQuery_Encode v)). Qed.

Lemma Values_Get_Set v k x k' :
  Values_Get (Values_Set v k x) k' = if decide (k = k') then x else Values_Get v k'.
Proof.
  unfold Values_Get, Values_Set. case_decide; [subst; by rewrite lookup_insert_eq|].
  by rewrite lookup_insert_ne by done.
Qed.

(* ------------------------------------------------------------------ *)
(** ** Requests *)

(** An incoming *http.Request. The body is a reader shared by everything that
    holds the request: a reference into a store of readers. *)
Record Request := mkRequest {
  Method : string;
  Path : string;
  RawQuery : string;
  rHeader : Header;
  Body : nat
}.

(** What a reader still has to give, and the error it ends with, if any. *)
Record Reader := mkReader { remaining : string; readErr : option string }.

Notation Bodies := (gmap nat Reader).

Definition emptyReader : Reader := mkReader "" None.

(** io.ReadAll: the data, the error, and the drained reader. *)
Definition ReadAll (bodies : Bodies) (b : nat) : string * option string * Bodies :=
  let r := default emptyReader (bodies !! b) in
  (remaining r, readErr r, <[b := mkReader "" (readErr r)]> bodies).
