(* ===== verification/Tenant.v ===== *)
(** * Tenant: internal/services/tenant and its filterstrategies

    The PromQL parser is the Prometheus library: an interface ([PromQL]) of
    the four things the source does with it. The laws the theorems rely on
    ([PromQLLaws]) are named hypotheses. *)

From Stdlib Require Import Ascii.
From S2P Require Import Prelude Errors Domain Http Config.

(* ------------------------------------------------------------------ *)
(** ** Label matchers and the parser's interface *)

Inductive MatchType := MatchEqual | MatchNotEqual | MatchRegexp | MatchNotRegexp.

Record Matcher := mkMatcher { mt_Type : MatchType; mt_Name : string; mt_Value : string }.

#[export] Instance MatchType_eq_dec : EqDecision MatchType.
Proof. solve_decision. Defined.
#[export] Instance Matcher_eq_dec : EqDecision Matcher.
Proof. solve_decision. Defined.

(** github.com/prometheus/prometheus/promql/parser. [Inspect f] is the walk
    that replaces the matchers of every vector selector by their image. *)
Class PromQL (Expr : Type) := {
  ParseExpr : string → result Expr;
  ExprString : Expr → string;
  Inspect : (list Matcher → list Matcher) → Expr → Expr;
  LOR : Expr → Expr → Expr;
  (* the matchers of the vector selectors of an expression, in order *)
  Selectors : Expr → list (list Matcher)
}.

Class PromQLLaws (Expr : Type) `{PromQL Expr} := {
  selectors_inspect f e : Selectors (Inspect f e) = map f (Selectors e);
  selectors_or a b : Selectors (LOR a b) = Selectors a ++ Selectors b;
  parse_print e : ∃ e', ParseExpr (ExprString e) = Ok e' ∧ Selectors e' = Selectors e
}.

(* ------------------------------------------------------------------ *)
(** ** Label names of a tenant.FilterConfig *)

Definition defaultTenantLabel : string := "vm_account_id".
Definition defaultProjectLabel : string := "vm_project_id".

Definition accountLabel (cfg : FilterConfig) : string :=
  if str_nonempty (lc_Account (fc_Labels cfg)) then lc_Account (fc_Labels cfg) else defaultTenantLabel.
Definition projectLabel (cfg : FilterConfig) : string :=
  if str_nonempty (lc_Project (fc_Labels cfg)) then lc_Project (fc_Labels cfg) else defaultProjectLabel.

Definition hasLabel (label : string) (ms : list Matcher) : bool :=
  existsb (λ m, String.eqb (mt_Name m) label) ms.

(* ------------------------------------------------------------------ *)
(** ** promql_parser.go *)

Definition addSingleTenantFilter (ms : list Matcher) (tenant : VMTenant)
    (tenantLabel projectLabel : string) (useProjectID : bool) : list Matcher :=
  let ms := ms ++ [mkMatcher MatchEqual tenantLabel (AccountID tenant)] in
  if useProjectID && str_nonempty (ProjectID tenant) && negb (String.eqb (ProjectID tenant) ".*")
  then ms ++ [mkMatcher MatchEqual projectLabel (ProjectID tenant)]
  else ms.

(** With several tenants only the first one is used. *)
Definition injectTenantLabelsToVectorSelector (cfg : FilterConfig) (vmTenants : list VMTenant)
    (ms : list Matcher) : list Matcher :=
  if hasLabel (accountLabel cfg) ms then ms
  else
    match vmTenants with
    | [] => ms
    | tenant :: _ =>
        addSingleTenantFilter ms tenant (accountLabel cfg) (projectLabel cfg)
          (lc_UseProjectID (fc_Labels cfg))
    end.

Definition InjectTenantLabels {Expr} `{PromQL Expr} (query : string) (vmTenants : list VMTenant)
    (cfg : FilterConfig) : result string :=
  match vmTenants with
  | [] => Err (EApp ErrNoVMTenantsForFiltering)
  | _ =>
      match ParseExpr query with
      | Err err => Err (errorf_w "failed to parse PromQL query" err)
      | Ok expr => Ok (ExprString (Inspect (injectTenantLabelsToVectorSelector cfg vmTenants) expr))
      end
  end.

(* ------------------------------------------------------------------ *)
(** ** or_query_builder.go *)

Record Group := mkGroup { g_AccountID : string; g_ProjectIDs : list string; g_IsWildcard : bool }.

(** The maps of optimizeGroups; accountWildcards only ever holds true. *)
Record grouping := mkGrouping {
  accountGroups : gmap string (list string);
  accountWildcards : gset string
}.

Definition isWildcardTenant (t : VMTenant) : bool :=
  String.eqb (ProjectID t) ".*" || String.eqb (ProjectID t) "".

(** The loop over the tenants. *)
Definition groupTenant (s : grouping) (tenant : VMTenant) : grouping :=
  if isWildcardTenant tenant
  then mkGrouping (accountGroups s) ({[AccountID tenant]} ∪ accountWildcards s)
  else if negb (bool_decide (AccountID tenant ∈ accountWildcards s))
  then mkGrouping
         (<[AccountID tenant :=
              default [] (accountGroups s !! AccountID tenant) ++ [ProjectID tenant]]> (accountGroups s))
         (accountWildcards s)
  else s.

Definition groupTenants (tenants : list VMTenant) : grouping :=
  foldl groupTenant (mkGrouping ∅ ∅) tenants.

(** deduplicateStrings: the loop with its set of seen items. *)
Fixpoint dedupLoop (seen : gset string) (input : list string) : list string :=
  match input with
  | [] => []
  | item :: rest =>
      if bool_decide (item ∈ seen) then dedupLoop seen rest
      else item :: dedupLoop ({[item]} ∪ seen) rest
  end.

Definition deduplicateStrings (input : list string) : list string := dedupLoop ∅ input.

(** sort.Strings *)
Definition sortStrings (l : list string) : list string := merge_sort String.le l.

Definition groupLe (g1 g2 : Group) : Prop := String.le (g_AccountID g1) (g_AccountID g2).

#[export] Instance groupLe_dec : RelDecision groupLe.
Proof. intros g1 g2. unfold groupLe. apply _. Defined.

(** The two loops over the maps, for some order of their keys. *)
Definition collectGroups (s : grouping) (wild : list string) (specific : list (string * list string))
  : list Group :=
  map (λ accountID, mkGroup accountID [] true) wild ++
  map (λ '(accountID, projectIDs),
         mkGroup accountID (deduplicateStrings (sortStrings projectIDs)) false)
    (filter (λ p, p.1 ∉ accountWildcards s) specific).

Definition optimizeGroups (tenants : list VMTenant) : list Group :=
  let s := groupTenants tenants in
  merge_sort groupLe
    (collectGroups s (elements (accountWildcards s)) (map_to_list (accountGroups s))).

Definition joinProjects (ps : list string) : string := "(" +:+ String.concat "|" ps +:+ ")".

Definition injectTenantToVectorSelector (cfg : FilterConfig) (group : Group) (ms : list Matcher)
  : list Matcher :=
  if hasLabel (accountLabel cfg) ms then ms
  else
    let ms := ms ++ [mkMatcher MatchEqual (accountLabel cfg) (g_AccountID group)] in
    if lc_UseProjectID (fc_Labels cfg) && negb (g_IsWildcard group) &&
       (0 <? Z.of_nat (length (g_ProjectIDs group)))%Z
    then
      match g_ProjectIDs group with
      | [projectID] => ms ++ [mkMatcher MatchEqual (projectLabel cfg) projectID]
      | projectIDs => ms ++ [mkMatcher MatchRegexp (projectLabel cfg) (joinProjects projectIDs)]
      end
    else ms.

Section Builder.
Context {Expr : Type} `{PromQL Expr}.

Definition injectTenantToExpression (cfg : FilterConfig) (group : Group) (expr : Expr) : Expr :=
  Inspect (injectTenantToVectorSelector cfg group) expr.

(** cloneExpression: [None] when the printed expression does not parse and
    the source hands back the expression itself. *)
Definition cloneExpression (expr : Expr) : option Expr :=
  match ParseExpr (ExprString expr) with Ok cloned => Some cloned | Err _ => None end.

(** The loop that makes one expression per group. An entry [None] is the
    original expression itself, which the injection mutates in place. *)
Fixpoint orExpressions (cfg : FilterConfig) (originalExpr : Expr) (groups : list Group)
  : list (option Expr) * Expr :=
  match groups with
  | [] => ([], originalExpr)
  | group :: rest =>
      match cloneExpression originalExpr with
      | Some cloned =>
          let '(es, orig) := orExpressions cfg originalExpr rest in
          (Some (injectTenantToExpression cfg group cloned) :: es, orig)
      | None =>
          let '(es, orig) := orExpressions cfg (injectTenantToExpression cfg group originalExpr) rest in
          (None :: es, orig)
      end
  end.

Definition createSecureORExpression (originalExpr : Expr) (tenants : list VMTenant)
    (cfg : FilterConfig) : outcome Expr :=
  match optimizeGroups tenants with
  | [group] => Returned (injectTenantToExpression cfg group originalExpr)
  | groups =>
      let '(es, orig) := orExpressions cfg originalExpr groups in
      match map (default orig) es with
      | [] => Panicked "index out of range"
      | first :: rest => Returned (foldl LOR first rest)
      end
  end.

Definition BuildSecureQuery (originalQuery : string) (tenants : list VMTenant) (cfg : FilterConfig)
  : outcome (result string) :=
  match tenants with
  | [] => Returned (Err (EApp ErrNoVMTenantsForFiltering))
  | [_] => Returned (InjectTenantLabels originalQuery tenants cfg)
  | _ =>
      match ParseExpr originalQuery with
      | Err err => Returned (Err (errorf_w "failed to parse original query" err))
      | Ok expr =>
          obind (createSecureORExpression expr tenants cfg) (λ e, Returned (Ok (ExprString e)))
      end
  end.

(* ---------------------------------------------------------------- *)
(** ** service.go *)

Definition FilterQuery (tenantConfig : FilterConfig) (user : User) (query : string)
  : outcome (result string * list metricCall) :=
  let count := Z.of_nat (length (user_VMTenants user)) in
  match user_VMTenants user with
  | [] => Returned (Err (EApp ErrNoVMTenants), [])
  | _ =>
      if negb (TenantFilterStrategy_IsValid (fc_Strategy tenantConfig))
      then Returned (Err (EText ("invalid tenant filter strategy: " +:+ fc_Strategy tenantConfig
                           +:+ " (only '" +:+ TenantFilterStrategyOrConditions
                           +:+ "' is supported)")), [])
      else
        obind (BuildSecureQuery query (user_VMTenants user) tenantConfig) (λ r,
          Returned match r with
          | Err _ => (Err (EApp ErrPromQLParsing), [RecordQueryFilter (user_ID user) count false])
          | Ok filteredQuery =>
              (Ok filteredQuery,
               [RecordQueryFilter (user_ID user) count (negb (String.eqb query filteredQuery))])
          end)
  end.
End Builder.

Definition tenantMatches (tenantID : string) (t : VMTenant) : bool :=
  String.eqb (AccountID t) tenantID || String.eqb (VMTenant_String t) tenantID.

Definition CanAccessTenant (user : User) (tenantID : string) : bool * list metricCall :=
  let allowed := existsb (tenantMatches tenantID) (user_VMTenants user) in
  (allowed, [RecordTenantAccess (user_ID user) tenantID allowed]).

Definition tenantHeaders : list string := ["X-Prometheus-Tenant"; "X-Tenant-ID"].

(** The loop over the header names; [None] when none is set. *)
Fixpoint headerTenant (user : User) (h : Header) (names : list string)
  : option (result string * list metricCall) :=
  match names with
  | [] => None
  | headerName :: rest =>
      let tenantHeader := Header_Get h headerName in
      if str_nonempty tenantHeader then
        let '(allowed, calls) := CanAccessTenant user tenantHeader in
        if allowed then Some (Ok tenantHeader, calls)
        else Some (Err (EApp (mkAppError ErrCodeForbidden
                                ("User cannot access tenant: " +:+ tenantHeader)
                                StatusForbidden None)), calls)
      else headerTenant user h rest
  end.

Definition DetermineTargetTenant (user : User) (h : Header) : result string * list metricCall :=
  match user_VMTenants user with
  | [] => (Err (EApp ErrNoVMTenants), [])
  | first :: _ =>
      match headerTenant user h tenantHeaders with
      | Some r => r
      | None => (Ok (VMTenant_String first), [])
      end
  end.

(* ------------------------------------------------------------------ *)
(** ** Grouping: what the groups grant *)

(** What a list of tenants grants: an account with a wildcard project grants
    every project. *)
Definition granted (tenants : list VMTenant) (account project : string) : Prop :=
  ∃ t, t ∈ tenants ∧ AccountID t = account ∧ (isWildcardTenant t = true ∨ ProjectID t = project).

Definition wildcardAccount (tenants : list VMTenant) (a : string) : Prop :=
  ∃ t, t ∈ tenants ∧ AccountID t = a ∧ isWildcardTenant t = true.

Definition specificProject (tenants : list VMTenant) (a p : string) : Prop :=
  ∃ t, t ∈ tenants ∧ AccountID t = a ∧ ProjectID t = p ∧ isWildcardTenant t = false.

Lemma exists_snoc {A} (P : A → Prop) (l : list A) (x : A) :
  (∃ t, t ∈ l ++ [x] ∧ P t) ↔ (∃ t, t ∈ l ∧ P t) ∨ P x.
Proof.
  split.
  - intros (t&[Ht|Ht%list_elem_of_singleton]%elem_of_app&HP); [left; eauto|right; by subst].
  - intros [(t&Ht&HP)|HP]; [exists t|exists x]; rewrite elem_of_app; [auto|].
    split; [right; by apply list_elem_of_singleton|done].
Qed.

Record grouping_inv (ts : list VMTenant) (s : grouping) : Prop := {
  gi_wild a : a ∈ accountWildcards s ↔ wildcardAccount ts a;
  gi_proj a p : ¬ wildcardAccount ts a →
    p ∈ default [] (accountGroups s !! a) ↔ specificProject ts a p;
  gi_nonempty a ps : accountGroups s !! a = Some ps → ps ≠ []
}.

Lemma groupTenants_inv ts : grouping_inv ts (groupTenants ts).
Proof.
  induction ts as [|t ts IH] using rev_ind.
  { split; simpl.
    - intros a. rewrite elem_of_empty. split; [done|]. by intros (?&?%elem_of_nil&_).
    - intros a p _. rewrite lookup_empty, elem_of_nil. split; [done|]. by intros (?&?%elem_of_nil&_).
    - intros a ps. by rewrite lookup_empty. }
  unfold groupTenants. rewrite foldl_app. simpl. fold (groupTenants ts).
  destruct IH as [Hw Hp Hn]. set (s := groupTenants ts) in *.
  assert (HW : ∀ a, wildcardAccount (ts ++ [t]) a ↔
    wildcardAccount ts a ∨ (AccountID t = a ∧ isWildcardTenant t = true))
    by (intros a; apply (exists_snoc (λ t, AccountID t = a ∧ isWildcardTenant t = true))).
  assert (HS : ∀ a p, specificProject (ts ++ [t]) a p ↔
    specificProject ts a p ∨ (AccountID t = a ∧ ProjectID t = p ∧ isWildcardTenant t = false))
    by (intros a p; apply (exists_snoc (λ t, AccountID t = a ∧ ProjectID t = p ∧ isWildcardTenant t = false))).
  unfold groupTenant. destruct (isWildcardTenant t) eqn:Ht; [|case_bool_decide as Hin]; simpl.
  - split; simpl.
    + intros a. rewrite HW, elem_of_union, elem_of_singleton, Hw. naive_solver.
    + intros a p Hna. rewrite HS, Hp by (rewrite HW in Hna; naive_solver). naive_solver.
    + done.
  - split.
    + intros a. rewrite HW, Hw. naive_solver.
    + intros a p Hna. rewrite HS. rewrite HW in Hna. rewrite Hp by naive_solver.
      split; [by left|]. intros [?|(<-&_)]; [done|]. exfalso. apply Hna. left. by apply Hw.
    + done.
  - split; simpl.
    + intros a. rewrite HW, Hw. naive_solver.
    + intros a p Hna. rewrite HS. rewrite HW in Hna.
      destruct (decide (AccountID t = a)) as [<-|Hne].
      * rewrite lookup_insert_eq. simpl. rewrite elem_of_app, list_elem_of_singleton.
        rewrite Hp by naive_solver. naive_solver.
      * rewrite lookup_insert_ne by done. rewrite Hp by naive_solver. naive_solver.
    + intros a ps. destruct (decide (AccountID t = a)) as [<-|Hne].
      * rewrite lookup_insert_eq. intros [= <-]. by destruct (default _ _).
      * rewrite lookup_insert_ne by done. apply Hn.
Qed.

Lemma dedupLoop_elem seen l x : x ∈ dedupLoop seen l ↔ x ∈ l ∧ x ∉ seen.
Proof.
  revert seen. induction l as [|y l IH]; intros seen; simpl.
  { rewrite elem_of_nil. naive_solver. }
  case_bool_decide; rewrite ?elem_of_cons, IH, ?elem_of_union, ?elem_of_singleton;
    destruct (decide (x = y)); naive_solver.
Qed.

Lemma dedup_elem l x : x ∈ deduplicateStrings l ↔ x ∈ l.
Proof. unfold deduplicateStrings. rewrite dedupLoop_elem, elem_of_empty. naive_solver. Qed.

Lemma dedupLoop_NoDup seen l : NoDup (dedupLoop seen l).
Proof.
  revert seen. induction l as [|y l IH]; intros seen; simpl; [constructor|].
  case_bool_decide; [done|]. constructor; [|done]. rewrite dedupLoop_elem, elem_of_union, elem_of_singleton.
  naive_solver.
Qed.

Lemma dedupLoop_sublist seen l : dedupLoop seen l `sublist_of` l.
Proof.
  revert seen. induction l as [|y l IH]; intros seen; simpl; [constructor|].
  case_bool_decide; by constructor.
Qed.

Lemma StronglySorted_sublist {A} (R : A → A → Prop) l k :
  sublist l k → StronglySorted R k → StronglySorted R l.
Proof.
  induction 1 as [|x l k Hs IH|x l k Hs IH]; intros Hk; [done| |]; inversion Hk as [|? ? Hk' Hx]; subst.
  - constructor; [by apply IH|].
    apply Forall_forall. intros y Hy. rewrite Forall_forall in Hx. apply Hx.
    by eapply elem_of_sublist.
  - by apply IH.
Qed.

(** A deduplicated sorted list is determined by its elements. *)
Lemma dedup_sorted_ext l1 l2 :
  (∀ x, x ∈ l1 ↔ x ∈ l2) →
  deduplicateStrings (sortStrings l1) = deduplicateStrings (sortStrings l2).
Proof.
  intros Hx.
  assert (∀ l, StronglySorted String.le (deduplicateStrings (sortStrings l))) as Hs.
  { intros l. eapply StronglySorted_sublist; [apply dedupLoop_sublist|].
    apply StronglySorted_merge_sort; apply _. }
  apply (StronglySorted_unique String.le); [apply Hs..|].
  apply NoDup_Permutation; [apply dedupLoop_NoDup..|]. intros x.
  rewrite !dedup_elem. unfold sortStrings. by rewrite !merge_sort_Permutation.
Qed.

(** The members of [optimizeGroups]. *)
Lemma elem_of_optimizeGroups ts g :
  g ∈ optimizeGroups ts ↔
  (g = mkGroup (g_AccountID g) [] true ∧ wildcardAccount ts (g_AccountID g)) ∨
  (∃ ps, accountGroups (groupTenants ts) !! g_AccountID g = Some ps ∧
     g = mkGroup (g_AccountID g) (deduplicateStrings (sortStrings ps)) false ∧
     ¬ wildcardAccount ts (g_AccountID g)).
Proof.
  destruct (groupTenants_inv ts) as [Hw _ _]. unfold optimizeGroups.
  rewrite merge_sort_Permutation. unfold collectGroups. rewrite elem_of_app.
  change (map ?f ?l) with (f <$> l). rewrite !list_elem_of_fmap. split.
  - intros [(a&->&Ha%elem_of_elements)|([a ps]&->&[Ha Hps%elem_of_map_to_list]%list_elem_of_filter)]; simpl in *.
    + left. split; [done|]. by apply Hw.
    + right. exists ps. by rewrite <- Hw.
  - intros [[Hg Ha]|(ps&Hps&Hg&Ha)].
    + left. exists (g_AccountID g). split; [done|]. by apply elem_of_elements, Hw.
    + right. exists (g_AccountID g, ps). split; [done|]. apply list_elem_of_filter. simpl.
      split; [by rewrite Hw|]. by apply elem_of_map_to_list.
Qed.

Lemma optimizeGroups_accounts_NoDup ts : NoDup (map g_AccountID (optimizeGroups ts)).
Proof.
  unfold optimizeGroups. change (map ?f ?l) with (f <$> l). rewrite merge_sort_Permutation.
  set (s := groupTenants ts). unfold collectGroups. rewrite fmap_app.
  assert (g_AccountID <$> map (λ accountID, mkGroup accountID [] true) (elements (accountWildcards s))
          = elements (accountWildcards s)) as ->
    by (change (?f <$> ?l) with (map f l); rewrite map_map; apply map_id).
  set (l := filter _ _).
  assert (g_AccountID <$> map (λ '(accountID, projectIDs),
      mkGroup accountID (deduplicateStrings (sortStrings projectIDs)) false) l = map fst l) as ->
    by (change (?f <$> ?l) with (map f l); rewrite map_map; apply map_ext; by intros []).
  apply NoDup_app. split; [apply NoDup_elements|]. split.
  - intros a Ha%elem_of_elements ([a' ps]&->&[Hn _]%list_elem_of_filter)%list_elem_of_fmap. done.
  - assert (sublist (map fst l) (map fst (map_to_list (accountGroups s)))) as Hsub.
    { unfold l. generalize (map_to_list (accountGroups s)). intros k.
      induction k as [|x k IH]; simpl; [constructor|]. rewrite filter_cons.
      case_decide; by constructor. }
    eapply sublist_NoDup; [|exact Hsub]. apply NoDup_fst_map_to_list.
Qed.

Lemma specificProject_group ts a :
  ¬ wildcardAccount ts a → (∃ p, specificProject ts a p) →
  ∃ ps, accountGroups (groupTenants ts) !! a = Some ps ∧ ∀ p, p ∈ ps ↔ specificProject ts a p.
Proof.
  intros Hn [p Hp]. destruct (groupTenants_inv ts) as [_ Hg _]. specialize (Hg a).
  destruct (accountGroups (groupTenants ts) !! a) as [ps|]; simpl in *.
  - exists ps. split; [done|]. intros p'. by apply Hg.
  - apply Hg in Hp; [|done]. by apply elem_of_nil in Hp.
Qed.

(** What one group grants. *)
Definition groupAllows (g : Group) (account project : string) : Prop :=
  g_AccountID g = account ∧ (g_IsWildcard g = true ∨ project ∈ g_ProjectIDs g).

Lemma wildcardAccount_dec ts a : wildcardAccount ts a ∨ ¬ wildcardAccount ts a.
Proof.
  destruct (groupTenants_inv ts) as [Hw _ _]. rewrite <- Hw.
  destruct (decide (a ∈ accountWildcards (groupTenants ts))); auto.
Qed.

(** The groups together grant exactly what the tenants grant. *)
Lemma optimizeGroups_exact ts a p :
  (∃ g, g ∈ optimizeGroups ts ∧ groupAllows g a p) ↔ granted ts a p.
Proof.
  split.
  - intros (g&Hg&<-&Hp). apply elem_of_optimizeGroups in Hg as [[_ (t&?&?&?)]|(ps&Hps&Hg&Hn)].
    { exists t. auto. }
    rewrite Hg in Hp. destruct Hp as [?|Hp]; [done|]. simpl in Hp. unfold sortStrings in Hp.
    rewrite dedup_elem, merge_sort_Permutation in Hp.
    destruct (groupTenants_inv ts) as [_ Hgi _]. specialize (Hgi (g_AccountID g) p Hn).
    rewrite Hps in Hgi. apply Hgi in Hp as (t&?&?&?&?). exists t. auto.
  - intros (t&Ht&Ha&Hp). destruct (wildcardAccount_dec ts a) as [Hw|Hn].
    + exists (mkGroup a [] true). split; [|by split; [|left]].
      apply elem_of_optimizeGroups. by left.
    + assert (isWildcardTenant t = false) as Htw.
      { destruct (isWildcardTenant t) eqn:E; [|done]. destruct Hn. by exists t. }
      destruct Hp as [?|Hp]; [congruence|].
      assert (specificProject ts a p) as Hs by by exists t.
      destruct (specificProject_group ts a Hn) as (ps&Hps&Hin); [eauto|].
      exists (mkGroup a (deduplicateStrings (sortStrings ps)) false). split.
      * apply elem_of_optimizeGroups. right. exists ps. done.
      * split; [done|]. right. simpl. unfold sortStrings. rewrite dedup_elem, merge_sort_Permutation. by apply Hin.
Qed.

(** A specific group names at least one project. *)
Lemma optimizeGroups_nonempty_projects ts g :
  g ∈ optimizeGroups ts → g_IsWildcard g = false → g_ProjectIDs g ≠ [].
Proof.
  intros Hg Hw. apply elem_of_optimizeGroups in Hg as [[Hg _]|(ps&Hps&Hg&_)]; [by rewrite Hg in Hw|].
  rewrite Hg. simpl. destruct (groupTenants_inv ts) as [_ _ Hn].
  pose proof (Hn _ _ Hps) as Hne. destruct ps as [|p ps]; [done|]. intros E.
  assert (p ∈ deduplicateStrings (sortStrings (p :: ps))) as Hin.
  { unfold sortStrings. rewrite dedup_elem, merge_sort_Permutation. left. }
  rewrite E in Hin. by apply elem_of_nil in Hin.
Qed.

Lemma optimizeGroups_nonempty ts : ts ≠ [] → optimizeGroups ts ≠ [].
Proof.
  destruct ts as [|t ts]; [done|]. intros _ E.
  assert (granted (t :: ts) (AccountID t) (ProjectID t)) as Hg.
  { exists t. split; [left|]. auto. }
  apply optimizeGroups_exact in Hg as (g&Hin&_). rewrite E in Hin. by apply elem_of_nil in Hin.
Qed.

Lemma groupLe_sorted_ext l1 l2 :
  NoDup (map g_AccountID l1) → NoDup (map g_AccountID l2) → (∀ g, g ∈ l1 ↔ g ∈ l2) →
  merge_sort groupLe l1 = merge_sort groupLe l2.
Proof.
  intros H1 H2 Hx.
  assert (Transitive groupLe) by (intros x y z; unfold groupLe; apply transitivity).
  assert (Total groupLe) by (intros x y; unfold groupLe; apply (total String.le)).
  apply (Sorted_unique_strong groupLe); [|apply Sorted_merge_sort; apply _..|].
  - intros g1 g2 Hg1 Hg2 H12 H21. rewrite merge_sort_Permutation in Hg1, Hg2.
    apply Hx in Hg2. assert (g_AccountID g1 = g_AccountID g2) as E by (by apply (anti_symm String.le)).
    apply list_elem_of_lookup in Hg1 as [i Hi]. apply list_elem_of_lookup in Hg2 as [j Hj].
    assert (i = j) as ->; [|congruence].
    eapply (NoDup_lookup _ i j (g_AccountID g1) H1).
    + change (map g_AccountID l1) with (g_AccountID <$> l1). by rewrite list_lookup_fmap, Hi.
    + change (map g_AccountID l1) with (g_AccountID <$> l1). by rewrite list_lookup_fmap, Hj, E.
  - rewrite !merge_sort_Permutation. apply NoDup_Permutation; [| |done].
    + by eapply NoDup_fmap_1.
    + by eapply NoDup_fmap_1.
Qed.

(** C20: The tenant groups depend neither on the order and repetitions of the user's
    tenants nor on the iteration order of the maps, have distinct accounts, and grant
    exactly what the tenants grant. *)
Theorem optimize_groups_canonical ts1 ts2 wild specific :
  (∀ t, t ∈ ts1 ↔ t ∈ ts2) →
  wild ≡ₚ elements (accountWildcards (groupTenants ts2)) →
  specific ≡ₚ map_to_list (accountGroups (groupTenants ts2)) →
  merge_sort groupLe (collectGroups (groupTenants ts2) wild specific) = optimizeGroups ts1 ∧
  NoDup (map g_AccountID (optimizeGroups ts1)) ∧
  (∀ a p, (∃ g, g ∈ optimizeGroups ts1 ∧ groupAllows g a p) ↔ granted ts2 a p).
Proof.
  intros Hts Hw Hs.
  assert (Hsame : ∀ g, g ∈ optimizeGroups ts1 ↔ g ∈ optimizeGroups ts2).
  { assert (∀ a, wildcardAccount ts1 a ↔ wildcardAccount ts2 a) as HW
      by (intros a; unfold wildcardAccount; by setoid_rewrite Hts).
    assert (∀ a p, specificProject ts1 a p ↔ specificProject ts2 a p) as HP
      by (intros a p; unfold specificProject; by setoid_rewrite Hts).
    assert (∀ ta tb, (∀ a, wildcardAccount ta a ↔ wildcardAccount tb a) →
      (∀ a p, specificProject ta a p ↔ specificProject tb a p) →
      ∀ g, g ∈ optimizeGroups ta → g ∈ optimizeGroups tb) as Himp.
    { clear. intros ta tb HW HP g. rewrite !elem_of_optimizeGroups, HW.
      intros [?|(ps&Hps&Hg&Hn)]; [by left|]. right.
      destruct (groupTenants_inv ta) as [_ Hga Hna].
      destruct (specificProject_group tb (g_AccountID g)) as (ps'&Hps'&Hin');
        [by rewrite <- HW| |].
      - pose proof (Hna _ _ Hps). destruct ps as [|p ps]; [done|]. exists p.
        apply HP, Hga; [done|]. rewrite Hps. left.
      - exists ps'. split; [done|]. split; [|by rewrite <- HW]. rewrite Hg at 1. f_equal.
        apply dedup_sorted_ext. intros x. rewrite Hin', <- HP, <- Hga, Hps by done. done. }
    intros g. split; apply Himp; try done; intros; symmetry; auto. }
  split; [|split; [apply optimizeGroups_accounts_NoDup|]].
  - assert (collectGroups (groupTenants ts2) wild specific ≡ₚ optimizeGroups ts2) as Hperm.
    { unfold optimizeGroups. rewrite merge_sort_Permutation. unfold collectGroups.
      rewrite Hw, Hs. done. }
    unfold optimizeGroups at 1. apply groupLe_sorted_ext.
    + change (map ?f ?l) with (f <$> l). rewrite Hperm. apply optimizeGroups_accounts_NoDup.
    + pose proof (optimizeGroups_accounts_NoDup ts1) as Hnd. unfold optimizeGroups in Hnd.
      change (NoDup (g_AccountID <$> merge_sort groupLe (collectGroups (groupTenants ts1)
        (elements (accountWildcards (groupTenants ts1)))
        (map_to_list (accountGroups (groupTenants ts1)))))) in Hnd.
      rewrite merge_sort_Permutation in Hnd. exact Hnd.
    + intros g. rewrite Hperm, <- Hsame. unfold optimizeGroups. by rewrite merge_sort_Permutation.
  - intros a p. setoid_rewrite Hsame. apply optimizeGroups_exact.
Qed.

Definition twoTenants : list VMTenant := [mkVMTenant "1" "7"; mkVMTenant "2" ".*"; mkVMTenant "1" "5"].

Lemma optimize_groups_canonical_witness :
  optimizeGroups twoTenants = [mkGroup "1" ["5"; "7"] false; mkGroup "2" [] true] ∧
  merge_sort groupLe (collectGroups (groupTenants (reverse twoTenants)) ["2"] [("1", ["5"; "7"])])
    = optimizeGroups twoTenants.
Proof.
  split; [vm_compute; reflexivity|].
  apply (optimize_groups_canonical twoTenants (reverse twoTenants) ["2"] [("1", ["5"; "7"])]).
  - intros t. symmetry. apply elem_of_reverse.
  - assert (elements (accountWildcards (groupTenants (reverse twoTenants))) = ["2"]) as ->
      by (vm_compute; reflexivity). reflexivity.
  - assert (map_to_list (accountGroups (groupTenants (reverse twoTenants))) = [("1", ["5"; "7"])]) as ->
      by (vm_compute; reflexivity). reflexivity.
Defined.

(* ------------------------------------------------------------------ *)
(** ** What a filtered query can see *)

(** A time series: its label values, empty for a label it does not have. *)
Definition series : Type := string → string.

(** Project IDs without a character that is special in a regular expression. *)
Definition literal (p : string) : bool :=
  forallb (λ c, negb (bool_decide (c ∈ String.list_ascii_of_string "\.+*?()|[]{}^$")))
    (String.list_ascii_of_string p).

(** The label the tenants see: of the account, and of the project when the
    configuration filters by project. *)
Definition visible (cfg : FilterConfig) (tenants : list VMTenant) (s : series) : Prop :=
  if lc_UseProjectID (fc_Labels cfg)
  then granted tenants (s (accountLabel cfg)) (s (projectLabel cfg))
  else ∃ t, t ∈ tenants ∧ AccountID t = s (accountLabel cfg).

Section Matching.
(** Anchored regular-expression matching, as Prometheus does it. *)
Context (re : string → string → bool).

Definition matches (s : series) (m : Matcher) : bool :=
  let v := s (mt_Name m) in
  match mt_Type m with
  | MatchEqual => String.eqb v (mt_Value m)
  | MatchNotEqual => negb (String.eqb v (mt_Value m))
  | MatchRegexp => re (mt_Value m) v
  | MatchNotRegexp => negb (re (mt_Value m) v)
  end.

Definition selects (s : series) (ms : list Matcher) : bool := forallb (matches s) ms.

(** A parenthesised alternation of literals matches exactly its branches. *)
Definition regex_alternation : Prop :=
  ∀ ps v, (2 ≤ length ps)%nat → Forall (λ p, literal p = true) ps →
    re (joinProjects ps) v = bool_decide (v ∈ ps).

Lemma selects_app s a b : selects s (a ++ b) = selects s a && selects s b.
Proof. apply forallb_app. Qed.

Lemma selects_snoc s ms m : selects s (ms ++ [m]) = true ↔ selects s ms = true ∧ matches s m = true.
Proof. rewrite selects_app, andb_true_iff. unfold selects at 2. simpl. by rewrite andb_true_r. Qed.

Lemma matches_equal s n v : matches s (mkMatcher MatchEqual n v) = true ↔ s n = v.
Proof. apply String.eqb_eq. Qed.

Lemma inject_group cfg g ms s :
  regex_alternation →
  hasLabel (accountLabel cfg) ms = false →
  (g_IsWildcard g = false → g_ProjectIDs g ≠ []) →
  Forall (λ p, literal p = true) (g_ProjectIDs g) →
  selects s (injectTenantToVectorSelector cfg g ms) = true ↔
  selects s ms = true ∧ s (accountLabel cfg) = g_AccountID g ∧
  (lc_UseProjectID (fc_Labels cfg) = true →
     g_IsWildcard g = true ∨ s (projectLabel cfg) ∈ g_ProjectIDs g).
Proof.
  intros Hre Hl Hne Hlit. unfold injectTenantToVectorSelector. rewrite Hl. cbv zeta.
  destruct (lc_UseProjectID (fc_Labels cfg)), (g_IsWildcard g) eqn:Ew; simpl;
    try (rewrite selects_snoc, matches_equal; split; [intros [? ?]; split_and!; (done || (intros; by left))|intros (?&?&_); by split]).
  destruct (Z.ltb_spec 0 (Z.of_nat (length (g_ProjectIDs g)))) as [Hlt|Hge].
  2: { destruct (g_ProjectIDs g); [by destruct (Hne eq_refl)|simpl in Hge; lia]. }
  destruct (g_ProjectIDs g) as [|p [|q ps]] eqn:E; [simpl in Hlt; lia| |];
    rewrite !selects_snoc, !matches_equal.
  - rewrite list_elem_of_singleton. naive_solver.
  - unfold matches. simpl. rewrite (Hre (p :: q :: ps)) by (simpl; (lia || congruence)). rewrite bool_decide_eq_true. naive_solver.
Qed.

Lemma groups_literal ts g :
  Forall (λ t, isWildcardTenant t = true ∨ literal (ProjectID t) = true) ts →
  g ∈ optimizeGroups ts → Forall (λ p, literal p = true) (g_ProjectIDs g).
Proof.
  intros Hlit Hg. apply Forall_forall. intros p Hp.
  apply elem_of_optimizeGroups in Hg as [[Hg _]|(ps&Hps&Hg&Hn)]; rewrite Hg in Hp; simpl in Hp.
  { by apply elem_of_nil in Hp. }
  unfold sortStrings in Hp. rewrite dedup_elem, merge_sort_Permutation in Hp.
  destruct (groupTenants_inv ts) as [_ Hgi _]. specialize (Hgi (g_AccountID g) p Hn). rewrite Hps in Hgi.
  apply Hgi in Hp as (t&Ht&_&<-&Hw). rewrite Forall_forall in Hlit. destruct (Hlit t Ht); congruence.
Qed.

(** A selector and its copies for the groups: together they select what the
    selector selects among the visible series. *)
Lemma inject_exact cfg ts ms s :
  regex_alternation →
  Forall (λ t, isWildcardTenant t = true ∨ literal (ProjectID t) = true) ts →
  hasLabel (accountLabel cfg) ms = false →
  (∃ g, g ∈ optimizeGroups ts ∧ selects s (injectTenantToVectorSelector cfg g ms) = true) ↔
  selects s ms = true ∧ visible cfg ts s.
Proof.
  intros Hre Hlit Hl.
  assert (∀ g, g ∈ optimizeGroups ts →
    selects s (injectTenantToVectorSelector cfg g ms) = true ↔
    selects s ms = true ∧ s (accountLabel cfg) = g_AccountID g ∧
    (lc_UseProjectID (fc_Labels cfg) = true →
       g_IsWildcard g = true ∨ s (projectLabel cfg) ∈ g_ProjectIDs g)) as Hg.
  { intros g Hin. apply inject_group; try done.
    - by apply optimizeGroups_nonempty_projects with ts.
    - by eapply groups_literal. }
  unfold visible. destruct (lc_UseProjectID (fc_Labels cfg)).
  - rewrite <- optimizeGroups_exact. split.
    + intros (g&Hin&Hs). apply Hg in Hs as (?&?&?); [|done]. split; [done|].
      exists g. split; [done|]. split; [done|auto].
    + intros (?&g&Hin&?&?). exists g. split; [done|]. by apply Hg.
  - split.
    + intros (g&Hin&Hs). apply Hg in Hs as (?&Ha&_); [|done]. split; [done|].
      assert (g_IsWildcard g = true ∨ ∃ p, p ∈ g_ProjectIDs g) as Hp.
      { destruct (g_IsWildcard g) eqn:Ew; [by left|right].
        pose proof (optimizeGroups_nonempty_projects ts g Hin Ew).
        destruct (g_ProjectIDs g) as [|p]; [done|]. exists p. left. }
      assert (∃ p, groupAllows g (g_AccountID g) p) as [p Hp'].
      { destruct Hp as [?|[p ?]]; [exists ""|exists p]; split; auto. }
      destruct (proj1 (optimizeGroups_exact ts (g_AccountID g) p)) as (t&?&?&_); [by exists g|].
      exists t. split; [done|congruence].
    + intros (?&t&Ht&Ha).
      destruct (proj2 (optimizeGroups_exact ts (AccountID t) (ProjectID t))) as (g&Hin&Hga&_).
      { exists t. auto. }
      exists g. split; [done|]. apply Hg; [done|]. split; [done|]. split; [congruence|done].
Qed.
End Matching.

(* ------------------------------------------------------------------ *)
(** ** The query builder *)

Definition groupOf (t : VMTenant) : Group :=
  if isWildcardTenant t then mkGroup (AccountID t) [] true
  else mkGroup (AccountID t) [ProjectID t] false.

Lemma optimizeGroups_single t : optimizeGroups [t] = [groupOf t].
Proof.
  assert (groupTenants [t] =
    if isWildcardTenant t then mkGrouping ∅ {[AccountID t]}
    else mkGrouping {[AccountID t := [ProjectID t]]} ∅) as Hg.
  { unfold groupTenants. cbn [foldl]. unfold groupTenant. destruct (isWildcardTenant t).
    - cbn [accountGroups accountWildcards]. by rewrite union_empty_r_L.
    - cbn [accountGroups accountWildcards]. by rewrite lookup_empty. }
  unfold optimizeGroups, groupOf. rewrite Hg. destruct (isWildcardTenant t); cbv zeta; unfold collectGroups;
    cbn [accountGroups accountWildcards].
  - rewrite elements_singleton, map_to_list_empty. done.
  - rewrite elements_empty, map_to_list_singleton, filter_cons, decide_True; [done|].
    apply not_elem_of_empty.
Qed.

(** With one tenant the direct injection does what the group's would. *)
Lemma single_tenant_injection cfg t ms :
  injectTenantLabelsToVectorSelector cfg [t] ms = injectTenantToVectorSelector cfg (groupOf t) ms.
Proof.
  unfold injectTenantLabelsToVectorSelector, injectTenantToVectorSelector, addSingleTenantFilter, groupOf,
    isWildcardTenant, str_nonempty.
  destruct (hasLabel _ _); [done|].
  destruct (lc_UseProjectID _), (String.eqb (ProjectID t) ".*"), (String.eqb (ProjectID t) ""); done.
Qed.

Section BuilderLaws.
Context {Expr : Type} `{HP : PromQL Expr, !PromQLLaws Expr}.

(** The selectors of the filtered expression: one copy per group. *)
Definition filteredSelectors (cfg : FilterConfig) (groups : list Group) (e : Expr)
  : list (list Matcher) :=
  concat (map (λ g, map (injectTenantToVectorSelector cfg g) (Selectors e)) groups).

Lemma orExpressions_spec cfg e groups :
  ∃ es, orExpressions cfg e groups = (map Some es, e) ∧
    map Selectors es = map (λ g, map (injectTenantToVectorSelector cfg g) (Selectors e)) groups.
Proof.
  induction groups as [|g groups (es&Hes&Hs)]; [by exists []|]. simpl.
  unfold cloneExpression. destruct (parse_print e) as (e'&-> & He'). rewrite Hes.
  exists (injectTenantToExpression cfg g e' :: es). split; [done|]. simpl.
  unfold injectTenantToExpression. by rewrite selectors_inspect, He', Hs.
Qed.

Lemma foldl_LOR_selectors e es :
  Selectors (foldl LOR e es) = Selectors e ++ concat (map Selectors es).
Proof.
  revert e. induction es as [|e' es IH]; intros e; simpl; [by rewrite app_nil_r|].
  by rewrite IH, selectors_or, app_assoc.
Qed.

Lemma createSecureORExpression_spec cfg ts e :
  ts ≠ [] →
  ∃ e', createSecureORExpression e ts cfg = Returned e' ∧
    Selectors e' = filteredSelectors cfg (optimizeGroups ts) e.
Proof.
  intros Hts. unfold createSecureORExpression, filteredSelectors.
  pose proof (optimizeGroups_nonempty ts Hts) as Hne.
  destruct (optimizeGroups ts) as [|g [|g' gs]]; [done| |].
  - exists (injectTenantToExpression cfg g e). split; [done|]. simpl. rewrite app_nil_r.
    apply selectors_inspect.
  - destruct (orExpressions_spec cfg e (g :: g' :: gs)) as (es&->&Hes).
    assert (map (default e) (map Some es) = es) as ->
      by (rewrite map_map; apply map_id).
    destruct es as [|e0 es]; [done|]. exists (foldl LOR e0 es). split; [done|].
    rewrite foldl_LOR_selectors. by rewrite <- Hes.
Qed.

Lemma BuildSecureQuery_spec cfg ts q e :
  ts ≠ [] → ParseExpr q = Ok e →
  ∃ e', BuildSecureQuery q ts cfg = Returned (Ok (ExprString e')) ∧
    Selectors e' = filteredSelectors cfg (optimizeGroups ts) e.
Proof.
  intros Hts Hq. unfold BuildSecureQuery. destruct ts as [|t [|t' ts]]; [done| |].
  - unfold InjectTenantLabels. rewrite Hq. eexists. split; [done|].
    rewrite optimizeGroups_single. unfold filteredSelectors. simpl. rewrite app_nil_r, selectors_inspect.
    apply map_ext. apply single_tenant_injection.
  - rewrite Hq. destruct (createSecureORExpression_spec cfg (t :: t' :: ts) e) as (e'&->&Hs); [done|].
    by exists e'.
Qed.
End BuilderLaws.

(** C4: For a user with tenants whose project IDs are wildcards or free of the characters
    that are special in a regular expression, under a strategy that validation accepts,
    FilterQuery succeeds on a parsable query, and the filtered query selects exactly the
    visible part: a selector without the account label is narrowed to series of the user's
    tenants and loses none of them; a selector that already has the account label is left
    as it was. (Other project IDs are joined into the pattern unescaped and can widen
    access: see the finding project_ids_are_not_escaped.) *)
Theorem filter_query_exact {Expr} `{HP : PromQL Expr, !PromQLLaws Expr} (re : string → string → bool)
    cfg user q e :
  regex_alternation re →
  TenantFilterStrategy_IsValid (fc_Strategy cfg) = true →
  user_VMTenants user ≠ [] →
  Forall (λ t, isWildcardTenant t = true ∨ literal (ProjectID t) = true) (user_VMTenants user) →
  ParseExpr q = Ok e →
  ∃ e' calls,
    FilterQuery cfg user q = Returned (Ok (ExprString e'), calls) ∧
    (∀ ms', ms' ∈ Selectors e' → ∃ ms, ms ∈ Selectors e ∧
       ((hasLabel (accountLabel cfg) ms = true ∧ ms' = ms) ∨
        (hasLabel (accountLabel cfg) ms = false ∧
         ∀ s, selects re s ms' = true →
           selects re s ms = true ∧ visible cfg (user_VMTenants user) s))) ∧
    (∀ ms s, ms ∈ Selectors e → hasLabel (accountLabel cfg) ms = false →
       selects re s ms = true → visible cfg (user_VMTenants user) s →
       ∃ ms', ms' ∈ Selectors e' ∧ selects re s ms' = true).
Proof.
  intros Hre Hst Hts Hlit Hq.
  destruct (BuildSecureQuery_spec cfg (user_VMTenants user) q e Hts Hq) as (e'&Hb&Hs).
  exists e', [RecordQueryFilter (user_ID user) (Z.of_nat (length (user_VMTenants user)))
                (negb (String.eqb q (ExprString e')))].
  split.
  { unfold FilterQuery. rewrite Hst, Hb. by destruct (user_VMTenants user). }
  assert (Hin : ∀ ms', ms' ∈ Selectors e' ↔ ∃ g ms, g ∈ optimizeGroups (user_VMTenants user) ∧
    ms ∈ Selectors e ∧ ms' = injectTenantToVectorSelector cfg g ms).
  { intros ms'. rewrite Hs. unfold filteredSelectors. rewrite list_elem_of_In, in_concat.
    setoid_rewrite in_map_iff. split.
    - intros (l&(g&<-&Hg)&(ms&<-&Hms)%in_map_iff). exists g, ms. by rewrite !list_elem_of_In.
    - intros (g&ms&Hg&Hms&->). eexists. split; [exists g; split; [done|by apply list_elem_of_In]|].
      apply in_map. by apply list_elem_of_In. }
  split.
  - intros ms' (g&ms&Hg&Hms&->)%Hin. exists ms. split; [done|].
    destruct (hasLabel (accountLabel cfg) ms) eqn:Hl; [left|right]; (split; [done|]).
    { unfold injectTenantToVectorSelector. by rewrite Hl. }
    intros s Hsel. apply (inject_exact re cfg _ ms s Hre Hlit Hl). by exists g.
  - intros ms s Hms Hl Hsel Hv.
    destruct (proj2 (inject_exact re cfg _ ms s Hre Hlit Hl)) as (g&Hg&Hg'); [done|].
    exists (injectTenantToVectorSelector cfg g ms). split; [apply Hin; by exists g, ms|done].
Qed.

(** A selector that already names the account label is passed on as it is,
    whatever account it names. *)
Lemma explicit_label_bypass :
  let cfg := mkFilterConfig "orConditions" (mkLabels "" "" true) in
  let ms := [mkMatcher MatchEqual "vm_account_id" "other"] in
  injectTenantToVectorSelector cfg (mkGroup "1" [] true) ms = ms.
Proof. reflexivity. Qed.

(** Project IDs go into the pattern as they are: one with a metacharacter is
    compared literally while it is the only one of its account, and reads as a
    pattern beside another one. A user of the projects 7 and 8.* then sees 81. *)
Lemma project_ids_are_not_escaped (re : string → string → bool) :
  re "(7|8.*)" "81" = true →
  let cfg := mkFilterConfig "orConditions" (mkLabels "" "" true) in
  let alone := [mkVMTenant "1" "8.*"] in
  let both := [mkVMTenant "1" "7"; mkVMTenant "1" "8.*"] in
  let s := λ label : string, if String.eqb label "vm_account_id" then "1" else "81" in
  ¬ visible cfg both s ∧
  map (λ g, selects re s (injectTenantToVectorSelector cfg g [])) (optimizeGroups alone) = [false] ∧
  map (λ g, selects re s (injectTenantToVectorSelector cfg g [])) (optimizeGroups both) = [true].
Proof.
  intros Hre cfg alone both s. split; [|split].
  - intros (t&Ht&_&Hp). apply elem_of_cons in Ht as [->|Ht]; [|apply list_elem_of_singleton in Ht as ->];
      vm_compute in Hp; naive_solver.
  - vm_compute. reflexivity.
  - assert (optimizeGroups both = [mkGroup "1" ["7"; "8.*"] false]) as -> by (vm_compute; reflexivity).
    unfold selects, matches. simpl. change (joinProjects _) with "(7|8.*)". change (s (projectLabel cfg)) with "81".
    by rewrite Hre.
Qed.

(* ------------------------------------------------------------------ *)
(** ** Target tenants of writes *)

Lemma CanAccessTenant_spec user id :
  (CanAccessTenant user id).1 = true ↔
  ∃ t, t ∈ user_VMTenants user ∧ (AccountID t = id ∨ VMTenant_String t = id).
Proof.
  unfold CanAccessTenant. simpl. rewrite existsb_exists. unfold tenantMatches.
  split; intros (t&Ht&Hm); exists t; rewrite list_elem_of_In in *.
  - by rewrite orb_true_iff, !String.eqb_eq in Hm.
  - by rewrite orb_true_iff, !String.eqb_eq.
Qed.

(** The target tenant is one of the user's tenants: the one named by X-Prometheus-Tenant,
    else by X-Tenant-ID, else the first one; the call fails exactly with the missing-
    tenants error or with status 403 when the named tenant is none of the user's. *)
Theorem determine_target_tenant_spec user h :
  match (DetermineTargetTenant user h).1 with
  | Ok target =>
      ∃ t, t ∈ user_VMTenants user ∧ (AccountID t = target ∨ VMTenant_String t = target) ∧
        (Header_Get h "X-Prometheus-Tenant" ≠ "" → target = Header_Get h "X-Prometheus-Tenant") ∧
        (Header_Get h "X-Prometheus-Tenant" = "" → Header_Get h "X-Tenant-ID" ≠ "" →
           target = Header_Get h "X-Tenant-ID") ∧
        (Header_Get h "X-Prometheus-Tenant" = "" → Header_Get h "X-Tenant-ID" = "" →
           Some target = VMTenant_String <$> head (user_VMTenants user))
  | Err e =>
      (user_VMTenants user = [] ∧ e = EApp ErrNoVMTenants) ∨
      ∃ id a, (id = Header_Get h "X-Prometheus-Tenant" ∨
               Header_Get h "X-Prometheus-Tenant" = "" ∧ id = Header_Get h "X-Tenant-ID") ∧
        id ≠ "" ∧ e = EApp a ∧ HTTPStatus a = StatusForbidden ∧
        ∀ t, t ∈ user_VMTenants user → AccountID t ≠ id ∧ VMTenant_String t ≠ id
  end.
Proof.
  unfold DetermineTargetTenant. destruct (user_VMTenants user) as [|t ts] eqn:Hts; [by left|].
  assert (Hacc : ∀ id, (CanAccessTenant user id).1 = true ↔
    ∃ t', t' ∈ t :: ts ∧ (AccountID t' = id ∨ VMTenant_String t' = id))
    by (intros id; by rewrite <- Hts; apply CanAccessTenant_spec).
  assert (Hno : ∀ id, (CanAccessTenant user id).1 = false →
    ∀ t', t' ∈ t :: ts → AccountID t' ≠ id ∧ VMTenant_String t' ≠ id).
  { intros id Hf t' Ht'. pose proof (proj2 (Hacc id)) as Hx. rewrite Hf in Hx.
    split; intros E; discriminate Hx; eauto. }
  unfold tenantHeaders, headerTenant.
  set (h1 := Header_Get h "X-Prometheus-Tenant"). set (h2 := Header_Get h "X-Tenant-ID").
  unfold str_nonempty. destruct (String.eqb_spec h1 "") as [E1|N1]; simpl negb; cbv iota.
  - destruct (String.eqb_spec h2 "") as [E2|N2]; simpl negb; cbv iota.
    + exists t. split; [left|]. split; [by right|]. naive_solver.
    + specialize (Hacc h2). specialize (Hno h2). destruct (CanAccessTenant user h2) as [[] calls]; simpl in *.
      * destruct (proj1 Hacc eq_refl) as (t'&?&?). exists t'. naive_solver.
      * right. exists h2. eexists. naive_solver.
  - specialize (Hacc h1). specialize (Hno h1). destruct (CanAccessTenant user h1) as [[] calls]; simpl in *.
    + destruct (proj1 Hacc eq_refl) as (t'&?&?). exists t'. naive_solver.
    + right. exists h1. eexists. naive_solver.
Qed.

(** A user restricted to one project may name the account alone. *)
Lemma account_header_widens :
  let user := mkUser "u" "" "" [] [] [mkVMTenant "1" "7"] false 0 in
  (CanAccessTenant user "1").1 = true ∧ VMTenant_String (mkVMTenant "1" "7") = "1:7".
Proof. by vm_compute. Qed.

(* ------------------------------------------------------------------ *)
(** ** A concrete parser for the witness

    Expressions are lists of selectors, printed through an injective
    encoding. *)

#[export] Instance MatchType_countable : Countable MatchType.
Proof.
  refine (inj_countable'
    (λ m, match m with MatchEqual => 0 | MatchNotEqual => 1 | MatchRegexp => 2 | MatchNotRegexp => 3 end)
    (λ n, match n with 0 => MatchEqual | 1 => MatchNotEqual | 2 => MatchRegexp | _ => MatchNotRegexp end) _).
  by intros [].
Defined.

#[export] Instance Matcher_countable : Countable Matcher.
Proof.
  refine (inj_countable' (λ m, (mt_Type m, mt_Name m, mt_Value m))
    (λ '(t, n, v), mkMatcher t n v) _). by intros [].
Defined.

Fixpoint ones (n : nat) : string :=
  match n with 0 => "" | S n' => String.String "1"%char (ones n') end.

Lemma ones_length n : String.length (ones n) = n.
Proof. induction n; simpl; congruence. Qed.

Definition toyExpr : Type := list (list Matcher).

#[export] Instance toyPromQL : PromQL toyExpr := {
  ParseExpr s := match decode_nat (String.length s) with Some e => Ok e | None => Err (EText "parse error") end;
  ExprString e := ones (encode_nat e);
  Inspect f e := map f e;
  LOR a b := a ++ b;
  Selectors e := e
}.

Lemma toyParse (e : toyExpr) : ParseExpr (ExprString e) = Ok e.
Proof. cbn [ParseExpr ExprString toyPromQL]. by rewrite ones_length, decode_encode_nat. Qed.

#[export] Instance toyPromQLLaws : PromQLLaws toyExpr.
Proof. split; [done|done|]. intros e. exists e. split; [apply toyParse|done]. Qed.

(** Matches a parenthesised alternation by splitting it. *)
Definition toyRegex (pattern v : string) : bool :=
  existsb (String.eqb v) (split "|"%char (String.substring 1 (String.length pattern - 2) pattern)).

Lemma substring_prefix a b : String.substring 0 (String.length a) (a +:+ b) = a.
Proof. induction a as [|c a IH]; simpl; [by destruct b|]. by rewrite IH. Qed.

Lemma string_length_app a b : String.length (a +:+ b) = (String.length a + String.length b)%nat.
Proof. induction a as [|c a IH]; [done|].
  change (String.String c a +:+ b) with (String.String c (a +:+ b)). simpl. by rewrite IH.
Qed.

Lemma literal_no_bar p : literal p = true → "|"%char ∉ bytes p.
Proof.
  unfold literal. rewrite forallb_forall. intros H Hin. apply list_elem_of_In in Hin.
  specialize (H _ Hin). by vm_compute in H.
Qed.

Lemma toyRegex_alternation : regex_alternation toyRegex.
Proof.
  intros ps v Hlen Hlit. unfold toyRegex, joinProjects.
  set (body := String.concat "|" ps).
  assert (String.substring 1 (String.length ("(" +:+ body +:+ ")") - 2) ("(" +:+ body +:+ ")") = body) as ->.
  { change ("(" +:+ ?x) with (String.String "("%char x). simpl. rewrite string_length_app. simpl.
    replace (String.length body + 1 - 1)%nat with (String.length body) by lia. apply substring_prefix. }
  unfold body. change "|" with (String.String "|"%char ""). rewrite split_concat.
  - destruct (existsb (String.eqb v) ps) eqn:E; symmetry.
    + apply bool_decide_eq_true. apply existsb_exists in E as (x&Hx&->%String.eqb_eq).
      by apply list_elem_of_In.
    + apply bool_decide_eq_false. intros Hv.
      assert (existsb (String.eqb v) ps = true) as Ht; [|by rewrite Ht in E].
      apply existsb_exists. exists v. rewrite String.eqb_refl. by rewrite <- list_elem_of_In.
  - destruct ps; [simpl in Hlen; lia|done].
  - eapply Forall_impl; [exact Hlit|]. apply literal_no_bar.
Qed.

Definition sampleTenantConfig : FilterConfig := mkFilterConfig "orConditions" (mkLabels "" "" true).
Definition sampleUser : User := mkUser "alice" "" "" ["team"] [] twoTenants false 0.
Definition sampleExpr : toyExpr := [[mkMatcher MatchEqual "__name__" "up"]].

Lemma filter_query_exact_witness :
  ∃ e' calls,
    FilterQuery sampleTenantConfig sampleUser (ExprString sampleExpr) = Returned (Ok (ExprString e'), calls) ∧
    ∀ s, s "__name__" = "up" → s "vm_account_id" = "2" → s "vm_project_id" = "9" →
      ∃ ms', ms' ∈ Selectors e' ∧ selects toyRegex s ms' = true.
Proof.
  destruct (filter_query_exact toyRegex sampleTenantConfig sampleUser (ExprString sampleExpr) sampleExpr)
    as (e'&calls&H1&_&H3).
  - apply toyRegex_alternation.
  - reflexivity.
  - discriminate.
  - repeat constructor; (by left) || (by right).
  - apply toyParse.
  - exists e', calls. split; [exact H1|]. intros s Hn Ha Hp.
    apply (H3 [mkMatcher MatchEqual "__name__" "up"] s).
    + left.
    + reflexivity.
    + unfold selects, matches. simpl. by rewrite Hn.
    + exists (mkVMTenant "2" ".*"). split; [right; left|]. split; [by symmetry|by left].
Defined.
