(* ===== verification/Auth.v ===== *)
(** * Auth: internal/services/auth

    jwks.go, jwt_verifier.go and service.go. Parsing and signature checking
    are the golang-jwt library: an interface ([JWT]) whose documented
    behaviour is the hypothesis [JWTLaws]. The answer of the JWKS endpoint is
    an argument. Clock readings are nanoseconds. *)

From Stdlib Require Import Ascii.
From S2P Require Import Prelude GoStd Errors Domain Config.

(* ------------------------------------------------------------------ *)
(** ** base64.RawURLEncoding and big integers *)

Definition base64Value (c : ascii) : option Z :=
  let n := Z.of_N (N_of_ascii c) in
  if bool_decide (65 ≤ n ≤ 90)%Z then Some (n - 65)%Z
  else if bool_decide (97 ≤ n ≤ 122)%Z then Some (n - 71)%Z
  else if bool_decide (48 ≤ n ≤ 57)%Z then Some (n + 4)%Z
  else if (n =? 45)%Z then Some 62%Z
  else if (n =? 95)%Z then Some 63%Z
  else None.

(** The sextets of a text; line breaks are skipped. *)
Fixpoint sextets (s : list ascii) : option (list Z) :=
  match s with
  | [] => Some []
  | c :: s' =>
      if Ascii.eqb c "010" || Ascii.eqb c "013" then sextets s'
      else match base64Value c, sextets s' with
           | Some v, Some vs => Some (v :: vs)
           | _, _ => None
           end
  end.

(** Four sextets make three bytes; a rest of two or three makes one or two. *)
Fixpoint fromSextets (vs : list Z) : option (list Z) :=
  match vs with
  | a :: b :: c :: d :: rest =>
      (λ bs, (4 * a + b / 16)%Z :: (16 * (b mod 16) + c / 4)%Z :: (64 * (c mod 4) + d)%Z :: bs)
      <$> fromSextets rest
  | [a; b; c] => Some [(4 * a + b / 16)%Z; (16 * (b mod 16) + c / 4)%Z]
  | [a; b] => Some [(4 * a + b / 16)%Z]
  | [_] => None
  | [] => Some []
  end.

Definition decodeBase64 (s : string) : option (list Z) :=
  sextets (String.list_ascii_of_string s) ≫= fromSextets.

(** big.Int.SetBytes: big-endian. *)
Definition bigFromBytes (bs : list Z) : Z := foldl (λ acc b, 256 * acc + b)%Z 0%Z bs.

(* ------------------------------------------------------------------ *)
(** ** jwks.go *)

Record JWK := mkJWK {
  jk_Kty : string; jk_Use : string; jk_Kid : string; jk_N : string; jk_E : string; jk_Alg : string
}.

Record PublicKey := mkPublicKey { pk_N : Z; pk_E : Z }.

Record JWKSFetcher := mkFetcher {
  jf_jwksURL : string;
  jf_cache : gmap string PublicKey;
  jf_cacheTime : Z;
  jf_cacheTTL : Z
}.

Definition NewJWKSFetcher (jwksURL : string) (cacheTTL : Z) : JWKSFetcher :=
  mkFetcher jwksURL ∅ 0 cacheTTL.

Definition jwkToRSAPublicKey (jwk : JWK) : result PublicKey :=
  if String.eqb (jk_N jwk) "" then Err (EText "missing required field 'n' (modulus) in JWK")
  else if String.eqb (jk_E jwk) "" then Err (EText "missing required field 'e' (exponent) in JWK")
  else
    match decodeBase64 (jk_N jwk) with
    | None => Err (EWrap "failed to decode n" (EText "illegal base64 data"))
    | Some nBytes =>
        match decodeBase64 (jk_E jwk) with
        | None => Err (EWrap "failed to decode e" (EText "illegal base64 data"))
        | Some eBytes => Ok (mkPublicKey (bigFromBytes nBytes) (wrap64 (bigFromBytes eBytes)))
        end
    end.

(** What the endpoint answers: the failures of NewRequest and Do, or a status
    with the outcome of reading and parsing the body. *)
Inductive fetchBody :=
| BodyRead (err : goError)
| BodyParse (err : goError)
| BodyKeys (keys : list JWK).

Inductive fetchResult :=
| FetchRequest (err : goError)
| FetchDo (err : goError)
| FetchResponse (statusCode : Z) (body : fetchBody).

(** The loop over the keys. *)
Definition storeKey (cache : gmap string PublicKey) (jwk : JWK) : gmap string PublicKey :=
  if String.eqb (jk_Kty jwk) "RSA" && (String.eqb (jk_Use jwk) "sig" || String.eqb (jk_Use jwk) "") then
    match jwkToRSAPublicKey jwk with
    | Ok key => <[jk_Kid jwk := key]> cache
    | Err _ => cache
    end
  else cache.

Definition fetchJWKS (f : JWKSFetcher) (answer : fetchResult) (now : Z)
  : option goError * JWKSFetcher :=
  match answer with
  | FetchRequest err => (Some (errorf_w "failed to create request" err), f)
  | FetchDo err => (Some (errorf_w ("failed to fetch JWKS from " +:+ jf_jwksURL f) err), f)
  | FetchResponse code body =>
      if negb (code =? 200)%Z then
        (Some (EWrap (Error (EApp ErrJWKSEndpointError) +:+ ": status " +:+ itoa code)
                 (EApp ErrJWKSEndpointError)), f)
      else
        match body with
        | BodyRead err => (Some (errorf_w "failed to read JWKS response" err), f)
        | BodyParse err => (Some (errorf_w "failed to parse JWKS" err), f)
        | BodyKeys keys =>
            (None, mkFetcher (jf_jwksURL f) (foldl storeKey ∅ keys) now (jf_cacheTTL f))
        end
  end.

Definition GetPublicKey (f : JWKSFetcher) (kid : string) (answer : fetchResult) (now : Z)
  : result PublicKey * JWKSFetcher :=
  let fetch :=
    let '(err, f') := fetchJWKS f answer now in
    match err with
    | Some e => (Err (errorf_w "failed to fetch JWKS" e), f')
    | None =>
        match jf_cache f' !! kid with
        | Some key => (Ok key, f')
        | None => (Err (EWrap (Error (EApp ErrJWKSKeyNotFound) +:+ ": kid '" +:+ kid +:+ "'")
                          (EApp ErrJWKSKeyNotFound)), f')
        end
    end in
  match jf_cache f !! kid with
  | Some key => if (now - jf_cacheTime f <? jf_cacheTTL f)%Z then (Ok key, f) else fetch
  | None => fetch
  end.

(* ------------------------------------------------------------------ *)
(** ** jwt_verifier.go *)

Inductive SigningMethod := SigningMethodRSA | SigningMethodHMAC | SigningMethodOther (alg : string).

#[export] Instance SigningMethod_eq_dec : EqDecision SigningMethod.
Proof. solve_decision. Defined.

(** A parsed token: its method, the alg and kid headers, and the Valid flag. *)
Record Token := mkToken {
  tk_Method : SigningMethod; tk_alg : string; tk_kid : option string; tk_Valid : bool
}.

Record Claims := mkClaims {
  cl_Email : string; cl_Groups : option (list string); cl_UserID : string;
  cl_ExpiresAt : Z; cl_IssuedAt : Z; cl_NotBefore : Z; cl_Issuer : string; cl_Audience : string
}.

Inductive Key := RSAKey (k : PublicKey) | SecretKey (secret : string).

Record JWTVerifier := mkVerifier {
  jv_publicKey : option PublicKey;
  jv_secret : string;
  jv_algorithm : string;
  jv_jwksFetcher : option JWKSFetcher
}.

Definition NewJWTVerifier (publicKey : option PublicKey) (secret algorithm : string) : JWTVerifier :=
  mkVerifier publicKey secret algorithm None.

Definition NewJWKSVerifier (jwksURL algorithm : string) (cacheTTL : Z) : JWTVerifier :=
  mkVerifier None "" algorithm (Some (NewJWKSFetcher jwksURL cacheTTL)).

Definition withFetcher (v : JWTVerifier) (f : JWKSFetcher) : JWTVerifier :=
  mkVerifier (jv_publicKey v) (jv_secret v) (jv_algorithm v) (Some f).

Definition getKeyFromJWKS (v : JWTVerifier) (token : Token) (answer : fetchResult) (now : Z)
  : result Key * JWTVerifier :=
  match jv_jwksFetcher v with
  | None => (Err (EApp ErrNoPublicKeyConfigured), v)
  | Some f =>
      match tk_kid token with
      | None => (Err (EApp ErrTokenMissingKid), v)
      | Some kid =>
          let '(r, f') := GetPublicKey f kid answer now in
          match r with
          | Err err => (Err (errorf_w "failed to get public key from JWKS" err), withFetcher v f')
          | Ok key => (Ok (RSAKey key), withFetcher v f')
          end
      end
  end.

Definition unexpectedMethod (token : Token) : goError :=
  EWrap (Error (EApp ErrUnexpectedSigningMethod) +:+ ": " +:+ tk_alg token)
    (EApp ErrUnexpectedSigningMethod).

Definition handleRSAKey (v : JWTVerifier) (token : Token) (answer : fetchResult) (now : Z)
  : result Key * JWTVerifier :=
  if negb (bool_decide (tk_Method token = SigningMethodRSA)) then (Err (unexpectedMethod token), v)
  else
    match jv_publicKey v with
    | Some key => (Ok (RSAKey key), v)
    | None => getKeyFromJWKS v token answer now
    end.

Definition handleHMACKey (v : JWTVerifier) (token : Token) : result Key * JWTVerifier :=
  if negb (bool_decide (tk_Method token = SigningMethodHMAC)) then (Err (unexpectedMethod token), v)
  else (Ok (SecretKey (jv_secret v)), v).

Definition keyFunc (answer : fetchResult) (now : Z) (token : Token) (v : JWTVerifier)
  : result Key * JWTVerifier :=
  if String.eqb (jv_algorithm v) "RS256" then handleRSAKey v token answer now
  else if String.eqb (jv_algorithm v) "HS256" then handleHMACKey v token
  else (Err (EWrap (Error (EApp ErrUnsupportedSigningMethod) +:+ ": " +:+ jv_algorithm v)
               (EApp ErrUnsupportedSigningMethod)), v).

(** time.Time.Unix *)
Definition unixSeconds (now : Z) : Z := (now / Second)%Z.

Definition validateClaims (claims : Claims) (now : Z) : option goError :=
  let now := unixSeconds now in
  if (cl_ExpiresAt claims =? 0)%Z then Some (EApp ErrInvalidTokenClaims)
  else if (cl_IssuedAt claims =? 0)%Z then Some (EApp ErrInvalidTokenClaims)
  else if (cl_ExpiresAt claims <? now)%Z then Some (EApp ErrTokenExpiredClaims)
  else if (0 <? cl_NotBefore claims)%Z && (now <? cl_NotBefore claims)%Z then Some (EApp ErrTokenNotValid)
  else if (now <? cl_IssuedAt claims)%Z then Some (EApp ErrTokenNotValid)
  else None.

(** jwt.ParseWithClaims, for a key function that may change its receiver. *)
Class JWT := {
  ParseWithClaims :
    string → (Token → JWTVerifier → result Key * JWTVerifier) → JWTVerifier →
    result (Token * Claims) * JWTVerifier;
  (* the token's signature is valid for its method under the key *)
  signedBy : string → SigningMethod → Key → Prop;
  (* the claims the token's payload decodes to *)
  payload : string → option Claims
}.

Class JWTLaws `{JWT} := {
  parse_accepts s kf v token claims v' :
    ParseWithClaims s kf v = (Ok (token, claims), v') →
    ∃ key, kf token v = (Ok key, v') ∧ signedBy s (tk_Method token) key ∧ payload s = Some claims;
  parse_effect s kf v :
    (ParseWithClaims s kf v).2 = v ∨ ∃ token, (ParseWithClaims s kf v).2 = (kf token v).2
}.

(** When the clock is read during one authentication. *)
Record Clock := mkClock { at_lookup : Z; at_fetch : Z; at_validate : Z; at_store : Z }.

Definition VerifyToken `{JWT} (v : JWTVerifier) (tokenString : string) (answer : fetchResult) (c : Clock)
  : result Claims * JWTVerifier :=
  let '(r, v') := ParseWithClaims tokenString (keyFunc answer (at_fetch c)) v in
  match r with
  | Err err => (Err (errorf_w "failed to parse token" err), v')
  | Ok (token, claims) =>
      if negb (tk_Valid token) then (Err (EApp ErrInvalidToken), v')
      else
        match validateClaims claims (at_validate c) with
        | Some e => (Err e, v')
        | None => (Ok claims, v')
        end
  end.

(* ------------------------------------------------------------------ *)
(** ** service.go *)

Record cachedUser := mkCachedUser { cu_user : User; cu_expiresAt : Z }.

Record Service := mkAuthService {
  as_tenantMaps : list MappingConfig;
  as_verifier : JWTVerifier;
  as_userCache : gmap string cachedUser;
  as_cacheTTL : Z
}.

Definition NewService (cfg : JWTConfig) (tenantMaps : list MappingConfig) : result Service :=
  if str_nonempty (jw_Secret cfg)
  then Ok (mkAuthService tenantMaps (NewJWTVerifier None (jw_Secret cfg) (jw_Algorithm cfg)) ∅
             (cc_TokenTTL (jw_Cache cfg)))
  else if str_nonempty (jw_JwksURL cfg)
  then Ok (mkAuthService tenantMaps
             (NewJWKSVerifier (jw_JwksURL cfg) (jw_Algorithm cfg) (cc_JwksTTL (jw_Cache cfg))) ∅
             (cc_TokenTTL (jw_Cache cfg)))
  else Err (EText "jWT authentication requires either jwt_secret or jwks_url to be configured").

Definition extractGroups (claims : Claims) : list string := default [] (cl_Groups claims).

Definition hasGroupMatch (userGroups requiredGroups : list string) : bool :=
  existsb (slices_contains requiredGroups) userGroups.

Definition hasWritePermission (perms : list string) : bool := existsb (String.eqb "write") perms.

(** The loops that drop duplicates, with their map of seen keys. *)
Fixpoint removeDuplicatesLoop {A} (key : A → string) (keys : gset string) (l : list A) : list A :=
  match l with
  | [] => []
  | item :: rest =>
      if bool_decide (key item ∈ keys) then removeDuplicatesLoop key keys rest
      else item :: removeDuplicatesLoop key ({[key item]} ∪ keys) rest
  end.

Definition removeDuplicates (slice : list string) : list string :=
  removeDuplicatesLoop (λ s, s) ∅ slice.

Definition removeDuplicateVMTenants (tenants : list VMTenant) : list VMTenant :=
  removeDuplicatesLoop VMTenant_String ∅ tenants.

Definition mappingTenants (m : MappingConfig) : list VMTenant :=
  map (λ t, mkVMTenant (vt_Account t) (vt_Project t)) (mp_VMTenants m).

(** One iteration of the loop over the mappings: tenants, read-only flag,
    and whether some mapping matched. *)
Definition applyMapping (userGroups : list string) (acc : list VMTenant * bool * bool)
    (mapping : MappingConfig) : list VMTenant * bool * bool :=
  let '(vmTenants, readOnly, hasMatchingGroups) := acc in
  if hasGroupMatch userGroups (mp_Groups mapping)
  then (vmTenants ++ mappingTenants mapping,
        if negb (hasWritePermission (mp_Permissions mapping)) then true else readOnly, true)
  else acc.

Definition determineUserPermissions (tenantMaps : list MappingConfig) (userGroups : list string)
  : list string * list VMTenant * bool :=
  let '(vmTenants, readOnly, hasMatchingGroups) :=
    foldl (applyMapping userGroups) ([], false, false) tenantMaps in
  let readOnly := if negb hasMatchingGroups then false else readOnly in
  (removeDuplicates [], removeDuplicateVMTenants vmTenants, readOnly).

(** The user made from verified claims; times are nanoseconds. *)
Definition userOf (tenantMaps : list MappingConfig) (claims : Claims) : User :=
  let groups := extractGroups claims in
  let '(allowedTenants, vmTenants, readOnly) := determineUserPermissions tenantMaps groups in
  mkUser (cl_UserID claims) (cl_Email claims) "" groups allowedTenants vmTenants readOnly
    (cl_ExpiresAt claims * Second).

Definition withCache (s : Service) (v : JWTVerifier) (cache : gmap string cachedUser) : Service :=
  mkAuthService (as_tenantMaps s) v cache (as_cacheTTL s).

Definition authError (code message : string) : goError :=
  EApp (mkAppError code message StatusUnauthorized None).

(** The part of Authenticate after the cache lookup, which leaves [cache]. *)
Definition verifyAndCache `{JWT} (s : Service) (cache : gmap string cachedUser) (token : string)
    (answer : fetchResult) (c : Clock) : result User * Service * list metricCall :=
  let '(r, v') := VerifyToken (as_verifier s) token answer c in
  match r with
  | Err _ =>
      (Err (authError "invalid_token" "Invalid or expired token"), withCache s v' cache,
       [RecordAuthAttempt "unknown" "failed"])
  | Ok claims =>
      if String.eqb (cl_UserID claims) "" then
        (Err (authError "invalid_claims" "Missing required user ID claim"), withCache s v' cache, [])
      else
        let user := userOf (as_tenantMaps s) claims in
        (Ok user,
         withCache s v' (<[token := mkCachedUser user (at_store c + as_cacheTTL s)]> cache),
         [RecordAuthAttempt (user_ID user) "success"])
  end.

Definition Authenticate `{JWT} (s : Service) (token : string) (answer : fetchResult) (c : Clock)
  : result User * Service * list metricCall :=
  if String.eqb token "" then
    (Err (authError "missing_token" "Authorization token is required"), s, [])
  else
    let token := trimPrefix token "Bearer " in
    match as_userCache s !! token with
    | Some cached =>
        if (at_lookup c <? cu_expiresAt cached)%Z then (Ok (cu_user cached), s, [])
        else verifyAndCache s (delete token (as_userCache s)) token answer c
    | None => verifyAndCache s (as_userCache s) token answer c
    end.

Definition CleanupCache (s : Service) (now : Z) : Service :=
  withCache s (as_verifier s) (filter (λ kv, ¬ (cu_expiresAt kv.2 < now)%Z) (as_userCache s)).

(* ------------------------------------------------------------------ *)
(** ** Permissions *)







(** Two tenants with the same printed form: the second is dropped. *)
Lemma tenant_string_collision :
  removeDuplicateVMTenants [mkVMTenant "1:2" "3"; mkVMTenant "1" "2:3"] = [mkVMTenant "1:2" "3"].
Proof. vm_compute. reflexivity. Qed.

(* ------------------------------------------------------------------ *)
(** ** Every authenticated user comes from a verified token *)

(** A key of the answers the JWKS endpoint gave. *)
Definition served (answers : list fetchResult) (pk : PublicKey) : Prop :=
  ∃ keys jwk, FetchResponse 200 (BodyKeys keys) ∈ answers ∧ jwk ∈ keys ∧ jwkToRSAPublicKey jwk = Ok pk.

Lemma served_mono a1 a2 pk : (∀ a, a ∈ a1 → a ∈ a2) → served a1 pk → served a2 pk.
Proof. intros H (keys&jwk&?&?&?). exists keys, jwk. auto. Qed.

Lemma storeKey_fold keys m kid pk :
  foldl storeKey m keys !! kid = Some pk →
  m !! kid = Some pk ∨ ∃ jwk, jwk ∈ keys ∧ jwkToRSAPublicKey jwk = Ok pk.
Proof.
  revert m. induction keys as [|k keys IH]; intros m; simpl; [auto|]. intros H.
  apply IH in H as [H|(jwk&?&?)]; [|right; exists jwk; split; [by right|done]].
  unfold storeKey in H. destruct (_ && _); [|auto]. destruct (jwkToRSAPublicKey k) eqn:E; [|auto].
  destruct (decide (jk_Kid k = kid)) as [<-|Hne].
  - rewrite lookup_insert_eq in H. simplify_eq. right. exists k. split; [left|done].
  - rewrite lookup_insert_ne in H by done. auto.
Qed.

Definition fetcher_inv (answers : list fetchResult) (f : JWKSFetcher) : Prop :=
  ∀ kid pk, jf_cache f !! kid = Some pk → served answers pk.

Lemma fetcher_inv_mono a1 a2 f :
  (∀ a, a ∈ a1 → a ∈ a2) → fetcher_inv a1 f → fetcher_inv a2 f.
Proof. intros H Hf kid pk Hk. eapply served_mono; eauto. Qed.

Lemma fetchJWKS_inv answers f answer now :
  fetcher_inv answers f → fetcher_inv (answers ++ [answer]) (fetchJWKS f answer now).2.
Proof.
  intros Hf.
  assert (fetcher_inv (answers ++ [answer]) f) as Hf'
    by (eapply fetcher_inv_mono; [|done]; intros; apply elem_of_app; by left).
  unfold fetchJWKS. destruct answer as [e|e|code body]; [done..|].
  destruct (Z.eqb_spec code 200) as [->|]; simpl; [|done]. destruct body as [e|e|keys]; [done..|].
  intros kid pk Hk. simpl in Hk. apply storeKey_fold in Hk as [Hk|(jwk&Hj&Hk)]; [by rewrite lookup_empty in Hk|].
  exists keys, jwk. split; [|done]. apply elem_of_app. right. by apply list_elem_of_singleton.
Qed.

Lemma GetPublicKey_inv answers f kid answer now :
  fetcher_inv answers f →
  let '(r, f') := GetPublicKey f kid answer now in
  fetcher_inv (answers ++ [answer]) f' ∧ ∀ pk, r = Ok pk → served (answers ++ [answer]) pk.
Proof.
  intros Hf.
  assert (fetcher_inv (answers ++ [answer]) f) as Hf'
    by (eapply fetcher_inv_mono; [|done]; intros; apply elem_of_app; by left).
  pose proof (fetchJWKS_inv answers f answer now Hf) as Hg.
  unfold GetPublicKey. destruct (fetchJWKS f answer now) as [err f1]. simpl in Hg.
  assert (Hfetch : let '(r, f') :=
    match err with
    | Some e => (Err (errorf_w "failed to fetch JWKS" e), f1)
    | None => match jf_cache f1 !! kid with
        | Some key => (Ok key, f1)
        | None => (Err (EWrap (Error (EApp ErrJWKSKeyNotFound) +:+ ": kid '" +:+ kid +:+ "'")
                          (EApp ErrJWKSKeyNotFound)), f1)
        end
    end in
    fetcher_inv (answers ++ [answer]) f' ∧ ∀ pk, r = Ok pk → served (answers ++ [answer]) pk).
  { destruct err; [done|]. destruct (jf_cache f1 !! kid) eqn:E; [|done].
    split; [done|]. intros pk [= <-]. by eapply Hg. }
  destruct (jf_cache f !! kid) eqn:E; [|exact Hfetch].
  destruct (_ <? _)%Z; [|exact Hfetch]. split; [done|]. intros pk [= <-]. by eapply Hf'.
Qed.

Section Authenticity.
Context {HJ : JWT} {HL : JWTLaws}.
Context (cfg : JWTConfig) (maps : list MappingConfig).

(** The method and the key a token may be verified with. *)
Definition accepted (answers : list fetchResult) (m : SigningMethod) (key : Key) : Prop :=
  (jw_Algorithm cfg = "HS256" ∧ m = SigningMethodHMAC ∧ key = SecretKey (jw_Secret cfg)) ∨
  (jw_Algorithm cfg = "RS256" ∧ m = SigningMethodRSA ∧ ∃ pk, key = RSAKey pk ∧ served answers pk).

Definition authentic (answers : list fetchResult) (token : string) (claims : Claims) : Prop :=
  ∃ m key, accepted answers m key ∧ signedBy token m key ∧ payload token = Some claims.

Lemma authentic_mono a1 a2 token claims :
  (∀ a, a ∈ a1 → a ∈ a2) → authentic a1 token claims → authentic a2 token claims.
Proof.
  intros H (m&key&[?|(?&?&pk&?&?)]&?&?); exists m, key; split; auto; [by left|].
  right. split; [done|]. split; [done|]. exists pk. split; [done|]. by eapply served_mono.
Qed.

Definition verifier_inv (answers : list fetchResult) (v : JWTVerifier) : Prop :=
  jv_algorithm v = jw_Algorithm cfg ∧ jv_publicKey v = None ∧
  (jw_Algorithm cfg = "HS256" → jv_secret v = jw_Secret cfg) ∧
  ∀ f, jv_jwksFetcher v = Some f → fetcher_inv answers f.

Lemma keyFunc_inv answers v answer now token :
  verifier_inv answers v →
  let '(r, v') := keyFunc answer now token v in
  verifier_inv (answers ++ [answer]) v' ∧
  ∀ key, r = Ok key → accepted (answers ++ [answer]) (tk_Method token) key.
Proof.
  intros (Halg&Hpk&Hsec&Hf).
  assert (Hv : verifier_inv (answers ++ [answer]) v).
  { split; [done|]. split; [done|]. split; [done|]. intros f E.
    eapply fetcher_inv_mono; [|by apply Hf]. intros; apply elem_of_app; by left. }
  unfold keyFunc. rewrite Halg.
  destruct (String.eqb_spec (jw_Algorithm cfg) "RS256") as [Hr|_].
  - unfold handleRSAKey. case_bool_decide as Hm; simpl; [|done].
    rewrite Hpk. unfold getKeyFromJWKS. destruct (jv_jwksFetcher v) as [f|] eqn:Ef; [|done].
    destruct (tk_kid token) as [kid|]; [|done].
    pose proof (GetPublicKey_inv answers f kid answer now (Hf f eq_refl)) as Hg.
    destruct (GetPublicKey f kid answer now) as [[pk|e] f']; destruct Hg as [Hg1 Hg2].
    + split.
      * split; [done|]. split; [done|]. split; [done|]. by intros f'' [= <-].
      * intros key [= <-]. right. split; [done|]. split; [done|]. exists pk. split; [done|]. by apply Hg2.
    + split; [|done]. split; [done|]. split; [done|]. split; [done|]. by intros f'' [= <-].
  - destruct (String.eqb_spec (jw_Algorithm cfg) "HS256") as [Hh|_]; [|done].
    unfold handleHMACKey. case_bool_decide as Hm; simpl; [|done].
    split; [done|]. intros key [= <-]. left. by rewrite Hsec.
Qed.

Lemma VerifyToken_inv answers v token answer c :
  verifier_inv answers v →
  let '(r, v') := VerifyToken v token answer c in
  verifier_inv (answers ++ [answer]) v' ∧
  ∀ claims, r = Ok claims →
    authentic (answers ++ [answer]) token claims ∧ validateClaims claims (at_validate c) = None.
Proof.
  intros Hv. unfold VerifyToken.
  pose proof (parse_effect token (keyFunc answer (at_fetch c)) v) as Heff.
  destruct (ParseWithClaims token (keyFunc answer (at_fetch c)) v) as [r v'] eqn:Hp. simpl in Heff.
  assert (verifier_inv (answers ++ [answer]) v') as Hv'.
  { destruct Heff as [->|[tk ->]].
    - destruct Hv as (?&?&?&Hf). do 3 (split; [done|]). intros f E.
      eapply fetcher_inv_mono; [|by apply Hf]. intros; apply elem_of_app; by left.
    - pose proof (keyFunc_inv answers v answer (at_fetch c) tk Hv) as H.
      by destruct (keyFunc answer (at_fetch c) tk v) as [? ?], H. }
  destruct r as [[tk claims]|e]; [|done].
  destruct (negb (tk_Valid tk)); [done|].
  destruct (validateClaims claims (at_validate c)) eqn:Hval; [done|].
  split; [done|]. intros claims' [= <-]. split; [|done].
  apply parse_accepts in Hp as (key&Hk&Hs&Hpay). exists (tk_Method tk), key. split; [|done].
  pose proof (keyFunc_inv answers v answer (at_fetch c) tk Hv) as H. rewrite Hk in H.
  by apply H.
Qed.

(** The service invariant: the cache holds only users of verified tokens. *)
Definition service_inv (answers : list fetchResult) (s : Service) : Prop :=
  as_tenantMaps s = maps ∧ verifier_inv answers (as_verifier s) ∧
  ∀ token cu, as_userCache s !! token = Some cu →
    ∃ claims, authentic answers token claims ∧ cl_UserID claims ≠ "" ∧ cu_user cu = userOf maps claims.

(** The answer's user, and what is known about it. *)
Definition good_user (answers : list fetchResult) (token : string) (user : User) : Prop :=
  ∃ claims, authentic answers token claims ∧ cl_UserID claims ≠ "" ∧ user = userOf maps claims.

Lemma Authenticate_inv answers s token answer c :
  service_inv answers s →
  let '(r, s', _) := Authenticate s token answer c in
  service_inv (answers ++ [answer]) s' ∧
  ∀ user, r = Ok user →
    good_user (answers ++ [answer]) (trimPrefix token "Bearer ") user ∧
    ((∃ cu, as_userCache s !! trimPrefix token "Bearer " = Some cu ∧ (at_lookup c < cu_expiresAt cu)%Z) ∨
     (∃ claims, payload (trimPrefix token "Bearer ") = Some claims ∧
        validateClaims claims (at_validate c) = None)).
Proof.
  intros (Hm&Hv&Hc).
  assert (Hmono : ∀ a, a ∈ answers → a ∈ answers ++ [answer])
    by (intros; apply elem_of_app; by left).
  assert (Hv0 : verifier_inv (answers ++ [answer]) (as_verifier s)).
  { destruct Hv as (?&?&?&Hf). do 3 (split; [done|]). intros f E.
    eapply fetcher_inv_mono; [exact Hmono|by apply Hf]. }
  assert (Hc0 : ∀ tk cu, as_userCache s !! tk = Some cu →
    ∃ claims, authentic (answers ++ [answer]) tk claims ∧ cl_UserID claims ≠ "" ∧
      cu_user cu = userOf maps claims).
  { intros tk cu H. destruct (Hc tk cu H) as (cl&?&?&?). exists cl. split; [|done].
    by eapply authentic_mono. }
  unfold Authenticate. destruct (String.eqb token ""); [done|]. cbv zeta.
  set (tk := trimPrefix token "Bearer ").
  pose proof (VerifyToken_inv answers (as_verifier s) tk answer c Hv) as Hver.
  assert (Hverify : ∀ cache,
    (∀ t cu, cache !! t = Some cu → as_userCache s !! t = Some cu) →
    let '(r, s', _) := verifyAndCache s cache tk answer c in
    service_inv (answers ++ [answer]) s' ∧
    ∀ user, r = Ok user → good_user (answers ++ [answer]) tk user ∧
      ∃ claims, payload tk = Some claims ∧ validateClaims claims (at_validate c) = None).
  { intros cache Hsub. unfold verifyAndCache.
    destruct (VerifyToken (as_verifier s) tk answer c) as [r v']. destruct Hver as [Hv' Hok].
    assert (service_inv (answers ++ [answer]) (withCache s v' cache)) as Hinv
      by (split; [done|]; split; [done|]; simpl; eauto).
    destruct r as [claims|e]; [|done]. destruct (String.eqb_spec (cl_UserID claims) "") as [|Hid]; [done|].
    destruct (Hok claims eq_refl) as [Ha Hval]. rewrite Hm.
    assert (good_user (answers ++ [answer]) tk (userOf maps claims)) as Hg by by exists claims.
    split.
    - split; [done|]. split; [done|]. simpl. intros t cu.
      destruct (decide (tk = t)) as [<-|Hne]; [rewrite lookup_insert_eq|rewrite lookup_insert_ne by done; eauto].
      intros [= <-]. exists claims. done.
    - intros user [= <-]. split; [done|]. exists claims. split; [|done]. by destruct Ha as (?&?&_&_&?). }
  destruct (as_userCache s !! tk) as [cu|] eqn:Hcu.
  - destruct (Z.ltb_spec (at_lookup c) (cu_expiresAt cu)) as [Hlt|Hge].
    + split; [done|]. intros user [= <-]. split; [|left; by exists cu].
      destruct (Hc0 tk cu Hcu) as (cl&?&?&?). by exists cl.
    + opose proof (Hverify (delete tk (as_userCache s)) _) as Hx;
        [by intros t cu' [_ ?]%lookup_delete_Some|].
      destruct (verifyAndCache s _ tk answer c) as [[r s'] calls]. destruct Hx as [H1 H2].
      split; [done|]. intros user Hu. destruct (H2 user Hu); auto.
  - opose proof (Hverify (as_userCache s) _) as Hx; [done|].
    destruct (verifyAndCache s _ tk answer c) as [[r s'] calls]. destruct Hx as [H1 H2].
    split; [done|]. intros user Hu. destruct (H2 user Hu); auto.
Qed.

(** The calls the service receives. *)
Inductive authOp :=
| OpAuthenticate (token : string) (answer : fetchResult) (c : Clock)
| OpCleanup (now : Z).

Definition runOp (s : Service) (op : authOp) : Service :=
  match op with
  | OpAuthenticate token answer c => (Authenticate s token answer c).1.2
  | OpCleanup now => CleanupCache s now
  end.

Definition answersOf (ops : list authOp) : list fetchResult :=
  flat_map (λ op, match op with OpAuthenticate _ answer _ => [answer] | OpCleanup _ => [] end) ops.

Lemma NewService_inv s :
  usable_auth cfg → NewService cfg maps = Ok s → service_inv [] s.
Proof.
  intros [Ha _]. unfold NewService, str_nonempty.
  destruct (String.eqb_spec (jw_Secret cfg) "") as [Hs|Hs]; simpl.
  - destruct (String.eqb_spec (jw_JwksURL cfg) ""); simpl; intros [= <-].
    split; [done|]. split; [|intros t cu; simpl; by rewrite lookup_empty]. split; [done|]. split; [done|].
    split; [intros Hh; destruct Ha as [[Hr _]|[_ ?]]; [by rewrite Hr in Hh|done]|].
    intros f [= <-] kid pk; simpl; by rewrite lookup_empty.
  - intros [= <-]. split; [done|]. split; [|intros t cu; simpl; by rewrite lookup_empty]. by repeat split.
Qed.

Lemma run_inv s ops :
  usable_auth cfg → NewService cfg maps = Ok s → service_inv (answersOf ops) (foldl runOp s ops).
Proof.
  intros Hu Hn. induction ops as [|op ops IH] using rev_ind; [by apply NewService_inv|].
  rewrite foldl_app. simpl. unfold answersOf in *. rewrite flat_map_app. simpl.
  destruct op as [token answer c|now]; simpl; rewrite ?app_nil_r.
  - pose proof (Authenticate_inv _ _ token answer c IH) as H.
    by destruct (Authenticate _ token answer c) as [[r s'] calls], H.
  - destruct IH as (?&?&Hc). split; [done|]. split; [done|]. simpl.
    intros t cu [Hx _]%map_lookup_filter_Some. eauto.
Qed.
End Authenticity.

(** C5: In every history of a service built from a usable configuration, a user
    Authenticate returns is the one computed from claims that are the payload of the very
    token presented, with a valid signature by the configured method under the configured
    secret or a key the JWKS endpoint served; the claims were valid at the time of the
    check or the token was still in the cache. *)
Theorem authenticated_users_are_verified {HJ : JWT} {HL : JWTLaws} cfg maps s0 ops token answer c user :
  usable_auth cfg → NewService cfg maps = Ok s0 →
  let s := foldl runOp s0 ops in
  (Authenticate s token answer c).1.1 = Ok user →
  ∃ claims m key,
    user = userOf maps claims ∧ cl_UserID claims ≠ "" ∧
    payload (trimPrefix token "Bearer ") = Some claims ∧
    signedBy (trimPrefix token "Bearer ") m key ∧
    ((jw_Algorithm cfg = "HS256" ∧ m = SigningMethodHMAC ∧ key = SecretKey (jw_Secret cfg)) ∨
     (jw_Algorithm cfg = "RS256" ∧ m = SigningMethodRSA ∧
        ∃ pk, key = RSAKey pk ∧ served (answersOf ops ++ [answer]) pk)) ∧
    (validateClaims claims (at_validate c) = None ∨
     ∃ cu, as_userCache s !! trimPrefix token "Bearer " = Some cu ∧ (at_lookup c < cu_expiresAt cu)%Z).
Proof.
  intros Hu Hn s Hok. pose proof (run_inv cfg maps s0 ops Hu Hn) as Hinv.
  pose proof (Authenticate_inv cfg maps _ _ token answer c Hinv) as H. fold s in H.
  destruct (Authenticate s token answer c) as [[r s'] calls]. simpl in Hok. subst r.
  destruct H as [_ H]. destruct (H user eq_refl) as ((claims&(m&key&Hacc&Hs&Hp)&Hid&->)&Hv).
  exists claims, m, key. do 5 (split; [done|]). destruct Hv as [?|(cl&Hcl&?)]; [by right|].
  left. congruence.
Qed.

(** A library that knows one token, signed with HMAC under one secret. *)
Definition goodClaims : Claims := mkClaims "a@x" (Some ["team"]) "alice" 100 10 0 "" "".

#[export] Instance toyJWT : JWT := {
  ParseWithClaims s kf v :=
    if String.eqb s "good" then
      let token := mkToken SigningMethodHMAC "HS256" None true in
      let '(r, v') := kf token v in
      match r with
      | Ok (SecretKey k) =>
          if String.eqb k "s3cret" then (Ok (token, goodClaims), v')
          else (Err (EText "signature is invalid"), v')
      | Ok _ => (Err (EText "key is of invalid type"), v')
      | Err e => (Err e, v')
      end
    else (Err (EText "token is malformed"), v);
  signedBy s m k := s = "good" ∧ m = SigningMethodHMAC ∧ k = SecretKey "s3cret";
  payload s := if String.eqb s "good" then Some goodClaims else None
}.

#[export] Instance toyJWTLaws : JWTLaws.
Proof.
  split; unfold ParseWithClaims, signedBy, payload, toyJWT.
  - intros s kf v token claims v'. destruct (String.eqb_spec s "good") as [->|]; [|done].
    cbv zeta. destruct (kf _ v) as [[[pk|k]|e] v1] eqn:E; try done.
    destruct (String.eqb_spec k "s3cret") as [->|]; [|done]. intros [= <- <- <-].
    exists (SecretKey "s3cret"). done.
  - intros s kf v. destruct (String.eqb s "good"); [|by left]. right.
    exists (mkToken SigningMethodHMAC "HS256" None true). cbv zeta.
    destruct (kf _ v) as [[[pk|k]|e] v1]; try done. by destruct (String.eqb k "s3cret").
Qed.

Definition sampleJWTConfig : JWTConfig :=
  mkJWT "HS256" "" "s3cret" (mkValidation false false "" []) "groups" (mkCacheConfig 3600000000000 60).

Definition sampleMaps : list MappingConfig :=
  [mkMapping ["team"] [mkVMTenantConfig "1" "7"] ["read"]].

Definition sampleService : Service :=
  mkAuthService sampleMaps (NewJWTVerifier None "s3cret" "HS256") ∅ 3600000000000.

Definition atSecond (t : Z) : Clock := mkClock (t * Second) (t * Second) (t * Second) (t * Second).

Definition noAnswer : fetchResult := FetchDo (EText "unreachable").

Lemma authenticated_users_are_verified_witness :
  (Authenticate sampleService "Bearer good" noAnswer (atSecond 50)).1.1 = Ok (userOf sampleMaps goodClaims) ∧
  ∃ claims m key,
    userOf sampleMaps goodClaims = userOf sampleMaps claims ∧ cl_UserID claims ≠ "" ∧
    payload "good" = Some claims ∧ signedBy "good" m key.
Proof.
  assert ((Authenticate sampleService "Bearer good" noAnswer (atSecond 50)).1.1
    = Ok (userOf sampleMaps goodClaims)) as Hok by (vm_compute; reflexivity).
  split; [exact Hok|].
  destruct (authenticated_users_are_verified sampleJWTConfig sampleMaps sampleService [] "Bearer good"
    noAnswer (atSecond 50) (userOf sampleMaps goodClaims)) as (claims&m&key&H1&H2&H3&H4&_).
  - split; [right; split; [reflexivity|discriminate]|split; reflexivity].
  - reflexivity.
  - exact Hok.
  - exists claims, m, key. split; [exact H1|]. split; [exact H2|]. split; [exact H3|exact H4].
Defined.

(** The cache does not look at the token's own expiry: a token that was
    verified once is accepted after its exp, for the cache's lifetime. *)
Lemma cached_token_outlives_exp :
  let s := (Authenticate sampleService "good" noAnswer (atSecond 99)).1.2 in
  validateClaims goodClaims (200 * Second) = Some (EApp ErrTokenExpiredClaims) ∧
  (Authenticate sampleService "good" noAnswer (atSecond 200)).1.1 =
    Err (authError "invalid_token" "Invalid or expired token") ∧
  (Authenticate s "good" noAnswer (atSecond 200)).1.1 = Ok (userOf sampleMaps goodClaims).
Proof. vm_compute. split_and!; reflexivity. Qed.

(** A configuration that Validate accepts (RS256, a JWKS URL and also a
    secret) makes a service that rejects every token. *)
Lemma rs256_with_secret_rejects_all {HJ : JWT} {HL : JWTLaws} (s : Service) token answer c :
  NewService (mkJWT "RS256" "http://idp/jwks" "s3cret" (mkValidation false false "" []) "groups"
                (mkCacheConfig 1 1)) [] = Ok s →
  ∃ e, (VerifyToken (as_verifier s) token answer c).1 = Err e.
Proof.
  intros [= <-]. unfold VerifyToken. simpl as_verifier.
  destruct (ParseWithClaims _ _ _) as [[[tk claims]|e] v'] eqn:E; [|by eexists].
  apply parse_accepts in E as (key&Hk&_). unfold keyFunc, handleRSAKey, getKeyFromJWKS in Hk. simpl in Hk.
  destruct (negb _); simplify_eq.
Qed.

Lemma rs256_with_secret_is_valid :
  JWTConfig_Validate (mkJWT "RS256" "http://idp/jwks" "s3cret" (mkValidation false false "" []) "groups"
                (mkCacheConfig 1 1)) = None.
Proof. reflexivity. Qed.

(* ------------------------------------------------------------------ *)
(** ** The cache clean-up is invisible *)

Lemma CleanupCache_lookup s now token :
  as_userCache (CleanupCache s now) !! token =
  match as_userCache s !! token with
  | Some cu => if decide (cu_expiresAt cu < now)%Z then None else Some cu
  | None => None
  end.
Proof.
  simpl. rewrite map_lookup_filter. destruct (as_userCache s !! token) as [cu|]; [|done]. simpl.
  destruct (decide (cu_expiresAt cu < now)%Z) as [Hlt|Hge].
  - destruct (guard _) eqn:E; [|done]. by case_guard.
  - by rewrite option_guard_True.
Qed.

(** Services that agree once the expired entries are dropped. *)
Definition same_visible (now : Z) (s1 s2 : Service) : Prop :=
  as_tenantMaps s1 = as_tenantMaps s2 ∧ as_verifier s1 = as_verifier s2 ∧
  as_cacheTTL s1 = as_cacheTTL s2 ∧
  ∀ token, as_userCache (CleanupCache s1 now) !! token = as_userCache (CleanupCache s2 now) !! token.

Lemma verifyAndCache_visible {HJ : JWT} now s1 s2 cache1 cache2 token answer c :
  same_visible now (withCache s1 (as_verifier s1) cache1) (withCache s2 (as_verifier s2) cache2) →
  let '(r1, s1', calls1) := verifyAndCache s1 cache1 token answer c in
  let '(r2, s2', calls2) := verifyAndCache s2 cache2 token answer c in
  r1 = r2 ∧ calls1 = calls2 ∧ same_visible now s1' s2'.
Proof.
  intros (Hm&Hv&Ht&Hc). unfold verifyAndCache. simpl in Hm, Hv, Ht. rewrite Hm, Hv, Ht.
  destruct (VerifyToken (as_verifier s2) token answer c) as [[claims|e] v'].
  2: { split; [done|]. split; [done|]. by repeat split. }
  destruct (String.eqb (cl_UserID claims) ""); [split; [done|split; [done|by repeat split]]|].
  split; [done|]. split; [done|]. split; [done|]. split; [done|]. split; [done|].
  intros k. specialize (Hc k). rewrite !CleanupCache_lookup in *. simpl in *.
  destruct (decide (token = k)) as [<-|Hne]; [by rewrite !lookup_insert_eq|].
  by rewrite !lookup_insert_ne by done.
Qed.

(** Removing expired entries from the token cache changes neither the result nor the
    metrics of a later authentication. *)
Theorem cleanup_is_invisible {HJ : JWT} s token answer c now :
  (now ≤ at_lookup c)%Z →
  let '(r1, s1, calls1) := Authenticate s token answer c in
  let '(r2, s2, calls2) := Authenticate (CleanupCache s now) token answer c in
  r1 = r2 ∧ calls1 = calls2 ∧ same_visible now s1 s2.
Proof.
  intros Hnow.
  assert (Hcl : ∀ k, as_userCache (CleanupCache (CleanupCache s now) now) !! k
    = as_userCache (CleanupCache s now) !! k).
  { intros k. rewrite !CleanupCache_lookup. destruct (as_userCache s !! k) as [cu|]; [|done].
    destruct (decide (cu_expiresAt cu < now)%Z) eqn:E; [done|]. by rewrite E. }
  unfold Authenticate. destruct (String.eqb token ""); [by repeat split|]. cbv zeta.
  set (tk := trimPrefix token "Bearer "). rewrite (CleanupCache_lookup s now tk).
  destruct (as_userCache s !! tk) as [cu|] eqn:Hcu.
  - destruct (Z.ltb_spec (at_lookup c) (cu_expiresAt cu)) as [Hlt|Hge].
    { rewrite decide_False by lia. destruct (Z.ltb_spec (at_lookup c) (cu_expiresAt cu)); [|lia].
      by repeat split. }
    assert (Hdel : ∀ k, as_userCache (CleanupCache (withCache s (as_verifier s) (delete tk (as_userCache s))) now) !! k
      = if decide (tk = k) then None else as_userCache (CleanupCache s now) !! k).
    { intros k. rewrite !CleanupCache_lookup. simpl. case_decide as Hk; [subst; by rewrite lookup_delete_eq|].
      by rewrite lookup_delete_ne by done. }
    destruct (decide (cu_expiresAt cu < now)%Z) as [Hx|Hx].
    + apply verifyAndCache_visible. split; [done|]. split; [done|]. split; [done|]. intros k.
      rewrite Hdel. case_decide as Hk; [subst k|by rewrite Hcl].
      rewrite Hcl, CleanupCache_lookup, Hcu. by rewrite decide_True.
    + destruct (Z.ltb_spec (at_lookup c) (cu_expiresAt cu)); [lia|].
      apply verifyAndCache_visible. split; [done|]. split; [done|]. split; [done|]. intros k.
      rewrite Hdel. case_decide as Hk.
      * subst k. rewrite CleanupCache_lookup. unfold withCache at 1. cbn [as_userCache].
        by rewrite lookup_delete_eq.
      * rewrite <- Hcl, !(CleanupCache_lookup _ _ k). unfold withCache at 1. cbn [as_userCache].
        rewrite lookup_delete_ne by done. by rewrite !(CleanupCache_lookup s now k).
  - apply verifyAndCache_visible. split; [done|]. split; [done|]. split; [done|]. intros k. by rewrite Hcl.
Qed.

Lemma cleanup_is_invisible_witness :
  (Authenticate (CleanupCache (Authenticate sampleService "good" noAnswer (atSecond 50)).1.2 (60 * Second))
     "good" noAnswer (atSecond 70)).1.1 = Ok (userOf sampleMaps goodClaims).
Proof.
  pose proof (cleanup_is_invisible (Authenticate sampleService "good" noAnswer (atSecond 50)).1.2
    "good" noAnswer (atSecond 70) (60 * Second) ltac:(vm_compute; discriminate)) as H.
  destruct (Authenticate (CleanupCache _ _) "good" noAnswer (atSecond 70)) as [[r2 s2] c2].
  destruct (Authenticate _ "good" noAnswer (atSecond 70)) as [[r1 s1] c1] eqn:E.
  destruct H as [<- _]. assert (r1 = (r1, s1, c1).1.1) as -> by reflexivity. rewrite <- E.
  vm_compute. reflexivity.
Defined.
