(* ===== verification/Proxy.v ===== *)
(** * Proxy: internal/services/proxy/enhanced_service.go

    The service's methods as state-passing functions over a [World]: the
    service, the request bodies, the clock, and two logs (the metrics calls
    and the requests sent upstream). What lies outside the source is the
    environment [Env]: url.Parse and URL.String, NewRequest, the upstream's
    answers, what other goroutines do while this one waits, and the choices
    of select. The load balancer is used through its interface only. *)

From S2P Require Import Prelude GoStd Errors Domain LoadBalancer LBFactory Http Config Health Queue.

(* ------------------------------------------------------------------ *)
(** ** Data *)

Record ProxyRequest := mkProxyRequest {
  pr_User : User;
  pr_OriginalRequest : Request;
  pr_FilteredQuery : string;
  pr_TargetTenant : string
}.

Record ProxyResponse := mkProxyResponse { rs_StatusCode : Z; rs_Headers : Header; rs_Body : string }.

(** The fields of url.URL the source reads or writes; the others are kept in
    [u_Base] as url.Parse found them. *)
Record URL := mkURL { u_Base : string; u_Path : string; u_RawQuery : string }.

(** The outgoing *http.Request. *)
Record HTTPRequest := mkHTTPRequest {
  hr_Method : string; hr_URL : string; hr_Header : Header; hr_Body : nat
}.

(** What httpClient.Do and the reading of the body give. *)
Inductive doResult :=
| DoError (err : goError)
| DoResponse (statusCode : Z) (headers : Header) (body : result string).

(** An exchange: its result, what is left of the request body, and how long
    the call waits. *)
Record exchange := mkExchange { ex_result : doResult; ex_rest : Reader; ex_time : Z }.

(** A request sent upstream, with the backend chosen for it and the backends
    as the balancer saw them (a log entry, not part of the source). *)
Record sentEntry := mkSent {
  se_Backend : Backend; se_View : list Backend; se_Request : HTTPRequest; se_Body : string
}.

Section Service.
Context {LB : Type} `{HLB : LoadBalancer LB, !LoadBalancerSpec LB}.

Record EnhancedService := mkService {
  es_config : ProxyConfig;
  es_loadBalancer : LB;
  es_healthChecker : Checker;
  es_requestQueue : option (MemoryQueue ProxyRequest);
  es_clientTimeout : Z;
  es_closed : bool
}.

(** [w_ctxErr] is the error of the request's context once it is done. *)
Record World := mkWorld {
  w_service : EnhancedService;
  w_bodies : Bodies;
  w_now : Z;
  w_ctxErr : option goError;
  w_calls : list metricCall;
  w_sent : list sentEntry
}.

Record Env := mkEnv {
  url_Parse : string → result URL;
  url_String : URL → string;
  (* the error of http.NewRequestWithContext *)
  newRequestError : string → string → option goError;
  (* the n-th exchange, for a request and the content of its body *)
  upstream : nat → HTTPRequest → string → exchange;
  (* the world after this goroutine waited for the duration, or for the end
     of its context if that came first *)
  pause : Z → World → World;
  (* which branch select takes when both are ready *)
  preferCtx : World → bool;
  (* what wakes a blocked Dequeue *)
  dequeueWake : World → wakeUp ProxyRequest
}.

Definition withService (w : World) (s : EnhancedService) : World :=
  mkWorld s (w_bodies w) (w_now w) (w_ctxErr w) (w_calls w) (w_sent w).

Definition setLB (w : World) (lb : LB) : World :=
  let s := w_service w in
  withService w (mkService (es_config s) lb (es_healthChecker s) (es_requestQueue s)
                   (es_clientTimeout s) (es_closed s)).

Definition setQueue (w : World) (q : MemoryQueue ProxyRequest) : World :=
  let s := w_service w in
  withService w (mkService (es_config s) (es_loadBalancer s) (es_healthChecker s) (Some q)
                   (es_clientTimeout s) (es_closed s)).

Definition setChecker (w : World) (hc : Checker) : World :=
  let s := w_service w in
  withService w (mkService (es_config s) (es_loadBalancer s) hc (es_requestQueue s)
                   (es_clientTimeout s) (es_closed s)).

Definition record (w : World) (c : metricCall) : World :=
  mkWorld (w_service w) (w_bodies w) (w_now w) (w_ctxErr w) (w_calls w ++ [c]) (w_sent w).

Definition reportResult (w : World) (backend : Backend) (err : option goError) (statusCode : Z) : World :=
  setLB w (lb_ReportResult (es_loadBalancer (w_service w)) backend err statusCode).

(* ---------------------------------------------------------------- *)
(** ** Building the upstream request *)

Definition buildTargetURL (env : Env) (req : ProxyRequest) (backend : Backend) : result URL :=
  match url_Parse env (Domain.URL backend) with
  | Err err => Err (errorf_w ("invalid backend URL " +:+ Domain.URL backend) err)
  | Ok targetURL =>
      let rawQuery := RawQuery (pr_OriginalRequest req) in
      let rawQuery' :=
        if str_nonempty (pr_FilteredQuery req)
           && str_nonempty (Values_Get (ParseQuery rawQuery).1 "query")
        then Encode (Values_Set (ParseQuery rawQuery).1 "query" (pr_FilteredQuery req))
        else rawQuery in
      Ok (mkURL (u_Base targetURL) (Path (pr_OriginalRequest req)) rawQuery')
  end.

(** The two nested loops over the header map. *)
Definition copyHeaders (dst : Header) (src : list (string * list string)) : Header :=
  foldl (λ h '(name, values), foldl (λ h value, Header_Add h name value) h values) dst src.

Definition prepareRequestHeaders (httpReq : HTTPRequest) (req : ProxyRequest) : HTTPRequest :=
  let h := copyHeaders (hr_Header httpReq) (map_to_list (rHeader (pr_OriginalRequest req))) in
  let h := if str_nonempty (pr_TargetTenant req)
           then Header_Set h "X-Prometheus-Tenant" (pr_TargetTenant req) else h in
  mkHTTPRequest (hr_Method httpReq) (hr_URL httpReq) h (hr_Body httpReq).

Definition createBackendRequest (env : Env) (w : World) (req : ProxyRequest) (backend : Backend)
  : result HTTPRequest * World :=
  match buildTargetURL env req backend with
  | Err err => (Err err, reportResult w backend (Some err) 0)
  | Ok targetURL =>
      let method := Method (pr_OriginalRequest req) in
      match newRequestError env method (url_String env targetURL) with
      | Some err =>
          (Err (errorf_w "failed to create backend request" err), reportResult w backend (Some err) 0)
      | None =>
          let httpReq := mkHTTPRequest method (url_String env targetURL) ∅ (Body (pr_OriginalRequest req)) in
          (Ok (prepareRequestHeaders httpReq req), w)
      end
  end.

(* ---------------------------------------------------------------- *)
(** ** One attempt *)

Definition selectBackend (w : World) : outcome (result Backend) * World :=
  let '(r, lb) := lb_NextBackend (es_loadBalancer (w_service w)) in
  let w := setLB w lb in
  match r with
  | Returned (Err err) => (Returned (Err (errorf_w "no available backend" err)), w)
  | _ => (r, w)
  end.

Definition upstreamCall (req : ProxyRequest) (backend : Backend) (status : string) : metricCall :=
  RecordUpstreamBackend (Domain.URL backend) (Method (pr_OriginalRequest req))
    (Path (pr_OriginalRequest req)) status [pr_TargetTenant req].

Definition handleRequestError (w : World) (req : ProxyRequest) (backend : Backend) (err : goError)
  : goError * World :=
  let w := reportResult w backend (Some err) 0 in
  (errorf_w "backend request failed" err, record w (upstreamCall req backend "error")).

Definition processBackendResponse (w : World) (req : ProxyRequest) (backend : Backend)
    (statusCode : Z) (headers : Header) (body : string) : result ProxyResponse * World :=
  let reportErr :=
    if (StatusInternalServerError <=? statusCode)%Z
    then Some (EText ("upstream returned server error status: " +:+ itoa statusCode))
    else if (StatusBadRequest <=? statusCode)%Z
    then Some (EText ("upstream returned client error status: " +:+ itoa statusCode))
    else None in
  let lbErr := if (StatusInternalServerError <=? statusCode)%Z then reportErr else None in
  let w := reportResult w backend lbErr statusCode in
  let w := record w (upstreamCall req backend (itoa statusCode)) in
  match lbErr with
  | Some err => (Err err, w)
  | None => (Ok (mkProxyResponse statusCode headers body), w)
  end.

(** select { case <-ctx.Done(): return ctx.Err(); case <-time.After(d): } *)
Definition sleep (env : Env) (d : Z) (w : World) : option goError * World :=
  let w' := pause env d w in
  match w_ctxErr w' with
  | Some err =>
      if (w_now w + d <=? w_now w')%Z && negb (preferCtx env w') then (None, w') else (Some err, w')
  | None => (None, w')
  end.

(** httpClient.Do and the reading of the answer: the body is read from its
    shared reader; other goroutines run until the exchange is over. *)
Definition doRequest (env : Env) (w : World) (backend : Backend) (httpReq : HTTPRequest)
  : doResult * World :=
  let content := remaining (default emptyReader (w_bodies w !! hr_Body httpReq)) in
  let ex := upstream env (length (w_sent w)) httpReq content in
  (ex_result ex,
   pause env (ex_time ex)
     (mkWorld (w_service w) (<[hr_Body httpReq := ex_rest ex]> (w_bodies w)) (w_now w)
        (w_ctxErr w) (w_calls w)
        (w_sent w ++ [mkSent backend (lb_backends (es_loadBalancer (w_service w))) httpReq content]))).

Definition executeBackendRequest (env : Env) (w : World) (req : ProxyRequest) (backend : Backend)
    (httpReq : HTTPRequest) : result ProxyResponse * World :=
  let '(resp, w) := doRequest env w backend httpReq in
  match resp with
  | DoError err =>
      let '(err', w) := handleRequestError w req backend err in (Err err', w)
  | DoResponse statusCode headers (Err err) =>
      (Err (errorf_w "failed to read response body" err), reportResult w backend (Some err) statusCode)
  | DoResponse statusCode headers (Ok body) =>
      processBackendResponse w req backend statusCode headers body
  end.

Definition forwardToBackend (env : Env) (w : World) (req : ProxyRequest)
  : outcome (result ProxyResponse) * World :=
  let '(r, w) := selectBackend w in
  match r with
  | Panicked why => (Panicked why, w)
  | Returned (Err err) => (Returned (Err err), w)
  | Returned (Ok backend) =>
      let '(r, w) := createBackendRequest env w req backend in
      match r with
      | Err err => (Returned (Err err), w)
      | Ok httpReq =>
          let '(r, w) := executeBackendRequest env w req backend httpReq in
          match r with
          | Ok response =>
              (Returned (Ok response),
               record w (RecordLoadBalancerSelection
                           (rt_Strategy (px_Routing (es_config (w_service w)))) (Domain.URL backend)))
          | Err err => (Returned (Err err), w)
          end
      end
  end.

(* ---------------------------------------------------------------- *)
(** ** Retries *)

Definition retries (w : World) : Z := rl_Retries (px_Reliability (es_config (w_service w))).

(** The loop [for attempt := range Retries], with the error of the last
    attempt; calling Error on the nil interface panics. *)
Fixpoint attemptLoop (env : Env) (n : nat) (attempt : Z) (lastErr : option goError) (w : World)
    (req : ProxyRequest) : outcome (result ProxyResponse) * World :=
  match n with
  | 0 =>
      match lastErr with
      | None => (Panicked "nil pointer dereference", w)
      | Some err =>
          (Returned (Err (errorf_w ("request failed after " +:+ itoa (retries w) +:+ " attempts") err)), w)
      end
  | S n' =>
      let backoff := wrap64 (attempt * rl_Backoff (px_Reliability (es_config (w_service w)))) in
      let '(ctxErr, w) := if (0 <? attempt)%Z then sleep env backoff w else (None, w) in
      match ctxErr with
      | Some err => (Returned (Err err), w)
      | None =>
          let '(r, w) := forwardToBackend env w req in
          match r with
          | Panicked why => (Panicked why, w)
          | Returned (Ok response) => (Returned (Ok response), w)
          | Returned (Err err) => attemptLoop env n' (attempt + 1) (Some err) w req
          end
      end
  end.

Definition forwardToBackendDirect (env : Env) (w : World) (req : ProxyRequest)
  : outcome (result ProxyResponse) * World :=
  attemptLoop env (Z.to_nat (retries w)) 0 None w req.


(* ---------------------------------------------------------------- *)
(** ** The queue *)

Definition backendsStatus (w : World) : list BackendStatus :=
  lb_BackendsStatus (es_loadBalancer (w_service w)) (w_now w).

Definition isHealthyStatus (st : BackendStatus) : bool :=
  bool_decide (State (bs_Backend st) = BackendHealthy).

Definition hasHealthyBackends (w : World) : bool := existsb isHealthyStatus (backendsStatus w).

(** es.requestQueue.Size(), on a queue that is there. *)
Definition queueSize (w : World) : Z :=
  match es_requestQueue (w_service w) with Some q => Size q | None => 0 end.

Definition recordQueue (w : World) (operation : string) : World :=
  record w (RecordQueueOperation operation (queueSize w)).

Definition enqueue (env : Env) (w : World) (req : ProxyRequest) : option goError * World :=
  match es_requestQueue (w_service w) with
  | Some q => let '(err, q') := Enqueue q (w_ctxErr w) (preferCtx env w) req in (err, setQueue w q')
  | None => (None, w)
  end.

(** While Dequeue is blocked on an empty queue other goroutines run. *)
Definition dequeue (env : Env) (w : World) : result ProxyRequest * World :=
  match es_requestQueue (w_service w) with
  | Some q =>
      let '(r, q') := Dequeue q (w_ctxErr w) (preferCtx env w) (dequeueWake env w) in
      let w' := setQueue w q' in
      (r, if bool_decide (queue q = []) then pause env 0 w' else w')
  | None => (Err (EApp ErrQueueEmpty), w)
  end.

Definition DefaultQueueCheckInterval : Z := 100 * Millisecond.

Definition handleDequeueError (env : Env) (w : World) (originalReq : ProxyRequest) (err : goError)
  : outcome (result ProxyResponse) * World :=
  if errors_Is err ErrQueueEmpty
  then forwardToBackendDirect env (recordQueue w "dequeue_empty") originalReq
  else (Returned (Err (errorf_w "failed to dequeue request" err)), recordQueue w "dequeue_failed").

Definition handleProcessingFailure (env : Env) (w : World) (queuedReq : ProxyRequest)
    (startTime maxWaitTime : Z) : World :=
  if (qc_MaxSize (rl_Queue (px_Reliability (es_config (w_service w)))) <=? queueSize w)%Z
     || (maxWaitTime <=? w_now w - startTime)%Z
  then w
  else
    let '(requeueErr, w) := enqueue env w queuedReq in
    match requeueErr with
    | Some _ => recordQueue w "requeue_failed"
    | None => recordQueue w "requeue_success"
    end.

Definition processFromQueue (env : Env) (w : World) (originalReq : ProxyRequest)
    (startTime maxWaitTime : Z) : outcome (result ProxyResponse) * World :=
  let '(r, w) := dequeue env w in
  match r with
  | Err err => handleDequeueError env w originalReq err
  | Ok queuedReq =>
      let w := recordQueue w "dequeue_success" in
      let '(response, w) := forwardToBackendDirect env w queuedReq in
      match response with
      | Panicked why => (Panicked why, w)
      | Returned (Ok resp) => (Returned (Ok resp), recordQueue w "process_success")
      | Returned (Err err) =>
          (Returned (Err err), handleProcessingFailure env w queuedReq startTime maxWaitTime)
      end
  end.

(** The polling loop, with fuel: [None] when the fuel runs out. *)
Fixpoint pollQueue (fuel : nat) (env : Env) (w : World) (originalReq : ProxyRequest)
    (startTime maxWaitTime : Z) : option (outcome (result ProxyResponse) * World) :=
  if (w_now w - startTime <? maxWaitTime)%Z then
    if hasHealthyBackends w then Some (processFromQueue env w originalReq startTime maxWaitTime)
    else
      match fuel with
      | 0 => None
      | S fuel' =>
          let '(ctxErr, w) := sleep env DefaultQueueCheckInterval w in
          match ctxErr with
          | Some err => Some (Returned (Err err), w)
          | None => pollQueue fuel' env w originalReq startTime maxWaitTime
          end
      end
  else
    Some (Returned (Err (EText ("request timed out in queue after " +:+ Duration_String maxWaitTime))), w).

Definition pollFuel (maxWaitTime : Z) : nat := S (Z.to_nat (maxWaitTime / DefaultQueueCheckInterval)).

Definition processQueuedRequest (env : Env) (w : World) (originalReq : ProxyRequest)
  : option (outcome (result ProxyResponse) * World) :=
  let maxWaitTime := qc_Timeout (rl_Queue (px_Reliability (es_config (w_service w)))) in
  pollQueue (pollFuel maxWaitTime) env w originalReq (w_now w) maxWaitTime.

Definition forwardWithQueue (env : Env) (w : World) (req : ProxyRequest)
  : option (outcome (result ProxyResponse) * World) :=
  let availableBackends := length (filter (λ st, isHealthyStatus st = true) (backendsStatus w)) in
  if (availableBackends =? 0)%nat then
    let '(err, w) := enqueue env w req in
    match err with
    | Some err =>
        Some (Returned (Err (errorf_w "failed to queue request" err)), recordQueue w "enqueue_failed")
    | None => processQueuedRequest env (recordQueue w "enqueue_success") req
    end
  else
    let '(response, w) := forwardToBackendDirect env w req in
    match response with
    | Panicked why => Some (Panicked why, w)
    | Returned (Ok resp) => Some (Returned (Ok resp), w)
    | Returned (Err err) =>
        if (queueSize w <? qc_MaxSize (rl_Queue (px_Reliability (es_config (w_service w)))))%Z then
          let '(queueErr, w) := enqueue env w req in
          match queueErr with
          | Some _ =>
              Some (Returned (Err (errorf_w "direct processing failed and queue full" err)),
                    recordQueue w "enqueue_failed")
          | None => processQueuedRequest env (recordQueue w "enqueue_retry") req
          end
        else Some (Returned (Err err), w)
    end.

Definition Forward (env : Env) (w : World) (req : ProxyRequest)
  : option (outcome (result ProxyResponse) * World) :=
  let s := w_service w in
  if es_closed s then Some (Returned (Err (EText "service is closed")), w)
  else if qc_Enabled (rl_Queue (px_Reliability (es_config s)))
          && match es_requestQueue s with Some _ => true | None => false end
  then forwardWithQueue env w req
  else Some (forwardToBackendDirect env w req).

(* ---------------------------------------------------------------- *)
(** ** Backend states, statistics, lifecycle *)

Definition updateBackendState (w : World) (url : string) (st : BackendState) : World :=
  setLB w (lb_UpdateBackendState (es_loadBalancer (w_service w)) url st).

Definition onBackendStateChange (w : World) (ev : stateChange) : World :=
  let '(backendURL, oldState, newState) := ev in
  updateBackendState (record w (RecordBackendStateChange backendURL oldState newState))
    backendURL newState.

Definition SetMaintenanceMode (w : World) (backend : string) (enabled : bool) : World :=
  updateBackendState w backend (if enabled then BackendMaintenance else BackendHealthy).

(** A check of the health checker, with the callback it was made with. *)
Definition healthCheck (w : World) (backend : Backend) (probe : string → probeResult)
  : option goError * World :=
  let '(err, hc, changes) := CheckHealth (es_healthChecker (w_service w)) backend probe (w_now w) in
  (err, foldl onBackendStateChange (setChecker w hc) changes).

Definition atTime (w : World) (now : Z) : World :=
  mkWorld (w_service w) (w_bodies w) now (w_ctxErr w) (w_calls w) (w_sent w).

(** The checks of a round, in the order they are scheduled, each with the time
    its result is recorded. *)
Definition healthRound (w : World) (schedule : list (Backend * Z)) (probe : string → probeResult) : World :=
  foldl (λ w s, (healthCheck (atTime w s.2) s.1 probe).2) w schedule.

Definition GetBackendsStatus (w : World) : list BackendStatus := backendsStatus w.

Definition GetHealthStats (w : World) : gmap string BackendHealthStats :=
  Health.GetStats (es_healthChecker (w_service w)).

Definition GetQueueStats (w : World) : option Queue.Stats :=
  getStats <$> es_requestQueue (w_service w).

(** The goroutine the checker starts is run by [healthRound]. *)
Definition Start (w : World) : option goError * World :=
  if es_closed (w_service w) then (Some (EText "service is closed"), w)
  else
    let '(err, started, hc) := StartMonitoring (es_healthChecker (w_service w)) in
    match err with
    | Some err => (Some (errorf_w "failed to start health checker" err), setChecker w hc)
    | None => (None, setChecker w hc)
    end.

Definition Close (w : World) : outcome World :=
  let s := w_service w in
  if es_closed s then Returned w
  else
    do! hc <- Health.Stop (es_healthChecker s) ;
    Returned (withService w
      (mkService (es_config s) (lb_Close (es_loadBalancer s)) hc
         (Queue.Close <$> es_requestQueue s) (es_clientTimeout s) true)).
End Service.

(* ------------------------------------------------------------------ *)
(** ** Construction *)

Arguments EnhancedService : clear implicits.
Arguments World : clear implicits.
Arguments Env : clear implicits.

Definition DefaultBackendWeight : Z := 1.
Definition DefaultProxyTimeoutSeconds : Z := 30.

Definition backendOf (upstreamConfig : UpstreamConfig) : Backend :=
  mkBackend (up_URL upstreamConfig)
    (if (up_Weight upstreamConfig <=? 0)%Z then DefaultBackendWeight else up_Weight upstreamConfig)
    BackendHealthy.

Definition checkerConfigOf (h : HealthCheckConfig) : CheckerConfig :=
  mkCheckerConfig (hk_Interval h) (hk_Timeout h) (hk_HealthyThreshold h) (hk_UnhealthyThreshold h)
    (hk_Endpoint h).

Definition NewEnhancedService (config : ProxyConfig) (now : Z)
  : outcome (result (EnhancedService Balancer)) :=
  if bool_decide (px_Upstreams config = [])
  then Returned (Err (EText "at least one upstream must be configured"))
  else
    let timeout := if (rl_Timeout (px_Reliability config) =? 0)%Z
                   then wrap64 (DefaultProxyTimeoutSeconds * Second)
                   else rl_Timeout (px_Reliability config) in
    let backends := map backendOf (px_Upstreams config) in
    match CreateLoadBalancer (rt_Strategy (px_Routing config)) backends with
    | Err err => Returned (Err (errorf_w "failed to create load balancer" err))
    | Ok loadBalancer =>
        let healthChecker := NewChecker (checkerConfigOf (rt_HealthCheck (px_Routing config))) backends now in
        let q := rl_Queue (px_Reliability config) in
        if qc_Enabled q then
          do! requestQueue <- NewMemoryQueue (qc_MaxSize q) (qc_Timeout q) ;
          Returned (Ok (mkService config loadBalancer healthChecker (Some requestQueue) timeout false))
        else Returned (Ok (mkService config loadBalancer healthChecker None timeout false))
    end.
