(* ===== verification/ProxyProofs.v ===== *)
(** * ProxyProofs: what Forward does to the world

    A frame ([progress]) that every operation of the service respects while
    other goroutines run: the requests it sends, to which backends, how many,
    and what it answers with. The balancer is used through its contract. *)

From S2P Require Import Prelude GoStd Errors Domain LoadBalancer LBFactory Http Config Health Queue Proxy.

Section Progress.
Context {LB : Type} `{HLB : LoadBalancer LB, !LoadBalancerSpec LB}.
(* what is known of the requests given to the service and to its queue *)
Context (P : ProxyRequest → Prop).

Notation World := (Proxy.World LB).
Notation Env := (Proxy.Env LB).
Notation balancer w := (es_loadBalancer (w_service w)).
Notation config w := (es_config (w_service w)).

(** Good worlds: a well-formed balancer, and known requests in the queue. *)
Definition world_ok (w : World) : Prop :=
  lb_wf (balancer w) ∧
  match es_requestQueue (w_service w) with Some q => Forall P (queue q) | None => True end.

(** What the other goroutines may do while this one waits: anything that
    keeps the world good; the configuration and this goroutine's own logs
    are not touched. [kept] is a further relation on the balancer. *)
Class EnvLaws (kept : LB → LB → Prop) (env : Env) : Prop := {
  pause_config d w : config (pause env d w) = config w;
  pause_queue d w :
    is_Some (es_requestQueue (w_service (pause env d w))) ↔ is_Some (es_requestQueue (w_service w));
  pause_ok d w : world_ok w → world_ok (pause env d w);
  pause_kept d w : kept (balancer w) (balancer (pause env d w));
  pause_sent d w : w_sent (pause env d w) = w_sent w;
  pause_monotone d w : (w_now w ≤ w_now (pause env d w))%Z;
  pause_elapsed d w : w_ctxErr (pause env d w) = None → (w_now w + d ≤ w_now (pause env d w))%Z;
  wake_known w req : dequeueWake env w = WakeRequest req → P req
}.

(** A log entry is a request to a backend the balancer's contract allows,
    built from [req]. *)
Definition sentFor (env : Env) (req : ProxyRequest) (e : sentEntry) : Prop :=
  candidate (se_View e) (se_Backend e) ∧
  ∃ target, buildTargetURL env req (se_Backend e) = Ok target ∧
    se_Request e = prepareRequestHeaders
      (mkHTTPRequest (Method (pr_OriginalRequest req)) (url_String env target) ∅
         (Body (pr_OriginalRequest req))) req.

(** From [w] to [w'] at most [n] requests were sent, each for a known request. *)
Definition progress (env : Env) (n : nat) (w w' : World) : Prop :=
  config w' = config w ∧
  (is_Some (es_requestQueue (w_service w')) ↔ is_Some (es_requestQueue (w_service w))) ∧
  world_ok w' ∧ (w_now w ≤ w_now w')%Z ∧
  ∃ new, w_sent w' = w_sent w ++ new ∧ (length new ≤ n)%nat ∧
    Forall (λ e, ∃ req, P req ∧ sentFor env req e) new.

(** The response is what the upstream answered to the last request sent,
    and that request was sent after [w0]. *)
Definition answered (env : Env) (w0 w : World) (resp : ProxyResponse) : Prop :=
  ∃ e before, w_sent w = before ++ [e] ∧ (length (w_sent w0) ≤ length before)%nat ∧
    ex_result (upstream env (length before) (se_Request e) (se_Body e))
      = DoResponse (rs_StatusCode resp) (rs_Headers resp) (Ok (rs_Body resp)) ∧
    (rs_StatusCode resp < StatusInternalServerError)%Z.

Definition outcome_ok (env : Env) (w0 w : World) (r : outcome (result ProxyResponse)) : Prop :=
  match r with Returned (Ok resp) => answered env w0 w resp | _ => True end.

Context {kept : LB → LB → Prop} (env : Env) {HE : EnvLaws kept env}.

Lemma progress_refl n w : world_ok w → progress env n w w.
Proof.
  intros Hok. do 2 (split; [done|]). split; [done|]. split; [lia|].
  exists []. rewrite app_nil_r. split; [done|]. split; [simpl; lia|constructor].
Qed.

Lemma progress_ok n w w' : progress env n w w' → world_ok w'.
Proof. by intros (_&_&?&_). Qed.

Lemma progress_config n w w' : progress env n w w' → config w' = config w.
Proof. by intros (?&_). Qed.

Lemma progress_trans n m w w1 w2 :
  progress env n w w1 → progress env m w1 w2 → progress env (n + m) w w2.
Proof.
  intros (Hc1&Hq1&_&Ht1&l1&Hs1&Hn1&Hl1) (Hc2&Hq2&Hok&Ht2&l2&Hs2&Hn2&Hl2).
  split; [congruence|]. split; [by rewrite Hq2|]. split; [done|]. split; [lia|].
  exists (l1 ++ l2). split; [by rewrite Hs2, Hs1, app_assoc|].
  rewrite length_app. split; [lia|by apply Forall_app].
Qed.

Lemma progress_le n m w w' : (n ≤ m)%nat → progress env n w w' → progress env m w w'.
Proof.
  intros Hle (?&?&?&?&l&?&?&?). do 4 (split; [done|]). exists l. split; [done|]. split; [lia|done].
Qed.

(** Steps that send nothing. *)
Lemma progress_quiet n w w' :
  config w' = config w →
  (is_Some (es_requestQueue (w_service w')) ↔ is_Some (es_requestQueue (w_service w))) →
  world_ok w' → (w_now w ≤ w_now w')%Z → w_sent w' = w_sent w → progress env n w w'.
Proof.
  intros ???? Hs. do 4 (split; [done|]). exists []. rewrite app_nil_r. split; [done|].
  split; [simpl; lia|constructor].
Qed.

Lemma progress_record n w c : world_ok w → progress env n w (record w c).
Proof. intros. by apply progress_quiet. Qed.

Lemma progress_recordQueue n w op : world_ok w → progress env n w (recordQueue w op).
Proof. apply progress_record. Qed.

Lemma progress_pause n d w : world_ok w → progress env n w (pause env d w).
Proof.
  intros. apply progress_quiet; [apply pause_config|apply pause_queue|by apply pause_ok
    |apply pause_monotone|apply pause_sent].
Qed.

Lemma progress_report n w b err code : world_ok w → progress env n w (reportResult w b err code).
Proof.
  intros [Hwf Hq]. apply progress_quiet; try done. split; [|done]. by apply lb_report_frame.
Qed.

Lemma progress_report_record n w b err code c :
  world_ok w → progress env n w (record (reportResult w b err code) c).
Proof.
  intros Hok. apply (progress_trans 0 n _ (reportResult w b err code)); [by apply progress_report|].
  apply progress_record. by eapply progress_ok, (progress_report 0).
Qed.

Lemma progress_setQueue n w q q' :
  world_ok w → es_requestQueue (w_service w) = Some q → Forall P (queue q') →
  progress env n w (setQueue w q').
Proof. intros [Hwf _] Hq HP. by apply progress_quiet. Qed.

Lemma sleep_progress n d w : world_ok w → progress env n w (sleep env d w).2.
Proof.
  intros. unfold sleep. pose proof (progress_pause n d w). repeat case_match; auto.
Qed.

Lemma sleep_elapsed d w w' : sleep env d w = (None, w') → (w_now w + d ≤ w_now w')%Z.
Proof.
  unfold sleep. destruct (w_ctxErr (pause env d w)) eqn:E.
  - destruct (Z.leb_spec (w_now w + d) (w_now (pause env d w))); simpl; [|done].
    destruct (preferCtx _ _); simpl; intros; simplify_eq. lia.
  - intros. simplify_eq. by apply pause_elapsed.
Qed.

Lemma answered_sent w0 w w' resp :
  w_sent w' = w_sent w → answered env w0 w resp → answered env w0 w' resp.
Proof. unfold answered. by intros ->. Qed.

Lemma outcome_ok_since n w0 w1 w2 r :
  progress env n w0 w1 → outcome_ok env w1 w2 r → outcome_ok env w0 w2 r.
Proof.
  intros (_&_&_&_&l&Hs&_) Hr. destruct r as [[resp|]|]; [|done..].
  destruct Hr as (e&before&?&Hlen&?). exists e, before. split; [done|]. split; [|done].
  rewrite Hs, length_app in Hlen. lia.
Qed.

(* ---------------------------------------------------------------- *)
(** ** One attempt *)

Lemma selectBackend_progress w :
  world_ok w →
  progress env 0 w (selectBackend w).2 ∧
  match (selectBackend w).1 with
  | Returned (Ok b) => candidate (lb_backends (balancer (selectBackend w).2)) b
  | _ => True
  end.
Proof.
  intros [Hwf Hq]. unfold selectBackend. pose proof (lb_next_frame _ Hwf) as Hf.
  destruct (lb_NextBackend (balancer w)) as [r lb] eqn:E. simpl in Hf. destruct Hf as (?&Hv&_).
  assert (progress env 0 w (setLB w lb)) by by apply progress_quiet.
  destruct r as [[b|err]|why]; simpl; split; try done.
  rewrite Hv. by apply lb_next_candidate in E as [_ ?].
Qed.

Lemma createBackendRequest_progress w req b :
  world_ok w →
  progress env 0 w (createBackendRequest env w req b).2 ∧
  match (createBackendRequest env w req b).1 with
  | Ok httpReq =>
      (createBackendRequest env w req b).2 = w ∧
      ∃ target, buildTargetURL env req b = Ok target ∧
        httpReq = prepareRequestHeaders
          (mkHTTPRequest (Method (pr_OriginalRequest req)) (url_String env target) ∅
             (Body (pr_OriginalRequest req))) req
  | Err _ => True
  end.
Proof.
  intros Hok. unfold createBackendRequest. destruct (buildTargetURL env req b) as [target|err];
    [destruct (newRequestError _ _ _) as [err|]|]; simpl; split; try done;
    try (by apply progress_report); [by apply progress_refl|eauto].
Qed.

(** What processBackendResponse does besides its reports. *)
Lemma processBackendResponse_spec w req b code headers body :
  world_ok w →
  progress env 0 w (processBackendResponse w req b code headers body).2 ∧
  w_sent (processBackendResponse w req b code headers body).2 = w_sent w ∧
  match (processBackendResponse w req b code headers body).1 with
  | Ok resp => resp = mkProxyResponse code headers body ∧ (code < StatusInternalServerError)%Z
  | Err _ => (StatusInternalServerError ≤ code)%Z
  end.
Proof.
  intros Hok. unfold processBackendResponse. destruct (Z.leb_spec StatusInternalServerError code);
    simpl; (split; [|done]); by apply progress_report_record.
Qed.

Lemma doRequest_progress w req b httpReq :
  world_ok w → P req → candidate (lb_backends (balancer w)) b →
  (∃ target, buildTargetURL env req b = Ok target ∧
    httpReq = prepareRequestHeaders
      (mkHTTPRequest (Method (pr_OriginalRequest req)) (url_String env target) ∅
         (Body (pr_OriginalRequest req))) req) →
  progress env 1 w (doRequest env w b httpReq).2 ∧
  ∃ e, w_sent (doRequest env w b httpReq).2 = w_sent w ++ [e] ∧
    (doRequest env w b httpReq).1
      = ex_result (upstream env (length (w_sent w)) (se_Request e) (se_Body e)).
Proof.
  intros Hok HP Hb Hreq. unfold doRequest. cbv zeta. cbn [fst snd]. split.
  - eapply (progress_trans 1 0); [|apply progress_pause, Hok].
    do 2 (split; [done|]). split; [apply Hok|]. split; [done|]. eexists.
    split; [done|]. split; [done|]. apply Forall_singleton. exists req. split; [done|]. split; [exact Hb|exact Hreq].
  - rewrite pause_sent. eexists. split; [done|]. done.
Qed.

Lemma executeBackendRequest_progress w req b httpReq :
  world_ok w → P req → candidate (lb_backends (balancer w)) b →
  (∃ target, buildTargetURL env req b = Ok target ∧
    httpReq = prepareRequestHeaders
      (mkHTTPRequest (Method (pr_OriginalRequest req)) (url_String env target) ∅
         (Body (pr_OriginalRequest req))) req) →
  progress env 1 w (executeBackendRequest env w req b httpReq).2 ∧
  match (executeBackendRequest env w req b httpReq).1 with
  | Ok resp => answered env w (executeBackendRequest env w req b httpReq).2 resp
  | Err _ => True
  end.
Proof.
  intros Hok HP Hb Hreq. unfold executeBackendRequest.
  pose proof (doRequest_progress w req b httpReq Hok HP Hb Hreq) as [Hp (e&Hs&Hr)].
  destruct (doRequest env w b httpReq) as [resp w1]. cbn [fst snd] in Hp, Hs, Hr.
  pose proof (progress_ok _ _ _ Hp) as Hok1.
  destruct resp as [err|code headers [body|err]].
  - simpl. split; [|done]. apply (progress_trans 1 0 _ w1); [done|].
    by apply progress_report_record.
  - destruct (processBackendResponse_spec w1 req b code headers body Hok1) as (Hp2&Hs2&Hr2).
    split; [by apply (progress_trans 1 0 _ w1)|].
    destruct (processBackendResponse w1 req b code headers body) as [[resp|err] w2]; [|done].
    cbn [fst snd] in *. destruct Hr2 as [-> ?]. exists e, (w_sent w). by rewrite Hs2, Hs.
  - simpl. split; [|done]. apply (progress_trans 1 0 _ w1); [done|]. by apply progress_report.
Qed.

Lemma forwardToBackend_progress w req :
  world_ok w → P req →
  progress env 1 w (forwardToBackend env w req).2 ∧
  outcome_ok env w (forwardToBackend env w req).2 (forwardToBackend env w req).1.
Proof.
  intros Hok HP. unfold forwardToBackend.
  destruct (selectBackend_progress w Hok) as [Hp1 Hr1].
  destruct (selectBackend w) as [r1 w1]. cbn [fst snd] in *.
  pose proof (progress_ok _ _ _ Hp1) as Hok1. assert (progress env 1 w w1) as Hp1'.
  { by eapply progress_le, Hp1; lia. }
  destruct r1 as [[b|err]|why]; [|by split..].
  destruct (createBackendRequest_progress w1 req b Hok1) as [Hp2 Hr2].
  destruct (createBackendRequest env w1 req b) as [[httpReq|err] w2]; cbn [fst snd] in *.
  2: { split; [|done]. by eapply progress_le, progress_trans, Hp2; [|exact Hp1']. }
  destruct Hr2 as [-> Hr2].
  destruct (executeBackendRequest_progress w1 req b httpReq Hok1 HP Hr1 Hr2) as [Hp3 Hr3].
  destruct (executeBackendRequest env w1 req b httpReq) as [[resp|err] w3]; cbn [fst snd] in *.
  - split; [|by apply (outcome_ok_since 0 w w1 w3 (Returned (Ok resp)) Hp1)].
    apply (progress_trans 0 1 _ w1); [done|].
    apply (progress_trans 1 0 _ w3); [done|]. apply progress_record. by eapply progress_ok.
  - split; [|done]. by apply (progress_trans 0 1 _ w1).
Qed.

(* ---------------------------------------------------------------- *)
(** ** Retries *)

Lemma attemptLoop_progress n attempt lastErr w req :
  world_ok w → P req →
  progress env n w (attemptLoop env n attempt lastErr w req).2 ∧
  outcome_ok env w (attemptLoop env n attempt lastErr w req).2
    (attemptLoop env n attempt lastErr w req).1.
Proof.
  intros Hok HP. revert attempt lastErr w Hok. induction n as [|n IH]; intros attempt lastErr w Hok.
  { simpl. destruct lastErr; (split; [by apply progress_refl|done]). }
  cbn [attemptLoop].
  assert (∃ ctxErr w1, (if (0 <? attempt)%Z
    then sleep env (wrap64 (attempt * rl_Backoff (px_Reliability (config w)))) w else (None, w)) = (ctxErr, w1)
    ∧ progress env 0 w w1) as (ctxErr&w1&->&Hp1).
  { destruct (0 <? attempt)%Z; [|exists None, w; by split; [|apply progress_refl]].
    eexists _, _. split; [apply surjective_pairing|by apply sleep_progress]. }
  pose proof (progress_ok _ _ _ Hp1) as Hok1. destruct ctxErr as [err|].
  { split; [|done]. by eapply progress_le, Hp1; lia. }
  destruct (forwardToBackend_progress w1 req Hok1 HP) as [Hp2 Hr2].
  destruct (forwardToBackend env w1 req) as [r w2]. cbn [fst snd] in *.
  assert (progress env 1 w w2) as Hp by by apply (progress_trans 0 1 _ w1).
  assert (progress env (S n) w w2) by (by eapply progress_le, Hp; lia).
  apply (outcome_ok_since _ _ _ _ _ Hp1) in Hr2.
  destruct r as [[resp|err]|why]; [by split| |by split].
  destruct (IH (attempt + 1)%Z (Some err) w2) as [Hp3 Hr3]; [by eapply progress_ok|].
  split; [by apply (progress_trans 1 n _ w2)|by eapply outcome_ok_since].
Qed.

Lemma forwardToBackendDirect_progress w req :
  world_ok w → P req →
  progress env (Z.to_nat (retries w)) w (forwardToBackendDirect env w req).2 ∧
  outcome_ok env w (forwardToBackendDirect env w req).2 (forwardToBackendDirect env w req).1.
Proof. apply attemptLoop_progress. Qed.

(* ---------------------------------------------------------------- *)
(** ** The queue *)

Lemma Enqueue_known (q : MemoryQueue ProxyRequest) ctxErr prefer req :
  Forall P (queue q) → P req → Forall P (queue (Enqueue q ctxErr prefer req).2).
Proof.
  intros Hq HP. unfold Enqueue. repeat case_match; simpl; try done;
    by apply Forall_app; split; [|apply Forall_singleton].
Qed.

Lemma Dequeue_known (q : MemoryQueue ProxyRequest) ctxErr prefer wake :
  Forall P (queue q) → (∀ req, wake = WakeRequest req → P req) →
  Forall P (queue (Dequeue q ctxErr prefer wake).2) ∧
  match (Dequeue q ctxErr prefer wake).1 with Ok req => P req | Err _ => True end.
Proof.
  intros Hq Hw. unfold Dequeue.
  destruct (closed q); [done|]. destruct (queue q) as [|req rest] eqn:E.
  - destruct ctxErr; [by simpl; rewrite E|]. destruct (timeout q <=? 0)%Z; [by simpl; rewrite E|].
    destruct wake; simpl; rewrite ?E; auto.
  - apply Forall_cons in Hq as [??].
    destruct ctxErr; [destruct prefer|]; simpl; rewrite ?E; auto.
Qed.

Lemma enqueue_progress w req :
  world_ok w → P req → progress env 0 w (enqueue env w req).2.
Proof.
  intros Hok HP. unfold enqueue. destruct (es_requestQueue (w_service w)) as [q|] eqn:E;
    [|by apply progress_refl].
  pose proof (Enqueue_known q (w_ctxErr w) (preferCtx env w) req) as Hk.
  destruct (Enqueue _ _ _ _) as [err q']. eapply progress_setQueue; [done|done|].
  apply Hk; [|done]. destruct Hok as [_ Hq]. by rewrite E in Hq.
Qed.

Lemma dequeue_progress w :
  world_ok w →
  progress env 0 w (dequeue env w).2 ∧
  match (dequeue env w).1 with Ok req => P req | Err _ => True end.
Proof.
  intros Hok. unfold dequeue. destruct (es_requestQueue (w_service w)) as [q|] eqn:E;
    [|split; [by apply progress_refl|done]].
  assert (Forall P (queue q)) as Hq by (destruct Hok as [_ Hq]; by rewrite E in Hq).
  destruct (Dequeue_known q (w_ctxErr w) (preferCtx env w) (dequeueWake env w) Hq) as [Hq' Hr].
  { intros req. apply wake_known. }
  destruct (Dequeue _ _ _ _) as [r q']. simpl in *. split; [|done].
  assert (progress env 0 w (setQueue w q')) by by eapply progress_setQueue.
  case_bool_decide; [|done]. apply (progress_trans 0 0 _ (setQueue w q')); [done|].
  apply progress_pause. by eapply progress_ok.
Qed.

(** The loops' worlds share their configuration, and so the retry count. *)
Lemma retries_progress n w w' : progress env n w w' → retries w' = retries w.
Proof. intros Hp. unfold retries. by rewrite (progress_config _ _ _ Hp). Qed.

Lemma direct_after n w w1 req :
  progress env n w w1 → P req →
  progress env (n + Z.to_nat (retries w)) w (forwardToBackendDirect env w1 req).2 ∧
  outcome_ok env w (forwardToBackendDirect env w1 req).2 (forwardToBackendDirect env w1 req).1.
Proof.
  intros Hp HP. rewrite <- (retries_progress _ _ _ Hp).
  destruct (forwardToBackendDirect_progress w1 req (progress_ok _ _ _ Hp) HP) as [??].
  split; [by eapply progress_trans|by eapply outcome_ok_since].
Qed.

Lemma handleProcessingFailure_progress w req start maxWait :
  world_ok w → P req → progress env 0 w (handleProcessingFailure env w req start maxWait).
Proof.
  intros Hok HP. unfold handleProcessingFailure. destruct (_ || _); [by apply progress_refl|].
  pose proof (enqueue_progress w req Hok HP) as Hp. destruct (enqueue env w req) as [err w1].
  simpl in Hp. pose proof (progress_ok _ _ _ Hp). 
  destruct err; (apply (progress_trans 0 0 _ w1); [done|by apply progress_recordQueue]).
Qed.

Lemma processFromQueue_progress w req start maxWait :
  world_ok w → P req →
  progress env (Z.to_nat (retries w)) w (processFromQueue env w req start maxWait).2 ∧
  outcome_ok env w (processFromQueue env w req start maxWait).2
    (processFromQueue env w req start maxWait).1.
Proof.
  intros Hok HP. unfold processFromQueue.
  destruct (dequeue_progress w Hok) as [Hp1 Hr1]. destruct (dequeue env w) as [[req'|err] w1]; simpl in *.
  - assert (progress env 0 w (recordQueue w1 "dequeue_success")) as Hp1'.
    { apply (progress_trans 0 0 _ w1); [done|]. apply progress_record. by eapply progress_ok. }
    destruct (direct_after _ _ _ req' Hp1' Hr1) as [Hp2 Hr2].
    destruct (forwardToBackendDirect _ _ _) as [r w2]. simpl in *.
    pose proof (progress_ok _ _ _ Hp2) as Hok2. destruct r as [[resp|err]|why]; [| |by split].
    + split; [|done]. rewrite <- (Nat.add_0_r (Z.to_nat _)).
      apply (progress_trans _ 0 _ w2); [done|]. by apply progress_recordQueue.
    + split; [|done]. rewrite <- (Nat.add_0_r (Z.to_nat _)).
      apply (progress_trans _ 0 _ w2); [done|]. by apply handleProcessingFailure_progress.
  - unfold handleDequeueError. destruct (errors_Is err ErrQueueEmpty).
    + apply (direct_after 0 w); [|done].
      apply (progress_trans 0 0 _ w1); [done|]. apply progress_recordQueue. by eapply progress_ok.
    + split; [|done]. eapply (progress_trans 0 _ _ w1); [done|]. apply progress_record.
      by eapply progress_ok.
Qed.

Lemma pollQueue_progress fuel w req start maxWait r w' :
  world_ok w → P req → pollQueue fuel env w req start maxWait = Some (r, w') →
  progress env (Z.to_nat (retries w)) w w' ∧ outcome_ok env w w' r.
Proof.
  intros Hok HP. revert w Hok. induction fuel as [|fuel IH]; intros w Hok; cbn [pollQueue];
    (destruct (_ <? maxWait)%Z; [|intros [= <- <-]; split; [by apply progress_refl|done]]);
    (destruct (hasHealthyBackends w);
      [intros [= E]; pose proof (processFromQueue_progress w req start maxWait Hok HP) as H;
       by rewrite E in H|]); [done|].
  pose proof (sleep_progress 0 DefaultQueueCheckInterval w Hok) as Hp.
  destruct (sleep _ _ _) as [[err|] w1]; simpl in Hp.
  - intros [= <- <-]. split; [|done]. by eapply progress_le, Hp; lia.
  - intros E. destruct (IH w1 (progress_ok _ _ _ Hp) E) as [Hp2 ?]. split; [|by eapply outcome_ok_since].
    rewrite <- (retries_progress _ _ _ Hp). by apply (progress_trans 0 _ _ w1).
Qed.

Lemma queued_after n w w1 req r w' :
  progress env n w w1 → P req → processQueuedRequest env w1 req = Some (r, w') →
  progress env (n + Z.to_nat (retries w)) w w' ∧ outcome_ok env w w' r.
Proof.
  intros Hp HP E. rewrite <- (retries_progress _ _ _ Hp).
  destruct (pollQueue_progress _ w1 req _ _ _ _ (progress_ok _ _ _ Hp) HP E) as [??].
  split; [by eapply progress_trans|by eapply outcome_ok_since].
Qed.

Lemma forwardWithQueue_progress w req r w' :
  world_ok w → P req → forwardWithQueue env w req = Some (r, w') →
  progress env (Z.to_nat (retries w) + Z.to_nat (retries w)) w w' ∧ outcome_ok env w w' r.
Proof.
  intros Hok HP. unfold forwardWithQueue. destruct (_ =? 0)%nat.
  - pose proof (enqueue_progress w req Hok HP) as Hp. destruct (enqueue env w req) as [err w1].
    simpl in Hp. assert (∀ op, progress env 0 w (recordQueue w1 op)) as Hp'.
    { intros op. apply (progress_trans 0 0 _ w1); [done|]. apply progress_recordQueue.
      by eapply progress_ok. }
    destruct err as [err|].
    + intros [= <- <-]. split; [|done]. by eapply progress_le, Hp'; lia.
    + intros E. apply (queued_after 0 w) in E as [??]; [|done|done]. split; [|done].
      eapply progress_le, H. lia.
  - destruct (forwardToBackendDirect_progress w req Hok HP) as [Hp Hr].
    destruct (forwardToBackendDirect env w req) as [r1 w1]. simpl in Hp, Hr.
    pose proof (progress_ok _ _ _ Hp) as Hok1.
    assert (progress env (Z.to_nat (retries w) + Z.to_nat (retries w)) w w1) as Hpp
      by (eapply progress_le, Hp; lia).
    destruct r1 as [[resp|err]|why]; [by intros [= <- <-]| |by intros [= <- <-]].
    destruct (_ <? _)%Z; [|by intros [= <- <-]].
    pose proof (enqueue_progress w1 req Hok1 HP) as Hq. destruct (enqueue env w1 req) as [qerr w2].
    simpl in Hq. assert (∀ op, progress env (Z.to_nat (retries w)) w (recordQueue w2 op)) as Hp'.
    { intros op. rewrite <- (Nat.add_0_r (Z.to_nat _)). apply (progress_trans _ 0 _ w1); [done|].
      apply (progress_trans 0 0 _ w2); [done|]. apply progress_recordQueue. by eapply progress_ok. }
    destruct qerr as [qerr|].
    + intros [= <- <-]. split; [|done]. eapply progress_le, Hp'. lia.
    + intros E. by apply (queued_after (Z.to_nat (retries w)) w) in E.
Qed.

(* ---------------------------------------------------------------- *)
(** ** Termination of the polling loop *)

Lemma pollQueue_returns fuel w req start maxWait :
  (maxWait ≤ w_now w - start + Z.of_nat fuel * DefaultQueueCheckInterval)%Z →
  is_Some (pollQueue fuel env w req start maxWait).
Proof.
  revert w. induction fuel as [|fuel IH]; intros w Hf; cbn [pollQueue];
    (destruct (Z.ltb_spec (w_now w - start) maxWait); [|eauto]);
    (destruct (hasHealthyBackends w); [eauto|]); [lia|].
  pose proof (sleep_elapsed DefaultQueueCheckInterval w) as Hs.
  destruct (sleep _ _ _) as [[err|] w1]; [eauto|]. apply IH. specialize (Hs w1 eq_refl). lia.
Qed.

Lemma pollQueue_enough w req start m :
  (start ≤ w_now w)%Z → is_Some (pollQueue (pollFuel m) env w req start m).
Proof.
  intros Hs. apply pollQueue_returns. unfold pollFuel.
  assert (0 < DefaultQueueCheckInterval)%Z by done.
  pose proof (Z.div_mod m DefaultQueueCheckInterval ltac:(lia)).
  pose proof (Z.mod_pos_bound m DefaultQueueCheckInterval ltac:(lia)).
  rewrite Nat2Z.inj_succ. nia.
Qed.

Lemma pollQueue_mono fuel fuel' w req start m out :
  (fuel ≤ fuel')%nat → pollQueue fuel env w req start m = Some out →
  pollQueue fuel' env w req start m = Some out.
Proof.
  revert fuel' w. induction fuel as [|fuel IH]; intros fuel' w Hle; destruct fuel' as [|fuel'];
    try lia; cbn [pollQueue]; (destruct (_ <? m)%Z; [|done]); (destruct (hasHealthyBackends w); [done|]);
    [done..|].
  destruct (sleep _ _ _) as [[err|] w1]; [done|]. apply IH. lia.
Qed.

Lemma processQueuedRequest_returns w req : is_Some (processQueuedRequest env w req).
Proof. apply pollQueue_enough. lia. Qed.

(* ---------------------------------------------------------------- *)
(** ** Forward *)

Lemma Forward_progress w req r w' :
  world_ok w → P req → Forward env w req = Some (r, w') →
  progress env (2 * Z.to_nat (retries w)) w w' ∧ outcome_ok env w w' r.
Proof.
  intros Hok HP Hf. unfold Forward in Hf.
  destruct (es_closed _); [by simplify_eq; split; [apply progress_refl|]|].
  destruct (_ && _).
  - apply forwardWithQueue_progress in Hf as [Hp ?]; [|done..]. split; [|done].
    eapply progress_le, Hp. lia.
  - destruct (forwardToBackendDirect_progress w req Hok HP) as [Hp Hr]. injection Hf as Hf.
    rewrite Hf in Hp, Hr. split; [eapply progress_le, Hp; lia|done].
Qed.

(** C6: Forward sends at most twice Retries requests, each to a backend the balancer may
    select (a healthy one, or a rate-limited one when none is healthy) and built from a
    request given to the service or its queue; a response it returns is verbatim the
    upstream's answer to the last request sent, with a status below 500. *)
Theorem forward_sends_known_requests w req r w' :
  world_ok w → P req → Forward env w req = Some (r, w') →
  ∃ new, w_sent w' = w_sent w ++ new ∧
    (length new ≤ 2 * Z.to_nat (rl_Retries (px_Reliability (config w))))%nat ∧
    Forall (λ e, ∃ req', P req' ∧ sentFor env req' e) new ∧
    world_ok w' ∧
    match r with
    | Returned (Ok resp) =>
        ∃ e before, w_sent w' = before ++ [e] ∧ e ∈ new ∧
          ex_result (upstream env (length before) (se_Request e) (se_Body e))
            = DoResponse (rs_StatusCode resp) (rs_Headers resp) (Ok (rs_Body resp)) ∧
          (rs_StatusCode resp < 500)%Z
    | _ => True
    end.
Proof.
  intros Hok HP Hf.
  destruct (Forward_progress w req r w' Hok HP Hf) as [(_&_&Hok'&_&new&Hs&Hn&Hnew) Hr].
  exists new. split; [done|]. split; [done|]. do 2 (split; [done|]).
  destruct r as [[resp|]|]; [|done..]. destruct Hr as (e&before&Hs'&Hlen&?&?).
  exists e, before. split; [done|]. split; [|done].
  rewrite Hs in Hs'. destruct new as [|e' new _] using rev_ind.
  - rewrite app_nil_r in Hs'. rewrite Hs', length_app in Hlen. simpl in Hlen. lia.
  - rewrite app_assoc in Hs'. apply app_inj_tail in Hs' as [_ ->]. apply elem_of_app. right. left.
Qed.

Lemma Forward_returns w req : is_Some (Forward env w req).
Proof.
  unfold Forward, forwardWithQueue. destruct (es_closed _); [eauto|]. destruct (_ && _); [|eauto].
  destruct (_ =? 0)%nat.
  - destruct (enqueue env w req) as [[err|] w1]; [eauto|apply processQueuedRequest_returns].
  - destruct (forwardToBackendDirect env w req) as [[[resp|err]|why] w1]; [eauto| |eauto].
    destruct (_ <? _)%Z; [|eauto].
    destruct (enqueue env w1 req) as [[qerr|] w2]; [eauto|apply processQueuedRequest_returns].
Qed.

(** C23: Forward terminates, the wait in the queue included, and any fuel above pollFuel
    gives the polling loop the same result. *)
Theorem forward_returns w req :
  is_Some (Forward env w req) ∧
  ∀ fuel w1 start m, (pollFuel m ≤ fuel)%nat → (start ≤ w_now w1)%Z →
    pollQueue fuel env w1 req start m = pollQueue (pollFuel m) env w1 req start m.
Proof.
  split; [apply Forward_returns|]. intros fuel w1 start m Hf Hs.
  destruct (pollQueue_enough w1 req start m Hs) as [out E]. rewrite E. by eapply pollQueue_mono.
Qed.

(** No attempt panics unless NextBackend does. *)
Lemma attemptLoop_returns n attempt lastErr w req :
  (∀ lb, lb_wf lb → returns (lb_NextBackend lb).1 = true) →
  world_ok w → P req → (0 < n)%nat ∨ is_Some lastErr →
  returns (attemptLoop env n attempt lastErr w req).1 = true.
Proof.
  intros Hnext Hok HP. revert attempt lastErr w Hok.
  induction n as [|n IH]; intros attempt lastErr w Hok Hn.
  { destruct Hn as [?|[? ->]]; [lia|done]. }
  cbn [attemptLoop].
  pose proof (sleep_progress 0 (wrap64 (attempt * rl_Backoff (px_Reliability (config w)))) w Hok) as Hp.
  assert (∃ ctxErr w1, (if (0 <? attempt)%Z
    then sleep env (wrap64 (attempt * rl_Backoff (px_Reliability (config w)))) w else (None, w)) = (ctxErr, w1)
    ∧ world_ok w1) as (ctxErr&w1&->&Hok1).
  { destruct (0 <? attempt)%Z; [|by exists None, w].
    eexists _, _. split; [apply surjective_pairing|by eapply progress_ok]. }
  destruct ctxErr as [err|]; [done|].
  destruct (forwardToBackend_progress w1 req Hok1 HP) as [Hp2 _]. apply progress_ok in Hp2.
  assert (returns (forwardToBackend env w1 req).1 = true) as Hr.
  { unfold forwardToBackend, selectBackend. destruct Hok1 as [Hwf _]. specialize (Hnext _ Hwf).
    destruct (lb_NextBackend _) as [[[b|e]|why] lb]; [|done..].
    destruct (createBackendRequest _ _ _ _) as [[httpReq|e] w2]; [|done].
    by destruct (executeBackendRequest _ _ _ _ _) as [[resp|e] w3]. }
  destruct (forwardToBackend env w1 req) as [[[resp|err]|why] w2]; [done| |done].
  apply IH; [done|]. right. eauto.
Qed.

(** With a balancer whose selections never panic, forwarding panics exactly when the
    configured number of retries is not positive: no attempt is made and the missing last
    error is used. *)
Theorem direct_forward_panics_iff w req :
  (∀ lb, lb_wf lb → returns (lb_NextBackend lb).1 = true) → world_ok w → P req →
  returns (forwardToBackendDirect env w req).1 = false ↔
  (rl_Retries (px_Reliability (config w)) ≤ 0)%Z.
Proof.
  intros Hnext Hok HP. unfold forwardToBackendDirect, retries. split; intros H.
  - destruct (decide (rl_Retries (px_Reliability (config w)) ≤ 0)%Z); [done|].
    rewrite attemptLoop_returns in H; [done..|]. left. lia.
  - by replace (Z.to_nat _) with 0%nat by lia.
Qed.
End Progress.
