(* ===== verification/ProxyTrace.v ===== *)
(** * ProxyTrace: the service's calls to its balancer

    A balancer that records the calls of this goroutine ([Traced]) is again a
    balancer, so the service can be run on it. Every backend Forward selects
    is reported exactly once, right after, and the report tells how the
    attempt ended. *)

From S2P Require Import Prelude GoStd Errors Domain LoadBalancer LBFactory Http Config Health Queue Proxy ProxyProofs.

(** The calls of domain.LoadBalancer a request makes. *)
Inductive lbCall :=
| Selected (r : outcome (result Backend))
| Reported (b : Backend) (err : option goError) (statusCode : Z).

Record Traced (LB : Type) := mkTraced { tr_lb : LB; tr_calls : list lbCall }.
Arguments mkTraced {LB}.
Arguments tr_lb {LB}.
Arguments tr_calls {LB}.

#[export] Instance Traced_LoadBalancer LB `{LoadBalancer LB} : LoadBalancer (Traced LB) := {
  lb_NextBackend t :=
    let '(r, lb) := lb_NextBackend (tr_lb t) in (r, mkTraced lb (tr_calls t ++ [Selected r]));
  lb_ReportResult t b err code :=
    mkTraced (lb_ReportResult (tr_lb t) b err code) (tr_calls t ++ [Reported b err code]);
  lb_BackendsStatus t now := lb_BackendsStatus (tr_lb t) now;
  lb_UpdateBackendState t url st := mkTraced (lb_UpdateBackendState (tr_lb t) url st) (tr_calls t);
  lb_Close t := mkTraced (lb_Close (tr_lb t)) (tr_calls t)
}.

Lemma traced_next LB `{LoadBalancer LB} (t : Traced LB) :
  (lb_NextBackend t).1 = (lb_NextBackend (tr_lb t)).1 ∧
  tr_lb (lb_NextBackend t).2 = (lb_NextBackend (tr_lb t)).2 ∧
  tr_calls (lb_NextBackend t).2 = tr_calls t ++ [Selected (lb_NextBackend t).1].
Proof. simpl. by destruct (lb_NextBackend (tr_lb t)). Qed.

#[export] Instance Traced_Spec LB `{HLB : LoadBalancer LB, !LoadBalancerSpec LB}
  : LoadBalancerSpec (Traced LB).
Proof.
  refine {|
    lb_backends t := lb_backends (tr_lb t);
    lb_closed t := lb_closed (tr_lb t);
    lb_wf t := lb_wf (tr_lb t)
  |}.
  - intros t b t' Hwf Hn. simpl in Hn. destruct (lb_NextBackend (tr_lb t)) eqn:E.
    simplify_eq. by eapply lb_next_candidate.
  - intros t e t' Hwf Hn. simpl in Hn. destruct (lb_NextBackend (tr_lb t)) eqn:E.
    simplify_eq. by eapply lb_next_error.
  - intros t Hc. rewrite (proj1 (traced_next LB t)). by apply lb_next_closed.
  - intros t Hwf. destruct (traced_next LB t) as (_&Ht&_). cbv zeta. rewrite Ht. by apply lb_next_frame.
  - intros t b e code Hwf. apply (lb_report_frame (tr_lb t) b e code Hwf).
  - intros t url st Hwf. apply (lb_update_view (tr_lb t) url st Hwf).
  - intros t Hwf. apply (lb_close_view (tr_lb t) Hwf).
  - intros t now Hwf. apply (lb_status_view (tr_lb t) now Hwf).
Defined.

(** An attempt: no backend, or a backend selected and then reported. *)
Inductive attempt :=
| NoBackend (r : outcome (result Backend))
| Tried (b : Backend) (err : option goError) (statusCode : Z).

Definition callsOf (a : attempt) : list lbCall :=
  match a with
  | NoBackend r => [Selected r]
  | Tried b err code => [Selected (Returned (Ok b)); Reported b err code]
  end.

Definition noBackend (r : outcome (result Backend)) : Prop :=
  match r with Returned (Ok _) => False | _ => True end.

Definition attempt_ok (a : attempt) : Prop :=
  match a with NoBackend r => noBackend r | Tried _ _ _ => True end.

Section Trace.
Context {LB : Type} `{HLB : LoadBalancer LB, !LoadBalancerSpec LB}.

Notation World := (Proxy.World (Traced LB)).
Notation Env := (Proxy.Env (Traced LB)).
Notation trace w := (tr_calls (es_loadBalancer (w_service w))).

(** Waiting adds no call of this goroutine. *)
Context (env : Env) (Hpause : ∀ d w, trace (pause env d w) = trace w).

(** From [w] to [w'] the calls are those of [atts]. *)
Definition traced (w w' : World) (atts : list attempt) : Prop :=
  trace w' = trace w ++ concat (map callsOf atts) ∧ Forall attempt_ok atts.

(** The last attempt of a response is a success with its status. *)
Definition ends_with (r : outcome (result ProxyResponse)) (atts : list attempt) : Prop :=
  match r with
  | Returned (Ok resp) => ∃ b, last atts = Some (Tried b None (rs_StatusCode resp))
  | _ => True
  end.

Lemma traced_trans w w1 w2 l1 l2 : traced w w1 l1 → traced w1 w2 l2 → traced w w2 (l1 ++ l2).
Proof.
  intros [H1 ?] [H2 ?]. split; [|by apply Forall_app].
  by rewrite H2, H1, map_app, concat_app, app_assoc.
Qed.

Lemma traced_same w w' : trace w' = trace w → traced w w' [].
Proof. intros H. split; [by rewrite app_nil_r|constructor]. Qed.

Lemma ends_with_app r l1 l2 : ends_with r l2 → ends_with r (l1 ++ l2).
Proof.
  destruct r as [[resp|]|]; [|done..]. intros [b Hb]. exists b. by rewrite last_app, Hb.
Qed.

Lemma sleep_trace d w : trace (sleep env d w).2 = trace w.
Proof. unfold sleep. repeat case_match; apply Hpause. Qed.

Lemma forwardToBackend_traced w req :
  ∃ a, traced w (forwardToBackend env w req).2 [a] ∧ ends_with (forwardToBackend env w req).1 [a].
Proof.
  unfold forwardToBackend, selectBackend.
  destruct (traced_next LB (es_loadBalancer (w_service w))) as (_&_&Ht).
  destruct (lb_NextBackend _) as [r t]. cbn [fst snd] in Ht.
  destruct r as [[b|err]|why];
    [|eexists (NoBackend _); split; [|done]; by split; [simpl; by rewrite Ht|repeat constructor]..].
  assert (∀ w' err code, trace w' = trace (reportResult (setLB w t) b err code) →
    traced w w' [Tried b err code]) as Htried.
  { intros w' err code E. split; [|by constructor]. rewrite E. simpl. by rewrite Ht, <- app_assoc. }
  unfold createBackendRequest.
  destruct (buildTargetURL env req b) as [target|err]; [|by eexists; split; [by eapply Htried|]].
  destruct (newRequestError _ _ _) as [err|]; [by eexists; split; [by eapply Htried|]|].
  unfold executeBackendRequest, doRequest. destruct (ex_result _) as [err|code headers [body|err]].
  - eexists. split; [|done]. eapply Htried. simpl. by rewrite Hpause.
  - unfold processBackendResponse. destruct (StatusInternalServerError <=? code)%Z.
    + eexists. split; [|done]. eapply Htried. simpl. by rewrite Hpause.
    + eexists. split; [eapply Htried; simpl; by rewrite Hpause|]. by exists b.
  - eexists. split; [|done]. eapply Htried. simpl. by rewrite Hpause.
Qed.

Lemma attemptLoop_traced n i lastErr w req :
  ∃ atts, traced w (attemptLoop env n i lastErr w req).2 atts ∧ (length atts ≤ n)%nat ∧
    ends_with (attemptLoop env n i lastErr w req).1 atts.
Proof.
  revert i lastErr w. induction n as [|n IH]; intros i lastErr w; cbn [attemptLoop].
  { exists []. by destruct lastErr; split; try by apply traced_same. }
  set (d := wrap64 _).
  assert (trace (if (0 <? i)%Z then sleep env d w else (None, w)).2 = trace w) as Hs.
  { destruct (0 <? i)%Z; [apply sleep_trace|done]. }
  destruct (if (0 <? i)%Z then sleep env d w else (None, w)) as [[err|] w1]; simpl in Hs.
  { exists []. split; [by apply traced_same|]. split; [simpl; lia|done]. }
  destruct (forwardToBackend_traced w1 req) as (a&Ha&He).
  assert (traced w (forwardToBackend env w1 req).2 [a]) as Ha'.
  { change [a] with ([] ++ [a]). eapply traced_trans, Ha. by apply traced_same. }
  destruct (forwardToBackend env w1 req) as [[[resp|err]|why] w2]; simpl in Ha', He;
    [by exists [a]; split; [|split; [simpl; lia|]]
    | |by exists [a]; split; [|split; [simpl; lia|]]].
  destruct (IH (i + 1)%Z (Some err) w2) as (atts&Ht&Hn&Hr). exists ([a] ++ atts).
  split; [by eapply traced_trans|]. split; [simpl; lia|]. by apply ends_with_app.
Qed.

Lemma direct_traced w req :
  ∃ atts, traced w (forwardToBackendDirect env w req).2 atts ∧
    ends_with (forwardToBackendDirect env w req).1 atts.
Proof. destruct (attemptLoop_traced (Z.to_nat (retries w)) 0 None w req) as (atts&?&_&?). eauto. Qed.

(** A call of the service whose result is [r]. *)
Definition reports (w : World) (out : outcome (result ProxyResponse) * World) : Prop :=
  ∃ atts, traced w out.2 atts ∧ ends_with out.1 atts.

Lemma reports_after w w1 out l : traced w w1 l → reports w1 out → reports w out.
Proof. intros ? (atts&?&?). exists (l ++ atts). split; [by eapply traced_trans|by apply ends_with_app]. Qed.

Lemma reports_quiet w r w' : trace w' = trace w → ends_with r [] → reports w (r, w').
Proof. intros. exists []. by split; [apply traced_same|]. Qed.

Lemma reports_then w w1 w2 r : reports w (r, w1) → trace w2 = trace w1 → reports w (r, w2).
Proof. unfold reports, traced. simpl. by intros (atts&?&?) ->; exists atts. Qed.

Lemma enqueue_trace w req : trace (enqueue env w req).2 = trace w.
Proof. unfold enqueue. by destruct (es_requestQueue _); [destruct (Enqueue _ _ _ _)|]. Qed.

Lemma dequeue_trace w : trace (dequeue env w).2 = trace w.
Proof.
  unfold dequeue. destruct (es_requestQueue _); [|done]. destruct (Dequeue _ _ _ _). simpl.
  case_bool_decide; [by rewrite Hpause|done].
Qed.

Lemma handleProcessingFailure_trace w req start m :
  trace (handleProcessingFailure env w req start m) = trace w.
Proof.
  unfold handleProcessingFailure. destruct (_ || _); [done|].
  pose proof (enqueue_trace w req). destruct (enqueue env w req) as [[err|] w1]; done.
Qed.

Lemma processFromQueue_reports w req start m : reports w (processFromQueue env w req start m).
Proof.
  unfold processFromQueue. pose proof (dequeue_trace w) as Hd.
  destruct (dequeue env w) as [[req'|err] w1]; simpl in Hd.
  - destruct (direct_traced (recordQueue w1 "dequeue_success") req') as (atts&Ht&He).
    destruct (forwardToBackendDirect _ _ _) as [r w2]. simpl in Ht, He.
    assert (reports w (r, w2)) as Hr.
    { eapply (reports_after w (recordQueue w1 "dequeue_success") _ []); [by apply traced_same|].
      by exists atts. }
    destruct r as [[resp|err]|why]; [|eapply reports_then; [done|apply handleProcessingFailure_trace]|done].
    by eapply reports_then.
  - unfold handleDequeueError. destruct (errors_Is err ErrQueueEmpty); [|by apply reports_quiet].
    eapply (reports_after w (recordQueue w1 "dequeue_empty") _ []); [by apply traced_same|].
    apply direct_traced.
Qed.

Lemma pollQueue_reports fuel w req start m out :
  pollQueue fuel env w req start m = Some out → reports w out.
Proof.
  revert w. induction fuel as [|fuel IH]; intros w; cbn [pollQueue];
    (destruct (_ <? m)%Z; [|intros [= <-]; by apply reports_quiet]);
    (destruct (hasHealthyBackends w); [intros [= <-]; apply processFromQueue_reports|]); [done|].
  pose proof (sleep_trace DefaultQueueCheckInterval w) as Hs.
  destruct (sleep _ _ _) as [[err|] w1]; simpl in Hs; [intros [= <-]; by apply reports_quiet|].
  intros E. eapply (reports_after w w1 _ []); [by apply traced_same|by apply IH].
Qed.

Lemma enqueued_reports w w1 req out :
  reports w w1 → processQueuedRequest env w1.2 req = Some out → reports w out.
Proof. intros (atts&?&_) E. eapply reports_after; [done|]. by eapply pollQueue_reports. Qed.

Lemma forward_reports w req out : Forward env w req = Some out → reports w out.
Proof.
  unfold Forward. destruct (es_closed _); [intros [= <-]; by apply reports_quiet|].
  destruct (_ && _); [|intros [= <-]; apply direct_traced].
  unfold forwardWithQueue. destruct (_ =? 0)%nat.
  - pose proof (enqueue_trace w req) as Hq. destruct (enqueue env w req) as [[err|] w1]; simpl in Hq.
    + intros [= <-]. by apply reports_quiet.
    + apply (enqueued_reports w (Panicked "", recordQueue w1 "enqueue_success")).
      by apply reports_quiet.
  - pose proof (direct_traced w req) as Hd. fold (reports w (forwardToBackendDirect env w req)) in Hd.
    destruct (forwardToBackendDirect env w req) as [[[resp|err]|why] w1];
      [by intros [= <-]| |by intros [= <-]].
    destruct (_ <? _)%Z; [|by intros [= <-]].
    pose proof (enqueue_trace w1 req) as Hq. destruct (enqueue env w1 req) as [[qerr|] w2]; simpl in Hq.
    + intros [= <-]. destruct Hd as (atts&[Ht ?]&_). exists atts. split; [|done]. split; [|done].
      simpl in *. by rewrite Hq.
    + apply (enqueued_reports w (Panicked "", recordQueue w2 "enqueue_retry")).
      destruct Hd as (atts&[Ht ?]&_). exists atts. split; [|done]. split; [|done]. simpl in *. by rewrite Hq.
Qed.
End Trace.

(** C7: Every backend Forward selects is reported to the balancer exactly once, right
    after its exchange and before the next selection; when Forward succeeds the last
    report has no error and the status of the response. *)
Theorem forward_reports_every_selection {LB} `{HLB : LoadBalancer LB, !LoadBalancerSpec LB}
    (env : Env (Traced LB)) (w : World (Traced LB)) req r w' :
  (∀ d w, tr_calls (es_loadBalancer (w_service (pause env d w)))
          = tr_calls (es_loadBalancer (w_service w))) →
  Forward env w req = Some (r, w') →
  ∃ atts,
    tr_calls (es_loadBalancer (w_service w'))
      = tr_calls (es_loadBalancer (w_service w)) ++ concat (map callsOf atts) ∧
    Forall attempt_ok atts ∧
    match r with
    | Returned (Ok resp) => ∃ b, last atts = Some (Tried b None (rs_StatusCode resp))
    | _ => True
    end.
Proof.
  intros Hp Hf. destruct (forward_reports env Hp w req _ Hf) as (atts&[Ht Ha]&He). eauto.
Qed.
