(* ===== verification/ProxyTheorems.v ===== *)
(** * ProxyTheorems: the properties of the proxy service

    The request an upstream receives, construction, the balancer's view of
    the health states, and the theorems of ProxyProofs and ProxyTrace at a
    concrete service. *)

From S2P Require Import Prelude GoStd Errors Domain LoadBalancer LBFactory Http Config Health Queue Proxy ProxyProofs ProxyTrace.

(* ------------------------------------------------------------------ *)
(** ** The request an upstream receives *)

Lemma add_values h name vs :
  canonicalHeaderKey name = name → vs ≠ [] →
  foldl (λ h value, Header_Add h name value) h vs = <[name := default [] (h !! name) ++ vs]> h.
Proof.
  intros Hc. induction vs as [|v vs IH] using rev_ind; [done|]. intros _.
  rewrite foldl_app. cbn [foldl].
  destruct (decide (vs = [])) as [->|Hvs]; [unfold Header_Add; by rewrite Hc|].
  rewrite IH by done. unfold Header_Add.
  rewrite Hc, lookup_insert_eq, insert_insert_eq. simpl. by rewrite app_assoc.
Qed.

(** A header as net/http gives it: canonical names, and no name without a value. *)
Definition header_canonical (h : Header) : Prop :=
  map_Forall (λ name vs, canonicalHeaderKey name = name ∧ vs ≠ []) h.

Lemma copyHeaders_disjoint (l : list (string * list string)) h :
  NoDup l.*1 → Forall (λ p, canonicalHeaderKey p.1 = p.1 ∧ p.2 ≠ [] ∧ h !! p.1 = None) l →
  copyHeaders h l = list_to_map l ∪ h.
Proof.
  revert h. induction l as [|[name vs] l IH]; intros h Hnd Hl; [by rewrite list_to_map_nil, (left_id_L ∅ (∪))|].
  change (((name, vs) :: l).*1) with (name :: l.*1) in Hnd.
  apply NoDup_cons in Hnd as [Hn Hnd]. apply Forall_cons in Hl as [(Hc&Hvs&Hh) Hl].
  cbn [fst snd] in Hc, Hvs, Hh.
  change (copyHeaders h ((name, vs) :: l))
    with (copyHeaders (foldl (λ h value, Header_Add h name value) h vs) l).
  rewrite add_values, Hh, IH; [|done|clear IH|done..].
  - rewrite list_to_map_cons, <- insert_union_l. symmetry. apply insert_union_r. by apply not_elem_of_list_to_map_1.
  - apply Forall_forall. intros [k ws] Hin. rewrite Forall_forall in Hl.
    destruct (Hl _ Hin) as (?&?&?). split; [done|]. split; [done|].
    rewrite lookup_insert_ne; [done|]. intros ->. apply Hn. by apply (list_elem_of_fmap_2 fst) in Hin.
Qed.

Lemma copyHeaders_same h : header_canonical h → copyHeaders ∅ (map_to_list h) = h.
Proof.
  intros Hh. rewrite copyHeaders_disjoint.
  - by rewrite (right_id_L ∅ (∪)), list_to_map_to_list.
  - apply NoDup_fst_map_to_list.
  - apply Forall_forall. intros [k vs] Hin%elem_of_map_to_list. destruct (Hh _ _ Hin). done.
Qed.

(** The query string that goes upstream: the filtered query takes the place of
    the query parameter, when the client has one and there is a filtered query;
    otherwise the client's string is left alone. *)
Definition queryFor (raw filtered raw' : string) : Prop :=
  let original := (ParseQuery raw).1 in
  let forwarded := (ParseQuery raw').1 in
  if bool_decide (filtered ≠ "" ∧ Values_Get original "query" ≠ "")
  then default [] (forwarded !! "query") = [filtered] ∧
       ∀ k, k ≠ "query" → default [] (forwarded !! k) = default [] (original !! k)
  else raw' = raw.

(** What an upstream request owes to the client's request. *)
Definition builtFrom {LB} (env : Env LB) (backend : Backend) (r : Request) (filtered tenant : string)
    (httpReq : HTTPRequest) : Prop :=
  hr_Method httpReq = Method r ∧ hr_Body httpReq = Body r ∧
  (∃ base raw, url_Parse env (Domain.URL backend) = Ok base ∧
     hr_URL httpReq = url_String env (mkURL (u_Base base) (Path r) raw) ∧ queryFor (RawQuery r) filtered raw) ∧
  (header_canonical (rHeader r) →
   hr_Header httpReq =
     if bool_decide (tenant = "") then rHeader r else <["X-Prometheus-Tenant" := [tenant]]> (rHeader r)).

Lemma buildTargetURL_spec {LB} (env : Env LB) req backend target :
  buildTargetURL env req backend = Ok target →
  ∃ base raw, url_Parse env (Domain.URL backend) = Ok base ∧
    target = mkURL (u_Base base) (Path (pr_OriginalRequest req)) raw ∧
    queryFor (RawQuery (pr_OriginalRequest req)) (pr_FilteredQuery req) raw.
Proof.
  unfold buildTargetURL. destruct (url_Parse env _) as [base|]; [|done]. intros [= <-].
  eexists base, _. split; [done|]. split; [done|]. unfold queryFor.
  set (original := (ParseQuery (RawQuery (pr_OriginalRequest req))).1). case_bool_decide as E.
  - destruct E as [E1 E2]. rewrite !(proj2 (str_nonempty_true _)) by done. simpl.
    set (v := Values_Set original "query" (pr_FilteredQuery req)).
    pose proof (proj2 (ParseQuery_Encode v)) as Hp. subst v. unfold Values_Set in Hp |- *. split.
    + rewrite Hp. by rewrite lookup_insert_eq.
    + intros k Hk. by rewrite Hp, lookup_insert_ne.
  - destruct (str_nonempty (pr_FilteredQuery req)) eqn:E1, (str_nonempty (Values_Get original "query")) eqn:E2;
      try done. exfalso. apply E. by rewrite <- !str_nonempty_true.
Qed.

Lemma prepareRequestHeaders_spec httpReq req :
  header_canonical (rHeader (pr_OriginalRequest req)) → hr_Header httpReq = ∅ →
  hr_Header (prepareRequestHeaders httpReq req) =
    if bool_decide (pr_TargetTenant req = "") then rHeader (pr_OriginalRequest req)
    else <["X-Prometheus-Tenant" := [pr_TargetTenant req]]> (rHeader (pr_OriginalRequest req)).
Proof.
  intros Hcan Hh. unfold prepareRequestHeaders. cbn [hr_Header]. rewrite Hh, copyHeaders_same by done.
  unfold str_nonempty. destruct (String.eqb_spec (pr_TargetTenant req) "") as [->|Hne]; [done|].
  rewrite bool_decide_false by done. done.
Qed.

(** What the log of sent requests holds is built from the client's request. *)
Lemma sentFor_builtFrom {LB} `{HLB : LoadBalancer LB} (env : Env LB) req e :
  sentFor env req e →
  builtFrom env (se_Backend e) (pr_OriginalRequest req) (pr_FilteredQuery req) (pr_TargetTenant req) (se_Request e).
Proof.
  intros (_&target&Hb&->). destruct (buildTargetURL_spec _ _ _ _ Hb) as (base&raw&Hp&->&Hq).
  do 2 (split; [done|]). split; [by exists base, raw|]. intros. by apply prepareRequestHeaders_spec.
Qed.

(** C22: createBackendRequest succeeds exactly when url.Parse accepts the backend's URL
    and http.NewRequest the method and the target. The upstream request then has the
    client's method and body and, as its URL, the backend's with the client's path and
    query string, in which, when the client's query parameter and the filtered query are
    non-empty, the query parameter is the filtered query and every other one keeps its
    values, and which is untouched otherwise; its header is the client's (canonical) one,
    with X-Prometheus-Tenant replaced when there is a target tenant. On failure the
    balancer is told of it, and nothing else changes. *)
Theorem upstream_request_faithful {LB} `{HLB : LoadBalancer LB} (env : Env LB) w req backend :
  let r := pr_OriginalRequest req in
  match createBackendRequest env w req backend with
  | (Ok httpReq, w') =>
      w' = w ∧ builtFrom env backend r (pr_FilteredQuery req) (pr_TargetTenant req) httpReq ∧
      newRequestError env (Method r) (hr_URL httpReq) = None
  | (Err err, w') =>
      ∃ cause, w' = reportResult w backend (Some cause) 0 ∧
        (is_ok (url_Parse env (Domain.URL backend)) = false ∧ err = cause ∨
         ∃ base raw, url_Parse env (Domain.URL backend) = Ok base ∧
           queryFor (RawQuery r) (pr_FilteredQuery req) raw ∧
           newRequestError env (Method r) (url_String env (mkURL (u_Base base) (Path r) raw)) = Some cause)
  end.
Proof.
  cbv zeta. unfold createBackendRequest. destruct (buildTargetURL env req backend) as [target|err] eqn:Hb.
  - destruct (buildTargetURL_spec _ _ _ _ Hb) as (base&raw&Hp&Ht&Hq).
    destruct (newRequestError env _ _) as [err|] eqn:En.
    + exists err. split; [done|]. right. exists base, raw. by rewrite <- Ht.
    + split; [done|]. split; [|exact En]. do 2 (split; [done|]).
      split; [exists base, raw; by rewrite Ht|]. intros. by apply prepareRequestHeaders_spec.
  - exists err. split; [done|]. left. split; [|done]. unfold buildTargetURL in Hb. by destruct (url_Parse env _).
Qed.

(* ------------------------------------------------------------------ *)
(** ** Construction *)

(** What the constructor makes of a validated configuration. *)
Lemma NewEnhancedService_ok parseError config now :
  ProxyConfig_Validate parseError config = None →
  (Z.of_nat (length (px_Upstreams config)) ≤ max_int32)%Z →
  ∃ s, NewEnhancedService config now = Returned (Ok s) ∧
    es_closed s = false ∧ es_config s = config ∧ (0 < es_clientTimeout s)%Z ∧
    lb_wf (es_loadBalancer s) ∧ lb_closed (es_loadBalancer s) = false ∧
    lb_backends (es_loadBalancer s) = Health.backends (es_healthChecker s) ∧
    map Domain.URL (Health.backends (es_healthChecker s)) = map up_URL (px_Upstreams config) ∧
    Forall (λ b, State b = BackendHealthy ∧ 0 < Weight b)%Z (Health.backends (es_healthChecker s)) ∧
    es_requestQueue s =
      (if qc_Enabled (rl_Queue (px_Reliability config))
       then Some (mkQueue [] (qc_MaxSize (rl_Queue (px_Reliability config)))
                    (qc_Timeout (rl_Queue (px_Reliability config))) false 0 0 0)
       else None).
Proof.
  intros Hv Hlen. pose proof (ProxyConfig_valid _ _ Hv) as (Hne&Hst&_&_&_&Ht&_&Hq).
  unfold NewEnhancedService. rewrite bool_decide_false by done. cbv zeta.
  destruct (Z.eqb_spec (rl_Timeout (px_Reliability config)) 0) as [?|_]; [lia|].
  destruct (CreateLoadBalancer_ok (rt_Strategy (px_Routing config)) (map backendOf (px_Upstreams config)))
    as (lb&->&Hwf&Hcl&Hview); [by rewrite length_map|by destruct (px_Upstreams config)|done|]. unfold NewMemoryQueue.
  destruct (qc_Enabled _); [destruct (Z.ltb_spec (qc_MaxSize (rl_Queue (px_Reliability config))) 0);
    [specialize (Hq eq_refl); lia|]|]; cbn [obind];
    (eexists; split; [done|]; do 6 (split; [done|]));
    (split; [simpl; rewrite map_map; by apply map_ext|]); (split; [|done]);
    apply Forall_fmap, Forall_forall; intros u _; split; try done; simpl;
    destruct (Z.leb_spec (up_Weight u) 0); unfold DefaultBackendWeight; lia.
Qed.

(* ------------------------------------------------------------------ *)
(** ** The balancer follows the health checker *)

Section Sync.
Context {LB : Type} `{HLB : LoadBalancer LB, !LoadBalancerSpec LB}.
Notation World := (Proxy.World LB).
Notation balancer w := (es_loadBalancer (w_service w)).
Notation checker w := (es_healthChecker (w_service w)).

(** What requests, the health checker and the owner of the service do to
    it, maintenance mode apart. *)
Inductive service_step : World → World → Prop :=
| ss_select w : service_step w (selectBackend w).2
| ss_report w b err code : service_step w (reportResult w b err code)
| ss_check w b probe : service_step w (healthCheck w b probe).2
| ss_start w : service_step w (Start w).2
| ss_close w w' : Close w = Returned w' → service_step w w'
| ss_elsewhere w w' : w_service w' = w_service w → service_step w w'.

(** A health check only knows the states healthy and unhealthy. *)
Definition checked_state (b : Backend) : Prop :=
  State b = BackendHealthy ∨ State b = BackendUnhealthy.

Definition synced (w : World) : Prop :=
  lb_wf (balancer w) ∧ lb_backends (balancer w) = Health.backends (checker w) ∧
  Forall checked_state (Health.backends (checker w)).

Lemma setFirstState_checked url st bs :
  Forall checked_state bs → st = BackendHealthy ∨ st = BackendUnhealthy →
  Forall checked_state (setFirstState url st bs).
Proof. intros Hb Hst. induction Hb as [|x bs Hx Hbs IH]; simpl; [done|]. case_match; by constructor. Qed.

Lemma record_checked hc url ok err now :
  Forall checked_state (Health.backends hc) →
  Forall checked_state (Health.backends (recordHealthCheck hc url ok err now).1).
Proof.
  intros Hb. rewrite record_unfold. destruct (backendStates hc !! url); [|done].
  destruct (findBackend url (Health.backends hc)) as [bk|] eqn:E; [|done]. simpl.
  apply setFirstState_checked; [done|]. apply findBackend_elem in E.
  rewrite Forall_forall in Hb. specialize (Hb bk E). unfold checked_state in Hb.
  unfold stateAfter, nextState. case_decide; [naive_solver|].
  destruct (_ && _); [by left|]. destruct (_ && _); [by right|done].
Qed.

Lemma check_checked hc b probe now :
  Forall checked_state (Health.backends hc) →
  Forall checked_state (Health.backends (CheckHealth hc b probe now).1.2).
Proof.
  intros Hb. destruct (decide (State b = BackendMaintenance)).
  - unfold CheckHealth. by rewrite bool_decide_true.
  - destruct (CheckHealth_record hc b probe now) as [-> _]; [done|]. by apply record_checked.
Qed.

(** The callback applies a change to the balancer. *)
Lemma onBackendStateChange_view (w : World) evs :
  lb_wf (balancer w) →
  lb_wf (balancer (foldl onBackendStateChange w evs)) ∧
  lb_backends (balancer (foldl onBackendStateChange w evs))
    = foldl applyChange (lb_backends (balancer w)) evs ∧
  checker (foldl onBackendStateChange w evs) = checker w.
Proof.
  revert w. induction evs as [|[[url old] new] evs IH]; intros w Hwf; [done|]. cbn [foldl].
  destruct (lb_update_view (balancer w) url new Hwf) as (Hwf'&Hv&_).
  destruct (IH (onBackendStateChange w (url, old, new)) Hwf') as (?&->&->).
  split; [done|]. split; [|done]. simpl. by rewrite <- Hv.
Qed.

Lemma service_step_synced w w' : service_step w w' → synced w → synced w'.
Proof.
  intros Hs (Hwf&Hv&Hc). unfold synced. destruct Hs as [w|w bk err code|w bk probe|w|w w' E|w w' E].
  - unfold selectBackend. pose proof (lb_next_frame _ Hwf) as Hf.
    destruct (lb_NextBackend (balancer w)) as [[[b|err]|why] lb]; simpl in *; naive_solver congruence.
  - pose proof (lb_report_frame _ bk err code Hwf). simpl in *. naive_solver congruence.
  - unfold healthCheck. pose proof (check_calls_mirror (checker w) bk probe (w_now w)) as Hm.
    pose proof (check_checked (checker w) bk probe (w_now w) Hc) as Hc'.
    destruct (CheckHealth _ _ _ _) as [[e hc] evs]. cbn [fst snd] in *.
    destruct (onBackendStateChange_view (setChecker w hc) evs Hwf) as (?&->&->).
    split; [done|]. simpl. by rewrite Hv.
  - unfold Start, StartMonitoring. destruct (es_closed _); [done|].
    destruct (_ <=? 0)%Z; [done|]. by destruct (running _).
  - unfold Close, Health.Stop in E. destruct (es_closed _); [by simplify_eq|].
    pose proof (lb_close_view _ Hwf) as (?&?&?).
    destruct (negb _); simpl in E; [simplify_eq; simpl; naive_solver congruence|].
    destruct (stopCh _); simpl in E; simplify_eq. simpl. naive_solver congruence.
  - by rewrite E.
Qed.

Lemma healthRound_steps schedule probe w : rtc service_step w (healthRound w schedule probe).
Proof.
  revert w. induction schedule as [|[b now] schedule IH]; intros w; [apply rtc_refl|].
  eapply rtc_l; [by apply (ss_elsewhere w (atTime w now))|]. eapply rtc_l; [apply (ss_check _ b probe)|apply IH].
Qed.

Lemma synced_selects_healthy w b w' :
  synced w → selectBackend w = (Returned (Ok b), w') →
  State b = BackendHealthy ∧ b ∈ Health.backends (checker w).
Proof.
  intros (Hwf&Hv&Hc). unfold selectBackend.
  destruct (lb_NextBackend (balancer w)) as [[[b'|err]|why] lb] eqn:E; intros ?; simplify_eq.
  apply lb_next_candidate in E as [_ [Hin Hb]]; [|done]. rewrite Hv in Hin. split; [|done].
  rewrite Forall_forall in Hc. destruct (Hc b Hin) as [?|Hu]; [done|].
  unfold healthy, fallback, IsAvailable, IsAvailableWithFallback in Hb. rewrite Hu in Hb. naive_solver.
Qed.
End Sync.

(** C10: From a service built on a validated configuration, through selections, reports,
    health checks with any results, start and close, the balancer's backends equal the
    health checker's, and a backend that is selected is one the checker regards as
    healthy. *)
Theorem unhealthy_backends_get_no_traffic parseError config now s w0 w b w' :
  ProxyConfig_Validate parseError config = None →
  (Z.of_nat (length (px_Upstreams config)) ≤ max_int32)%Z →
  NewEnhancedService config now = Returned (Ok s) → w_service w0 = s → rtc service_step w0 w →
  lb_backends (es_loadBalancer (w_service w)) = Health.backends (es_healthChecker (w_service w)) ∧
  (selectBackend w = (Returned (Ok b), w') →
     State b = BackendHealthy ∧ b ∈ Health.backends (es_healthChecker (w_service w))).
Proof.
  intros Hv Hlen Hnew Hs Hr.
  destruct (NewEnhancedService_ok _ _ now Hv Hlen) as (s'&E&_&_&_&Hwf&_&Hview&_&Hst&_).
  rewrite Hnew in E. simplify_eq.
  assert (synced w0) as H0.
  { split; [done|]. split; [done|]. eapply Forall_impl; [exact Hst|]. intros c [? _]. by left. }
  assert (synced w) as Hw by (clear -Hr H0; induction Hr; eauto using service_step_synced).
  split; [apply Hw|]. by apply synced_selects_healthy.
Qed.

(* ------------------------------------------------------------------ *)
(** ** The queue is shared by all users *)

(** When the queue is not empty, the caller that processes it gets the outcome of
    forwarding the oldest queued request, whatever its own request is. *)
Theorem queued_response_is_for_the_oldest {LB} `{HLB : LoadBalancer LB, !LoadBalancerSpec LB}
    (env : Env LB) (w : World LB) q oldest rest start maxWait :
  es_requestQueue (w_service w) = Some q → Queue.closed q = false → queue q = oldest :: rest →
  w_ctxErr w = None →
  ∀ req,
    let w1 := recordQueue (setQueue w (countDequeued (withQueue q rest))) "dequeue_success" in
    (processFromQueue env w req start maxWait).1 = (forwardToBackendDirect env w1 oldest).1 ∧
    (∀ req', processFromQueue env w req' start maxWait = processFromQueue env w req start maxWait).
Proof.
  intros Hq Hc Ho Hctx req w1. unfold processFromQueue, dequeue. rewrite Hq. unfold Dequeue.
  rewrite Hc, Ho, Hctx. rewrite bool_decide_false by done. fold w1. split; [|done].
  by destruct (forwardToBackendDirect env w1 oldest) as [[[resp|err]|why] w2].
Qed.

(* ------------------------------------------------------------------ *)
(** ** A concrete service *)

(** Nothing happens while this goroutine waits; the first exchange fails with
    status 503, the others succeed. *)
Definition quietEnv (LB : Type) : Env LB := {|
  url_Parse u := if String.eqb u "" then Err (EText "empty url") else Ok (mkURL u "" "");
  url_String u := u_Base u +:+ u_Path u +:+ "?" +:+ u_RawQuery u;
  newRequestError _ _ := None;
  upstream n req body :=
    mkExchange (DoResponse (if (n =? 0)%nat then 503 else 200) ∅ (Ok (hr_URL req))) emptyReader 1;
  pause d w := mkWorld (w_service w) (w_bodies w) (w_now w + Z.max 0 d) (w_ctxErr w) (w_calls w) (w_sent w);
  preferCtx _ := true;
  dequeueWake _ := WakeTimeout
|}.

#[export] Instance quietEnv_laws LB `{HLB : LoadBalancer LB, !LoadBalancerSpec LB} P :
  EnvLaws P eq (quietEnv LB).
Proof. split; try done; simpl; intros; lia. Qed.

Definition alice : User := mkUser "alice" "" "" [] [] [mkVMTenant "1" ""] false 0.
Definition bob : User := mkUser "bob" "" "" [] [] [mkVMTenant "2" ""] false 0.

Definition requestOf (u : User) (query tenant : string) : ProxyRequest :=
  mkProxyRequest u
    (mkRequest "GET" "/api/v1/query" "query=up&time=5"
       {["Accept" := ["a"; "b"]; "X-Prometheus-Tenant" := ["9"]]} 0)
    query tenant.

Definition sampleProxyConfig : ProxyConfig :=
  mkProxyConfig [mkUpstream "http://a" 1; mkUpstream "http://b" 0]
    (px_Routing ProxyConfig_GetDefaults) (px_Reliability ProxyConfig_GetDefaults).

Definition sampleService : EnhancedService Balancer :=
  match NewEnhancedService sampleProxyConfig 0 with
  | Returned (Ok s) => s
  | _ => mkService sampleProxyConfig (RR (RoundRobin.NewRoundRobinBalancer []))
           (NewChecker (mkCheckerConfig 0 0 0 0 "") [] 0) None 0 false
  end.

Definition worldOf {LB} (s : EnhancedService LB) : World LB := mkWorld s ∅ 0 None [] [].

Definition hasTenant (r : ProxyRequest) : Prop := pr_TargetTenant r ≠ "".

Lemma sample_ok : world_ok hasTenant (worldOf sampleService).
Proof. split; [vm_compute; intuition discriminate|constructor]. Qed.

Definition aliceRequest : ProxyRequest := requestOf alice "up{t='1'}" "1".
Definition bobRequest : ProxyRequest := requestOf bob "up{t='2'}" "2".

Lemma aliceRequest_canonical : header_canonical (rHeader (pr_OriginalRequest aliceRequest)).
Proof.
  unfold header_canonical. cbn [rHeader pr_OriginalRequest aliceRequest requestOf].
  apply map_Forall_insert_2; [by split; [vm_compute|]|].
  apply map_Forall_singleton. by split; [vm_compute|].
Qed.

Definition backendAt (url : string) : Backend := mkBackend url 1 BackendHealthy.

Example upstream_request_example :
  match (createBackendRequest (quietEnv Balancer) (worldOf sampleService) aliceRequest (backendAt "http://a")).1 with
  | Ok httpReq =>
      hr_URL httpReq = "http://a/api/v1/query?query=up%7Bt%3D%271%27%7D&time=5" ∧
      Header_Get (hr_Header httpReq) "x-prometheus-tenant" = "1" ∧ hr_Method httpReq = "GET"
  | Err _ => False
  end.
Proof. vm_compute. split_and!; reflexivity. Qed.

Lemma forward_sends_known_requests_witness :
  match Forward (quietEnv Balancer) (worldOf sampleService) aliceRequest with
  | Some (r, w') =>
      (∃ e1 e2, w_sent w' = [e1; e2] ∧ Domain.URL (se_Backend e1) = "http://a" ∧
        Domain.URL (se_Backend e2) = "http://b") ∧
      Forall (λ e, ∃ req', hasTenant req' ∧ sentFor (quietEnv Balancer) req' e) (w_sent w')
  | None => False
  end.
Proof.
  destruct (Forward _ _ _) as [[r w']|] eqn:E; [|vm_compute in E; discriminate]. split.
  - vm_compute in E. simplify_eq. eexists _, _. split; [reflexivity|]. split; reflexivity.
  - destruct (forward_sends_known_requests hasTenant (quietEnv Balancer) (worldOf sampleService)
      aliceRequest r w') as (new&Hs&_&Hn&_);
      [exact sample_ok|vm_compute; discriminate|exact E|]. rewrite Hs. exact Hn.
Defined.

Lemma direct_forward_panics_iff_witness :
  let s := mkService
    (mkProxyConfig [mkUpstream "http://a" 1] (px_Routing ProxyConfig_GetDefaults)
       (mkReliability (30 * Second) 0 0 (mkQueueConfig false 0 0)))
    (LeastConn.NewLeastConnectionsBalancer LeastConn.pair)
    (NewChecker (mkCheckerConfig 0 0 0 0 "") LeastConn.pair 0) None 0 false in
  ProxyConfig_Validate (λ _, None) (es_config s) = None ∧
  returns (forwardToBackendDirect (quietEnv _) (worldOf s) aliceRequest).1 = false.
Proof.
  intros s. split; [vm_compute; reflexivity|].
  apply (direct_forward_panics_iff hasTenant (quietEnv _) (worldOf s) aliceRequest).
  - intros lb _. apply LeastConn.lc_NextBackend_returns.
  - split; [vm_compute; split; reflexivity|done].
  - discriminate.
  - simpl. lia.
Defined.

(** Every backend is down: the request waits in the queue until it times out. *)
Definition downService : EnhancedService Balancer :=
  mkService sampleProxyConfig
    (RR (RoundRobin.NewRoundRobinBalancer [mkBackend "http://a" 1 BackendUnhealthy]))
    (es_healthChecker sampleService) (es_requestQueue sampleService) 1 false.

Lemma forward_returns_witness :
  is_Some (Forward (quietEnv Balancer) (worldOf downService) aliceRequest) ∧
  fst <$> Forward (quietEnv Balancer) (worldOf downService) aliceRequest
    = Some (Returned (Err (EText "request timed out in queue after 5s"))).
Proof.
  split; [exact (proj1 (forward_returns hasTenant (quietEnv Balancer) (worldOf downService) aliceRequest))|].
  vm_compute. reflexivity.
Defined.

(** A traced balancer: the failed attempt on the first backend is reported
    with its error, the second one with its status. *)
Definition tracedService : EnhancedService (Traced Balancer) :=
  mkService sampleProxyConfig (mkTraced (es_loadBalancer sampleService) [])
    (es_healthChecker sampleService) None 1 false.

Lemma forward_reports_every_selection_witness :
  match Forward (quietEnv (Traced Balancer)) (worldOf tracedService) aliceRequest with
  | Some (r, w') =>
      ∃ atts, tr_calls (es_loadBalancer (w_service w')) = concat (map callsOf atts) ∧
        Forall attempt_ok atts ∧ length (tr_calls (es_loadBalancer (w_service w'))) = 4%nat ∧
        ∃ b, last atts = Some (Tried b None 200)
  | None => False
  end.
Proof.
  destruct (Forward _ _ _) as [[r w']|] eqn:E; [|vm_compute in E; discriminate].
  destruct (forward_reports_every_selection (quietEnv (Traced Balancer)) (worldOf tracedService)
    aliceRequest r w') as (atts&Ht&Ha&He); [reflexivity|exact E|].
  exists atts. split; [exact Ht|]. split; [exact Ha|].
  vm_compute in E. injection E as <- <-. split; [reflexivity|exact He].
Defined.

Lemma queued_response_is_for_the_oldest_witness :
  let q := mkQueue [aliceRequest; bobRequest] 10 5 false 2 0 0 in
  let s := mkService sampleProxyConfig (es_loadBalancer sampleService) (es_healthChecker sampleService)
             (Some q) 1 false in
  let out := processFromQueue (quietEnv Balancer) (worldOf s) bobRequest 0 5 in
  out = processFromQueue (quietEnv Balancer) (worldOf s) aliceRequest 0 5 ∧
  map (λ e, Header_Get (hr_Header (se_Request e)) "X-Prometheus-Tenant") (w_sent out.2) = ["1"; "1"].
Proof.
  intros q s out. split; [|vm_compute; reflexivity].
  destruct (queued_response_is_for_the_oldest (quietEnv Balancer) (worldOf s) q aliceRequest [bobRequest] 0 5
    eq_refl eq_refl eq_refl eq_refl aliceRequest) as [_ H]. exact (H bobRequest).
Defined.

(** Three failed checks of the first backend: only the second one is selected. *)
Definition failingProbe (url : string) : probeResult :=
  if String.eqb url "http://a/health" then TransportError (EText "refused") else Response 200.

Definition afterRound {LB} `{HLB : LoadBalancer LB, !LoadBalancerSpec LB} (w : World LB) : World LB :=
  healthRound w (map (λ b, (b, w_now w)) (toCheck (es_healthChecker (w_service w)))) failingProbe.

Definition degraded : World Balancer := afterRound (afterRound (afterRound (worldOf sampleService))).

Lemma unhealthy_backends_get_no_traffic_witness :
  match selectBackend degraded with
  | (Returned (Ok b), _) =>
      Domain.URL b = "http://b" ∧ State b = BackendHealthy ∧
      map State (Health.backends (es_healthChecker (w_service degraded)))
        = [BackendUnhealthy; BackendHealthy]
  | _ => False
  end.
Proof.
  destruct (selectBackend degraded) as [[[b|err]|why] w'] eqn:E; try (vm_compute in E; discriminate).
  destruct (unhealthy_backends_get_no_traffic (λ _, None) sampleProxyConfig 0 sampleService
    (worldOf sampleService) degraded b w') as [_ H];
    [vm_compute; reflexivity|vm_compute; discriminate|reflexivity|reflexivity| |].
  - unfold degraded, afterRound.
    etrans; [apply healthRound_steps|]. etrans; [apply healthRound_steps|]. apply healthRound_steps.
  - destruct (H E) as [Hs _]. split; [|split; [exact Hs|vm_compute; reflexivity]].
    vm_compute in E. injection E as <- _. reflexivity.
Defined.

(** Maintenance mode reaches the balancer only: the checker does not know of
    it, and its next state change puts the backend back into service. *)
Definition recoveringProbe (url : string) : probeResult := Response 200.

Lemma maintenance_mode_is_undone :
  let w1 := SetMaintenanceMode degraded "http://a" true in
  let check w := healthRound w (map (λ b, (b, w_now w)) (toCheck (es_healthChecker (w_service w)))) recoveringProbe in
  let w2 := check (check w1) in
  map State (lb_backends (es_loadBalancer (w_service w1))) = [BackendMaintenance; BackendHealthy] ∧
  map State (lb_backends (es_loadBalancer (w_service w2))) = [BackendHealthy; BackendHealthy].
Proof. vm_compute. split; reflexivity. Qed.
