(* ===== verification/Gateway.v ===== *)
(** * Gateway: internal/handlers/gateway.go

    The HTTP handler that puts the components together: authentication,
    access control, query filtering, the target tenant, the proxy service.
    The handler's state is that of the services it holds; what it writes to
    the client is a [written] response. *)

From S2P Require Import Prelude GoStd Errors Domain LoadBalancer Http Config Tenant Access Proxy.
From S2P Require Auth.

(** The response body: the bytes of the upstream, or the JSON object with the
    members status ("error"), error and code that writeError encodes. *)
Inductive responseBody :=
| RawBody (content : string)
| ErrorObject (message code : string).

(** What a handler writes: the argument of WriteHeader, the header, the body. *)
Record written := mkWritten { wr_Status : Z; wr_Header : Header; wr_Body : responseBody }.

Definition writeError (err : AppError) : written :=
  mkWritten (HTTPStatus err) (Header_Set ∅ "Content-Type" "application/json")
    (ErrorObject (Message err) (Code err)).

Definition writeResponse (response : ProxyResponse) : written :=
  mkWritten (rs_StatusCode response) (copyHeaders ∅ (map_to_list (rs_Headers response)))
    (RawBody (rs_Body response)).

Definition extractToken (r : Request) : string :=
  let auth := Header_Get (rHeader r) "Authorization" in
  if String.eqb auth "" then ""
  else if negb (hasPrefix auth "Bearer ") then ""
  else String.substring (String.length "Bearer ") (String.length auth - String.length "Bearer ") auth.

(** The query, and the bodies after the form was read and put back. *)
Definition extractQuery (r : Request) (bodies : Bodies) : string * Bodies :=
  let query := Values_Get (ParseQuery (RawQuery r)).1 "query" in
  if str_nonempty query then (query, bodies)
  else if String.eqb (Method r) "POST"
          && contains (Header_Get (rHeader r) "Content-Type") "application/x-www-form-urlencoded"
  then
    let '(bodyBytes, err, bodies) := ReadAll bodies (Body r) in
    match err with
    | Some _ => ("", bodies)
    | None =>
        let bodies := <[Body r := mkReader bodyBytes None]> bodies in
        let '(bodyValues, bad) := ParseQuery bodyBytes in
        if bad then ("", bodies) else (Values_Get bodyValues "query", bodies)
    end
  else ("", bodies).

Definition queryEndpoints : list string :=
  ["/api/v1/query"; "/api/v1/query_range"; "/api/v1/query_exemplars"; "/api/v1/series"].

Definition isQueryEndpoint (path : string) : bool :=
  existsb (hasPrefix path) queryEndpoints || contains path "/prometheus/api/v1/query".

Definition writeEndpoints : list string := ["/api/v1/write"; "/api/v1/import"; "/insert/"].

Definition isWriteEndpoint (path method : string) : bool :=
  if negb (String.eqb method "POST") && negb (String.eqb method "PUT") && negb (String.eqb method "DELETE")
  then false
  else existsb (hasPrefix path) writeEndpoints.

(** errors.As(err, &appErr), with the error and the status used otherwise. *)
Definition errorResponse (err : goError) (otherwise : AppError) (otherwiseStatus : string)
  : written * string :=
  match errors_As err with
  | Some appErr => (writeError appErr, itoa (HTTPStatus appErr))
  | None => (writeError otherwise, otherwiseStatus)
  end.

Section Gateway.
Context {HJ : Auth.JWT} {Expr : Type} {HP : PromQL Expr}.
Context {LB : Type} `{HLB : LoadBalancer LB, !LoadBalancerSpec LB}.

(** The services of a GatewayHandler; the metrics service is the log of calls
    in the proxy's world. *)
Record GatewayHandler := mkGateway {
  gw_auth : Auth.Service;
  gw_tenants : FilterConfig;
  gw_world : World LB
}.

Definition withWorld (h : GatewayHandler) (w : World LB) : GatewayHandler :=
  mkGateway (gw_auth h) (gw_tenants h) w.

Definition withBodies (w : World LB) (bodies : Bodies) : World LB :=
  mkWorld (w_service w) bodies (w_now w) (w_ctxErr w) (w_calls w) (w_sent w).

Definition recordAll (w : World LB) (calls : list metricCall) : World LB := foldl record w calls.

Definition recordMetrics (w : World LB) (r : Request) (status : string) (user : option User) : World LB :=
  record w (RecordRequest (Method r) (Path r) status user).

Definition processQueryFiltering (cfg : FilterConfig) (w : World LB) (r : Request) (user : User)
  : outcome (result string) * World LB :=
  if negb (isQueryEndpoint (Path r)) then (Returned (Ok ""), w)
  else
    let '(originalQuery, bodies) := extractQuery r (w_bodies w) in
    let w := withBodies w bodies in
    if String.eqb originalQuery "" then (Returned (Ok ""), w)
    else
      match FilterQuery (Expr := Expr) cfg user originalQuery with
      | Panicked why => (Panicked why, w)
      | Returned (filteredQuery, calls) => (Returned filteredQuery, recordAll w calls)
      end.

Definition processTargetTenant (w : World LB) (r : Request) (user : User) : result string * World LB :=
  if negb (isWriteEndpoint (Path r) (Method r)) then (Ok "", w)
  else
    let '(targetTenant, calls) := DetermineTargetTenant user (rHeader r) in
    (targetTenant, recordAll w calls).

(** Writing an error response ends the request. *)
Definition fail (w : World LB) (r : Request) (user : option User) (resp : written * string)
  : written * World LB :=
  (resp.1, recordMetrics w r resp.2 user).

Definition handleProcessingError (w : World LB) (r : Request) (err : goError) (user : User)
  : written * World LB :=
  fail w r (Some user) (errorResponse err ErrForbidden "403").

Definition processRequest (env : Env LB) (cfg : FilterConfig) (w : World LB) (r : Request) (user : User)
  : option (outcome written * World LB) :=
  let '(filtered, w) := processQueryFiltering cfg w r user in
  match filtered with
  | Panicked why => Some (Panicked why, w)
  | Returned (Err err) =>
      let '(out, w) := handleProcessingError w r err user in Some (Returned out, w)
  | Returned (Ok filteredQuery) =>
      let '(target, w) := processTargetTenant w r user in
      match target with
      | Err err => let '(out, w) := handleProcessingError w r err user in Some (Returned out, w)
      | Ok targetTenant =>
          match Forward env w (mkProxyRequest user r filteredQuery targetTenant) with
          | None => None
          | Some (Panicked why, w) => Some (Panicked why, w)
          | Some (Returned (Err err), w) =>
              let '(out, w) := fail w r (Some user) (errorResponse err ErrUpstreamUnavailable "502") in
              Some (Returned out, w)
          | Some (Returned (Ok response), w) =>
              Some (Returned (writeResponse response),
                    recordMetrics w r (itoa (rs_StatusCode response)) (Some user))
          end
      end
  end.

(** [answer] is what the JWKS endpoint answers if it is asked, [c] the clock
    readings of the authentication. *)
Definition ServeHTTP (env : Env LB) (h : GatewayHandler) (r : Request)
    (answer : Auth.fetchResult) (c : Auth.Clock) : option (outcome written * GatewayHandler) :=
  let w := gw_world h in
  let token := extractToken r in
  if String.eqb token ""
  then let '(out, w) := fail w r None (writeError ErrUnauthorized, "401") in
       Some (Returned out, withWorld h w)
  else
    let '(auth, service, calls) := Auth.Authenticate (gw_auth h) token answer c in
    let h := mkGateway service (gw_tenants h) (recordAll w calls) in
    match auth with
    | Err err =>
        let '(out, w) := fail (gw_world h) r None (errorResponse err ErrUnauthorized "401") in
        Some (Returned out, withWorld h w)
    | Ok user =>
        match CanAccess (Some user) (Path r) (Method r) with
        | Some accessErr =>
            let '(out, w) := fail (gw_world h) r (Some user) (errorResponse accessErr ErrForbidden "403") in
            Some (Returned out, withWorld h w)
        | None =>
            match processRequest env (gw_tenants h) (gw_world h) r user with
            | None => None
            | Some (out, w) => Some (out, withWorld h w)
            end
        end
    end.
End Gateway.
