(* ===== verification/GatewayProofs.v ===== *)
(** * GatewayProofs: what reaches the upstreams

    Whatever requests the gateway serves, an upstream only receives requests
    that passed authentication, access control, the query filter and the
    tenant check; a refused request is answered without contacting one; every
    request is recorded once, with the status written. *)

From S2P Require Import Prelude GoStd Errors Domain LoadBalancer LBFactory Http Config Tenant Access Proxy ProxyProofs ProxyTheorems Gateway.
From S2P Require Auth.

(** Every error of Authenticate has status 401. *)
Lemma Authenticate_error `{Auth.JWT} s token answer c err :
  (Auth.Authenticate s token answer c).1.1 = Err err → ∃ code msg, err = Auth.authError code msg.
Proof.
  assert (∀ cache tk e, (Auth.verifyAndCache s cache tk answer c).1.1 = Err e →
    ∃ code msg, e = Auth.authError code msg) as Hv.
  { intros cache tk e. unfold Auth.verifyAndCache. destruct (Auth.VerifyToken _ _ _ _) as [[claims|e'] v'].
    - destruct (String.eqb _ _); simpl; intros; simplify_eq; eauto.
    - simpl. intros. simplify_eq. eauto. }
  unfold Auth.Authenticate. destruct (String.eqb token ""); [simpl; intros; simplify_eq; eauto|].
  cbv zeta. destruct (Auth.as_userCache s !! _) as [cu|]; [|apply Hv].
  destruct (_ <? _)%Z; [done|apply Hv].
Qed.

Section GatewaySafety.
Context {HJ : Auth.JWT} {HL : Auth.JWTLaws}.
Context {Expr : Type} {HP : PromQL Expr}.
Context {LB : Type} `{HLB : LoadBalancer LB, !LoadBalancerSpec LB}.
Context (jwt : JWTConfig) (maps : list MappingConfig) (filters : FilterConfig).
(* the answers the JWKS endpoint gives, and the requests clients have sent *)
Context (genuine : Auth.fetchResult → Prop) (received : Request → Prop).

Notation Handler := (GatewayHandler (LB := LB)).

(** The filtered query a request may carry. *)
Definition filtered_for (user : User) (r : Request) (filtered : string) : Prop :=
  if isQueryEndpoint (Path r) then
    ∃ q, (Values_Get (ParseQuery (RawQuery r)).1 "query" ≠ "" →
            q = Values_Get (ParseQuery (RawQuery r)).1 "query") ∧
      ((q = "" ∧ filtered = "") ∨
       (q ≠ "" ∧ ∃ calls, FilterQuery (Expr := Expr) filters user q = Returned (Ok filtered, calls)))
  else filtered = "".

Definition target_for (user : User) (r : Request) (target : string) : Prop :=
  if isWriteEndpoint (Path r) (Method r)
  then (DetermineTargetTenant user (rHeader r)).1 = Ok target
  else target = "".

(** The user of the request's own token, whose signature was verified. *)
Definition verified_user (r : Request) (user : User) : Prop :=
  ∃ answers, Forall genuine answers ∧
    Auth.good_user jwt maps answers (trimPrefix (extractToken r) "Bearer ") user.

(** A request the gateway may hand to the proxy service. *)
Definition admitted (pr : ProxyRequest) : Prop :=
  let r := pr_OriginalRequest pr in
  received r ∧ verified_user r (pr_User pr) ∧
  CanAccess (Some (pr_User pr)) (Path r) (Method r) = None ∧
  filtered_for (pr_User pr) r (pr_FilteredQuery pr) ∧
  target_for (pr_User pr) r (pr_TargetTenant pr).

Definition gateway_ok (h : Handler) : Prop :=
  (∃ answers, Forall genuine answers ∧ Auth.service_inv jwt maps answers (gw_auth h)) ∧ gw_tenants h = filters ∧
  world_ok admitted (gw_world h).

Context {kept : LB → LB → Prop} (env : Env LB) {HE : EnvLaws admitted kept env}.

(** Only the proxy's world may have grown, by requests sent for admitted ones. *)
Definition grows (w w' : World LB) : Prop :=
  world_ok admitted w' ∧
  ∃ new, w_sent w' = w_sent w ++ new ∧
    Forall (λ e, ∃ pr, admitted pr ∧ sentFor env pr e) new.

Lemma grows_same w w' :
  world_ok admitted w → w_service w' = w_service w → w_sent w' = w_sent w → grows w w'.
Proof.
  intros Hok Hs Hl. split; [unfold world_ok; by rewrite Hs|]. exists [].
  by rewrite app_nil_r.
Qed.

Lemma grows_trans w1 w2 w3 : grows w1 w2 → grows w2 w3 → grows w1 w3.
Proof.
  intros (_&l1&H1&F1) (Hok&l2&H2&F2). split; [done|]. exists (l1 ++ l2).
  split; [by rewrite H2, H1, app_assoc|by apply Forall_app].
Qed.

Lemma recordAll_same (w : World LB) calls :
  w_service (recordAll w calls) = w_service w ∧ w_sent (recordAll w calls) = w_sent w.
Proof. unfold recordAll. revert w. induction calls as [|c calls IH]; intros w; [done|]. apply (IH (record w c)). Qed.

Lemma filtering_spec (w : World LB) r user :
  let out := processQueryFiltering (Expr := Expr) filters w r user in
  w_service out.2 = w_service w ∧ w_sent out.2 = w_sent w ∧
  ∀ f, out.1 = Returned (Ok f) → filtered_for user r f.
Proof.
  cbv zeta. unfold processQueryFiltering, filtered_for. destruct (isQueryEndpoint (Path r)); simpl.
  2: { do 2 (split; [done|]). by intros f [= <-]. }
  assert (Values_Get (ParseQuery (RawQuery r)).1 "query" ≠ "" →
    (extractQuery r (w_bodies w)).1 = Values_Get (ParseQuery (RawQuery r)).1 "query") as Hq.
  { intros Hne. unfold extractQuery. by rewrite (proj2 (str_nonempty_true _) Hne). }
  destruct (extractQuery r (w_bodies w)) as [q bodies]. simpl in Hq.
  destruct (String.eqb_spec q "") as [->|Hne].
  - do 2 (split; [done|]). intros f [= <-]. exists "". split; [exact Hq|by left].
  - destruct (FilterQuery filters user q) as [[res calls]|why] eqn:E; [|done].
    destruct (recordAll_same (withBodies w bodies) calls) as [Hs1 Hs2]. simpl.
    rewrite Hs1, Hs2. do 2 (split; [done|]). intros f [= ->]. exists q. split; [exact Hq|].
    right. eauto.
Qed.

Lemma target_spec (w : World LB) r user :
  let out := processTargetTenant w r user in
  w_service out.2 = w_service w ∧ w_sent out.2 = w_sent w ∧
  ∀ t, out.1 = Ok t → target_for user r t.
Proof.
  cbv zeta. unfold processTargetTenant, target_for. destruct (isWriteEndpoint _ _); simpl.
  2: { do 2 (split; [done|]). by intros t [= <-]. }
  destruct (DetermineTargetTenant user (rHeader r)) as [res calls].
  destruct (recordAll_same w calls) as [H1 H2]. simpl. by rewrite H1, H2.
Qed.

Lemma processRequest_grows w r user out w' :
  world_ok admitted w → received r →
  verified_user r user →
  CanAccess (Some user) (Path r) (Method r) = None →
  processRequest (Expr := Expr) env filters w r user = Some (out, w') → grows w w'.
Proof.
  intros Hok Hrec Hu Hacc. unfold processRequest.
  destruct (filtering_spec w r user) as (Hs1&Hl1&Hf).
  destruct (processQueryFiltering filters w r user) as [f w1]. simpl in Hs1, Hl1, Hf.
  assert (grows w w1) as Hg1 by by apply grows_same.
  destruct f as [[f|err]|why]; [|intros [= _ <-]; by apply grows_same|by intros [= _ <-]].
  destruct (target_spec w1 r user) as (Hs2&Hl2&Ht).
  destruct (processTargetTenant w1 r user) as [t w2]. simpl in Hs2, Hl2, Ht.
  assert (grows w w2) as Hg2 by (apply grows_same; congruence).
  destruct t as [t|err]; [|intros [= _ <-]; apply grows_same; simpl; congruence].
  set (pr := mkProxyRequest user r f t).
  assert (admitted pr) as Hpr.
  { split; [exact Hrec|]. split; [exact Hu|]. split; [exact Hacc|]. split; [by apply Hf|by apply Ht]. }
  destruct (Forward env w2 pr) as [[res w3]|] eqn:E; [|done].
  destruct (Forward_progress admitted env w2 pr res w3) as [(_&_&Hok3&_&new&Hs&_&Hn) _];
    [apply Hg2|done|done|].
  assert (grows w w3) as Hg3 by (eapply grows_trans; [exact Hg2|]; split; [done|by exists new]).
  destruct res as [[resp|err]|why]; intros [= _ <-]; [|apply (grows_trans _ w3); [done|]..|done];
    try (apply grows_same; [apply Hg3|done|done]).
  apply (grows_trans _ w3); [done|]. by apply grows_same; [apply Hg3|..].
Qed.

Lemma ServeHTTP_grows h r answer c out h' :
  gateway_ok h → genuine answer → received r → ServeHTTP (Expr := Expr) env h r answer c = Some (out, h') →
  gateway_ok h' ∧ grows (gw_world h) (gw_world h').
Proof.
  intros ((answers&Hg0&Ha)&Hc&Hok) Hans Hrec. unfold ServeHTTP.
  assert (Forall genuine (answers ++ [answer])) as Hg1 by (apply Forall_app; by split; [|apply Forall_singleton]).
  destruct (String.eqb (extractToken r) "").
  { intros [= _ <-]. simpl. assert (grows (gw_world h) (recordMetrics (gw_world h) r "401" None)) as Hg
      by by apply grows_same. split; [|done]. split; [eauto|]. split; [done|apply Hg]. }
  pose proof (Auth.Authenticate_inv _ _ answers (gw_auth h) (extractToken r) answer c Ha) as Hau.
  destruct (Auth.Authenticate (gw_auth h) (extractToken r) answer c) as [[auth s] calls].
  destruct Hau as [Hs Hu]. rewrite Hc.
  destruct (recordAll_same (gw_world h) calls) as [Hr1 Hr2].
  assert (grows (gw_world h) (recordAll (gw_world h) calls)) as Hg by by apply grows_same.
  assert (∀ w', grows (gw_world h) w' →
    gateway_ok (withWorld (mkGateway s filters (recordAll (gw_world h) calls)) w') ∧ grows (gw_world h) w') as Hend.
  { intros w' Hw. split; [|done]. split; [eauto|]. split; [done|apply Hw]. }
  destruct auth as [user|err].
  2: { intros [= _ <-]. apply Hend. apply (grows_trans _ _ _ Hg). by apply grows_same; [apply Hg|..]. }
  destruct (CanAccess (Some user) (Path r) (Method r)) as [err|] eqn:Eacc.
  { intros [= _ <-]. apply Hend. apply (grows_trans _ _ _ Hg). by apply grows_same; [apply Hg|..]. }
  simpl. destruct (processRequest env filters _ r user) as [[res w']|] eqn:E; [|done].
  intros [= _ <-]. apply Hend. apply (grows_trans _ _ _ Hg).
  eapply processRequest_grows; [apply Hg|done| |done|exact E].
  destruct (Hu user eq_refl) as [? _]. by exists (answers ++ [answer]).
Qed.

(** The gateway's life: client requests served, the token cache cleaned up, and
    whatever the rest of the program does to the proxy's world. *)
Inductive gateway_step : Handler → Handler → Prop :=
| gs_serve h r answer c out h' :
    genuine answer → received r → ServeHTTP (Expr := Expr) env h r answer c = Some (out, h') → gateway_step h h'
| gs_cleanup h now :
    gateway_step h (mkGateway (Auth.CleanupCache (gw_auth h) now) (gw_tenants h) (gw_world h))
| gs_elsewhere h d :
    gateway_step h (withWorld h (pause env d (gw_world h))).

Lemma gateway_step_grows h h' :
  gateway_step h h' → gateway_ok h → gateway_ok h' ∧ grows (gw_world h) (gw_world h').
Proof.
  intros Hs Hok. destruct Hs as [h r answer c out h' Ha Hrec E|h now|h d].
  - by eapply ServeHTTP_grows.
  - destruct Hok as ((answers&?&?&?&Hc)&?&?). split; [|by apply grows_same].
    split; [|done]. exists answers. do 2 (split; [done|]). split; [done|]. simpl.
    intros t cu [Hx _]%map_lookup_filter_Some. eauto.
  - destruct Hok as (?&?&Hw). assert (world_ok admitted (pause env d (gw_world h))) as Hw' by (by apply (@pause_ok _ _ _ _ _ _ HE)).
    split; [done|]. split; [done|]. exists []. simpl. rewrite (@pause_sent _ _ _ _ _ _ HE), app_nil_r. by split.
Qed.

Lemma gateway_run_grows h h' :
  rtc gateway_step h h' → gateway_ok h → gateway_ok h' ∧ grows (gw_world h) (gw_world h').
Proof.
  induction 1 as [h|h h1 h' Hs _ IH]; intros Hok; [split; [done|]; apply grows_same; [apply Hok|done|done]|].
  destruct (gateway_step_grows _ _ Hs Hok) as [Hok1 Hg1]. destruct (IH Hok1) as [? Hg2].
  split; [done|]. by eapply grows_trans.
Qed.

(** A gateway just built on an authentication service. *)
Definition fresh_gateway (h : Handler) : Prop :=
  usable_auth jwt ∧ Auth.NewService jwt maps = Ok (gw_auth h) ∧ gw_tenants h = filters ∧
  world_ok admitted (gw_world h) ∧ w_sent (gw_world h) = [].

Lemma sent_admitted h0 h e :
  fresh_gateway h0 → rtc gateway_step h0 h → e ∈ w_sent (gw_world h) →
  ∃ pr, admitted pr ∧ sentFor env pr e.
Proof.
  intros (Hu&Hn&Hf&Hw&Hl) Hr He.
  destruct (gateway_run_grows h0 h Hr) as [_ (_&new&Hs&Hnew)].
  { split; [|done]. exists []. split; [constructor|]. by apply Auth.NewService_inv. }
  rewrite Hs, Hl in He. rewrite Forall_forall in Hnew. by apply Hnew.
Qed.

(** C1: From a fresh gateway, after any client requests served, cache clean-ups and
    actions of other goroutines, every request that reached an upstream went to a backend
    the balancer may select and is built from a request that a client sent: it has that
    request's method, path, body and header, bearer token included. That token carries a
    valid signature for the configured algorithm, and the user is computed from its
    claims; when the user is read-only the request is no write operation, and when the
    user is no administrator its path is off the restricted ones. *)
Theorem upstreams_receive_only_authorized_requests h0 h e :
  fresh_gateway h0 → rtc gateway_step h0 h → e ∈ w_sent (gw_world h) →
  ∃ r filtered tenant user claims m key,
    received r ∧ builtFrom env (se_Backend e) r filtered tenant (se_Request e) ∧
    candidate (se_View e) (se_Backend e) ∧
    Auth.payload (trimPrefix (extractToken r) "Bearer ") = Some claims ∧
    Auth.signedBy (trimPrefix (extractToken r) "Bearer ") m key ∧
    user = Auth.userOf maps claims ∧ Auth.cl_UserID claims ≠ "" ∧
    ((m = Auth.SigningMethodHMAC ∧ key = Auth.SecretKey (jw_Secret jwt)) ∨
     (∃ answers pk, m = Auth.SigningMethodRSA ∧ key = Auth.RSAKey pk ∧
        Forall genuine answers ∧ Auth.served answers pk)) ∧
    (user_ReadOnly user = true →
       (Method r ∉ writeHTTPMethods) ∧ (∀ p, p ∈ writePaths → hasPrefix (Path r) p = false)) ∧
    (("admin" ∉ user_Groups user) → ∀ p, p ∈ restrictedPaths → hasPrefix (Path r) p = false).
Proof.
  intros Hf Hr He. destruct (sent_admitted h0 h e Hf Hr He) as (pr&(Hrec&Hu&Hacc&_&_)&Hsent).
  destruct Hu as (answers&Hg&claims&(m&key&Hk&Hsig&Hpay)&Hid&Huser).
  exists (pr_OriginalRequest pr), (pr_FilteredQuery pr), (pr_TargetTenant pr), (pr_User pr), claims, m, key.
  split; [done|]. split; [by apply sentFor_builtFrom|]. split; [apply Hsent|]. do 4 (split; [done|]). split.
  { destruct Hk as [(_&?&?)|(_&?&pk&?&?)]; [by left|right; by exists answers, pk]. }
  apply CanAccess_granted in Hacc as (u&[= <-]&Hw&Ha). split.
  - intros Hro. by apply isWriteOperation_false, Hw.
  - intros Hadmin. apply existsb_prefix_false. fold (isRestrictedPath (Path (pr_OriginalRequest pr))).
    destruct (isRestrictedPath _); [|done]. exfalso. apply Hadmin.
    specialize (Ha eq_refl). unfold isAdmin, slices_contains in Ha. by apply bool_decide_eq_true in Ha.
Qed.

(** C2: From a fresh gateway, whatever happens, every request that reached an upstream is
    built from a request r that a client sent, with a filtered query and a tenant of its
    own. For a query endpoint with a query parameter the filtered query is the result of
    FilterQuery for the verified user of r and that parameter, and unless it is empty it
    is the only value of the query parameter in the URL the upstream gets, every other
    parameter being the client's. For a write endpoint the tenant is the one
    DetermineTargetTenant chose for that user, and unless it is empty it replaces the
    client's X-Prometheus-Tenant. Off these endpoints query string and header go out as
    they came. *)
Theorem upstreams_receive_filtered_queries h0 h e :
  fresh_gateway h0 → rtc gateway_step h0 h → e ∈ w_sent (gw_world h) →
  ∃ r user filtered tenant,
    let q := Values_Get (ParseQuery (RawQuery r)).1 "query" in
    received r ∧ verified_user r user ∧
    builtFrom env (se_Backend e) r filtered tenant (se_Request e) ∧
    (isQueryEndpoint (Path r) = true → q ≠ "" →
     ∃ calls, FilterQuery (Expr := Expr) filters user q = Returned (Ok filtered, calls)) ∧
    (isQueryEndpoint (Path r) = false → filtered = "") ∧
    (isWriteEndpoint (Path r) (Method r) = true → (DetermineTargetTenant user (rHeader r)).1 = Ok tenant) ∧
    (isWriteEndpoint (Path r) (Method r) = false → tenant = "").
Proof.
  intros Hf Hr He. destruct (sent_admitted h0 h e Hf Hr He) as (pr&(Hrec&Hu&_&Hfil&Htgt)&Hsent).
  exists (pr_OriginalRequest pr), (pr_User pr), (pr_FilteredQuery pr), (pr_TargetTenant pr). cbv zeta.
  unfold filtered_for, target_for in *. do 2 (split; [done|]). split; [by apply sentFor_builtFrom|]. split_and!.
  - intros Hq Hne. rewrite Hq in Hfil. destruct Hfil as (q&Hqq&[[-> _]|(_&calls&Hfq)]); [by rewrite <- Hqq in Hne|].
    rewrite (Hqq Hne) in Hfq. by exists calls.
  - intros Hq. by rewrite Hq in Hfil.
  - intros Hw. by rewrite Hw in Htgt.
  - intros Hw. by rewrite Hw in Htgt.
Qed.

Lemma ServeHTTP_records h r answer c :
  ∃ out h', ServeHTTP (Expr := Expr) env h r answer c = Some (out, h') ∧
    match out with
    | Returned wr => ∃ before user,
        w_calls (gw_world h') = before ++ [RecordRequest (Method r) (Path r) (itoa (wr_Status wr)) user]
    | Panicked _ => True
    end.
Proof.
  assert (Hfail : ∀ (w : World LB) err other u status, status = itoa (HTTPStatus other) →
    ∃ before, w_calls (fail w r u (errorResponse err other status)).2 = before ++
      [RecordRequest (Method r) (Path r)
         (itoa (wr_Status (fail w r u (errorResponse err other status)).1)) u]).
  { intros w err other u status ->. exists (w_calls w). unfold errorResponse.
    by destruct (errors_As err). }
  unfold ServeHTTP. destruct (String.eqb _ _); [by eexists _, _; split; [done|]; eexists _, _|].
  destruct (Auth.Authenticate _ _ _ _) as [[[user|err] s] calls].
  2: { eexists _, _. split; [done|]. simpl. edestruct Hfail as [b Hb]; [|eexists b, _; exact Hb]. done. }
  destruct (CanAccess _ _ _) as [err|].
  { eexists _, _. split; [done|]. simpl. edestruct Hfail as [b Hb]; [|eexists b, _; exact Hb]. done. }
  unfold processRequest. simpl.
  destruct (processQueryFiltering _ _ _ _) as [[[f|err]|why] w1]; [| |by eexists _, _].
  2: { eexists _, _. split; [done|]. simpl. edestruct Hfail as [b Hb]; [|eexists b, _; exact Hb]. done. }
  destruct (processTargetTenant _ _ _) as [[t|err] w2].
  2: { eexists _, _. split; [done|]. simpl. edestruct Hfail as [b Hb]; [|eexists b, _; exact Hb]. done. }
  destruct (Forward_returns admitted env w2 (mkProxyRequest user r f t)) as [[res w3] ->].
  destruct res as [[resp|err]|why]; [| |by eexists _, _].
  - eexists _, _. split; [done|]. simpl. by eexists _, _.
  - eexists _, _. split; [done|]. simpl. edestruct Hfail as [b Hb]; [|eexists b, _; exact Hb]. done.
Qed.

(** C19: ServeHTTP terminates on every request, and unless it panics its last metrics call
    records the request's method and path with the very status it wrote. *)
Theorem every_request_is_answered_and_recorded h r answer c :
  ∃ out h', ServeHTTP (Expr := Expr) env h r answer c = Some (out, h') ∧
    match out with
    | Returned wr => ∃ before user,
        w_calls (gw_world h') = before ++ [RecordRequest (Method r) (Path r) (itoa (wr_Status wr)) user]
    | Panicked _ => True
    end.
Proof. apply ServeHTTP_records. Qed.
End GatewaySafety.

Lemma validated_gateway {HJ : Auth.JWT} {Expr} {HP : PromQL Expr} parseError c genuine received now :
  Config_Validate parseError c = None →
  (Z.of_nat (length (px_Upstreams (cf_Proxy c))) ≤ max_int32)%Z →
  let maps := tc_Mappings (cf_Tenants c) in
  let filters := tc_Filter (cf_Tenants c) in
  ∃ auth s, Auth.NewService (cf_Auth c) maps = Ok auth ∧
    NewEnhancedService (cf_Proxy c) now = Returned (Ok s) ∧
    fresh_gateway (Expr := Expr) (cf_Auth c) maps filters genuine received (mkGateway auth filters (worldOf s)) ∧
    TenantFilterStrategy_IsValid (fc_Strategy filters) = true ∧
    lb_closed (es_loadBalancer s) = false ∧ es_closed s = false ∧
    map Domain.URL (lb_backends (es_loadBalancer s)) = map up_URL (px_Upstreams (cf_Proxy c)) ∧
    Forall (λ b, State b = BackendHealthy ∧ (0 < Weight b)%Z) (lb_backends (es_loadBalancer s)) ∧
    (is_Some (es_requestQueue s) ↔ qc_Enabled (rl_Queue (px_Reliability (cf_Proxy c))) = true).
Proof.
  intros Hv Hlen maps filters.
  destruct (Config_usable _ _ Hv) as (Hp&_&Ha&Ht).
  destruct (NewEnhancedService_ok _ _ now Hp Hlen) as (s&Hs&Hcl&_&_&Hwf&Hlbc&Hview&Hurls&Hst&Hq).
  assert (∃ auth, Auth.NewService (cf_Auth c) maps = Ok auth) as [auth Hauth].
  { unfold Auth.NewService, str_nonempty. destruct (String.eqb_spec (jw_Secret (cf_Auth c)) ""); [|by eexists].
    destruct (String.eqb_spec (jw_JwksURL (cf_Auth c)) ""); [|by eexists]. simpl.
    destruct Ha as [[[_ ?]|[_ ?]] _]; done. }
  exists auth, s. rewrite Hview. destruct Ht as [Hf _]. split_and!; try done.
  - split; [done|]. split; [done|]. split; [done|]. split; [|done]. split; [done|].
    simpl. rewrite Hq. by destruct (qc_Enabled _).
  - rewrite Hq. destruct (qc_Enabled _); [by split|]. split; [by intros [? ?]|done].
Qed.

(** A configuration that Validate accepts builds the authentication service and the proxy
    service, which together make a fresh gateway: all backends healthy with positive
    weights, open, with a queue exactly when enabled. *)
Theorem validated_config_builds_gateway {HJ : Auth.JWT} {Expr} {HP : PromQL Expr} parseError c genuine received now :
  Config_Validate parseError c = None →
  (Z.of_nat (length (px_Upstreams (cf_Proxy c))) ≤ max_int32)%Z →
  let maps := tc_Mappings (cf_Tenants c) in
  let filters := tc_Filter (cf_Tenants c) in
  ∃ auth s, Auth.NewService (cf_Auth c) maps = Ok auth ∧
    NewEnhancedService (cf_Proxy c) now = Returned (Ok s) ∧
    fresh_gateway (Expr := Expr) (cf_Auth c) maps filters genuine received (mkGateway auth filters (worldOf s)) ∧
    TenantFilterStrategy_IsValid (fc_Strategy filters) = true ∧
    lb_closed (es_loadBalancer s) = false ∧ es_closed s = false ∧
    map Domain.URL (lb_backends (es_loadBalancer s)) = map up_URL (px_Upstreams (cf_Proxy c)) ∧
    Forall (λ b, State b = BackendHealthy ∧ (0 < Weight b)%Z) (lb_backends (es_loadBalancer s)) ∧
    (is_Some (es_requestQueue s) ↔ qc_Enabled (rl_Queue (px_Reliability (cf_Proxy c))) = true).
Proof. exact (validated_gateway parseError c genuine received now). Qed.

(** C18: A request without a bearer token, with a token that does not authenticate, or
    refused by the access control is answered with status 401 or, when authenticated, 403;
    nothing is sent upstream, no request body is read, and the proxy service and the
    tenant filter are as before. All that changes is the record of metrics calls and, when
    there is a token, the caches of the authentication service, which are those
    Authenticate leaves. *)
Theorem refused_requests_are_not_forwarded {HJ : Auth.JWT} {Expr} {HP : PromQL Expr} {LB}
    `{HLB : LoadBalancer LB, !LoadBalancerSpec LB} (env : Env LB) (h : GatewayHandler) r answer c :
  let token := extractToken r in
  let '(auth, service, _) := Auth.Authenticate (gw_auth h) token answer c in
  (token = "" ∨ (∃ err, auth = Err err) ∨
   ∃ user err, auth = Ok user ∧ CanAccess (Some user) (Path r) (Method r) = Some err) →
  ∃ wr h', ServeHTTP (Expr := Expr) env h r answer c = Some (Returned wr, h') ∧
    wr_Status wr = (if decide (token ≠ "" ∧ is_ok auth = true) then 403 else 401)%Z ∧
    w_service (gw_world h') = w_service (gw_world h) ∧ w_sent (gw_world h') = w_sent (gw_world h) ∧
    w_bodies (gw_world h') = w_bodies (gw_world h) ∧ gw_tenants h' = gw_tenants h ∧
    gw_auth h' = (if decide (token = "") then gw_auth h else service).
Proof.
  intros token. pose proof (Authenticate_error (gw_auth h) token answer c) as Herr.
  destruct (Auth.Authenticate (gw_auth h) token answer c) as [[auth s] calls] eqn:Ea. intros H.
  unfold ServeHTTP. fold token. destruct (String.eqb_spec token "") as [Hne|Hne].
  { eexists _, _. split; [done|]. rewrite decide_False by naive_solver. by rewrite decide_True. }
  rewrite Ea. rewrite (decide_False _ _ Hne).
  assert (w_service (recordAll (gw_world h) calls) = w_service (gw_world h) ∧
    w_sent (recordAll (gw_world h) calls) = w_sent (gw_world h) ∧
    w_bodies (recordAll (gw_world h) calls) = w_bodies (gw_world h)) as (Hs&Hl&Hb).
  { unfold recordAll. generalize (gw_world h). clear. induction calls as [|c calls IH]; intros w; [done|].
    apply (IH (record w c)). }
  destruct auth as [user|err].
  - destruct H as [?|[[? ?]|(u&err&[= <-]&Hacc)]]; [done..|]. rewrite Hacc. eexists _, _. split; [done|].
    simpl. split; [|done]. rewrite decide_True by done.
    apply CanAccess_refused in Hacc as [[? _]|[->| ->]]; done.
  - destruct (Herr err eq_refl) as (code&msg&->). eexists _, _. split; [done|].
    simpl. split; [|done]. rewrite decide_False by naive_solver. done.
Qed.

(* ------------------------------------------------------------------ *)
(** ** A concrete gateway

    One read-only user (the token "good" of Auth.v), two backends, and a
    small stand-in for the PromQL library. *)

#[local] Existing Instances Auth.toyJWT Auth.toyJWTLaws.

Inductive plainExpr := Plain (selectors : list (list Matcher)).

Definition printMatcher (m : Matcher) : string := mt_Name m +:+ "=" +:+ mt_Value m.

#[export] Instance plainPromQL : PromQL plainExpr := {
  ParseExpr s := Ok (Plain [[mkMatcher MatchEqual "__name__" s]]);
  ExprString '(Plain es) := String.concat " or " (map (λ ms, String.concat "," (map printMatcher ms)) es);
  Inspect f '(Plain es) := Plain (map f es);
  LOR '(Plain a) '(Plain b) := Plain (a ++ b);
  Selectors '(Plain es) := es
}.

Definition anyAnswer (answer : Auth.fetchResult) : Prop := True.

Definition sampleRequest (method path query : string) : Request :=
  mkRequest method path query {["Authorization" := ["Bearer good"]]} 0.

(** The only request a client sends. *)
Definition queryRequest : Request := sampleRequest "GET" "/api/v1/query" "query=up".
Definition onlyQuery (r : Request) : Prop := r = queryRequest.

Definition sampleAdmitted : ProxyRequest → Prop :=
  admitted (Expr := plainExpr) Auth.sampleJWTConfig Auth.sampleMaps Tenant.sampleTenantConfig anyAnswer onlyQuery.

Definition sampleGateway : GatewayHandler (LB := LBFactory.Balancer) :=
  mkGateway Auth.sampleService Tenant.sampleTenantConfig (worldOf ProxyTheorems.sampleService).

Lemma sampleGateway_fresh :
  fresh_gateway (Expr := plainExpr) Auth.sampleJWTConfig Auth.sampleMaps Tenant.sampleTenantConfig
    anyAnswer onlyQuery sampleGateway.
Proof.
  split; [split; [right; split; [reflexivity|discriminate]|split; reflexivity]|].
  do 2 (split; [reflexivity|]). split; [|reflexivity].
  split; [vm_compute; intuition discriminate|constructor].
Qed.

Definition serve (r : Request) : option (outcome written * GatewayHandler) :=
  ServeHTTP (Expr := plainExpr) (quietEnv LBFactory.Balancer) sampleGateway r Auth.noAnswer (Auth.atSecond 50).

Lemma serve_step out h' :
  serve queryRequest = Some (out, h') →
  rtc (gateway_step (Expr := plainExpr) anyAnswer onlyQuery (quietEnv LBFactory.Balancer)) sampleGateway h'.
Proof. intros E. eapply rtc_once, gs_serve; [done|done|exact E]. Qed.

(** What serving it sends first. *)
Lemma serve_query :
  match serve queryRequest with
  | Some (Returned wr, h') =>
      wr_Status wr = 200%Z ∧
      match w_sent (gw_world h') with
      | e :: _ => hr_URL (se_Request e)
          = "http://a/api/v1/query?query=__name__%3Dup%2Cvm_account_id%3D1%2Cvm_project_id%3D7"
      | [] => False
      end
  | _ => False
  end.
Proof. vm_compute. split; reflexivity. Qed.

Lemma upstreams_receive_only_authorized_requests_witness :
  match serve queryRequest with
  | Some (Returned wr, h') =>
      wr_Status wr = 200%Z ∧
      match w_sent (gw_world h') with
      | e :: _ => ∃ filtered tenant claims m key,
          builtFrom (quietEnv LBFactory.Balancer) (se_Backend e) queryRequest filtered tenant (se_Request e) ∧
          Auth.payload "good" = Some claims ∧ Auth.signedBy "good" m key
      | [] => False
      end
  | _ => False
  end.
Proof.
  pose proof serve_query as Hc. destruct (serve queryRequest) as [[[wr|why] h']|] eqn:E; [|destruct Hc..].
  destruct Hc as [Hst Hlen]. split; [exact Hst|].
  destruct (w_sent (gw_world h')) as [|e l] eqn:Hl; [destruct Hlen|].
  destruct (upstreams_receive_only_authorized_requests Auth.sampleJWTConfig Auth.sampleMaps
    Tenant.sampleTenantConfig anyAnswer onlyQuery (quietEnv LBFactory.Balancer) sampleGateway h' e)
    as (r&filtered&tenant&user&claims&m&key&Hr&H1&_&H2&H3&_).
  - exact sampleGateway_fresh.
  - exact (serve_step _ _ E).
  - rewrite Hl. left.
  - rewrite Hr in *. exists filtered, tenant, claims, m, key. split; [exact H1|]. split; [exact H2|exact H3].
Defined.

Lemma upstreams_receive_filtered_queries_witness :
  match serve queryRequest with
  | Some (Returned _, h') =>
      match w_sent (gw_world h') with
      | e :: _ =>
          hr_URL (se_Request e)
            = "http://a/api/v1/query?query=__name__%3Dup%2Cvm_account_id%3D1%2Cvm_project_id%3D7" ∧
          ∃ user filtered calls,
            FilterQuery (Expr := plainExpr) Tenant.sampleTenantConfig user "up" = Returned (Ok filtered, calls) ∧
            builtFrom (quietEnv LBFactory.Balancer) (se_Backend e) queryRequest filtered "" (se_Request e)
      | [] => False
      end
  | _ => False
  end.
Proof.
  pose proof serve_query as Hc. destruct (serve queryRequest) as [[[wr|why] h']|] eqn:E; [|destruct Hc..].
  destruct Hc as [_ Hc]. destruct (w_sent (gw_world h')) as [|e l] eqn:Hl; [destruct Hc|]. split; [exact Hc|].
  destruct (upstreams_receive_filtered_queries Auth.sampleJWTConfig Auth.sampleMaps
    Tenant.sampleTenantConfig anyAnswer onlyQuery (quietEnv LBFactory.Balancer) sampleGateway h' e)
    as (r&user&filtered&tenant&Hr&_&H1&H2&_&_&H3).
  - exact sampleGateway_fresh.
  - exact (serve_step _ _ E).
  - rewrite Hl. left.
  - rewrite Hr in *. destruct H2 as [calls H2]; [reflexivity|vm_compute; discriminate|].
    rewrite (H3 eq_refl) in H1. exists user, filtered, calls. split; [exact H2|exact H1].
Defined.

Lemma every_request_is_answered_and_recorded_witness :
  ∃ out h', serve (sampleRequest "GET" "/api/v1/query" "query=up") = Some (out, h') ∧
    match out with
    | Returned wr => ∃ before user,
        w_calls (gw_world h') = before ++ [RecordRequest "GET" "/api/v1/query" (itoa (wr_Status wr)) user]
    | Panicked _ => True
    end.
Proof.
  exact (every_request_is_answered_and_recorded Auth.sampleJWTConfig Auth.sampleMaps
    Tenant.sampleTenantConfig anyAnswer onlyQuery (quietEnv LBFactory.Balancer) sampleGateway
    (sampleRequest "GET" "/api/v1/query" "query=up") Auth.noAnswer (Auth.atSecond 50)).
Defined.

(** A read-only user who writes. *)
Lemma refused_requests_are_not_forwarded_witness :
  ∃ wr h', serve (sampleRequest "POST" "/api/v1/write" "") = Some (Returned wr, h') ∧
    w_sent (gw_world h') = [] ∧ wr_Status wr = 403%Z.
Proof.
  pose proof (refused_requests_are_not_forwarded (Expr := plainExpr) (quietEnv LBFactory.Balancer)
    sampleGateway (sampleRequest "POST" "/api/v1/write" "") Auth.noAnswer (Auth.atSecond 50)) as H.
  assert (∃ s calls, Auth.Authenticate (gw_auth sampleGateway) "good" Auth.noAnswer (Auth.atSecond 50)
    = (Ok (Auth.userOf Auth.sampleMaps Auth.goodClaims), s, calls)) as (s&calls&Ea)
    by (eexists _, _; vm_compute; reflexivity).
  cbv zeta in H. change (extractToken (sampleRequest "POST" "/api/v1/write" "")) with "good" in H.
  rewrite Ea in H. destruct H as (wr&h'&H1&H2&_&H3&_).
  - right. right. exists (Auth.userOf Auth.sampleMaps Auth.goodClaims), (EApp ErrReadOnlyAccess).
    split; vm_compute; reflexivity.
  - exists wr, h'. split; [exact H1|]. split; [exact H3|]. rewrite H2. vm_compute. reflexivity.
Defined.

(* ------------------------------------------------------------------ *)
(** ** Where no filter is applied *)

(** A query in a form body is filtered, but the filtered query is dropped:
    the proxy replaces a query parameter of the URL only, and forwards the
    body as the client sent it. *)
Definition writerGateway : GatewayHandler (LB := LBFactory.Balancer) :=
  mkGateway
    (Auth.mkAuthService [mkMapping ["team"] [mkVMTenantConfig "1" "7"] ["write"]]
       (Auth.NewJWTVerifier None "s3cret" "HS256") ∅ 3600000000000)
    Tenant.sampleTenantConfig
    (withBodies (worldOf ProxyTheorems.sampleService) {[0%nat := mkReader "query=up" None]}).

Definition formRequest : Request :=
  mkRequest "POST" "/api/v1/query" ""
    {["Authorization" := ["Bearer good"]; "Content-Type" := ["application/x-www-form-urlencoded"]]} 0.

Lemma form_query_is_forwarded_unfiltered :
  match ServeHTTP (Expr := plainExpr) (quietEnv LBFactory.Balancer) writerGateway formRequest
          Auth.noAnswer (Auth.atSecond 50) with
  | Some (Returned wr, h') =>
      wr_Status wr = 200%Z ∧
      (λ e, (hr_URL (se_Request e), se_Body e)) <$> head (w_sent (gw_world h'))
        = Some ("http://a/api/v1/query?", "query=up") ∧
      RecordQueryFilter "alice" 1 true ∈ w_calls (gw_world h')
  | _ => False
  end.
Proof.
  assert (∀ l : list metricCall, existsb (λ c, match c with RecordQueryFilter "alice" 1 true => true | _ => false end) l = true →
    RecordQueryFilter "alice" 1 true ∈ l) as Hin.
  { intros l (c&Hc&E)%existsb_exists. apply list_elem_of_In in Hc. by repeat case_match; simplify_eq. }
  assert (match ServeHTTP (Expr := plainExpr) (quietEnv LBFactory.Balancer) writerGateway formRequest
          Auth.noAnswer (Auth.atSecond 50) with
  | Some (Returned wr, h') =>
      wr_Status wr = 200%Z ∧
      (λ e, (hr_URL (se_Request e), se_Body e)) <$> head (w_sent (gw_world h'))
        = Some ("http://a/api/v1/query?", "query=up") ∧
      existsb (λ c, match c with RecordQueryFilter "alice" 1 true => true | _ => false end)
        (w_calls (gw_world h')) = true
  | _ => False
  end) as H by (vm_compute; split_and!; reflexivity).
  destruct (ServeHTTP _ _ _ _ _) as [[[wr|why] h']|]; [|done..].
  destruct H as (?&?&?). split; [done|]. split; [done|]. by apply Hin.
Qed.

(** Only the parameter named query is looked at: the series selectors of
    /api/v1/series pass as they are. *)
Lemma series_selectors_are_not_filtered :
  match serve (sampleRequest "GET" "/api/v1/series" "match[]=up") with
  | Some (Returned wr, h') =>
      (λ e, hr_URL (se_Request e)) <$> head (w_sent (gw_world h')) = Some "http://a/api/v1/series?match[]=up"
  | _ => False
  end.
Proof. vm_compute. reflexivity. Qed.

(** Endpoints that read data and are no query endpoints. *)
Lemma reading_endpoints_without_filter :
  Forall (λ path, isQueryEndpoint path = false ∧ CanAccess (Some (Auth.userOf Auth.sampleMaps Auth.goodClaims)) path "GET" = None)
    ["/api/v1/export"; "/api/v1/labels"; "/api/v1/label/job/values"; "/federate"; "/select/0/prometheus/api/v1/export"].
Proof. repeat constructor. Qed.

Lemma validated_config_builds_gateway_witness :
  ∃ auth s, Auth.NewService (cf_Auth completed) (tc_Mappings (cf_Tenants completed)) = Ok auth ∧
    NewEnhancedService (cf_Proxy completed) 0 = Returned (Ok s) ∧
    map Domain.URL (lb_backends (es_loadBalancer s)) = ["http://vm:8428"].
Proof.
  destruct (validated_config_builds_gateway (Expr := plainExpr) (λ _, None) completed anyAnswer onlyQuery 0)
    as (auth&s&H1&H2&_&_&_&_&H3&_); [vm_compute; reflexivity|vm_compute; discriminate|].
  exists auth, s. split; [exact H1|]. split; [exact H2|exact H3].
Defined.
