(* ===== verification/Readiness.v ===== *)
(** * Readiness: internal/handlers/health.go

    The health and readiness answers. The version and the timestamp are
    strings the handler copies; the JSON object is kept as its members. *)

From S2P Require Import Prelude Errors Domain LoadBalancer LBFactory Http Proxy.
From S2P Require RoundRobin Config Health.

(** The object writeJSON encodes. *)
Inductive healthBody :=
| HealthObject (status timestamp version : string)
| ReadinessObject (status : string) (checks : gmap string string).

Record healthResponse := mkHealthResponse { hp_Status : Z; hp_Header : Header; hp_Body : healthBody }.

Definition StatusOK : Z := 200.
Definition HealthStatusDegraded : string := "degraded".

Definition writeJSON (status : Z) (data : healthBody) : healthResponse :=
  mkHealthResponse status (Header_Set ∅ "Content-Type" "application/json") data.

(** HealthHandler.Health *)
Definition HealthHandler_Health (version timestamp : string) : healthResponse :=
  writeJSON StatusOK (HealthObject "healthy" timestamp version).

(** HealthHandler.ServeHTTP *)
Definition HealthHandler_ServeHTTP (version timestamp : string) : healthResponse := HealthHandler_Health version timestamp.

Definition countHealthyBackends (statuses : list BackendStatus) : Z :=
  foldl (λ healthyCount status, if bs_IsHealthy status then healthyCount + 1 else healthyCount)%Z 0%Z statuses.

(** [None] stands for a handler without a proxy service. *)
Definition checkBackendHealth (backendStatuses : option (list BackendStatus)) (checks : gmap string string)
  : string * Z * gmap string string :=
  match backendStatuses with
  | None =>
      (HealthStatusDegraded, StatusServiceUnavailable,
       <["backends" := "proxy service not configured"]> checks)
  | Some backendStatuses =>
      let healthyBackends := countHealthyBackends backendStatuses in
      let totalBackends := Z.of_nat (length backendStatuses) in
      if (totalBackends =? 0)%Z then
        (HealthStatusDegraded, StatusServiceUnavailable, <["backends" := "no backends configured"]> checks)
      else if (healthyBackends =? 0)%Z then
        (HealthStatusDegraded, StatusServiceUnavailable, <["backends" := "all backends unhealthy"]> checks)
      else if (healthyBackends <? totalBackends)%Z then
        ("ready", StatusOK,
         <["backends" := itoa healthyBackends +:+ "/" +:+ itoa totalBackends +:+ " backends healthy"]> checks)
      else ("ready", StatusOK, <["backends" := "all backends healthy"]> checks)
  end.

Definition Readiness (backendStatuses : option (list BackendStatus)) : healthResponse :=
  let '(status, statusCode, checks) := checkBackendHealth backendStatuses ∅ in
  writeJSON statusCode (ReadinessObject status checks).

Lemma countHealthy_spec statuses :
  countHealthyBackends statuses = Z.of_nat (length (filter (λ st, bs_IsHealthy st = true) statuses)).
Proof.
  unfold countHealthyBackends. induction statuses as [|st l IH] using rev_ind; [done|].
  rewrite foldl_app, filter_app, length_app, filter_cons, filter_nil, IH. simpl.
  destruct (bs_IsHealthy st); simpl; lia.
Qed.

Lemma status_healthy_iff (sts : list BackendStatus) bs :
  map bs_Backend sts = bs → Forall (λ st, bs_IsHealthy st = healthy (bs_Backend st)) sts →
  length (filter (λ st, bs_IsHealthy st = true) sts) = length (filter (λ b, healthy b = true) bs).
Proof.
  intros <- H. induction H as [|st sts Hst _ IH]; [done|]. simpl.
  rewrite !filter_cons, Hst. destruct (healthy (bs_Backend st)); simpl; congruence.
Qed.

(** The readiness answer has status 200 exactly when some backend of the balancer is
    healthy, 503 exactly when none is, and its text counts the healthy backends. *)
Theorem readiness_reflects_balancer {LB} `{HLB : LoadBalancer LB, !LoadBalancerSpec LB} (w : World LB) :
  lb_wf (es_loadBalancer (w_service w)) →
  let bs := lb_backends (es_loadBalancer (w_service w)) in
  let h := length (filter (λ b, healthy b = true) bs) in
  let answer := Readiness (Some (GetBackendsStatus w)) in
  (hp_Status answer = 200%Z ↔ (0 < h)%nat) ∧ (hp_Status answer = 503%Z ↔ h = 0%nat) ∧
  ∃ status checks, hp_Body answer = ReadinessObject status checks ∧
    checks !! "backends" = Some
      (if decide (bs = []) then "no backends configured"
       else if decide (h = 0)%nat then "all backends unhealthy"
       else if decide (h = length bs) then "all backends healthy"
       else itoa (Z.of_nat h) +:+ "/" +:+ itoa (Z.of_nat (length bs)) +:+ " backends healthy").
Proof.
  intros Hwf bs h answer. destruct (lb_status_view _ (w_now w) Hwf) as [Hv Hh].
  change (lb_BackendsStatus _ _) with (GetBackendsStatus w) in Hv, Hh. fold bs in Hv.
  pose proof (status_healthy_iff _ _ Hv Hh) as Hcount. fold h in Hcount.
  assert (length (GetBackendsStatus w) = length bs) as Hlen by (rewrite <- Hv; by rewrite length_map).
  assert (h ≤ length bs)%nat as Hle by apply length_filter.
  subst answer. unfold Readiness, checkBackendHealth. rewrite countHealthy_spec, Hcount, Hlen.
  destruct (Z.eqb_spec (Z.of_nat (length bs)) 0) as [H0|H0].
  { assert (bs = []) as Hnil by (apply nil_length_inv; lia). rewrite decide_True by done.
    split_and!; simpl; [split; [done|lia]|split; [lia|done]|]. eexists _, _. split; [done|].
    by rewrite lookup_insert_eq. }
  rewrite (decide_False (P := bs = [])) by (intros Hn; by rewrite Hn in H0).
  destruct (Z.eqb_spec (Z.of_nat h) 0) as [H1|H1].
  { rewrite decide_True by lia. split_and!; simpl; [split; [done|lia]|split; [lia|done]|].
    eexists _, _. split; [done|]. by rewrite lookup_insert_eq. }
  rewrite (decide_False (P := h = 0%nat)) by lia.
  destruct (Z.ltb_spec (Z.of_nat h) (Z.of_nat (length bs))).
  - rewrite decide_False by lia. split_and!; simpl; [split; [lia|done]|split; [done|lia]|].
    eexists _, _. split; [done|]. by rewrite lookup_insert_eq.
  - rewrite decide_True by lia. split_and!; simpl; [split; [lia|done]|split; [done|lia]|].
    eexists _, _. split; [done|]. by rewrite lookup_insert_eq.
Qed.

Lemma readiness_reflects_balancer_witness :
  let w : World Balancer := mkWorld
    (mkService (Config.mkProxyConfig [] (Config.mkRouting "round-robin" (Config.mkHealthCheck 0 0 "" 0 0))
                  (Config.mkReliability 0 0 0 (Config.mkQueueConfig false 0 0)))
       (RR (RoundRobin.NewRoundRobinBalancer
              [mkBackend "http://a" 1 BackendHealthy; mkBackend "http://b" 1 BackendUnhealthy]))
       (Health.NewChecker (Health.mkCheckerConfig 0 0 0 0 "") [] 0) None 1 false) ∅ 0 None [] [] in
  hp_Status (Readiness (Some (GetBackendsStatus w))) = 200%Z ∧
  hp_Body (Readiness (Some (GetBackendsStatus w)))
    = ReadinessObject "ready" {["backends" := "1/2 backends healthy"]}.
Proof.
  intros w. split; [|vm_compute; reflexivity].
  destruct (readiness_reflects_balancer w) as [[_ H] _]; [vm_compute; intuition discriminate|].
  apply H. vm_compute. lia.
Defined.
