(* ===== verification/StorageFactory.v ===== *)
(** * StorageFactory: services/statestorage/factory.go, and the choice of the
    configuration in cmd/gateway/main.go

    The interface value the factory returns is one of the three storages; it
    is a storage of its own, and meets the specification when they do. *)

From S2P Require Import Prelude GoStd Errors Config Storage Watch.
From S2P Require GoFormat LocalStorage RaftFsm RaftStorage RedisStorage.

(** The interface{} that carries the configuration. *)
Inductive storageConfig :=
| NoConfig
| IsRedis (c : RedisConfig)
| IsRaft (c : RaftConfig).

(** fmt's %T of it. *)
Definition typeName (c : storageConfig) : string :=
  match c with
  | NoConfig => "<nil>"
  | IsRedis _ => "storage.RedisConfig"
  | IsRaft _ => "storage.RaftConfig"
  end.

(** createStateStorageConfig of main.go *)
Definition createStateStorageConfig (c : StorageConfig) : storageConfig * string :=
  if String.eqb (sg_Type c) "redis" then (IsRedis (sg_Redis c), "redis")
  else if String.eqb (sg_Type c) "raft" then (IsRaft (sg_Raft c), "raft")
  else (NoConfig, "local").

Definition redisStorageConfig (c : RedisConfig) : RedisStorage.RedisStorageConfig :=
  RedisStorage.mkRedisStorageConfig (rd_Address c) (rd_Password c) (rd_Database c) (rd_KeyPrefix c)
    (rt_Connect (rd_Timeouts c)) (rt_Read (rd_Timeouts c)) (rt_Write (rd_Timeouts c))
    (rp_Size (rd_Pool c)) (rp_MinIdle (rd_Pool c)) (rr_MaxAttempts (rd_Retry c))
    (bo_Min (rr_Backoff (rd_Retry c))) (bo_Max (rr_Backoff (rd_Retry c))).

Definition raftStorageConfig (c : RaftConfig) (nodeID : string) : RaftStorage.RaftStorageConfig :=
  RaftStorage.mkRaftConfig nodeID (rf_BindAddress c) (rf_DataDir c) (rf_Peers c)
    (1 * Second) (1 * Second) (500 * Millisecond) (50 * Millisecond) 3 1024 1024 (rf_BootstrapExpected c).

Section Factory.
Context {R Q : Type} `{HR : RaftStorage.RaftLib R, HQ : RedisStorage.RedisLib Q} {HU : GoFormat.UnicodePrint}.

Inductive AnyStorage :=
| LocalS (s : LocalStorage.LocalStorage)
| RedisS (s : RedisStorage.RedisStorage Q)
| RaftS (s : RaftStorage.RaftStorage R).

(** [connect] is the Redis client for a configuration, [o] what opening the
    Raft storage's resources gives. *)
Definition NewStateStorage (connect : RedisStorage.RedisStorageConfig → Q) (o : RaftStorage.openings R)
    (config : storageConfig) (storageType nodeID : string) : outcome (result AnyStorage) :=
  if String.eqb storageType "local" then Returned (Ok (LocalS (LocalStorage.NewLocalStorage nodeID)))
  else if String.eqb storageType "redis" then
    match config with
    | IsRedis c =>
        Returned (match RedisStorage.NewRedisStorage connect (redisStorageConfig c) nodeID with
                  | Ok s => Ok (RedisS s)
                  | Err err => Err err
                  end)
    | _ => Returned (Err (EText ("invalid Redis configuration type: " +:+ typeName config)))
    end
  else if String.eqb storageType "raft" then
    match config with
    | IsRaft c =>
        match RaftStorage.NewRaftStorage (raftStorageConfig c nodeID) o with
        | Returned (Ok s, _) => Returned (Ok (RaftS s))
        | Returned (Err err, _) => Returned (Err err)
        | Panicked why => Panicked why
        end
    | _ => Returned (Err (EText ("invalid Raft configuration type: " +:+ typeName config)))
    end
  else Returned (Err (EText ("unsupported state storage type: " +:+ storageType))).

(* ---------------------------------------------------------------- *)
(** ** The interface value *)

Definition mapResult {A S T} (f : S → T) (r : A * S) : A * T := (r.1, f r.2).

Definition mapOutcome {A S T} (f : S → T) (r : outcome (A * S)) : outcome (A * T) :=
  match r with Returned r => Returned (mapResult f r) | Panicked why => Panicked why end.

#[global] Instance AnyStorage_StateStorage : StateStorage AnyStorage := {
  ss_Get s now key :=
    match s with
    | LocalS s => mapResult LocalS (ss_Get s now key)
    | RedisS s => mapResult RedisS (ss_Get s now key)
    | RaftS s => mapResult RaftS (ss_Get s now key)
    end;
  ss_Set s now key value ttl :=
    match s with
    | LocalS s => mapOutcome LocalS (ss_Set s now key value ttl)
    | RedisS s => mapOutcome RedisS (ss_Set s now key value ttl)
    | RaftS s => mapOutcome RaftS (ss_Set s now key value ttl)
    end;
  ss_Delete s now key :=
    match s with
    | LocalS s => mapOutcome LocalS (ss_Delete s now key)
    | RedisS s => mapOutcome RedisS (ss_Delete s now key)
    | RaftS s => mapOutcome RaftS (ss_Delete s now key)
    end;
  ss_GetMultiple s now keys :=
    match s with
    | LocalS s => mapResult LocalS (ss_GetMultiple s now keys)
    | RedisS s => mapResult RedisS (ss_GetMultiple s now keys)
    | RaftS s => mapResult RaftS (ss_GetMultiple s now keys)
    end;
  ss_SetMultiple s now items ttl :=
    match s with
    | LocalS s => mapOutcome LocalS (ss_SetMultiple s now items ttl)
    | RedisS s => mapOutcome RedisS (ss_SetMultiple s now items ttl)
    | RaftS s => mapOutcome RaftS (ss_SetMultiple s now items ttl)
    end;
  ss_Ping s now :=
    match s with LocalS s => ss_Ping s now | RedisS s => ss_Ping s now | RaftS s => ss_Ping s now end
}.

(** The construction of a Raft storage never panics, and gives one that is
    open with nothing under way. *)
Lemma NewRaftStorage_shape c (o : RaftStorage.openings R) :
  match RaftStorage.NewRaftStorage c o with
  | Returned (Ok s, _) =>
      ∃ r' b, s = RaftStorage.mkRaft r' RaftFsm.createRaftFSM c (RaftStorage.rc_NodeID c) ∅ [] false b [] []
  | Returned (Err _, _) => True
  | Panicked _ => False
  end.
Proof.
  unfold RaftStorage.NewRaftStorage.
  destruct (RaftStorage.op_mkdir o); [done|].
  destruct (RaftStorage.createRaftTransport o) as [[?|] ?]; [done|].
  destruct (RaftStorage.createRaftStores o) as [[?|] ?]; [done|].
  destruct (RaftStorage.op_raft o) as [r|]; [|done].
  set (rs0 := RaftStorage.mkRaft r RaftFsm.createRaftFSM c (RaftStorage.rc_NodeID c) ∅ [] false false [] []).
  assert (∀ err rs, RaftStorage.bootstrapCluster rs0 = (err, rs) →
    ∃ r' b, rs = RaftStorage.mkRaft r' RaftFsm.createRaftFSM c (RaftStorage.rc_NodeID c) ∅ [] false b [] []) as Hb.
  { intros err rs. unfold RaftStorage.bootstrapCluster, RaftStorage.bootstrapWithStaticPeers, RaftStorage.staticServers,
      RaftStorage.bootstrapSingleNode, RaftStorage.maybeBootstrap, RaftStorage.bootstrap.
    unfold rs0; simpl; repeat case_match; intros; simplify_eq/=; eauto. }
  destruct (RaftStorage.bootstrapCluster rs0) as [[err|] rs] eqn:E; destruct (Hb _ _ eq_refl) as (r'&b&->); [|eauto].
  destruct (RaftStorage.Close_returns (RaftStorage.mkRaft r' RaftFsm.createRaftFSM c
    (RaftStorage.rc_NodeID c) ∅ [] false b [] [])) as (e&rs'&->&_); [| |done]; by intros ch ?%elem_of_nil.
Qed.

Context `{HL : !RaftStorage.RaftSoleLeader R, HW : !RedisStorage.RedisLaws Q}.

(** What every storage supports: keys of valid UTF-8, lifetimes of whole
    seconds. *)
#[global] Instance AnyStorage_StateStorageSpec : StateStorageSpec AnyStorage.
Proof.
  refine {|
    ss_ok s := match s with LocalS s => ss_ok s | RedisS s => ss_ok s | RaftS s => ss_ok s end;
    ss_view s := match s with LocalS s => ss_view s | RedisS s => ss_view s | RaftS s => ss_view s end;
    ss_ttl ttl := RedisStorage.secondsTTL ttl;
    ss_key := GoText.validUTF8
  |}.
  - intros [s|s|s] now key Hok; pose proof (ss_Get_spec s now key Hok) as H;
      cbn [ss_Get AnyStorage_StateStorage]; destruct (ss_Get s now key); apply H.
  - intros [s|s|s] now keys Hok; pose proof (ss_GetMultiple_spec s now keys Hok) as H;
      cbn [ss_GetMultiple AnyStorage_StateStorage]; destruct (ss_GetMultiple s now keys); apply H.
  - intros [s|s|s] now key value ttl Hok Httl Hk.
    + destruct (ss_Set_spec s now key value ttl Hok (proj1 Httl) I) as (s'&E&H).
      exists (LocalS s'). cbn [ss_Set AnyStorage_StateStorage]. by rewrite E.
    + destruct (ss_Set_spec s now key value ttl Hok Httl I) as (s'&E&H).
      exists (RedisS s'). cbn [ss_Set AnyStorage_StateStorage]. by rewrite E.
    + destruct (ss_Set_spec s now key value ttl Hok (proj1 Httl) Hk) as (s'&E&H).
      exists (RaftS s'). cbn [ss_Set AnyStorage_StateStorage]. by rewrite E.
  - intros [s|s|s] now key Hok Hk.
    + destruct (ss_Delete_spec s now key Hok I) as (s'&E&H).
      exists (LocalS s'). cbn [ss_Delete AnyStorage_StateStorage]. by rewrite E.
    + destruct (ss_Delete_spec s now key Hok I) as (s'&E&H).
      exists (RedisS s'). cbn [ss_Delete AnyStorage_StateStorage]. by rewrite E.
    + destruct (ss_Delete_spec s now key Hok Hk) as (s'&E&H).
      exists (RaftS s'). cbn [ss_Delete AnyStorage_StateStorage]. by rewrite E.
  - intros [s|s|s] now items ttl Hok Httl Hk.
    + destruct (ss_SetMultiple_spec s now items ttl Hok (proj1 Httl) (λ _ _ _, I)) as (s'&E&H).
      exists (LocalS s'). cbn [ss_SetMultiple AnyStorage_StateStorage]. by rewrite E.
    + destruct (ss_SetMultiple_spec s now items ttl Hok Httl (λ _ _ _, I)) as (s'&E&H).
      exists (RedisS s'). cbn [ss_SetMultiple AnyStorage_StateStorage]. by rewrite E.
    + destruct (ss_SetMultiple_spec s now items ttl Hok (proj1 Httl) Hk) as (s'&E&H).
      exists (RaftS s'). cbn [ss_SetMultiple AnyStorage_StateStorage]. by rewrite E.
  - intros [s|s|s] now Hok; apply (ss_Ping_spec s now Hok).
Defined.

(** A new Raft storage whose node leads is usable. *)
Lemma NewRaftStorage_fresh c (o : RaftStorage.openings R) :
  match RaftStorage.NewRaftStorage c o with
  | Returned (Ok s, _) => RaftStorage.rl_leads (RaftStorage.rs_raft s) → RaftStorage.raft_ok s
  | Returned (Err _, _) => True
  | Panicked _ => False
  end.
Proof.
  pose proof (NewRaftStorage_shape c o) as H. destruct (RaftStorage.NewRaftStorage c o) as [[[s|] ?]|]; [|done..].
  destruct H as (r'&b&->). intros Hl. split; try done. apply noWatchers_wf.
Qed.

(** What the factory makes of a valid configuration. *)
Lemma factory_made connect (o : RaftStorage.openings R) c nodeID :
  StorageConfig_Validate c = None →
  let '(config, type) := createStateStorageConfig c in
  type = sg_Type c ∧
  match NewStateStorage connect o config type nodeID with
  | Returned (Ok s) =>
      match s with
      | LocalS _ => type = "local" ∧ ss_ok s ∧ ∀ t key, ss_view s t key = None
      | RedisS r => type = "redis" ∧ (RedisStorage.rd_up (RedisStorage.rd_client r) → ss_ok s)
      | RaftS r => type = "raft" ∧ (RaftStorage.rl_leads (RaftStorage.rs_raft r) → ss_ok s)
      end
  | Returned (Err _) =>
      type = "raft" ∨
      type = "redis" ∧ ∃ config' err,
        RedisStorage.rd_Ping (connect config') = Some err ∨ RedisStorage.rd_Subscribe (connect config') = Some err
  | Panicked _ => False
  end.
Proof.
  intros [[Ht Ha]|[(Ht&_)|Ht]]%StorageConfig_cross; unfold createStateStorageConfig; rewrite Ht; simpl.
  - split; [done|]. unfold NewStateStorage. simpl. unfold RedisStorage.NewRedisStorage. simpl.
    rewrite (proj2 (String.eqb_neq _ _) Ha).
    destruct (RedisStorage.rd_Ping _) eqn:Ep; [right; eauto|].
    destruct (RedisStorage.rd_Subscribe _) eqn:Es; [right; eauto|]. split; [done|]. intros Hup. by split.
  - split; [done|]. unfold NewStateStorage. simpl.
    pose proof (NewRaftStorage_fresh (raftStorageConfig (sg_Raft c) nodeID) o) as H.
    destruct (RaftStorage.NewRaftStorage _ _) as [[[s|err] opened]|]; [split; [done|exact H]|by left|done].
  - split; [done|]. unfold NewStateStorage. simpl. split_and!; [done|apply LocalStorage.NewLocalStorage_ok|].
    intros t key. done.
Qed.

(** From a valid configuration the factory always gets the configuration of its type and
    makes the storage of that type, usable and empty when local, usable when the Redis
    server is up or the Raft node leads; it never panics, and fails only for Raft, or for
    Redis when the server does not answer. *)
Theorem factory_spec connect (o : RaftStorage.openings R) c nodeID :
  StorageConfig_Validate c = None →
  let '(config, type) := createStateStorageConfig c in
  type = sg_Type c ∧
  match NewStateStorage connect o config type nodeID with
  | Returned (Ok s) =>
      match s with
      | LocalS _ => type = "local" ∧ ss_ok s ∧ ∀ t key, ss_view s t key = None
      | RedisS r => type = "redis" ∧ (RedisStorage.rd_up (RedisStorage.rd_client r) → ss_ok s)
      | RaftS r => type = "raft" ∧ (RaftStorage.rl_leads (RaftStorage.rs_raft r) → ss_ok s)
      end
  | Returned (Err _) =>
      type = "raft" ∨
      type = "redis" ∧ ∃ config' err,
        RedisStorage.rd_Ping (connect config') = Some err ∨ RedisStorage.rd_Subscribe (connect config') = Some err
  | Panicked _ => False
  end.
Proof. apply factory_made. Qed.


End Factory.

Arguments AnyStorage : clear implicits.

(** A table in which only ASCII prints. *)
#[local] Instance asciiPrint : GoFormat.UnicodePrint := λ _, false.

(** A single node on Raft: the storage is made, and its node leads. *)
Lemma factory_spec_witness :
  let c := mkStorage "raft" (sg_Redis StorageConfig_GetDefaults) (sg_Raft StorageConfig_GetDefaults) in
  match NewStateStorage (λ _, RedisStorage.mkToyRedis ∅ []) RaftStorage.allOpened
          (createStateStorageConfig c).1 "raft" "n1" with
  | Returned (Ok s) =>
      ss_ok s ∧ ∃ s', ss_Set s 5 "k" "v" 0 = Returned (None, s') ∧ (ss_Get s' 9 "k").1 = Ok "v"
  | _ => False
  end.
Proof.
  intros c. pose proof (factory_spec (λ _, RedisStorage.mkToyRedis ∅ []) RaftStorage.allOpened c "n1" eq_refl) as [_ H].
  change (createStateStorageConfig c).2 with "raft" in H.
  destruct (NewStateStorage _ _ _ _ _) as [[s|]|] eqn:E; [|vm_compute in E; done..].
  vm_compute in E. injection E as <-. destruct H as [_ H]. split; [by apply H|].
  eexists. split; vm_compute; reflexivity.
Defined.




