(* ===== verification/NodeMeta.v ===== *)
(** * NodeMeta: a node's metadata and its text in the gossip

    services/memberlist/memberlist.go: NodeMetadata, CreateNodeMetadata,
    Marshal and UnmarshalNodeMetadata on the text of [Json], and
    DecodeEncryptionKey. A nil and an empty map of extra data are the same
    here: the map is only read after it was made. *)

From Stdlib Require Import Ascii.
From S2P Require Import Prelude GoText Json Errors.

Record NodeMetadata := mkNodeMetadata {
  nm_NodeID : string; nm_HTTPAddress : string; nm_RaftAddress : string; nm_Role : string;
  nm_Region : string; nm_Zone : string; nm_Version : string; nm_ExtraData : gmap string string
}.

Definition zeroMetadata : NodeMetadata := mkNodeMetadata "" "" "" "" "" "" "" ∅.

(** The fields with the names of their tags. *)
Inductive metaField := FNodeID | FHTTPAddress | FRaftAddress | FRole | FRegion | FZone | FVersion | FExtraData.

Definition fieldName (f : metaField) : string :=
  match f with
  | FNodeID => "node_id" | FHTTPAddress => "http_address" | FRaftAddress => "raft_address" | FRole => "role"
  | FRegion => "region" | FZone => "zone" | FVersion => "version" | FExtraData => "extra_data"
  end.

Definition allFields : list metaField :=
  [FNodeID; FHTTPAddress; FRaftAddress; FRole; FRegion; FZone; FVersion; FExtraData].

Definition setString (m : NodeMetadata) (f : metaField) (v : string) : NodeMetadata :=
  let 'mkNodeMetadata a b c d e g h x := m in
  match f with
  | FNodeID => mkNodeMetadata v b c d e g h x
  | FHTTPAddress => mkNodeMetadata a v c d e g h x
  | FRaftAddress => mkNodeMetadata a b v d e g h x
  | FRole => mkNodeMetadata a b c v e g h x
  | FRegion => mkNodeMetadata a b c d v g h x
  | FZone => mkNodeMetadata a b c d e v h x
  | FVersion => mkNodeMetadata a b c d e g v x
  | FExtraData => m
  end.

Definition setExtra (m : NodeMetadata) (x : gmap string string) : NodeMetadata :=
  let 'mkNodeMetadata a b c d e g h _ := m in mkNodeMetadata a b c d e g h x.

(* ------------------------------------------------------------------ *)
(** ** CreateNodeMetadata *)

Definition applyEntry (m : NodeMetadata) (kv : string * string) : NodeMetadata :=
  let '(key, value) := kv in
  if String.eqb key "region" then setString m FRegion value
  else if String.eqb key "zone" then setString m FZone value
  else if String.eqb key "version" then setString m FVersion value
  else if String.eqb key "role" then setString m FRole value
  else setExtra m (<[key := value]> (nm_ExtraData m)).

(** [order] is the order in which the map is ranged over. *)
Definition CreateNodeMetadata (nodeID httpAddr raftAddr : string) (order : list (string * string)) : NodeMetadata :=
  foldl applyEntry (mkNodeMetadata nodeID httpAddr raftAddr "peer" "" "" "" ∅) order.

(** The keys with a field of their own. *)
Definition namedKeys : list string := ["region"; "zone"; "version"; "role"].

(* ------------------------------------------------------------------ *)
(** ** Marshal *)

Definition encodeMap (m : gmap string string) : list ascii :=
  encodeObject (map (λ k, (k, encodeString (m !!! k))) (sortedKeys m)).

Definition stringMember (name value : string) : list (string * list ascii) := [(name, encodeString value)].

(** omitempty *)
Definition optionalMember (name value : string) : list (string * list ascii) :=
  if String.eqb value "" then [] else stringMember name value.

Definition metaMembers (m : NodeMetadata) : list (string * list ascii) :=
  stringMember "node_id" (nm_NodeID m) ++ stringMember "http_address" (nm_HTTPAddress m) ++
  stringMember "raft_address" (nm_RaftAddress m) ++ stringMember "role" (nm_Role m) ++
  optionalMember "region" (nm_Region m) ++ optionalMember "zone" (nm_Zone m) ++
  optionalMember "version" (nm_Version m) ++
  (if bool_decide (nm_ExtraData m = ∅) then [] else [("extra_data", encodeMap (nm_ExtraData m))]).

Definition Marshal (m : NodeMetadata) : list ascii := encodeObject (metaMembers m).

(* ------------------------------------------------------------------ *)
(** ** UnmarshalNodeMetadata *)

(** Why there is no metadata: no bytes, no document, a value of a wrong
    type. *)
Inductive metaError := EmptyMetadata | SyntaxError | TypeError.

(** Upper case, as the decoder folds names: the long s and the Kelvin sign
    are folded to their letters. *)
Fixpoint foldName (l : list ascii) : list ascii :=
  match l with
  | [] => []
  | a :: l1 =>
      match l1 with
      | b :: l2 =>
          if (N_of_ascii a =? 197)%N && (N_of_ascii b =? 191)%N then "S"%char :: foldName l2
          else
            match l2 with
            | c :: l3 =>
                if (N_of_ascii a =? 226)%N && (N_of_ascii b =? 132)%N && (N_of_ascii c =? 170)%N
                then "K"%char :: foldName l3
                else (if byteIn 97 122 a then ascii_of_N (N_of_ascii a - 32) else a) :: foldName l1
            | [] => (if byteIn 97 122 a then ascii_of_N (N_of_ascii a - 32) else a) :: foldName l1
            end
      | [] => (if byteIn 97 122 a then ascii_of_N (N_of_ascii a - 32) else a) :: foldName l1
      end
  end.

Definition fold (s : string) : list ascii := foldName (String.list_ascii_of_string s).

(** The field of a member: the exact name first, then the folded one. *)
Definition fieldOf (key : string) : option metaField :=
  match find (λ f, String.eqb (fieldName f) key) allFields with
  | Some f => Some f
  | None => find (λ f, bool_decide (fold (fieldName f) = fold key)) allFields
  end.

(** Each step gives the value so far, and whether a type error was seen. *)
Definition decodeExtra (acc : gmap string string * bool) (kv : string * json) : gmap string string * bool :=
  let '(x, bad) := acc in
  match kv.2 with
  | JString v => (<[kv.1 := v]> x, bad)
  | JNull => (<[kv.1 := ""]> x, bad)
  | _ => (<[kv.1 := ""]> x, true)
  end.

Definition decodeMember (acc : NodeMetadata * bool) (kv : string * json) : NodeMetadata * bool :=
  let '(m, bad) := acc in
  match fieldOf kv.1 with
  | None => acc
  | Some FExtraData =>
      match kv.2 with
      | JNull => (setExtra m ∅, bad)
      | JObject ms => let '(x, bad') := foldl decodeExtra (nm_ExtraData m, bad) ms in (setExtra m x, bad')
      | _ => (m, true)
      end
  | Some f =>
      match kv.2 with
      | JString v => (setString m f v, bad)
      | JNull => (m, bad)
      | _ => (m, true)
      end
  end.

Definition UnmarshalNodeMetadata (data : list ascii) : NodeMetadata + metaError :=
  match data with
  | [] => inr EmptyMetadata
  | _ =>
      match parseJSON data with
      | None => inr SyntaxError
      | Some JNull => inl zeroMetadata
      | Some (JObject ms) =>
          let '(m, bad) := foldl decodeMember (zeroMetadata, false) ms in
          if bad : bool then inr TypeError else inl m
      | Some _ => inr TypeError
      end
  end.

Example unmarshal_examples :
  let field k v := encodeString k ++ ":"%char :: encodeString v in
  UnmarshalNodeMetadata ("{"%char :: field "NODE_ID" "n1" ++ ["}"%char])
    = inl (mkNodeMetadata "n1" "" "" "" "" "" "" ∅) ∧
  UnmarshalNodeMetadata (word "{1}") = inr SyntaxError ∧ UnmarshalNodeMetadata (word "[]") = inr TypeError ∧
  UnmarshalNodeMetadata (Marshal (mkNodeMetadata "n<1>" "h" "r" "peer" "" "z" "" {["k" := "v"]}))
    = inl (mkNodeMetadata "n<1>" "h" "r" "peer" "" "z" "" {["k" := "v"]}).
Proof. vm_compute. by split_and!. Qed.

(* ------------------------------------------------------------------ *)
(** ** DecodeEncryptionKey *)

Definition AESKeySize : nat := 32.

(** copy fills at most 32 bytes of the fresh slice. *)
Definition DecodeEncryptionKey (key : string) : result (option (list ascii)) :=
  let bytes := String.list_ascii_of_string key in
  if bool_decide (length bytes = 0%nat) then Ok None
  else
    let decoded := take AESKeySize bytes ++ replicate (AESKeySize - length bytes) zero in
    if bool_decide (length bytes < AESKeySize)%nat then Err (EText "encryption key must be at least 32 bytes")
    else Ok (Some (take AESKeySize decoded)).

(* ------------------------------------------------------------------ *)
(** ** What comes through the gossip *)

(** Strings are coerced to UTF-8; keys of the extra data that coincide then
    are one key. *)
Definition extraThroughText (x : gmap string string) : gmap string string :=
  foldl (λ acc k, <[coerceUTF8 k := coerceUTF8 (x !!! k)]> acc) ∅ (sortedKeys x).

Definition throughText (m : NodeMetadata) : NodeMetadata :=
  let 'mkNodeMetadata a b c d e g h x := m in
  mkNodeMetadata (coerceUTF8 a) (coerceUTF8 b) (coerceUTF8 c) (coerceUTF8 d) (coerceUTF8 e) (coerceUTF8 g)
    (coerceUTF8 h) (extraThroughText x).

Definition metaValid (m : NodeMetadata) : Prop :=
  let 'mkNodeMetadata a b c d e g h x := m in
  Forall validUTF8 [a; b; c; d; e; g; h] ∧ map_Forall (λ k v, validUTF8 k ∧ validUTF8 v) x.

Lemma throughText_valid m : metaValid m → throughText m = m.
Proof.
  destruct m as [a b c d e g h x]. simpl. intros [Hs Hx].
  repeat match goal with H : Forall _ (_ :: _) |- _ => inversion H; clear H; subst end.
  unfold validUTF8 in *. f_equal; try done. apply foldl_sortedKeys. intros k v Hk.
  destruct (Hx k v Hk). by rewrite lookup_total_alt, Hk.
Qed.

(** The members with what each is read as. *)
Definition stringTriple (name value : string) : list (string * list ascii * json) :=
  [(name, encodeString value, JString (coerceUTF8 value))].

Definition optionalTriple (name value : string) : list (string * list ascii * json) :=
  if String.eqb value "" then [] else stringTriple name value.

Definition extraJSON (x : gmap string string) : json :=
  JObject (map (λ k, (coerceUTF8 k, JString (coerceUTF8 (x !!! k)))) (sortedKeys x)).

Definition metaTriples (m : NodeMetadata) : list (string * list ascii * json) :=
  stringTriple "node_id" (nm_NodeID m) ++ stringTriple "http_address" (nm_HTTPAddress m) ++
  stringTriple "raft_address" (nm_RaftAddress m) ++ stringTriple "role" (nm_Role m) ++
  optionalTriple "region" (nm_Region m) ++ optionalTriple "zone" (nm_Zone m) ++
  optionalTriple "version" (nm_Version m) ++
  (if bool_decide (nm_ExtraData m = ∅) then []
   else [("extra_data", encodeMap (nm_ExtraData m), extraJSON (nm_ExtraData m))]).

Lemma metaTriples_members m : map fst (metaTriples m) = metaMembers m.
Proof.
  unfold metaTriples, metaMembers, optionalTriple, optionalMember. rewrite !map_app. repeat case_match; done.
Qed.

Lemma reads_encodeMap x : reads 1 (encodeMap x) (extraJSON x).
Proof.
  unfold encodeMap, extraJSON.
  pose proof (reads_object 1 (map (λ k, (k, encodeString (x !!! k), JString (coerceUTF8 (x !!! k)))) (sortedKeys x))) as H.
  rewrite !map_map in H. simpl in H. apply H; [done|]. apply Forall_map, Forall_true. intros k. apply reads_string.
Qed.

Lemma metaTriples_read m : Forall (λ t, reads 1 t.1.2 t.2) (metaTriples m).
Proof.
  unfold metaTriples, optionalTriple, stringTriple.
  repeat (apply Forall_app; split); repeat case_match; repeat constructor; simpl;
    first [apply reads_string | apply reads_encodeMap].
Qed.

Lemma Marshal_document m :
  parseJSON (Marshal m) = Some (JObject (map (λ t, (coerceUTF8 t.1.1, t.2)) (metaTriples m))).
Proof.
  unfold Marshal. rewrite <- metaTriples_members. apply reads_document, reads_object; [done|apply metaTriples_read].
Qed.

Lemma decodeExtra_strings l (x : gmap string string) acc bad :
  foldl decodeExtra (acc, bad) (map (λ k, (coerceUTF8 k, JString (coerceUTF8 (x !!! k)))) l)
  = (foldl (λ acc k, <[coerceUTF8 k := coerceUTF8 (x !!! k)]> acc) acc l, bad).
Proof. revert acc. induction l as [|k l IH]; intros acc; [done|]. apply IH. Qed.

Lemma decode_string f name s m bad :
  fieldOf name = Some f → f ≠ FExtraData → decodeMember (m, bad) (name, JString s) = (setString m f s, bad).
Proof. intros H Hf. unfold decodeMember. simpl. rewrite H. by destruct f. Qed.

Lemma decode_optional f name s m :
  coerceUTF8 name = name → fieldOf name = Some f → f ≠ FExtraData → setString m f "" = m →
  foldl decodeMember (m, false) (map (λ t, (coerceUTF8 t.1.1, t.2)) (optionalTriple name s))
  = (setString m f (coerceUTF8 s), false).
Proof.
  intros Hn Hf Hne Hm. unfold optionalTriple. destruct (String.eqb_spec s "") as [->|_].
  - change (coerceUTF8 "") with "". by rewrite Hm.
  - cbn [stringTriple map foldl fst snd]. rewrite Hn. by apply decode_string.
Qed.

Lemma Marshal_head m : ∃ l, Marshal m = "{"%char :: l ++ ["}"%char].
Proof.
  unfold Marshal, encodeObject.
  assert (∀ ms, ∃ l, moreMembers ms = l ++ ["}"%char]) as H.
  { induction ms as [|[k txt] ms [l IH]]; cbn [moreMembers]; [by exists []|]. exists (","%char :: member k txt ++ l). by rewrite IH, <- app_comm_cons, <- app_assoc. }
  destruct (metaMembers m) as [|[k txt] ms]; [by exists []|]. destruct (H ms) as [l ->].
  exists (member k txt ++ l). by rewrite app_assoc.
Qed.

Lemma Unmarshal_Marshal m : UnmarshalNodeMetadata (Marshal m) = inl (throughText m).
Proof.
  unfold UnmarshalNodeMetadata. rewrite Marshal_document.
  destruct (Marshal_head m) as [l ->]. unfold metaTriples. rewrite !map_app, !foldl_app.
  destruct m as [a b c d e g h x]. cbn [nm_NodeID nm_HTTPAddress nm_RaftAddress nm_Role nm_Region nm_Zone nm_Version nm_ExtraData].
  set (m4 := mkNodeMetadata (coerceUTF8 a) (coerceUTF8 b) (coerceUTF8 c) (coerceUTF8 d) "" "" "" ∅).
  match goal with |- context [foldl decodeMember ?acc (map _ (optionalTriple "region" e))] => change acc with (m4, false) end.
  rewrite (decode_optional FRegion), (decode_optional FZone), (decode_optional FVersion) by done.
  case_bool_decide as Hx; [by rewrite Hx|]. unfold extraJSON. simpl. by rewrite decodeExtra_strings.
Qed.

(* ------------------------------------------------------------------ *)
(** ** CreateNodeMetadata and DecodeEncryptionKey *)

(** Of metadata cut short nothing is read. *)
Lemma cut_metadata_unreadable m n :
  (n < length (Marshal m))%nat → ∃ e, UnmarshalNodeMetadata (take n (Marshal m)) = inr e.
Proof.
  intros Hn. pose proof (Marshal_document m) as Hd. destruct (Marshal_head m) as [l E]. rewrite E in *.
  pose proof (cut_object_is_no_document l n ltac:(rewrite Hd; by eexists) Hn) as Hcut.
  unfold UnmarshalNodeMetadata. rewrite Hcut. destruct (take n _); eauto.
Qed.

(** What a configured entry sets: the named ones their field, the others the
    extra data. *)
Lemma applyEntry_spec m k v :
  let m' := applyEntry m (k, v) in
  nm_NodeID m' = nm_NodeID m ∧ nm_HTTPAddress m' = nm_HTTPAddress m ∧ nm_RaftAddress m' = nm_RaftAddress m ∧
  nm_Region m' = (if decide (k = "region") then v else nm_Region m) ∧
  nm_Zone m' = (if decide (k = "zone") then v else nm_Zone m) ∧
  nm_Version m' = (if decide (k = "version") then v else nm_Version m) ∧
  nm_Role m' = (if decide (k = "role") then v else nm_Role m) ∧
  nm_ExtraData m' = (if decide (k ∈ namedKeys) then nm_ExtraData m else <[k := v]> (nm_ExtraData m)).
Proof.
  destruct m as [a b c d e g h x]. unfold applyEntry, namedKeys.
  repeat match goal with |- context [String.eqb k ?s] => destruct (String.eqb_spec k s) as [->|] end;
    simpl; split_and!; try done; repeat case_decide; try done; set_solver.
Qed.

(** The metadata a configuration gives, whatever the order of its map. *)
Lemma CreateNodeMetadata_spec nodeID httpAddr raftAddr (metadata : gmap string string) order :
  order ≡ₚ map_to_list metadata →
  let m := CreateNodeMetadata nodeID httpAddr raftAddr order in
  nm_NodeID m = nodeID ∧ nm_HTTPAddress m = httpAddr ∧ nm_RaftAddress m = raftAddr ∧
  nm_Region m = default "" (metadata !! "region") ∧ nm_Zone m = default "" (metadata !! "zone") ∧
  nm_Version m = default "" (metadata !! "version") ∧ nm_Role m = default "peer" (metadata !! "role") ∧
  ∀ k, nm_ExtraData m !! k = if decide (k ∈ namedKeys) then None else metadata !! k.
Proof.
  intros Ho. simpl.
  assert (NoDup (order.*1)) as Hnd by (rewrite Ho; apply NoDup_fst_map_to_list).
  assert (metadata = list_to_map order) as ->.
  { rewrite <- (list_to_map_to_list metadata). apply list_to_map_proper; [by rewrite <- Ho|done]. }
  clear Ho. unfold CreateNodeMetadata. revert Hnd. induction order as [|[k v] order IH] using rev_ind; intros Hnd.
  { simpl. rewrite !lookup_empty. split_and!; try done. intros k. rewrite !lookup_empty. by case_decide. }
  rewrite fmap_app in Hnd. apply NoDup_app in Hnd as (Hnd & Hk & _). simpl in Hk.
  assert (k ∉ order.*1) as Hnk by set_solver. apply not_elem_of_list_to_map_1 in Hnk as Hno.
  specialize (IH Hnd). rewrite foldl_app. cbn [foldl]. set (m := foldl applyEntry _ order) in *.
  assert (∀ j, (list_to_map (order ++ [(k, v)]) : gmap string string) !! j
    = if decide (j = k) then Some v else (list_to_map order : gmap string string) !! j) as Hj.
  { intros j. rewrite list_to_map_app. simpl. rewrite lookup_union, insert_empty, lookup_singleton.
    repeat case_decide; simplify_eq; [by rewrite Hno|by rewrite option_union_None_r || by destruct (_ !! j)]. }
  destruct (applyEntry_spec m k v) as (->&->&->&->&->&->&->&He). rewrite !Hj.
  destruct IH as (->&->&->&->&->&->&->&IHe). split_and!; try done; try by repeat case_decide; simplify_eq.
  intros j. rewrite He, Hj. destruct (decide (k ∈ namedKeys)) as [Hin|Hin].
  - rewrite IHe. repeat case_decide; simplify_eq; done.
  - destruct (decide (j = k)) as [->|Hne]; [rewrite decide_False by done; by rewrite lookup_insert_eq|].
    by rewrite lookup_insert_ne by done.
Qed.

(** A key is accepted from 32 bytes on and cut there; no decoding takes
    place. *)
Lemma DecodeEncryptionKey_spec key :
  DecodeEncryptionKey key =
    let bytes := String.list_ascii_of_string key in
    if decide (bytes = []) then Ok None
    else if decide (AESKeySize ≤ length bytes)%nat then Ok (Some (take AESKeySize bytes))
    else Err (EText "encryption key must be at least 32 bytes").
Proof.
  unfold DecodeEncryptionKey. simpl. set (b := String.list_ascii_of_string key).
  destruct (decide (b = [])) as [->|Hne]; [done|]. rewrite bool_decide_false by (by destruct b).
  case_bool_decide; case_decide; try done; try lia. do 2 f_equal.
  rewrite take_app_le by (rewrite length_take; lia). by rewrite take_take, Nat.min_id.
Qed.
