(* ===== verification/Delegate.v ===== *)
(** * Delegate: services/memberlist/delegate.go

    The delegate turns what the gossip reports (nodes that join and leave)
    into changes of the Raft cluster, and keeps the changes it may not make
    because this node does not lead. The Raft manager is the interface
    domain.RaftManager, here the class [RaftManager]; its state is passed
    along. [NotifyUpdate], [NotifyMsg] and [MergeRemoteState] only log. *)

From Stdlib Require Import Ascii.
From S2P Require Import Prelude Json Errors NodeMeta.
From S2P Require RaftStorage.

Local Open Scope vpa_scope.

(* ------------------------------------------------------------------ *)
(** ** domain.RaftManager *)

Class RaftManager (R : Type) := {
  rm_AddVoter : R → string → string → option goError * R;
  rm_RemoveServer : R → string → option goError * R;
  rm_GetLeader : R → string * string;
  rm_GetPeers : R → result (list string);
  rm_IsLeader : R → bool;
  rm_TryDelayedBootstrap : R → list string → option goError * R;
  rm_ForceRecoverCluster : R → string → string → option goError * R
}.

(** The Raft storage is one. *)
#[global] Instance RaftStorage_RaftManager {R} `{RaftStorage.RaftLib R} : RaftManager (RaftStorage.RaftStorage R) := {
  rm_AddVoter := RaftStorage.AddVoter;
  rm_RemoveServer := RaftStorage.RemoveServer;
  rm_GetLeader := RaftStorage.GetLeader;
  rm_GetPeers := RaftStorage.GetPeers;
  rm_IsLeader := RaftStorage.IsLeader;
  rm_TryDelayedBootstrap := RaftStorage.TryDelayedBootstrap;
  rm_ForceRecoverCluster := RaftStorage.ForceRecoverCluster
}.

(** A manager together with the membership changes asked of it so far. *)
Inductive memberCall := CallAdd (nodeID address : string) | CallRemove (nodeID : string)
| CallRecover (nodeID address : string).

Record Recorded (R : Type) := mkRecorded { rec_mgr : R; rec_calls : list memberCall }.
Arguments mkRecorded {R} _ _.
Arguments rec_mgr {R} _.
Arguments rec_calls {R} _.

Definition recording {R} (call : memberCall) (m : Recorded R) (a : option goError * R) : option goError * Recorded R :=
  (a.1, mkRecorded a.2 (rec_calls m ++ [call])).

#[global] Instance Recorded_RaftManager {R} `{RaftManager R} : RaftManager (Recorded R) := {
  rm_AddVoter m id addr := recording (CallAdd id addr) m (rm_AddVoter (rec_mgr m) id addr);
  rm_RemoveServer m id := recording (CallRemove id) m (rm_RemoveServer (rec_mgr m) id);
  rm_GetLeader m := rm_GetLeader (rec_mgr m);
  rm_GetPeers m := rm_GetPeers (rec_mgr m);
  rm_IsLeader m := rm_IsLeader (rec_mgr m);
  rm_TryDelayedBootstrap m peers :=
    let '(err, r) := rm_TryDelayedBootstrap (rec_mgr m) peers in (err, mkRecorded r (rec_calls m));
  rm_ForceRecoverCluster m id addr := recording (CallRecover id addr) m (rm_ForceRecoverCluster (rec_mgr m) id addr)
}.

(* ------------------------------------------------------------------ *)
(** ** The delegate *)

(** memberlist.Node, with the text of its address. *)
Record Node := mkNode { n_Name : string; n_Addr : string; n_Port : Z; n_Meta : list ascii }.

Record PendingPeer := mkPending { pp_NodeID : string; pp_RaftAddress : string }.

(** [d_hasRaft]: SetRaftManager was called with a manager. *)
Record RaftDelegate := mkDelegate {
  d_hasRaft : bool;
  d_nodeMetadata : option NodeMetadata;
  d_broadcasts : list (list ascii);
  d_pendingPeers : list PendingPeer;
  d_pendingRemovals : gset string;
  d_localNodeName : string;
  d_shutdown : bool
}.

Definition NewRaftDelegate : RaftDelegate := mkDelegate false None [] [] ∅ "" false.

Definition SetRaftManager (d : RaftDelegate) : RaftDelegate :=
  mkDelegate true (d_nodeMetadata d) (d_broadcasts d) (d_pendingPeers d) (d_pendingRemovals d) (d_localNodeName d) (d_shutdown d).
Definition SetNodeMetadata (d : RaftDelegate) (m : NodeMetadata) : RaftDelegate :=
  mkDelegate (d_hasRaft d) (Some m) (d_broadcasts d) (d_pendingPeers d) (d_pendingRemovals d) (d_localNodeName d) (d_shutdown d).
Definition SetLocalNodeName (d : RaftDelegate) (name : string) : RaftDelegate :=
  mkDelegate (d_hasRaft d) (d_nodeMetadata d) (d_broadcasts d) (d_pendingPeers d) (d_pendingRemovals d) name (d_shutdown d).
Definition setShutdown (d : RaftDelegate) : RaftDelegate :=
  mkDelegate (d_hasRaft d) (d_nodeMetadata d) (d_broadcasts d) (d_pendingPeers d) (d_pendingRemovals d) (d_localNodeName d) true.
Definition withBroadcasts (d : RaftDelegate) (b : list (list ascii)) : RaftDelegate :=
  mkDelegate (d_hasRaft d) (d_nodeMetadata d) b (d_pendingPeers d) (d_pendingRemovals d) (d_localNodeName d) (d_shutdown d).
Definition withPending (d : RaftDelegate) (p : list PendingPeer) (r : gset string) : RaftDelegate :=
  mkDelegate (d_hasRaft d) (d_nodeMetadata d) (d_broadcasts d) p r (d_localNodeName d) (d_shutdown d).

(* ------------------------------------------------------------------ *)
(** ** Metadata and broadcasts *)

(** nil is the empty list of bytes; a negative limit panics. *)
Definition NodeMeta (d : RaftDelegate) (limit : Z) : outcome (list ascii) :=
  match d_nodeMetadata d with
  | None => Returned []
  | Some m =>
      let data := Marshal m in
      if (limit <? Z.of_nat (length data))%Z then
        if (limit <? 0)%Z then Panicked "slice bounds out of range" else Returned (take (Z.to_nat limit) data)
      else Returned data
  end.

Definition LocalState (d : RaftDelegate) : list ascii :=
  match d_nodeMetadata d with None => [] | Some m => Marshal m end.

(** The loop: what fits, and what is left when it breaks. *)
Fixpoint fittingLoop (available used : Z) (bs : list (list ascii)) : list (list ascii) * option (list (list ascii)) :=
  match bs with
  | [] => ([], None)
  | b :: bs' =>
      let size := Z.of_nat (length b) in
      if (available <? used + size)%Z then ([], Some bs)
      else let '(result, remaining) := fittingLoop available (used + size) bs' in (b :: result, remaining)
  end.

Definition GetBroadcasts (d : RaftDelegate) (overhead limit : Z) : list (list ascii) * RaftDelegate :=
  match d_broadcasts d with
  | [] => ([], d)
  | _ =>
      let '(result, remaining) := fittingLoop (limit - overhead) 0 (d_broadcasts d) in
      let d := match remaining with Some bs => withBroadcasts d bs | None => d end in
      (result, if (length result =? length (d_broadcasts d))%nat then withBroadcasts d [] else d)
  end.

Definition QueueBroadcast (d : RaftDelegate) (msg : list ascii) : RaftDelegate :=
  withBroadcasts d (d_broadcasts d ++ [msg]).

(* ------------------------------------------------------------------ *)
(** ** Nodes that join *)

Definition PeerRole : string := "peer".

Section Membership.
Context {R : Type} `{HR : RaftManager R}.

Definition addRaftPeer (d : RaftDelegate) (r : R) (nodeID raftAddress : string) : RaftDelegate * R :=
  if negb (d_hasRaft d) then (d, r)
  else if rm_IsLeader r then (d, (rm_AddVoter r nodeID raftAddress).2)
  else if existsb (λ p, String.eqb (pp_NodeID p) nodeID) (d_pendingPeers d) then (d, r)
  else (withPending d (d_pendingPeers d ++ [mkPending nodeID raftAddress]) (d_pendingRemovals d), r).

(** The peer a node stands for: it is not this node, its metadata is
    readable, its role is peer and it has a Raft address. *)
Definition peerOf (d : RaftDelegate) (node : Node) : option PendingPeer :=
  if str_nonempty (d_localNodeName d) && String.eqb (d_localNodeName d) (n_Name node) then None
  else
    match n_Meta node with
    | [] => None
    | _ =>
        match UnmarshalNodeMetadata (n_Meta node) with
        | inr _ => None
        | inl m =>
            if String.eqb (nm_Role m) PeerRole && str_nonempty (nm_RaftAddress m)
            then Some (mkPending (nm_NodeID m) (nm_RaftAddress m)) else None
        end
    end.

Definition NotifyJoin (d : RaftDelegate) (r : R) (node : Node) : RaftDelegate * R :=
  match peerOf d node with
  | Some p => addRaftPeer d r (pp_NodeID p) (pp_RaftAddress p)
  | None => (d, r)
  end.

(* ------------------------------------------------------------------ *)
(** ** Nodes that leave *)

(** [members] is None when the service has no list. *)
Definition getSurvivingNodeAddress (d : RaftDelegate) (members : option (list Node)) (nodeID : string) : string :=
  match members with
  | None => ""
  | Some ms =>
      if d_shutdown d then ""
      else
        default "" (head (omap (λ member,
          match n_Meta member with
          | [] => None
          | _ => match UnmarshalNodeMetadata (n_Meta member) with
                 | inr _ => None
                 | inl m => if String.eqb (nm_NodeID m) nodeID && str_nonempty (nm_RaftAddress m)
                            then Some (nm_RaftAddress m) else None
                 end
          end) ms))
  end.

Fixpoint findSurvivingNode (d : RaftDelegate) (members : option (list Node)) (peers : list string) (failedNodeID : string)
  : string * string :=
  match peers with
  | [] => ("", "")
  | peerID :: peers' =>
      if String.eqb peerID failedNodeID then findSurvivingNode d members peers' failedNodeID
      else
        let address := getSurvivingNodeAddress d members peerID in
        if str_nonempty address then (peerID, address) else findSurvivingNode d members peers' failedNodeID
  end.

Definition handleEmergencyRecovery (d : RaftDelegate) (r : R) (members : option (list Node)) (nodeID : string) : bool * R :=
  match rm_GetPeers r with
  | Err _ => (false, r)
  | Ok peers =>
      if negb (length peers =? 2)%nat then (false, r)
      else
        let '(survivingNodeID, survivingAddress) := findSurvivingNode d members peers nodeID in
        if String.eqb survivingNodeID "" || String.eqb survivingAddress "" then (false, r)
        else
          match rm_ForceRecoverCluster r survivingNodeID survivingAddress with
          | (Some _, r') => (false, r')
          | (None, r') => (true, r')
          end
  end.

Definition handleNonLeaderRemoval (d : RaftDelegate) (r : R) (nodeID : string) : bool * RaftDelegate :=
  if rm_IsLeader r then (false, d)
  else (true, withPending d (d_pendingPeers d) ({[nodeID]} ∪ d_pendingRemovals d)).

Definition performPeerRemoval (r : R) (nodeID : string) : R := (rm_RemoveServer r nodeID).2.

Definition removeRaftPeer (d : RaftDelegate) (r : R) (members : option (list Node)) (nodeID : string) : RaftDelegate * R :=
  if negb (d_hasRaft d) then (d, r)
  else
    let '(recovered, r) := handleEmergencyRecovery d r members nodeID in
    if recovered then (d, r)
    else
      let '(cached, d) := handleNonLeaderRemoval d r nodeID in
      if cached then (d, r) else (d, performPeerRemoval r nodeID).

(** The node ID of a peer that leaves, unless the service is stopping. *)
Definition leaverOf (d : RaftDelegate) (node : Node) : option string :=
  if d_shutdown d then None
  else
    match n_Meta node with
    | [] => None
    | _ => match UnmarshalNodeMetadata (n_Meta node) with
           | inr _ => None
           | inl m => if String.eqb (nm_Role m) PeerRole then Some (nm_NodeID m) else None
           end
    end.

Definition NotifyLeave (d : RaftDelegate) (r : R) (members : option (list Node)) (node : Node) : RaftDelegate * R :=
  match leaverOf d node with
  | Some nodeID => removeRaftPeer d r members nodeID
  | None => (d, r)
  end.

(* ------------------------------------------------------------------ *)
(** ** Becoming leader *)

Definition addPending (r : R) (peers : list PendingPeer) : R :=
  foldl (λ r p, (rm_AddVoter r (pp_NodeID p) (pp_RaftAddress p)).2) r peers.

Definition removePending (r : R) (ids : list string) : R := foldl (λ r id, (rm_RemoveServer r id).2) r ids.

(** [order]: the order in which the set of removals is ranged over. *)
Definition ProcessPendingPeers (d : RaftDelegate) (r : R) (order : list string) : RaftDelegate * R :=
  if negb (d_hasRaft d) || negb (rm_IsLeader r) then (d, r)
  else (withPending d [] ∅, removePending (addPending r (d_pendingPeers d)) order).
End Membership.

(* ------------------------------------------------------------------ *)
(** ** What goes out *)

(** Metadata longer than the limit goes out cut, and is then no metadata to
    the nodes that receive it: for them this node never joins the cluster. *)
Lemma oversized_metadata_is_lost {R} `{RaftManager R} d limit m (d' : RaftDelegate) (r : R) name addr port :
  d_nodeMetadata d = Some m → (0 ≤ limit < Z.of_nat (length (Marshal m)))%Z →
  ∃ meta, NodeMeta d limit = Returned meta ∧ (length meta ≤ Z.to_nat limit)%nat ∧
    NotifyJoin d' r (mkNode name addr port meta) = (d', r).
Proof.
  intros Hm Hl. unfold NodeMeta. rewrite Hm.
  rewrite (proj2 (Z.ltb_lt _ _)), (proj2 (Z.ltb_ge _ _)) by lia. eexists. split_and!; [done| |].
  - rewrite length_take. lia.
  - destruct (cut_metadata_unreadable m (Z.to_nat limit)) as [e He]; [lia|].
    unfold NotifyJoin, peerOf. simpl. rewrite He. repeat case_match; simplify_eq; done.
Qed.

(** C28: Metadata that fits the limit of the gossip library goes out of NodeMeta as a text
    that every node reads back as the same metadata, with strings coerced to UTF-8 (so
    metadata of valid UTF-8 strings unchanged); metadata over the limit goes out cut,
    never longer than the limit, and no node can read it. *)
Theorem metadata_roundtrip d limit m :
  d_nodeMetadata d = Some m → (0 ≤ limit)%Z →
  ∃ meta, NodeMeta d limit = Returned meta ∧ (Z.of_nat (length meta) ≤ limit)%Z ∧
    if decide (Z.of_nat (length (Marshal m)) ≤ limit)%Z
    then UnmarshalNodeMetadata meta = inl (throughText m) ∧ (metaValid m → throughText m = m)
    else ∃ err, UnmarshalNodeMetadata meta = inr err.
Proof.
  intros Hm Hl. unfold NodeMeta. rewrite Hm. destruct (Z.ltb_spec limit (Z.of_nat (length (Marshal m)))) as [Hlt|Hge].
  - rewrite (proj2 (Z.ltb_ge _ _)) by done. eexists. split; [done|]. split; [rewrite length_take; lia|].
    rewrite decide_False by lia. apply cut_metadata_unreadable. lia.
  - eexists. split; [done|]. split; [done|]. rewrite decide_True by done. split; [apply Unmarshal_Marshal|apply throughText_valid].
Qed.

Definition bytesOf (bs : list (list ascii)) : Z := sumZ (map (λ b, Z.of_nat (length b)) bs).

Lemma fittingLoop_spec available bs : ∀ used,
  let '(result, remaining) := fittingLoop available used bs in
  bs = result ++ default [] remaining ∧
  (result = [] ∨ (used + bytesOf result ≤ available)%Z) ∧
  match remaining with
  | Some rest => ∃ b rest', rest = b :: rest' ∧ (available < used + bytesOf result + Z.of_nat (length b))%Z
  | None => True
  end.
Proof.
  induction bs as [|b bs IH]; intros used; simpl; [by auto|].
  destruct (Z.ltb_spec available (used + Z.of_nat (length b))) as [Hlt|Hge].
  - split_and!; [done|by left|]. exists b, bs. split; [done|]. unfold bytesOf. simpl. lia.
  - specialize (IH (used + Z.of_nat (length b))%Z). destruct (fittingLoop _ _ bs) as [result remaining].
    destruct IH as (E & Hfit & Hrem). unfold bytesOf in *. simpl. split_and!.
    + by f_equal.
    + right. destruct Hfit as [->|?]; simpl; lia.
    + destruct remaining as [rest|]; [|done]. destruct Hrem as (b' & rest' & -> & ?). exists b', rest'. split; [done|lia].
Qed.

(** A batch is the longest prefix of the queue that fits; the rest stays, but
    for the case that exactly half of the queue was sent: then it is dropped. *)
Lemma GetBroadcasts_spec d overhead limit :
  let '(result, d') := GetBroadcasts d overhead limit in
  ∃ rest, d_broadcasts d = result ++ rest ∧
    (result = [] ∨ (bytesOf result ≤ limit - overhead)%Z) ∧
    (∀ b rest', rest = b :: rest' → (limit - overhead < bytesOf result + Z.of_nat (length b))%Z) ∧
    d_broadcasts d' = (if decide (length result = length rest) then [] else rest).
Proof.
  unfold GetBroadcasts. destruct (d_broadcasts d) as [|b0 bs0] eqn:Hb.
  { exists []. split_and!; [done|by left|done|]. rewrite Hb. by case_decide. }
  pose proof (fittingLoop_spec (limit - overhead) (b0 :: bs0) 0) as H.
  destruct (fittingLoop _ _ _) as [result [rest|]]; destruct H as (E & Hfit & Hrem); simpl in E.
  - exists rest. split_and!; [done|done| |].
    + destruct Hrem as (b & rest' & -> & ?). intros b' r' [= <- <-]. lia.
    + simpl. destruct (Nat.eqb_spec (length result) (length rest)); by case_decide.
  - exists []. rewrite app_nil_r in *. split_and!; [done|done|done|]. rewrite Hb, E, Nat.eqb_refl. simpl.
    case_decide; [done|]. done.
Qed.

(** Two messages of which one fits: the other one is never sent. *)
Lemma half_of_the_broadcasts_are_lost :
  let d := QueueBroadcast (QueueBroadcast NewRaftDelegate (word "first")) (word "second") in
  let '(result, d') := GetBroadcasts d 0 5 in result = [word "first"] ∧ d_broadcasts d' = [].
Proof. vm_compute. by split. Qed.

(* ------------------------------------------------------------------ *)
(** ** Histories

    The gossip's callbacks, the goroutine that processes the pending changes
    and the Raft cluster itself take turns. A removal is cached in two steps:
    the node is found not to lead, later the lock is taken; in between
    anything may happen. *)

Section Histories.
Context {R : Type} `{HR : RaftManager R}.

(** [dw_leaving]: the peers whose removal is about to be cached. *)
Record dworld := mkDWorld { dw_d : RaftDelegate; dw_r : Recorded R; dw_leaving : list string }.

Inductive devent := Joined (node : Node) | Left_ (node : Node) | Silent.

Inductive dstep : dworld → devent → dworld → Prop :=
| ds_join w node :
    dstep w (Joined node)
      (mkDWorld (NotifyJoin (dw_d w) (dw_r w) node).1 (NotifyJoin (dw_d w) (dw_r w) node).2 (dw_leaving w))
| ds_leave w members node :
    let a := NotifyLeave (dw_d w) (dw_r w) members node in
    dstep w (Left_ node) (mkDWorld a.1 a.2 (dw_leaving w))
| ds_leave_check w members node id r :
    leaverOf (dw_d w) node = Some id → d_hasRaft (dw_d w) = true →
    handleEmergencyRecovery (dw_d w) (dw_r w) members id = (false, r) → rm_IsLeader r = false →
    dstep w (Left_ node) (mkDWorld (dw_d w) r (id :: dw_leaving w))
| ds_leave_cache w l1 id l2 :
    dw_leaving w = l1 ++ id :: l2 →
    dstep w Silent
      (mkDWorld (withPending (dw_d w) (d_pendingPeers (dw_d w)) ({[id]} ∪ d_pendingRemovals (dw_d w))) (dw_r w) (l1 ++ l2))
| ds_process w order :
    order ≡ₚ elements (d_pendingRemovals (dw_d w)) →
    let a := ProcessPendingPeers (dw_d w) (dw_r w) order in dstep w Silent (mkDWorld a.1 a.2 (dw_leaving w))
| ds_raft w r : dstep w Silent (mkDWorld (dw_d w) (mkRecorded r (rec_calls (dw_r w))) (dw_leaving w))
| ds_shutdown w : dstep w Silent (mkDWorld (setShutdown (dw_d w)) (dw_r w) (dw_leaving w)).

Inductive dtrace (w0 : dworld) : list devent → dworld → Prop :=
| dt_start : dtrace w0 [] w0
| dt_step h w e w' : dtrace w0 h w → dstep w e w' → dtrace w0 (h ++ [e]) w'.

(** The peers that joined, and the IDs of the peers that left, as [d] reads
    their metadata. *)
Definition joinedPeers (d : RaftDelegate) (h : list devent) : list PendingPeer :=
  omap (λ e, match e with Joined node => peerOf d node | _ => None end) h.

Definition leftPeers (d : RaftDelegate) (h : list devent) : list string :=
  omap (λ e, match e with Left_ node => leaverOf d node | _ => None end) h.

(** What a change of the membership does to the record of calls. *)
Definition callsTo (r r' : Recorded R) (l : list memberCall) : Prop := rec_calls r' = rec_calls r ++ l.

Lemma addPending_calls (r : Recorded R) peers :
  callsTo r (addPending r peers) (map (λ p, CallAdd (pp_NodeID p) (pp_RaftAddress p)) peers).
Proof.
  unfold callsTo, addPending. revert r. induction peers as [|p peers IH]; intros r; simpl; [by rewrite app_nil_r|].
  rewrite IH. simpl. by rewrite <- app_assoc.
Qed.

Lemma removePending_calls (r : Recorded R) ids : callsTo r (removePending r ids) (map CallRemove ids).
Proof.
  unfold callsTo, removePending. revert r. induction ids as [|id ids IH]; intros r; simpl; [by rewrite app_nil_r|].
  rewrite IH. simpl. by rewrite <- app_assoc.
Qed.

(** Leading, the pending changes are made, additions first, and forgotten,
    whatever the cluster answers. *)
Lemma ProcessPendingPeers_leader d (r : Recorded R) order :
  d_hasRaft d = true → rm_IsLeader r = true →
  (ProcessPendingPeers d r order).1 = withPending d [] ∅ ∧
  callsTo r (ProcessPendingPeers d r order).2
    (map (λ p, CallAdd (pp_NodeID p) (pp_RaftAddress p)) (d_pendingPeers d) ++ map CallRemove order).
Proof.
  intros Hr Hl. unfold ProcessPendingPeers. rewrite Hr, Hl. split; [done|]. unfold callsTo. simpl.
  rewrite removePending_calls, addPending_calls. by rewrite <- app_assoc.
Qed.

(** An emergency recovery asks for nothing else, and when it gives up after
    asking, that too is recorded. *)
Lemma handleEmergencyRecovery_calls d (r : Recorded R) members id :
  let '(recovered, r') := handleEmergencyRecovery d r members id in
  ∃ l, callsTo r r' l ∧ (∀ c, c ∈ l → ∃ id' a, c = CallRecover id' a) ∧ (recovered = true → l ≠ []).
Proof.
  unfold handleEmergencyRecovery, callsTo. simpl.
  assert (∃ l, rec_calls r = rec_calls r ++ l ∧ (∀ c, c ∈ l → ∃ id' a, c = CallRecover id' a) ∧ (false = true → l ≠ [])) as H0.
  { exists []. rewrite app_nil_r. split_and!; [done|set_solver|done]. }
  destruct (rm_GetPeers (rec_mgr r)) as [peers|]; [|done]. destruct (negb _); [done|].
  destruct (findSurvivingNode _ _ _ _) as [sid sa]. destruct (String.eqb sid "" || String.eqb sa ""); [done|].
  unfold recording. destruct (rm_ForceRecoverCluster (rec_mgr r) sid sa) as [[err|] r']; simpl;
    exists [CallRecover sid sa]; split_and!; try done; intros c ->%list_elem_of_singleton; eauto.
Qed.
End Histories.

(* ------------------------------------------------------------------ *)
(** ** The invariant of a history *)

(** [J] and [L]: who joined and who left so far. *)
Record dinv (d0 : RaftDelegate) (J : list PendingPeer) (L : list string)
    (d : RaftDelegate) (calls : list memberCall) (leaving : list string) : Prop := {
  di_hasRaft : d_hasRaft d = true;
  di_name : d_localNodeName d = d_localNodeName d0;
  di_distinct : NoDup (map pp_NodeID (d_pendingPeers d));
  di_pending p : p ∈ d_pendingPeers d → p ∈ J;
  di_added id a : CallAdd id a ∈ calls → mkPending id a ∈ J;
  di_joined p : p ∈ J →
    ∃ a, mkPending (pp_NodeID p) a ∈ d_pendingPeers d ∨ CallAdd (pp_NodeID p) a ∈ calls;
  di_removed id : id ∈ d_pendingRemovals d ∨ id ∈ leaving ∨ CallRemove id ∈ calls → id ∈ L;
  di_left id : id ∈ L →
    id ∈ d_pendingRemovals d ∨ id ∈ leaving ∨ CallRemove id ∈ calls ∨
    (∃ id' a, CallRecover id' a ∈ calls) ∨ d_shutdown d = true
}.

Lemma dinv_more_calls d0 J L d calls leaving l :
  dinv d0 J L d calls leaving → (∀ c, c ∈ l → ∃ id a, c = CallRecover id a) → dinv d0 J L d (calls ++ l) leaving.
Proof.
  intros [] Hl. split; try done.
  - intros id a [?|Hc]%elem_of_app; [auto|]. destruct (Hl _ Hc) as (?&?&?). done.
  - intros p Hp. destruct (di_joined0 p Hp) as [a Ha]. exists a. rewrite elem_of_app. tauto.
  - intros id H. apply di_removed0. rewrite elem_of_app in H. destruct H as [?|[?|[?|Hc]]]; auto.
    destruct (Hl _ Hc) as (?&?&?). done.
  - intros id H. apply di_left0 in H. setoid_rewrite elem_of_app. naive_solver.
Qed.

(** A peer joins: it is asked for, or already pending, or pending now. *)
Lemma dinv_added d0 J L d calls leaving p :
  dinv d0 J L d calls leaving → dinv d0 (J ++ [p]) L d (calls ++ [CallAdd (pp_NodeID p) (pp_RaftAddress p)]) leaving.
Proof.
  intros []. split; try done.
  - intros q Hq. apply elem_of_app. auto.
  - intros id a [Hc|Hc]%elem_of_app; apply elem_of_app; [auto|]. apply list_elem_of_singleton in Hc.
    right. destruct p. simplify_eq/=. by left.
  - intros q [Hq|Hq]%elem_of_app.
    + destruct (di_joined0 q Hq) as [a Ha]. exists a. rewrite elem_of_app. tauto.
    + apply list_elem_of_singleton in Hq as ->. exists (pp_RaftAddress p). right. apply elem_of_app. right. by left.
  - intros id [?|[?|[?|Hc]%elem_of_app]]; [auto..|]. apply list_elem_of_singleton in Hc. done.
  - intros id H. apply di_left0 in H. setoid_rewrite elem_of_app. naive_solver.
Qed.

Lemma dinv_known d0 J L d calls leaving p q :
  dinv d0 J L d calls leaving → q ∈ d_pendingPeers d → pp_NodeID q = pp_NodeID p → dinv d0 (J ++ [p]) L d calls leaving.
Proof.
  intros [] Hq Heq. split; try done.
  - intros x Hx. apply elem_of_app. auto.
  - intros id a Hc. apply elem_of_app. auto.
  - intros x [Hx| ->%list_elem_of_singleton]%elem_of_app; [auto|]. exists (pp_RaftAddress q). left.
    rewrite <- Heq. by destruct q.
Qed.

Lemma dinv_pending d0 J L d calls leaving p :
  dinv d0 J L d calls leaving → pp_NodeID p ∉ map pp_NodeID (d_pendingPeers d) →
  dinv d0 (J ++ [p]) L (withPending d (d_pendingPeers d ++ [p]) (d_pendingRemovals d)) calls leaving.
Proof.
  intros [] Hno. split; try done.
  - simpl. rewrite map_app. apply NoDup_app. split_and!; [done| |by apply NoDup_singleton].
    intros x Hx ->%list_elem_of_singleton. done.
  - simpl. intros q. rewrite !elem_of_app. intuition auto.
  - intros id a Hc. apply elem_of_app. auto.
  - simpl. intros q [Hq| ->%list_elem_of_singleton]%elem_of_app.
    + destruct (di_joined0 q Hq) as [a Ha]. exists a. rewrite elem_of_app. tauto.
    + exists (pp_RaftAddress p). left. apply elem_of_app. right. destruct p. by left.
Qed.

(** A peer leaves: it is cached, asked for, in flight, or the cluster was
    recovered. *)
Lemma dinv_leave d0 J L d calls leaving id removals calls' leaving' :
  dinv d0 J L d calls leaving →
  (∀ i a, CallAdd i a ∈ calls' ↔ CallAdd i a ∈ calls) →
  (∀ x, x ∈ removals ∨ x ∈ leaving' ∨ CallRemove x ∈ calls' →
     x = id ∨ x ∈ d_pendingRemovals d ∨ x ∈ leaving ∨ CallRemove x ∈ calls) →
  (∀ x, x = id ∨ x ∈ d_pendingRemovals d ∨ x ∈ leaving ∨ CallRemove x ∈ calls ∨ (∃ i a, CallRecover i a ∈ calls) →
     x ∈ removals ∨ x ∈ leaving' ∨ CallRemove x ∈ calls' ∨ (∃ i a, CallRecover i a ∈ calls') ∨ d_shutdown d = true) →
  dinv d0 J (L ++ [id]) (withPending d (d_pendingPeers d) removals) calls' leaving'.
Proof.
  intros [] Ha Hsub Hsup. split; try done.
  - intros i a. rewrite Ha. auto.
  - simpl. intros p Hp. destruct (di_joined0 p Hp) as [a Hpa]. exists a. by rewrite Ha.
  - simpl. intros x Hx. apply elem_of_app. destruct (Hsub x Hx) as [->|?]; [right; by left|auto].
  - simpl. intros x [Hx| ->%list_elem_of_singleton]%elem_of_app; [|apply Hsup; auto].
    destruct (di_left0 x Hx) as [?|[?|[?|[?|?]]]]; try (apply Hsup; tauto). tauto.
Qed.

Lemma withPending_same d : withPending d (d_pendingPeers d) (d_pendingRemovals d) = d.
Proof. by destruct d. Qed.

(** The pending changes are made. *)
Lemma dinv_processed d0 J L d calls leaving order :
  dinv d0 J L d calls leaving → order ≡ₚ elements (d_pendingRemovals d) →
  dinv d0 J L (withPending d [] ∅)
    (calls ++ map (λ p, CallAdd (pp_NodeID p) (pp_RaftAddress p)) (d_pendingPeers d) ++ map CallRemove order) leaving.
Proof.
  intros [] Ho.
  assert (∀ x, x ∈ order ↔ x ∈ d_pendingRemovals d) as Hin by (intros x; by rewrite Ho, elem_of_elements).
  split; try done; simpl.
  - constructor.
  - intros p Hp. by apply elem_of_nil in Hp.
  - intros id a. rewrite !elem_of_app, !list_elem_of_fmap.
    intros [?|[([i b]&[= -> ->]&?)|(?&?&?)]]; [auto|auto|done].
  - intros p Hp. destruct (di_joined0 p Hp) as [a [Hq|Hc]]; exists a; right; rewrite !elem_of_app; [|by left].
    right. left. apply list_elem_of_fmap. exists (mkPending (pp_NodeID p) a). done.
  - intros x. rewrite !elem_of_app, !list_elem_of_fmap.
    intros [Hx|[?|[?|[(?&?&?)|(y&[= ->]&?)]]]]; [by apply elem_of_empty in Hx|auto|auto|done|].
    apply di_removed0. left. by apply Hin.
  - intros x Hx. setoid_rewrite elem_of_app. setoid_rewrite elem_of_app. setoid_rewrite list_elem_of_fmap.
    apply di_left0 in Hx as [Hx|[?|[?|[(i&a&?)|?]]]]; [|tauto|tauto| |tauto].
    + right. right. left. right. right. exists x. split; [done|]. by apply Hin.
    + right. right. right. left. exists i, a. tauto.
Qed.

Lemma dinv_moved d0 J L d calls l1 id l2 :
  dinv d0 J L d calls (l1 ++ id :: l2) →
  dinv d0 J L (withPending d (d_pendingPeers d) ({[id]} ∪ d_pendingRemovals d)) calls (l1 ++ l2).
Proof.
  intros []. split; try done; simpl.
  - intros x Hx. apply di_removed0. rewrite elem_of_union, elem_of_singleton, !elem_of_app, elem_of_cons in *. naive_solver.
  - intros x Hx. apply di_left0 in Hx. rewrite elem_of_union, elem_of_singleton, !elem_of_app, elem_of_cons in *. naive_solver.
Qed.

Section Invariant.
Context {R : Type} `{HR : RaftManager R}.

(** [J0] and [L0]: who joined and left before the history. *)
Definition winv (d0 : RaftDelegate) (J0 : list PendingPeer) (L0 : list string) (h : list devent) (w : dworld (R := R)) : Prop :=
  dinv d0 (J0 ++ joinedPeers d0 h) (L0 ++ leftPeers d0 h) (dw_d w) (rec_calls (dw_r w)) (dw_leaving w).

Lemma peerOf_name d d' node : d_localNodeName d = d_localNodeName d' → peerOf d node = peerOf d' node.
Proof. intros H. unfold peerOf. by rewrite H. Qed.

Lemma leaverOf_alive d d' node : d_shutdown d = d_shutdown d' → leaverOf d node = leaverOf d' node.
Proof. intros H. unfold leaverOf. by rewrite H. Qed.

Lemma joined_snoc d0 h e : joinedPeers d0 (h ++ [e]) = joinedPeers d0 h ++ joinedPeers d0 [e].
Proof. apply omap_app. Qed.

Lemma left_snoc d0 h e : leftPeers d0 (h ++ [e]) = leftPeers d0 h ++ leftPeers d0 [e].
Proof. apply omap_app. Qed.

Lemma join_inv d0 J L d (r : Recorded R) leaving node :
  dinv d0 J L d (rec_calls r) leaving →
  dinv d0 (J ++ joinedPeers d0 [Joined node]) L (NotifyJoin d r node).1 (rec_calls (NotifyJoin d r node).2) leaving.
Proof.
  intros Hi. unfold NotifyJoin. simpl. rewrite (peerOf_name d d0) by apply Hi.
  destruct (peerOf d0 node) as [p|]; simpl; [|by rewrite app_nil_r].
  unfold addRaftPeer. rewrite (di_hasRaft _ _ _ _ _ _ Hi). simpl. destruct (rm_IsLeader (rec_mgr r)); simpl.
  { by apply dinv_added. }
  destruct (existsb _ (d_pendingPeers d)) eqn:E; simpl.
  - apply existsb_exists in E as (q & Hq & Heq%String.eqb_eq). apply list_elem_of_In in Hq. by eapply dinv_known.
  - destruct p as [id a]. apply dinv_pending; [done|]. intros Hin. apply list_elem_of_fmap in Hin as (q & Heq & Hq).
    apply not_true_iff_false in E. apply E, existsb_exists. exists q. split; [by apply list_elem_of_In|].
    apply String.eqb_eq. by rewrite <- Heq.
Qed.

(** The three ways a removal goes on after the recovery did not end it. *)
Lemma leave_inv d0 J L d (r : Recorded R) leaving id :
  dinv d0 J L d (rec_calls r) leaving →
  dinv d0 J (L ++ [id]) (handleNonLeaderRemoval d r id).2
    (rec_calls (if (handleNonLeaderRemoval d r id).1 then r else performPeerRemoval r id)) leaving ∧
  dinv d0 J (L ++ [id]) d (rec_calls r) (id :: leaving).
Proof.
  intros Hi. split.
  - unfold handleNonLeaderRemoval. simpl. destruct (rm_IsLeader (rec_mgr r)); simpl.
    + rewrite <- (withPending_same d) at 1. eapply dinv_leave; [exact Hi|..].
      * intros i a. rewrite elem_of_app, list_elem_of_singleton. naive_solver.
      * intros x. rewrite elem_of_app, list_elem_of_singleton. naive_solver.
      * intros x. setoid_rewrite elem_of_app. setoid_rewrite list_elem_of_singleton. naive_solver.
    + eapply dinv_leave; [exact Hi|done|set_solver|].
      intros x. rewrite elem_of_union, elem_of_singleton. naive_solver.
  - rewrite <- (withPending_same d) at 1. eapply dinv_leave; [exact Hi|done|..].
    + intros x. rewrite elem_of_cons. naive_solver.
    + intros x. rewrite elem_of_cons. naive_solver.
Qed.

Lemma recovery_inv d0 J L d (r : Recorded R) leaving members id recovered r' :
  handleEmergencyRecovery d r members id = (recovered, r') → dinv d0 J L d (rec_calls r) leaving →
  dinv d0 J L d (rec_calls r') leaving ∧
  (recovered = true → dinv d0 J (L ++ [id]) d (rec_calls r') leaving).
Proof.
  intros E Hi. pose proof (handleEmergencyRecovery_calls d r members id) as H. rewrite E in H.
  destruct H as (l & -> & Hl & Hne). pose proof (dinv_more_calls _ _ _ _ _ _ l Hi Hl) as Hi'. split; [done|].
  intros ->. destruct l as [|c l]; [by destruct Hne|]. destruct (Hl c) as (i & a & ->); [left|].
  rewrite <- (withPending_same d). eapply dinv_leave; [exact Hi'|done|tauto|].
  intros x _. right. right. right. left. exists i, a. apply elem_of_app. right. left.
Qed.

Lemma leave_event_inv d0 J0 L0 h d (r : Recorded R) leaving members node :
  d_shutdown d0 = false → winv d0 J0 L0 h (mkDWorld d r leaving) →
  let a := NotifyLeave d r members node in winv d0 J0 L0 (h ++ [Left_ node]) (mkDWorld a.1 a.2 leaving).
Proof.
  intros H0 Hi. unfold winv in *. rewrite joined_snoc, left_snoc. simpl in *. rewrite app_nil_r, app_assoc.
  unfold NotifyLeave. destruct (d_shutdown d) eqn:Hs.
  - assert (leaverOf d node = None) as -> by (unfold leaverOf; by rewrite Hs). simpl.
    destruct (leaverOf d0 node) as [id|]; [|by rewrite app_nil_r].
    rewrite <- (withPending_same d). eapply dinv_leave; [exact Hi|done|tauto|tauto].
  - rewrite (leaverOf_alive d d0) by congruence. destruct (leaverOf d0 node) as [id|]; [|by rewrite app_nil_r].
    unfold removeRaftPeer. rewrite (di_hasRaft _ _ _ _ _ _ Hi). simpl.
    destruct (handleEmergencyRecovery d r members id) as [recovered r1] eqn:E.
    destruct (recovery_inv _ _ _ _ _ _ _ _ _ _ E Hi) as [Hi1 Hrec].
    destruct recovered; simpl; [by apply Hrec|].
    destruct (leave_inv _ _ _ _ _ _ id Hi1) as [H _].
    destruct (handleNonLeaderRemoval d r1 id) as [[] d1]; exact H.
Qed.

Lemma dtrace_inv d0 J0 L0 w0 h w :
  d_shutdown d0 = false → winv d0 J0 L0 [] w0 → dtrace w0 h w → winv d0 J0 L0 h w.
Proof.
  intros H0 Hstart. induction 1 as [|h w e w' Ht IH Hs]; [done|]. destruct Hs; unfold winv in *.
  - rewrite joined_snoc, left_snoc. simpl. rewrite app_nil_r, app_assoc. by apply join_inv.
  - destruct w. by apply leave_event_inv.
  - rewrite joined_snoc, left_snoc. simpl in *. rewrite app_nil_r, app_assoc.
    assert (d_shutdown (dw_d w) = false) as Hs by (unfold leaverOf in *; by destruct (d_shutdown (dw_d w))).
    rewrite (leaverOf_alive d0 (dw_d w)) by congruence. rewrite H. simpl.
    destruct (recovery_inv _ _ _ _ _ _ _ _ _ _ H2 IH) as [Hi1 _]. by apply leave_inv.
  - rewrite joined_snoc, left_snoc. simpl. rewrite !app_nil_r. apply dinv_moved. by rewrite <- H.
  - rewrite joined_snoc, left_snoc. simpl. rewrite !app_nil_r. unfold a, ProcessPendingPeers.
    destruct (negb _ || negb _); [done|]. simpl. rewrite removePending_calls, addPending_calls, <- app_assoc.
    by apply dinv_processed.
  - by rewrite joined_snoc, left_snoc, !app_nil_r.
  - rewrite joined_snoc, left_snoc. simpl. rewrite !app_nil_r. destruct IH. split; try done.
    intros id Hid. simpl. auto.
Qed.

(** C29: In every history of nodes that join and leave, elections and races with the
    processing of pending changes, when a leading node makes the pending changes, every
    peer that ever joined has been asked to be added, every peer that left to be removed
    (unless that removal is in flight, the cluster was recovered by force, or the service
    shuts down), and nobody else; nothing stays pending. *)
Theorem membership_follows_gossip d0 (m : R) h w order :
  d_hasRaft d0 = true → d_pendingPeers d0 = [] → d_pendingRemovals d0 = ∅ → d_shutdown d0 = false →
  dtrace (mkDWorld d0 (mkRecorded m []) []) h w →
  rm_IsLeader (dw_r w) = true → order ≡ₚ elements (d_pendingRemovals (dw_d w)) →
  let '(d, r) := ProcessPendingPeers (dw_d w) (dw_r w) order in
  d_pendingPeers d = [] ∧ d_pendingRemovals d = ∅ ∧
  (∀ p, p ∈ joinedPeers d0 h → ∃ a, CallAdd (pp_NodeID p) a ∈ rec_calls r) ∧
  (∀ id a, CallAdd id a ∈ rec_calls r → mkPending id a ∈ joinedPeers d0 h) ∧
  (∀ id, id ∈ leftPeers d0 h →
     CallRemove id ∈ rec_calls r ∨ id ∈ dw_leaving w ∨ (∃ id' a, CallRecover id' a ∈ rec_calls r) ∨ d_shutdown d = true) ∧
  (∀ id, CallRemove id ∈ rec_calls r → id ∈ leftPeers d0 h).
Proof.
  intros Hr Hp Hm Hs Ht Hl Ho.
  assert (winv d0 [] [] [] (mkDWorld d0 (mkRecorded m []) [])) as Hstart.
  { unfold winv. simpl. split; simpl; rewrite ?Hp, ?Hm; try done; try set_solver. constructor. }
  pose proof (dtrace_inv d0 [] [] _ h w Hs Hstart Ht) as Hi.
  pose proof (dinv_processed _ _ _ _ _ _ order Hi Ho) as Hf.
  destruct (ProcessPendingPeers_leader (dw_d w) (dw_r w) order) as [Hd Hc]; [apply Hi|done|].
  destruct (ProcessPendingPeers (dw_d w) (dw_r w) order) as [d r]. simpl in Hd. unfold callsTo in Hc. simpl in Hc.
  rewrite Hd. rewrite <- Hc in Hf. destruct Hf as [_ _ _ _ Hadd Hj Hrem Hleft]. simpl in *.
  split_and!; [done|done| |done| |].
  - intros p Hpj. destruct (Hj p Hpj) as [a [Hn|Ha]]; [by apply elem_of_nil in Hn|eauto].
  - intros id Hid. destruct (Hleft id Hid) as [Hn|?]; [by apply elem_of_empty in Hn|tauto].
  - intros id Hid. apply Hrem. auto.
Qed.
End Invariant.

(* ------------------------------------------------------------------ *)
(** ** Runs *)

(** A small manager: who leads, who the peers are, whether changes work. *)
Record toyManager := mkToy { tm_leader : bool; tm_peers : list string; tm_fails : bool }.

#[global] Instance toyManager_RaftManager : RaftManager toyManager := {
  rm_AddVoter m id addr := if tm_fails m then (Some (EText "timeout"), m)
                           else (None, mkToy (tm_leader m) (tm_peers m ++ [id]) false);
  rm_RemoveServer m id := if tm_fails m then (Some (EText "timeout"), m)
                          else (None, mkToy (tm_leader m) (filter (λ p, p ≠ id) (tm_peers m)) false);
  rm_GetLeader m := ("", "");
  rm_GetPeers m := Ok (tm_peers m);
  rm_IsLeader := tm_leader;
  rm_TryDelayedBootstrap m peers := (None, m);
  rm_ForceRecoverCluster m id addr := (None, mkToy true [id] (tm_fails m))
}.

Definition peerNode (id raftAddress : string) : Node :=
  mkNode id "10.0.0.9" 7946 (Marshal (mkNodeMetadata id "0.0.0.0:8080" raftAddress "peer" "" "" "" ∅)).

(** The delegate of node n1. *)
Definition sampleDelegate : RaftDelegate := SetLocalNodeName (SetRaftManager NewRaftDelegate) "n1".

Definition sampleWorld (leader : bool) (peers : list string) : dworld (R := toyManager) :=
  mkDWorld sampleDelegate (mkRecorded (mkToy leader peers false) []) [].

(** n2 joins while n1 follows; n1 becomes leader. *)
Lemma membership_follows_gossip_witness :
  ∃ w, dtrace (sampleWorld false ["n1"]) [Joined (peerNode "n2" "10.0.0.2:7000"); Silent] w ∧
    d_pendingPeers (dw_d w) = [mkPending "n2" "10.0.0.2:7000"] ∧
    CallAdd "n2" "10.0.0.2:7000" ∈ rec_calls (ProcessPendingPeers (dw_d w) (dw_r w) []).2.
Proof.
  set (w1 := mkDWorld (R := toyManager) (withPending sampleDelegate [mkPending "n2" "10.0.0.2:7000"] ∅)
    (mkRecorded (mkToy false ["n1"] false) []) []).
  set (w2 := mkDWorld (dw_d w1) (mkRecorded (mkToy true ["n1"] false) []) []).
  assert (dtrace (sampleWorld false ["n1"]) [Joined (peerNode "n2" "10.0.0.2:7000"); Silent] w2) as Ht.
  { apply (dt_step _ [Joined (peerNode "n2" "10.0.0.2:7000")] w1); [|exact (ds_raft w1 (mkToy true ["n1"] false))].
    assert (w1 = mkDWorld (NotifyJoin sampleDelegate (dw_r (sampleWorld false ["n1"])) (peerNode "n2" "10.0.0.2:7000")).1
      (NotifyJoin sampleDelegate (dw_r (sampleWorld false ["n1"])) (peerNode "n2" "10.0.0.2:7000")).2 []) as ->
      by (vm_compute; reflexivity).
    exact (dt_step _ [] _ _ _ (dt_start _) (ds_join (sampleWorld false ["n1"]) (peerNode "n2" "10.0.0.2:7000"))). }
  exists w2. split; [exact Ht|]. split; [done|].
  pose proof (membership_follows_gossip sampleDelegate (mkToy false ["n1"] false) _ w2 [] eq_refl eq_refl eq_refl eq_refl
    Ht eq_refl ltac:(done)) as H.
  destruct (ProcessPendingPeers (dw_d w2) (dw_r w2) []) as [d r]. destruct H as (_ & _ & Hj & Ha & _).
  destruct (Hj (mkPending "n2" "10.0.0.2:7000")) as [a Hin]; [vm_compute; left|].
  pose proof (Ha _ _ Hin) as Hp. vm_compute in Hp. apply list_elem_of_singleton in Hp.
  change (mkPending "n2" a = mkPending "n2" "10.0.0.2:7000") in Hp. injection Hp as ->. exact Hin.
Defined.

(** A peer that leaves and comes back while this node follows is added and
    then removed when it becomes leader: both changes are pending, additions
    first. *)
Lemma returning_peer_is_removed :
  let node := peerNode "n2" "10.0.0.2:7000" in
  let r := mkRecorded (mkToy false ["n1"; "n2"; "n3"] false) [] in
  let '(d1, r1) := NotifyLeave sampleDelegate r (Some []) node in
  let '(d2, r2) := NotifyJoin d1 r1 node in
  let '(_, r3) := ProcessPendingPeers d2 (mkRecorded (mkToy true ["n1"; "n2"; "n3"] false) (rec_calls r2)) ["n2"] in
  rec_calls r3 = [CallAdd "n2" "10.0.0.2:7000"; CallRemove "n2"] ∧ "n2" ∉ tm_peers (rec_mgr r3).
Proof. vm_compute. split; [done|]. intros H. repeat (apply elem_of_cons in H as [H|H]; [done|]). by apply elem_of_nil in H. Qed.

(** A change the cluster refuses is forgotten. *)
Lemma failed_changes_are_forgotten :
  let d := withPending sampleDelegate [mkPending "n2" "a"] {["n3"]} in
  let m := mkToy true ["n1"] true in
  ProcessPendingPeers d m ["n3"] = (withPending d [] ∅, m).
Proof. reflexivity. Qed.

(** A pending peer that comes back with a new address is added with the old
    one. *)
Lemma pending_address_is_stale :
  let r := mkToy false ["n1"] false in
  let '(d1, _) := NotifyJoin sampleDelegate r (peerNode "n2" "10.0.0.2:7000") in
  let '(d2, _) := NotifyJoin d1 r (peerNode "n2" "10.0.0.3:7000") in
  d_pendingPeers d2 = [mkPending "n2" "10.0.0.2:7000"].
Proof. vm_compute. reflexivity. Qed.

(** The emergency recovery does not ask whether the node that left belongs to
    the cluster of two, nor whether anybody of it is missing: a stranger's
    leave reduces it to one node. *)
Lemma leave_of_a_stranger_shrinks_the_cluster :
  let nodes := [peerNode "n1" "10.0.0.1:7000"; peerNode "n2" "10.0.0.2:7000"] in
  let r := mkToy true ["n1"; "n2"] false in
  (NotifyLeave sampleDelegate r (Some nodes) (peerNode "n9" "10.0.0.9:7000")).2 = mkToy true ["n1"] false.
Proof. vm_compute. reflexivity. Qed.

(** 512 bytes are the library's limit; the text has 159. *)
Lemma metadata_roundtrip_witness :
  let m := mkNodeMetadata "n1" "0.0.0.0:8080" "10.0.0.1:7000" "peer" "eu" "" "1.0" {["rack" := "<7>"]} in
  let d := SetNodeMetadata NewRaftDelegate m in
  (∃ meta, NodeMeta d 512 = Returned meta ∧ UnmarshalNodeMetadata meta = inl m) ∧
  ∃ meta err, NodeMeta d 100 = Returned meta ∧ UnmarshalNodeMetadata meta = inr err.
Proof.
  intros m d. split.
  - destruct (metadata_roundtrip d 512 m eq_refl ltac:(lia)) as (meta&E&_&H). exists meta. split; [exact E|].
    rewrite decide_True in H by (apply (bool_decide_unpack _); vm_compute; exact I). destruct H as [Hu H].
    refine (eq_trans Hu (f_equal inl (H _))). split; [by repeat constructor|]. apply map_Forall_singleton. by split.
  - destruct (metadata_roundtrip d 100 m eq_refl ltac:(lia)) as (meta&E&_&H).
    rewrite decide_False in H by (apply (bool_decide_unpack _); vm_compute; exact I). destruct H as [err H].
    exists meta, err. split; [exact E|exact H].
Defined.
