(* ===== verification/Discovery.v ===== *)
(** * Discovery: services/discovery/

    The static and the mDNS provider, the factory and the service, which
    merges what the providers find and has it joined. The joiner, the list of
    members and the Raft manager are one world behind the interface
    [DiscoveryWorld]. The mDNS library's answers and the machine's network
    interfaces are arguments ([mdnsEnv] and lists of entries, one per provider); so is the text of
    an IP address (net.ParseIP and IP.String). *)

From Stdlib Require Import Ascii.
From S2P Require Import Prelude GoStd GoText Errors Config Delegate.

Local Open Scope vpa_scope.

(* ------------------------------------------------------------------ *)
(** ** providers/static.go *)

Definition validAddress (peer : string) : bool := match SplitHostPort peer with inl _ => true | inr _ => false end.

Definition StaticProvider_Discover (peers : list string) : list string := filter (λ p, validAddress p = true) peers.

(* ------------------------------------------------------------------ *)
(** ** providers/mdns.go *)

(** net.IP: 4 or 16 bytes, or none. *)
Definition IP := list N.

(** IPv4 addresses in 16 bytes start with these twelve. *)
Definition v4InV6Prefix : list N := replicate 10 0%N ++ [255; 255]%N.

Definition To4 (ip : IP) : option IP :=
  if (length ip =? 4)%nat then Some ip
  else if (length ip =? 16)%nat && bool_decide (take 12 ip = v4InV6Prefix) then Some (drop 12 ip)
  else None.

Definition IsLoopback (ip : IP) : bool :=
  match To4 ip with
  | Some (b :: _) => (b =? 127)%N
  | _ => bool_decide (ip = replicate 15 0%N ++ [1%N])
  end.

Definition IsUnspecified (ip : IP) : bool :=
  match To4 ip with
  | Some b => bool_decide (b = replicate 4 0%N)
  | None => bool_decide (ip = replicate 16 0%N)
  end.

(** mdns.ServiceEntry and its copy *)
Record ServiceEntry := mkEntry {
  se_Name : string; se_Host : string; se_Port : Z; se_Info : string; se_AddrV4 : IP; se_AddrV6 : IP
}.

Record safeServiceEntry := mkSafeEntry {
  sf_Name : string; sf_Host : string; sf_Port : Z; sf_Info : string;
  sf_AddrV4Str : string; sf_AddrV6Str : string; sf_HasAddrV4 : bool; sf_HasAddrV6 : bool
}.

Record MDNSProvider := mkMDNSProvider {
  mp_serviceName : string; mp_domainName : string; mp_hostname : string; mp_port : Z;
  mp_txtRecords : gmap string string; mp_server : bool; mp_running : bool; mp_stopClosed : bool
}.

Definition NewMDNSProvider (serviceName domainName hostname : string) (port : Z) (txt : gmap string string) : MDNSProvider :=
  mkMDNSProvider serviceName domainName hostname port txt false false false.

Definition withRunning (m : MDNSProvider) (server running stopClosed : bool) : MDNSProvider :=
  mkMDNSProvider (mp_serviceName m) (mp_domainName m) (mp_hostname m) (mp_port m) (mp_txtRecords m) server running stopClosed.

(** What lies outside when a provider starts: the interfaces' addresses (None
    is an address that is no *net.IPNet), and the library's answers. *)
Record mdnsEnv := mkMdnsEnv {
  me_InterfaceAddrs : result (list (option IP));
  me_NewMDNSService : option goError;
  me_NewServer : option goError
}.

Section Text.
Context (ParseIP : string → option IP) (IP_String : IP → string).

Definition getLocalIP (e : mdnsEnv) : result IP :=
  match me_InterfaceAddrs e with
  | Err err => Err err
  | Ok addrs =>
      match head (omap (λ a, match a with
                             | Some ip => if negb (IsLoopback ip) && bool_decide (is_Some (To4 ip)) then Some ip else None
                             | None => None
                             end) addrs) with
      | Some ip => Ok ip
      | None => Err (EText "no non-loopback IP address found")
      end
  end.

(** The address to announce: the configured one unless it is no address or
    unspecified. *)
Definition announcedIP (m : MDNSProvider) (e : mdnsEnv) : result IP :=
  match ParseIP (mp_hostname m) with
  | Some ip => if IsUnspecified ip then getLocalIP e else Ok ip
  | None => getLocalIP e
  end.

(** [order]: the order in which the records are ranged over. *)
Definition convertTXTRecords (m : MDNSProvider) (order : list (string * string)) : list string :=
  if bool_decide (mp_txtRecords m = ∅) then ["version=1.0"; "role=gateway"]
  else map (λ kv, kv.1 +:+ "=" +:+ kv.2) order.

Definition MDNSProvider_Start (m : MDNSProvider) (e : mdnsEnv) : option goError * MDNSProvider :=
  if mp_running m then (Some (EText "mDNS provider already running"), m)
  else
    match announcedIP m e with
    | Err err => (Some (errorf_w "failed to get local IP" err), m)
    | Ok _ =>
        match me_NewMDNSService e with
        | Some err => (Some (errorf_w "failed to create mDNS service" err), m)
        | None =>
            match me_NewServer e with
            | Some err => (Some (errorf_w "failed to start mDNS server" err), m)
            | None => (None, withRunning m true true (mp_stopClosed m))
            end
        end
    end.

(** The stop channel is closed once. *)
Definition MDNSProvider_Stop (m : MDNSProvider) : MDNSProvider :=
  if negb (mp_running m) then m else withRunning m (mp_server m) false true.

Definition copyServiceEntry (e : ServiceEntry) : safeServiceEntry :=
  let text ip := match ip with [] => "" | _ => IP_String ip end in
  mkSafeEntry (se_Name e) (se_Host e) (se_Port e) (se_Info e) (text (se_AddrV4 e)) (text (se_AddrV6 e))
    (bool_decide (se_AddrV4 e ≠ [])) (bool_decide (se_AddrV6 e ≠ [])).

(** [received]: the entries that arrive before the query ends or the lookup
    times out. *)
Definition MDNSProvider_Discover (m : MDNSProvider) (received : list ServiceEntry) : list string :=
  if negb (mp_running m) then []
  else
    omap (λ e, let c := copyServiceEntry e in
               if sf_HasAddrV4 c then Some (sf_AddrV4Str c +:+ ":" +:+ itoa (sf_Port c)) else None) received.

(* ------------------------------------------------------------------ *)
(** ** factory.go *)

(** domain.DiscoveryProvider *)
Inductive provider := StaticP (peers : list string) | MDNSP (m : MDNSProvider).

Definition GetProviderType (p : provider) : string := match p with StaticP _ => "static" | MDNSP _ => "mdns" end.

(** cfg.Static is dereferenced without a check. *)
Definition createStaticProvider (cfg : DiscoveryConfig) : outcome (result provider) :=
  match ds_Static cfg with
  | None => Panicked "nil pointer dereference"
  | Some [] => Returned (Err (EText "no static peers configured"))
  | Some peers => Returned (Ok (StaticP peers))
  end.

Definition createMDNSProvider (cfg : DiscoveryConfig) : outcome (result provider) :=
  let c := ds_MDNS cfg in
  Returned (Ok (MDNSP (NewMDNSProvider (dn_ServiceName c) (dn_Domain c) (dn_Hostname c) (dn_Port c) (dn_TXTRecords c)))).

Definition createProvider (providerType : string) (cfg : DiscoveryConfig) : outcome (result provider) :=
  if String.eqb providerType "static" then createStaticProvider cfg
  else if String.eqb providerType "mdns" then createMDNSProvider cfg
  else Returned (Err (EText ("unknown discovery provider type: " +:+ providerType))).

Fixpoint createAll (types : list string) (cfg : DiscoveryConfig) : outcome (result (list provider)) :=
  match types with
  | [] => Returned (Ok [])
  | t :: types' =>
      do! r <- createProvider t cfg;
      match r with
      | Err err => Returned (Err (errorf_w ("failed to create " +:+ t +:+ " provider") err))
      | Ok p =>
          do! rest <- createAll types' cfg;
          Returned (match rest with Ok ps => Ok (p :: ps) | Err err => Err err end)
      end
  end.

Definition CreateProviders (cfg : DiscoveryConfig) : outcome (result (list provider)) := createAll (ds_Providers cfg) cfg.

(* ------------------------------------------------------------------ *)
(** ** service.go *)

(** The peer joiner, the members' list and the Raft manager, on one state. *)
Class DiscoveryWorld (W : Type) := {
  dy_Join : W → list string → option goError * W;
  dy_GetMembers : W → list Node;
  dy_TryDelayedBootstrap : W → list string → option goError * W
}.

(** The goroutine of the loop: about to look at the stop channel, waiting for
    the ticker (and the stop channel, unless it is nil), ended. *)
Inductive loopState := LoopEnter | LoopWaiting (stoppable : bool) | LoopDone.

(** [sv_stopCh]: the field is not nil; [sv_stopClosed]: the channel that
    NewService made is closed. *)
Record Service := mkService {
  sv_config : DiscoveryConfig; sv_providers : list provider;
  sv_peerJoiner : bool; sv_memberGetter : bool; sv_raftManager : bool;
  sv_stopCh : bool; sv_stopClosed : bool; sv_running : bool
}.

Definition NewService (cfg : DiscoveryConfig) : Service := mkService cfg [] false false false true false false.

(** A memberlist service is both a joiner and a source of members. *)
Definition SetPeerJoiner (s : Service) : Service :=
  mkService (sv_config s) (sv_providers s) true true (sv_raftManager s) (sv_stopCh s) (sv_stopClosed s) (sv_running s).
Definition SetRaftManager (s : Service) : Service :=
  mkService (sv_config s) (sv_providers s) (sv_peerJoiner s) (sv_memberGetter s) true (sv_stopCh s) (sv_stopClosed s) (sv_running s).
Definition withProviders (s : Service) (ps : list provider) (running : bool) : Service :=
  mkService (sv_config s) ps (sv_peerJoiner s) (sv_memberGetter s) (sv_raftManager s) (sv_stopCh s) (sv_stopClosed s) running.

Section World.
Context {W : Type} `{HW : DiscoveryWorld W}.

Definition Discover (p : provider) (received : list ServiceEntry) : list string :=
  match p with
  | StaticP peers => StaticProvider_Discover peers
  | MDNSP m => MDNSProvider_Discover m received
  end.

Definition memberAddress (n : Node) : string := n_Addr n +:+ ":" +:+ itoa (n_Port n).

Definition isSelfAddress (peer : string) : bool := false.

Definition isAlreadyConnected (s : Service) (w : W) (peerAddr : string) : bool :=
  sv_memberGetter s && existsb (λ n, String.eqb (memberAddress n) peerAddr) (dy_GetMembers w).

Fixpoint filterLoop (s : Service) (w : W) (seen : gset string) (peers : list string) : list string :=
  match peers with
  | [] => []
  | peer :: peers' =>
      if decide (peer ∈ seen) then filterLoop s w seen peers'
      else
        let rest := filterLoop s w ({[peer]} ∪ seen) peers' in
        if isSelfAddress peer then rest
        else if isAlreadyConnected s w peer then rest
        else peer :: rest
  end.

Definition filterPeers (s : Service) (w : W) (peers : list string) : list string := filterLoop s w ∅ peers.

(** [found]: for each provider the entries its query receives. No provider of
    this program fails to discover. *)
Definition runDiscovery (s : Service) (w : W) (found : nat → list ServiceEntry) : W :=
  if negb (sv_peerJoiner s) then w
  else
    let allPeers := concat (imap (λ i p, Discover p (found i)) (sv_providers s)) in
    let uniquePeers := filterPeers s w allPeers in
    match uniquePeers with
    | [] => w
    | _ =>
        match dy_Join w uniquePeers with
        | (Some _, w) => w
        | (None, w) => if sv_raftManager s then (dy_TryDelayedBootstrap w uniquePeers).2 else w
        end
    end.

Definition startProvider (p : provider) (e : mdnsEnv) : provider :=
  match p with
  | StaticP peers => StaticP peers
  | MDNSP m => MDNSP (MDNSProvider_Start m e).2
  end.

(** The flag says whether the loop's goroutine was started. A provider that
    does not start stays in the list. *)
Definition Start (s : Service) (w : W) (envs : nat → mdnsEnv) (found : nat → list ServiceEntry)
  : outcome (option goError * bool * Service * W) :=
  if sv_running s then Returned (Some (EText "discovery service already running"), false, s, w)
  else if negb (ds_Enabled (sv_config s)) then Returned (None, false, s, w)
  else
    do! created <- CreateProviders (sv_config s);
    match created with
    | Err err => Returned (Some (errorf_w "failed to create discovery providers" err), false, s, w)
    | Ok [] => Returned (None, false, withProviders s [] false, w)
    | Ok ps =>
        let s := withProviders s (imap (λ i p, startProvider p (envs i)) ps) true in
        Returned (None, true, s, runDiscovery s w found)
    end.

Definition stopProvider (p : provider) : provider :=
  match p with StaticP peers => StaticP peers | MDNSP m => MDNSP (MDNSProvider_Stop m) end.

(** Stop waits for the loop, but not longer than two seconds. *)
Definition Stop (s : Service) : Service :=
  if negb (sv_running s) then s
  else
    mkService (sv_config s) (map stopProvider (sv_providers s)) (sv_peerJoiner s) (sv_memberGetter s) (sv_raftManager s)
      false (sv_stopClosed s || sv_stopCh s) false.

(* ------------------------------------------------------------------ *)
(** ** What is joined *)

Lemma filterLoop_spec s w seen peers :
  NoDup (filterLoop s w seen peers) ∧
  ∀ p, p ∈ filterLoop s w seen peers ↔ (p ∈ peers) ∧ (p ∉ seen) ∧ isAlreadyConnected s w p = false.
Proof.
  revert seen. induction peers as [|x peers IH]; intros seen; simpl.
  { split; [constructor|]. intros p. split; [by intros ?%elem_of_nil|by intros [?%elem_of_nil _]]. }
  destruct (decide (x ∈ seen)) as [Hx|Hx].
  - destruct (IH seen) as [Hnd H]. split; [done|]. intros p. rewrite H, elem_of_cons. naive_solver.
  - destruct (IH ({[x]} ∪ seen)) as [Hnd H]. destruct (isAlreadyConnected s w x) eqn:Hc.
    + split; [done|]. intros p. rewrite H, elem_of_cons, not_elem_of_union, not_elem_of_singleton.
      split; [naive_solver|]. intros ([->|?]&?&?); [congruence|]. split_and!; try done. intros ->. congruence.
    + split.
      * constructor; [|done]. rewrite H. set_solver.
      * intros p. rewrite !elem_of_cons, H, not_elem_of_union, not_elem_of_singleton.
        destruct (decide (p = x)); naive_solver.
Qed.

(** What is joined are the found peers that are no members yet, once each. *)
Lemma filterPeers_spec s w peers :
  NoDup (filterPeers s w peers) ∧
  ∀ p, p ∈ filterPeers s w peers ↔ p ∈ peers ∧ isAlreadyConnected s w p = false.
Proof.
  destruct (filterLoop_spec s w ∅ peers) as [Hnd H]. split; [done|]. intros p. unfold filterPeers. rewrite H. set_solver.
Qed.

(** A discovery changes the world by one Join of new peers, and after it, if
    it works, by one delayed bootstrap that is told of the same peers. *)
Lemma runDiscovery_spec s w found :
  runDiscovery s w found = w ∨
  ∃ peers, peers ≠ [] ∧ NoDup peers ∧ Forall (λ p, isAlreadyConnected s w p = false) peers ∧
    runDiscovery s w found =
      match dy_Join w peers with
      | (Some _, w') => w'
      | (None, w') => if sv_raftManager s then (dy_TryDelayedBootstrap w' peers).2 else w'
      end.
Proof.
  unfold runDiscovery. destruct (negb (sv_peerJoiner s)); [by left|].
  set (peers := filterPeers s w _). destruct (filterPeers_spec s w (concat (imap (λ i p, Discover p (found i)) (sv_providers s)))) as [Hnd H].
  fold peers in Hnd, H. destruct peers as [|p ps] eqn:E; [by left|]. right. exists (p :: ps). split_and!; [done|done| |done].
  apply Forall_forall. intros q Hq. by apply H.
Qed.

(* ------------------------------------------------------------------ *)
(** ** The loop *)

Record lworld := mkLWorld { lw_s : Service; lw_loop : loopState; lw_w : W }.

(** The loop's goroutine beside calls of Stop and Start and the rest of the
    program. When the ticker and the closed channel are both ready, select
    takes either. *)
Inductive loopStep : lworld → lworld → Prop :=
| lp_enter l : lw_loop l = LoopEnter → loopStep l (mkLWorld (lw_s l) (LoopWaiting (sv_stopCh (lw_s l))) (lw_w l))
| lp_tick l b found : lw_loop l = LoopWaiting b → loopStep l (mkLWorld (lw_s l) LoopEnter (runDiscovery (lw_s l) (lw_w l) found))
| lp_stopped l : lw_loop l = LoopWaiting true → sv_stopClosed (lw_s l) = true → loopStep l (mkLWorld (lw_s l) LoopDone (lw_w l))
| lp_stop l : loopStep l (mkLWorld (Stop (lw_s l)) (lw_loop l) (lw_w l))
| lp_start l envs found r : Start (lw_s l) (lw_w l) envs found = Returned r → loopStep l (mkLWorld r.1.2 (lw_loop l) r.2)
| lp_world l w : loopStep l (mkLWorld (lw_s l) (lw_loop l) w).

Lemma Start_stopCh s w envs found r : Start s w envs found = Returned r → sv_stopCh r.1.2 = sv_stopCh s.
Proof.
  unfold Start. intros H. destruct (sv_running s); [by simplify_eq|]. destruct (negb _); [by simplify_eq|].
  destruct (CreateProviders _) as [[ps|err]|]; [|by simplify_eq/=|done]. destruct ps; by simplify_eq/=.
Qed.

Lemma stopCh_stays l l' : sv_stopCh (lw_s l) = false → loopStep l l' → sv_stopCh (lw_s l') = false.
Proof.
  intros H Hst. destruct Hst; simpl; try done.
  - unfold Stop. by destruct (negb _).
  - by erewrite Start_stopCh.
Qed.

(** The loop has to look at a nil channel, or does so already. *)
Definition orphaned (l : lworld) : Prop :=
  sv_stopCh (lw_s l) = false ∧ (lw_loop l = LoopEnter ∨ lw_loop l = LoopWaiting false).

Lemma orphaned_step l l' : orphaned l → loopStep l l' → orphaned l'.
Proof.
  intros [Hs Hl] Hst. split; [by eapply stopCh_stays|]. destruct Hst; simpl in *; auto.
  - rewrite Hs. auto.
  - destruct Hl; congruence.
Qed.

(** Stop ends the discovery loop when it finds it waiting and the closed channel is taken;
    a loop that enters its select after Stop never ends, whatever happens, and can always
    run one more discovery. *)
Theorem discovery_loop_after_stop s w loop :
  sv_running s = true → sv_stopCh s = true →
  (loop = LoopWaiting true → loopStep (mkLWorld (Stop s) loop w) (mkLWorld (Stop s) LoopDone w)) ∧
  ∀ l, rtc loopStep (mkLWorld (Stop s) loop w) l → lw_loop l = LoopEnter →
  ∀ l', rtc loopStep l l' →
    lw_loop l' ≠ LoopDone ∧ ∃ l1, rtc loopStep l' l1 ∧
      ∀ found, loopStep l1 (mkLWorld (lw_s l') LoopEnter (runDiscovery (lw_s l') (lw_w l') found)).
Proof.
  intros Hr Hc. split.
  - intros ->. apply lp_stopped; [done|]. unfold Stop. rewrite Hr, Hc. simpl. apply orb_true_r.
  - intros l Hl He l' Hl'.
    assert (sv_stopCh (lw_s l) = false) as Hn.
    { assert (sv_stopCh (Stop s) = false) as H0 by (unfold Stop; by rewrite Hr). clear -Hl H0.
      remember (mkLWorld (Stop s) loop w) as l0 eqn:E. assert (sv_stopCh (lw_s l0) = false) as H by (by subst).
      clear -Hl H. induction Hl as [|? ? ? Hst _ IH]; [done|]. apply IH. by eapply stopCh_stays. }
    assert (orphaned l') as [Hs Ho].
    { assert (orphaned l) as H by (split; auto). clear -Hl' H. induction Hl' as [|? ? ? Hst _ IH]; [done|].
      apply IH. by eapply orphaned_step. }
    split; [by destruct Ho as [-> | ->]|]. destruct Ho as [Ho|Ho].
    + exists (mkLWorld (lw_s l') (LoopWaiting false) (lw_w l')). split.
      { apply rtc_once. rewrite <- Hs. by apply lp_enter. }
      intros found. by apply (lp_tick (mkLWorld (lw_s l') (LoopWaiting false) (lw_w l')) false found).
    + exists l'. split; [apply rtc_refl|]. intros found. by apply (lp_tick l' false found).
Qed.

(** After Stop a new Start runs a loop that cannot be stopped: the field
    stays nil, and the next Stop closes nothing. *)
Lemma restarted_loop_cannot_be_stopped s w envs found r :
  sv_running s = true → Start (Stop s) w envs found = Returned r → r.1.1.2 = true →
  orphaned (mkLWorld r.1.2 LoopEnter r.2) ∧ sv_stopClosed (Stop r.1.2) = sv_stopClosed r.1.2.
Proof.
  intros Hr HS _. assert (sv_stopCh r.1.2 = false) as Hn.
  { rewrite (Start_stopCh _ _ _ _ _ HS). unfold Stop. by rewrite Hr. }
  split; [split; auto|]. unfold Stop. destruct (negb _); [done|]. simpl. by rewrite Hn, orb_false_r.
Qed.
End World.

(* ------------------------------------------------------------------ *)
(** ** Providers *)

(** An mDNS provider that runs has a server; starting twice is an error,
    stopping twice is not, and a stopped provider can be started again. *)
Lemma MDNSProvider_lifecycle m e :
  let '(err, m') := MDNSProvider_Start m e in
  (mp_running m = true → (err ≠ None) ∧ m' = m) ∧
  (mp_running m = false → (err = None ↔ is_ok (announcedIP m e) = true ∧ me_NewMDNSService e = None ∧ me_NewServer e = None) ∧
     mp_running m' = bool_decide (err = None)) ∧
  MDNSProvider_Stop (MDNSProvider_Stop m') = MDNSProvider_Stop m' ∧ mp_running (MDNSProvider_Stop m') = false.
Proof.
  assert (∀ m', MDNSProvider_Stop (MDNSProvider_Stop m') = MDNSProvider_Stop m' ∧ mp_running (MDNSProvider_Stop m') = false) as Hstop.
  { intros m'. unfold MDNSProvider_Stop. destruct (mp_running m') eqn:E; simpl; [done|]. by rewrite E. }
  unfold MDNSProvider_Start. destruct (mp_running m) eqn:Hr; [by split_and!; try apply Hstop|].
  destruct (announcedIP m e); simpl; [|split_and!; try apply Hstop; naive_solver].
  destruct (me_NewMDNSService e); simpl; [split_and!; try apply Hstop; naive_solver|].
  destruct (me_NewServer e); simpl; split_and!; try apply Hstop; naive_solver.
Qed.

(** What a running mDNS provider finds: the IPv4 addresses of the entries, in
    order; the other entries are skipped. *)
Lemma MDNSProvider_Discover_spec m received :
  MDNSProvider_Discover m received =
    if mp_running m
    then map (λ e, IP_String (se_AddrV4 e) +:+ ":" +:+ itoa (se_Port e)) (filter (λ e, se_AddrV4 e ≠ []) received)
    else [].
Proof.
  unfold MDNSProvider_Discover. destruct (mp_running m); [|done]. cbn [negb].
  match goal with |- omap ?g _ = _ => set (f := g) end.
  induction received as [|e l IH]; [done|].
  assert (omap f (e :: l) = match f e with Some p => p :: omap f l | None => omap f l end) as -> by done.
  rewrite IH, filter_cons. unfold f, copyServiceEntry. cbn -[decide]. case_bool_decide; case_decide; try done; (cbn [map]; f_equal; destruct (se_AddrV4 e) eqn:E; [by destruct H|]; done).
Qed.
End Text.

(** Of a validated configuration every static peer is found. *)
Lemma static_peers_are_found cfg peers :
  DiscoveryConfig_Validate cfg = None → ds_Static cfg = Some peers → StaticProvider_Discover peers = peers.
Proof.
  unfold DiscoveryConfig_Validate. intros H Hs. rewrite Hs in H. autorewrite with vpa in H. destruct H as (_ & H & _).
  clear Hs. revert H. generalize 0%Z. induction peers as [|p peers IH]; intros i; simpl; [done|]. autorewrite with vpa.
  intros (_ & Hp & Hrest). unfold splitError in Hp. unfold StaticProvider_Discover in *. rewrite filter_cons.
  rewrite decide_True by (unfold validAddress; by destruct (SplitHostPort p)). f_equal.
  by apply (IH (i + 1)%Z).
Qed.

(** The providers are those of the configuration, in its order; an unknown
    type or an empty list of static peers is an error, a missing section of
    static peers a panic, also with a configuration that passes validation. *)
Lemma CreateProviders_spec cfg :
  match CreateProviders cfg with
  | Returned (Ok ps) => map GetProviderType ps = ds_Providers cfg
  | Returned (Err _) => ∃ t, t ∈ ds_Providers cfg ∧ ((t ≠ "static" ∧ t ≠ "mdns") ∨ (t = "static" ∧ ds_Static cfg = Some []))
  | Panicked _ => "static" ∈ ds_Providers cfg ∧ ds_Static cfg = None
  end.
Proof.
  unfold CreateProviders. induction (ds_Providers cfg) as [|t ts IH]; [done|]. simpl. unfold createProvider.
  destruct (String.eqb_spec t "static") as [->|Hs].
  - unfold createStaticProvider. destruct (ds_Static cfg) as [[|p ps]|]; simpl.
    + exists "static". split; [left|auto].
    + destruct (createAll ts cfg) as [[l|]|]; simpl; [by f_equal| |].
      * destruct IH as (t & ? & ?). exists t. split; [by right|done].
      * destruct IH as [? ?]. split; [by right|done].
    + split; [left|done].
  - destruct (String.eqb_spec t "mdns") as [->|Hm]; simpl.
    + destruct (createAll ts cfg) as [[l|]|]; simpl; [by f_equal| |].
      * destruct IH as (t & ? & ?). exists t. split; [by right|done].
      * destruct IH as [? ?]. split; [by right|done].
    + exists t. split; [left|auto].
Qed.

Lemma validated_configuration_panics :
  let cfg := mkDiscovery true (30 * Second) ["static"] None (ds_MDNS (cl_Discovery ClusterConfig_GetDefaults)) in
  DiscoveryConfig_Validate cfg = None ∧ CreateProviders cfg = Panicked "nil pointer dereference".
Proof. vm_compute. by split. Qed.

(* ------------------------------------------------------------------ *)
(** ** A run *)

(** What joining and the delayed bootstrap keep, a round of discovery keeps;
    starting panics only for a missing section of static peers. *)
Lemma Start_keeps {W} `{DiscoveryWorld W} ParseIP IP_String (P : W → Prop) s w envs found :
  (∀ w l, P w → P (dy_Join w l).2) → (∀ w l, P w → P (dy_TryDelayedBootstrap w l).2) → P w →
  match Start ParseIP IP_String s w envs found with
  | Returned (_, _, _, w') => P w'
  | Panicked _ => ds_Enabled (sv_config s) = true ∧ "static" ∈ ds_Providers (sv_config s) ∧ ds_Static (sv_config s) = None
  end.
Proof.
  intros Hj Hb Hw. unfold Start. destruct (sv_running s); [done|].
  destruct (ds_Enabled (sv_config s)); cbn [negb]; [|done].
  pose proof (CreateProviders_spec (sv_config s)) as Hc. destruct (CreateProviders _) as [[ps|err]|why]; [|done|done].
  cbn [obind]. destruct ps as [|p ps]; [done|].
  unfold runDiscovery. case_match; [done|]. case_match; [done|].
  match goal with |- P (match dy_Join w ?l with _ => _ end) => pose proof (Hj w l Hw); destruct (dy_Join w l) as [[e|] w'] end;
    [done|]. case_match; [by apply Hb|done].
Qed.

(** A world that remembers what was joined. *)
Record toyWorld := mkToyWorld { tw_joined : list string; tw_members : list Node; tw_bootstraps : list (list string) }.

#[global] Instance toyWorld_DiscoveryWorld : DiscoveryWorld toyWorld := {
  dy_Join w peers := (None, mkToyWorld (tw_joined w ++ peers) (tw_members w) (tw_bootstraps w));
  dy_GetMembers := tw_members;
  dy_TryDelayedBootstrap w peers := (None, mkToyWorld (tw_joined w) (tw_members w) (tw_bootstraps w ++ [peers]))
}.

Definition sampleDiscovery (peers : list string) : Service :=
  SetPeerJoiner (NewService (mkDiscovery true (30 * Second) ["static"] (Some peers)
    (ds_MDNS (cl_Discovery ClusterConfig_GetDefaults)))).

Definition noEnv : nat → mdnsEnv := λ _, mkMdnsEnv (Ok []) None None.

(** The service is started and stopped while its loop waits; the ticker comes
    first: the loop goes on for ever and joins its static peers. *)
Lemma discovery_loop_after_stop_witness :
  match Start (λ _, None) (λ _, "") (sampleDiscovery ["10.0.0.2:7946"]) (mkToyWorld [] [] []) noEnv (λ _, []) with
  | Returned (None, true, s, w) =>
      tw_joined w = ["10.0.0.2:7946"] ∧
      let l := mkLWorld (Stop s) LoopEnter w in
      rtc (loopStep (λ _, None) (λ _, "")) (mkLWorld (Stop s) LoopEnter w) l ∧
      ∀ l', rtc (loopStep (λ _, None) (λ _, "")) l l' → lw_loop l' ≠ LoopDone
  | _ => False
  end.
Proof.
  destruct (Start _ _ _ _ _ _) as [[[[[err|] []] s] w]|] eqn:E; vm_compute in E; simplify_eq.
  split; [done|]. split; [apply rtc_refl|].
  match goal with |- context [mkLWorld (Stop ?s) LoopEnter ?w] =>
    pose proof (discovery_loop_after_stop (λ _, None) (λ _, "") s w LoopEnter eq_refl eq_refl) as [_ H]
  end.
  intros l' Hl'. apply (H _ (rtc_refl _ _) eq_refl l' Hl').
Defined.
