(* ===== verification/Memberlist.v ===== *)
(** * Memberlist: services/memberlist/memberlist.go

    The service that runs the gossip, its delegate and, when configured, the
    discovery. The gossip library is the class [Gossip]: its calls answer
    with the events it reports to the delegate meanwhile. The Raft manager's
    state stands beside the service. A service that was created has a list,
    so the source's checks for a nil list are always passed. *)

From Stdlib Require Import Ascii.
From S2P Require Import Prelude GoStd GoText Json Errors Config NodeMeta Delegate.
From S2P Require Discovery RaftStorage RaftFsm.

Local Open Scope vpa_scope.

(* ------------------------------------------------------------------ *)
(** ** The gossip library *)

Inductive gossipEvent := GJoin (node : Node) | GLeave (node : Node) | GUpdate (node : Node).

Class Gossip (L : Type) := {
  gl_Members : L → list Node;
  gl_LocalNode : L → Node;
  gl_NumMembers : L → Z;
  gl_Join : L → list string → result Z * list gossipEvent * L;
  gl_Leave : L → option goError * list gossipEvent * L;
  gl_Shutdown : L → option goError * L
}.

(** The fields of the library's configuration that the source sets. *)
Record mlConfig := mkMlConfig {
  lc_BindAddr : string; lc_BindPort : Z; lc_AdvertiseAddr : string; lc_AdvertisePort : Z;
  lc_GossipInterval : Z; lc_GossipNodes : Z; lc_ProbeInterval : Z; lc_ProbeTimeout : Z;
  lc_SecretKey : option (list ascii); lc_Name : string
}.

(* ------------------------------------------------------------------ *)
(** ** applyConfig *)

Definition hostPort (what : string) (address : string) : result (string * Z) :=
  match SplitHostPort address with
  | inr why => Err (errorf_w ("invalid " +:+ what +:+ " address format") (EText why))
  | inl (host, port) =>
      match Atoi port with
      | inr why => Err (errorf_w ("invalid " +:+ what +:+ " port") (EText why))
      | inl p => Ok (host, p)
      end
  end.

Definition orKeep (v old : Z) : Z := if (0 <? v)%Z then v else old.

Definition applyConfig (c : MemberlistConfig) (ml : mlConfig) : result mlConfig :=
  rbind (hostPort "bind" (mb_BindAddress c)) (λ '(bindHost, bindPort),
  rbind (if String.eqb (mb_AdvertiseAddress c) "" then Ok (lc_AdvertiseAddr ml, lc_AdvertisePort ml)
         else hostPort "advertise" (mb_AdvertiseAddress c)) (λ '(advHost, advPort),
  rbind (if String.eqb (mb_Encryption c) "" then Ok (lc_SecretKey ml)
         else match DecodeEncryptionKey (mb_Encryption c) with
              | Err err => Err (errorf_w "invalid encryption key" err)
              | Ok key => Ok key
              end) (λ key,
  Ok (mkMlConfig bindHost bindPort advHost advPort
        (orKeep (gs_Interval (mb_Gossip c)) (lc_GossipInterval ml)) (orKeep (gs_Nodes (mb_Gossip c)) (lc_GossipNodes ml))
        (orKeep (pb_Interval (mb_Probe c)) (lc_ProbeInterval ml)) (orKeep (pb_Timeout (mb_Probe c)) (lc_ProbeTimeout ml))
        key (default (lc_Name ml) (mb_Metadata c !! "node_name")))))).

(* ------------------------------------------------------------------ *)
(** ** The service *)

Section Service.
Context {L R : Type} `{HL : Gossip L, HR : RaftManager R}.

(** The last three fields count goroutines: leadership monitors, started
    runs of ProcessPendingPeers, delayed runs of processExistingMembers. *)
Record Service := mkService {
  ms_list : L; ms_config : MemberlistConfig; ms_delegate : RaftDelegate;
  ms_discovery : option Discovery.Service; ms_hasRaft : bool; ms_stopClosed : bool;
  ms_running : bool; ms_wasLeader : bool;
  ms_monitors : nat; ms_processing : nat; ms_delayed : nat
}.

(** The service and the Raft manager. *)
Definition Cluster : Type := Service * R.

Definition withList (ms : Service) (l : L) : Service :=
  mkService l (ms_config ms) (ms_delegate ms) (ms_discovery ms) (ms_hasRaft ms) (ms_stopClosed ms)
    (ms_running ms) (ms_wasLeader ms) (ms_monitors ms) (ms_processing ms) (ms_delayed ms).
Definition withDelegate (ms : Service) (d : RaftDelegate) : Service :=
  mkService (ms_list ms) (ms_config ms) d (ms_discovery ms) (ms_hasRaft ms) (ms_stopClosed ms)
    (ms_running ms) (ms_wasLeader ms) (ms_monitors ms) (ms_processing ms) (ms_delayed ms).
Definition withDiscovery (ms : Service) (d : option Discovery.Service) : Service :=
  mkService (ms_list ms) (ms_config ms) (ms_delegate ms) d (ms_hasRaft ms) (ms_stopClosed ms)
    (ms_running ms) (ms_wasLeader ms) (ms_monitors ms) (ms_processing ms) (ms_delayed ms).
Definition withLifecycle (ms : Service) (running stopClosed : bool) : Service :=
  mkService (ms_list ms) (ms_config ms) (ms_delegate ms) (ms_discovery ms) (ms_hasRaft ms) stopClosed
    running (ms_wasLeader ms) (ms_monitors ms) (ms_processing ms) (ms_delayed ms).
Definition withGoroutines (ms : Service) (wasLeader : bool) (monitors processing delayed : nat) : Service :=
  mkService (ms_list ms) (ms_config ms) (ms_delegate ms) (ms_discovery ms) (ms_hasRaft ms) (ms_stopClosed ms)
    (ms_running ms) wasLeader monitors processing delayed.

(** One event reaches the delegate; [members] is None while the list is
    being created. *)
Definition deliver (members : option (list Node)) (dr : RaftDelegate * R) (e : gossipEvent) : RaftDelegate * R :=
  match e with
  | GJoin node => NotifyJoin dr.1 dr.2 node
  | GLeave node => NotifyLeave dr.1 dr.2 members node
  | GUpdate _ => dr
  end.

Definition deliverAll (c : Cluster) (events : list gossipEvent) : Cluster :=
  let '(d, r) := foldl (deliver (Some (gl_Members (ms_list c.1)))) (ms_delegate c.1, c.2) events in
  (withDelegate c.1 d, r).

(** [create]: memberlist.Create, with the events it reports before it
    returns; [defaults]: DefaultWANConfig. *)
Definition NewMemberlistServiceWithMetadata (config : MemberlistConfig) (nodeMetadata : option NodeMetadata)
    (raftManager : bool) (defaults : mlConfig) (create : mlConfig → result L * list gossipEvent) (r : R)
  : result Service * R :=
  let d := NewRaftDelegate in
  let d := match nodeMetadata with Some m => SetNodeMetadata d m | None => d end in
  let d := if raftManager then Delegate.SetRaftManager d else d in
  match applyConfig config defaults with
  | Err err => (Err (errorf_w "failed to apply memberlist config" err), r)
  | Ok ml =>
      let '(created, events) := create ml in
      let '(d, r) := foldl (deliver None) (d, r) events in
      match created with
      | Err err => (Err (errorf_w "failed to create memberlist" err), r)
      | Ok list =>
          (Ok (mkService list config (SetLocalNodeName d (n_Name (gl_LocalNode list))) None raftManager
                 false false false 0 0 0), r)
      end
  end.

Definition NewMemberlistService (config : MemberlistConfig) (defaults : mlConfig)
    (create : mlConfig → result L * list gossipEvent) (r : R) : result Service * R :=
  NewMemberlistServiceWithMetadata config None false defaults create r.

Definition SetRaftManager (ms : Service) : Service :=
  mkService (ms_list ms) (ms_config ms) (Delegate.SetRaftManager (ms_delegate ms)) (ms_discovery ms) true
    (ms_stopClosed ms) (ms_running ms) (ms_wasLeader ms) (ms_monitors ms) (ms_processing ms) (ms_delayed ms).

Definition SetDiscoveryService (ms : Service) (discovery : Discovery.Service) : Service :=
  withDiscovery ms (Some (Discovery.SetPeerJoiner discovery)).

(* ------------------------------------------------------------------ *)
(** ** Joining *)

Definition Join (c : Cluster) (joinNodes : list string) : option goError * Cluster :=
  match joinNodes with
  | [] => (None, c)
  | _ =>
      let '(joined, events, l) := gl_Join (ms_list c.1) joinNodes in
      let '(ms, r) := deliverAll (withList c.1 l, c.2) events in
      match joined with
      | Err err => (Some (errorf_w "failed to join cluster" err), (ms, r))
      | Ok _ => (None, (withGoroutines ms (ms_wasLeader ms) (ms_monitors ms) (ms_processing ms) (S (ms_delayed ms)), r))
      end
  end.

(** The members but this node are treated as if they just joined. *)
Definition processExistingMembers (c : Cluster) : Cluster :=
  let local := gl_LocalNode (ms_list c.1) in
  deliverAll c (map GJoin (filter (λ m, n_Name m ≠ n_Name local) (gl_Members (ms_list c.1)))).

Definition GetMembers (ms : Service) : list Node := gl_Members (ms_list ms).
Definition GetLocalNode (ms : Service) : Node := gl_LocalNode (ms_list ms).
Definition GetMember (ms : Service) (name : string) : option Node :=
  find (λ m, String.eqb (n_Name m) name) (GetMembers ms).
Definition IsHealthy (ms : Service) : bool := ms_running ms.
Definition GetClusterSize (ms : Service) : Z := gl_NumMembers (ms_list ms).

(** What the discovery sees of the service and the Raft manager. *)
#[export] Instance Cluster_DiscoveryWorld : Discovery.DiscoveryWorld Cluster := {
  Discovery.dy_Join := Join;
  Discovery.dy_GetMembers c := GetMembers c.1;
  Discovery.dy_TryDelayedBootstrap c peers :=
    let '(err, r) := rm_TryDelayedBootstrap c.2 peers in (err, (c.1, r))
}.

(* ------------------------------------------------------------------ *)
(** ** Leadership *)

Definition checkLeadershipChange (c : Cluster) : Service :=
  let ms := c.1 in
  if negb (ms_hasRaft ms) then ms
  else
    let isLeader := rm_IsLeader c.2 in
    if isLeader && negb (ms_wasLeader ms) then
      withGoroutines ms true (ms_monitors ms) (S (ms_processing ms)) (ms_delayed ms)
    else if negb isLeader && ms_wasLeader ms then
      withGoroutines ms false (ms_monitors ms) (ms_processing ms) (ms_delayed ms)
    else ms.

(** A started run of ProcessPendingPeers. *)
Definition runProcessing (c : Cluster) (order : list string) : Cluster :=
  let '(d, r) := ProcessPendingPeers (ms_delegate c.1) c.2 order in
  (withGoroutines (withDelegate c.1 d) (ms_wasLeader c.1) (ms_monitors c.1) (ms_processing c.1 - 1) (ms_delayed c.1), r).

(* ------------------------------------------------------------------ *)
(** ** Start and Stop *)

Section Lifecycle.
Context (ParseIP : string → option Discovery.IP) (IP_String : Discovery.IP → string).

Definition Start (c : Cluster) (envs : nat → Discovery.mdnsEnv) (found : nat → list Discovery.ServiceEntry)
  : outcome (option goError * Cluster) :=
  if ms_running c.1 then Returned (Some (EText "memberlist service already running"), c)
  else
    let ms := withLifecycle c.1 true (ms_stopClosed c.1) in
    do! c <- match ms_discovery ms with
             | None => Returned (ms, c.2)
             | Some d =>
                 do! r <- Discovery.Start ParseIP IP_String d (ms, c.2) envs found;
                 let '(_, _, d, (ms, r)) := r in Returned (withDiscovery ms (Some d), r)
             end;
    let ms := c.1 in
    Returned (None, (if ms_hasRaft ms
                     then withGoroutines ms (ms_wasLeader ms) (S (ms_monitors ms)) (ms_processing ms) (ms_delayed ms)
                     else ms, c.2)).

(** The leave's events are delivered whether or not Stop waits for its end. *)
Definition Stop (c : Cluster) : outcome (option goError * Cluster) :=
  if negb (ms_running c.1) then Returned (None, c)
  else
    let ms := withDiscovery c.1 (Discovery.Stop <$> ms_discovery c.1) in
    if ms_stopClosed ms then Panicked "close of closed channel"
    else
      let ms := withLifecycle ms false true in
      let ms := withDelegate ms (setShutdown (ms_delegate ms)) in
      let '(_, events, l) := gl_Leave (ms_list ms) in
      let '(ms, r) := deliverAll (withList ms l, c.2) events in
      Returned (None, (withList ms (gl_Shutdown (ms_list ms)).2, r)).
End Lifecycle.
End Service.

Arguments Service : clear implicits.
Arguments Cluster : clear implicits.

(* ------------------------------------------------------------------ *)
(** ** The configuration of the gossip *)

(** What validation does not look at: the ports' numbers and the key. *)
Definition portsNumeric (c : MemberlistConfig) : Prop :=
  ∀ address host port, address = mb_BindAddress c ∨ (address = mb_AdvertiseAddress c ∧ address ≠ "") →
    SplitHostPort address = inl (host, port) → ∃ p, Atoi port = inl p.

Definition keyUsable (c : MemberlistConfig) : Prop :=
  mb_Encryption c = "" ∨ (AESKeySize ≤ length (String.list_ascii_of_string (mb_Encryption c)))%nat.

Lemma hostPort_ok what address :
  splitError address = None → (∀ host port, SplitHostPort address = inl (host, port) → ∃ p, Atoi port = inl p) →
  ∃ host port p, hostPort what address = Ok (host, p) ∧ SplitHostPort address = inl (host, port) ∧ Atoi port = inl p.
Proof.
  unfold splitError, hostPort. destruct (SplitHostPort address) as [[host port]|]; [|done]. intros _ H.
  destruct (H host port eq_refl) as [p Hp]. exists host, port, p. by rewrite Hp.
Qed.

Lemma hostPort_ok_numeric what address r :
  hostPort what address = Ok r → ∀ host port, SplitHostPort address = inl (host, port) → ∃ p, Atoi port = inl p.
Proof.
  unfold hostPort. destruct (SplitHostPort address) as [[h p]|]; [|done]. destruct (Atoi p) as [n|] eqn:E; [|done].
  intros _ host port [= <- <-]. eauto.
Qed.

(** A validated configuration is applied exactly when its ports are numbers
    and its key is long enough; then its addresses, intervals and numbers are
    all in force. *)
Lemma applyConfig_spec c ml :
  MemberlistConfig_Validate c = None →
  (portsNumeric c ∧ keyUsable c ↔ is_ok (applyConfig c ml) = true) ∧
  ∀ ml', applyConfig c ml = Ok ml' →
    (∃ port, SplitHostPort (mb_BindAddress c) = inl (lc_BindAddr ml', port) ∧ Atoi port = inl (lc_BindPort ml')) ∧
    lc_GossipInterval ml' = gs_Interval (mb_Gossip c) ∧ lc_GossipNodes ml' = gs_Nodes (mb_Gossip c) ∧
    lc_ProbeInterval ml' = pb_Interval (mb_Probe c) ∧ lc_ProbeTimeout ml' = pb_Timeout (mb_Probe c) ∧
    lc_SecretKey ml' = (if String.eqb (mb_Encryption c) "" then lc_SecretKey ml
                        else Some (take AESKeySize (String.list_ascii_of_string (mb_Encryption c)))).
Proof.
  unfold MemberlistConfig_Validate, GossipConfig_Validate, ProbeConfig_Validate. intros H. autorewrite with vpa in H.
  destruct H as (_ & Hb & Ha & (Hgi & Hgn & _) & (Hpi & Hpt & _) & _).
  assert (∀ a b, (a <=? 0)%Z = false → orKeep a b = a) as Hkeep by (intros a b ?; unfold orKeep; rewrite (proj2 (Z.ltb_lt _ _)); lia).
  assert (if String.eqb (mb_AdvertiseAddress c) "" then True else splitError (mb_AdvertiseAddress c) = None) as Ha'.
  { unfold str_nonempty in Ha. by destruct (String.eqb (mb_AdvertiseAddress c) ""). }
  clear Ha. unfold applyConfig. split.
  - unfold portsNumeric, keyUsable. split.
    + intros [Hp Hk]. destruct (hostPort_ok "bind" _ Hb) as (h & port & p & -> & _ & _); [intros; eapply Hp; eauto|]. simpl.
      assert (∃ h p, (if String.eqb (mb_AdvertiseAddress c) "" then Ok (lc_AdvertiseAddr ml, lc_AdvertisePort ml)
                      else hostPort "advertise" (mb_AdvertiseAddress c)) = Ok (h, p)) as (h' & p' & ->).
      { destruct (String.eqb_spec (mb_AdvertiseAddress c) ""); [eauto|].
        destruct (hostPort_ok "advertise" _ Ha') as (h' & ? & p' & -> & _); [intros; eapply Hp; eauto|]. eauto. }
      simpl. rewrite DecodeEncryptionKey_spec. destruct (String.eqb_spec (mb_Encryption c) "") as [|He]; [done|].
      destruct Hk as [?|Hk]; [done|]. simpl. case_decide as Hl; [|by rewrite decide_True]. done.
    + destruct (hostPort "bind" _) as [[h p]|] eqn:E1; [|done]. simpl.
      destruct (if String.eqb (mb_AdvertiseAddress c) "" then _ else _) as [[h' p']|] eqn:E2; [|done]. simpl.
      intros Hk. split.
      * intros a host port [->|[-> Hne]]; [by eapply hostPort_ok_numeric|].
        rewrite (proj2 (String.eqb_neq _ _) Hne) in E2. by eapply hostPort_ok_numeric.
      * rewrite DecodeEncryptionKey_spec in Hk. destruct (String.eqb_spec (mb_Encryption c) "") as [|He]; [by left|]. right.
        simpl in Hk. destruct (decide (_ = [])) as [Hl|]; [|by case_decide].
        destruct (mb_Encryption c); [done|]. done.
  - intros ml'. destruct (hostPort "bind" _) as [[h p]|] eqn:E1; [|done]. simpl.
    destruct (if String.eqb (mb_AdvertiseAddress c) "" then _ else _) as [[h' p']|] eqn:E2; [|done]. simpl.
    destruct (if String.eqb (mb_Encryption c) "" then _ else _) as [key|] eqn:E3; [|done]. simpl. intros [= <-]. simpl.
    rewrite !Hkeep by done. split_and!; try done.
    + unfold hostPort in E1. destruct (SplitHostPort _) as [[host port]|]; [|done]. destruct (Atoi port) eqn:Ea; [|done].
      simplify_eq. eauto.
    + rewrite DecodeEncryptionKey_spec in E3. destruct (String.eqb_spec (mb_Encryption c) "") as [|He]; [by simplify_eq|].
      simpl in E3. destruct (decide (_ = [])) as [Hl|]; [by destruct (mb_Encryption c)|]. by case_decide; simplify_eq.
Qed.

(* ------------------------------------------------------------------ *)
(** ** The service's calls as histories of its delegate *)

Lemma dtrace_trans {R} `{RaftManager R} (w0 w w' : dworld (R := R)) h h' :
  dtrace w0 h w → dtrace w h' w' → dtrace w0 (h ++ h') w'.
Proof.
  intros H1 H2. induction H2 as [|h' w1 e w2 _ IH Hs]; [by rewrite app_nil_r|].
  rewrite app_assoc. by eapply dt_step.
Qed.

Lemma dtrace_once {R} `{RaftManager R} (w w' : dworld (R := R)) e : dstep w e w' → dtrace w [e] w'.
Proof. intros Hs. exact (dt_step w [] w e w' (dt_start w) Hs). Qed.

Section Runs.
Context {L R : Type} `{HL : Gossip L, HR : RaftManager R}.
Notation Cluster := (Cluster L (Recorded R)).

(** What the delegate and the record of calls of a service see. *)
Definition seen (c : Cluster) : dworld (R := R) := mkDWorld (ms_delegate c.1) c.2 [].

Definition labelOf (e : gossipEvent) : devent :=
  match e with GJoin node => Joined node | GLeave node => Left_ node | GUpdate _ => Silent end.

Lemma deliver_run members d (r : Recorded R) events :
  dtrace (mkDWorld d r []) (map labelOf events)
    (let dr := foldl (deliver members) (d, r) events in mkDWorld dr.1 dr.2 []).
Proof.
  revert d r. induction events as [|e events IH]; intros d r; [constructor|]. simpl.
  change (labelOf e :: map labelOf events) with ([labelOf e] ++ map labelOf events). apply (dtrace_trans _ (mkDWorld (deliver members (d, r) e).1 (deliver members (d, r) e).2 [])).
  - apply dtrace_once. destruct e as [node|node|node]; simpl.
    + exact (ds_join (mkDWorld d r []) node).
    + exact (ds_leave (mkDWorld d r []) members node).
    + pose proof (ds_raft (mkDWorld d r []) (rec_mgr r)) as Hs. simpl in Hs. by destruct r.
  - simpl. pose proof (IH (deliver members (d, r) e).1 (deliver members (d, r) e).2) as H.
    by destruct (deliver members (d, r) e).
Qed.

Lemma deliverAll_run (c : Cluster) events : dtrace (seen c) (map labelOf events) (seen (deliverAll c events)).
Proof.
  unfold seen, deliverAll. pose proof (deliver_run (Some (gl_Members (ms_list c.1))) (ms_delegate c.1) c.2 events) as H.
  simpl in H. by destruct (foldl _ _ _) as [d r].
Qed.

(** A join: the events the gossip reports meanwhile. *)
Lemma Join_run (c : Cluster) nodes :
  ∃ events, dtrace (seen c) (map labelOf events) (seen (Join c nodes).2) ∧
    (nodes ≠ [] → events = (gl_Join (ms_list c.1) nodes).1.2).
Proof.
  unfold Join. destruct nodes as [|n nodes]; [exists []; split; [constructor|done]|].
  destruct (gl_Join (ms_list c.1) (n :: nodes)) as [[joined events] l]. exists events. split; [|done].
  pose proof (deliverAll_run (withList c.1 l, c.2) events) as H.
  destruct (deliverAll (withList c.1 l, c.2) events) as [ms r]. by destruct joined.
Qed.

(** The other members as if they joined. *)
Definition otherMembers (c : Cluster) : list Node :=
  filter (λ m, n_Name m ≠ n_Name (gl_LocalNode (ms_list c.1))) (gl_Members (ms_list c.1)).

Lemma processExistingMembers_run (c : Cluster) :
  dtrace (seen c) (map Joined (otherMembers c)) (seen (processExistingMembers c)).
Proof.
  unfold processExistingMembers. pose proof (deliverAll_run c (map GJoin (otherMembers c))) as H.
  by rewrite map_map in H.
Qed.

Lemma runProcessing_run (c : Cluster) order :
  order ≡ₚ elements (d_pendingRemovals (ms_delegate c.1)) → dtrace (seen c) [Silent] (seen (runProcessing c order)).
Proof.
  intros Ho. apply dtrace_once. pose proof (ds_process (seen c) order Ho) as H. unfold runProcessing, seen in *. simpl in H.
  by destruct (ProcessPendingPeers (ms_delegate c.1) c.2 order).
Qed.

Lemma raft_run (c : Cluster) m : dtrace (seen c) [Silent] (seen (c.1, mkRecorded m (rec_calls c.2))).
Proof. apply dtrace_once. exact (ds_raft (seen c) m). Qed.

(** A discovery: at most one join, then the cluster may change by itself. *)
Lemma runDiscovery_run IP_String d (c : Cluster) found :
  ∃ events tail, dtrace (seen c) (map labelOf events ++ tail) (seen (Discovery.runDiscovery IP_String d c found)) ∧
    (tail = [] ∨ tail = [Silent]) ∧
    (events = [] ∨ ∃ peers, events = (gl_Join (ms_list c.1) peers).1.2).
Proof.
  destruct (Discovery.runDiscovery_spec (λ _, None) IP_String d c found) as [->|(peers & Hne & _ & _ & ->)].
  { exists [], []. split_and!; [constructor|auto..]. }
  destruct (Join_run c peers) as (events & Hrun & He). change (Discovery.dy_Join c peers) with (Join c peers).
  destruct (Join c peers) as [[err|] c1]; simpl in Hrun.
  - exists events, []. rewrite app_nil_r. split_and!; [done|auto|]. right. exists peers. auto.
  - destruct (Discovery.sv_raftManager d); simpl.
    + exists events, [Silent]. split_and!; [|auto|right; exists peers; auto]. eapply dtrace_trans; [done|].
      destruct (rm_TryDelayedBootstrap (rec_mgr c1.2) peers) as [err r]. apply raft_run.
    + exists events, []. rewrite app_nil_r. split_and!; [done|auto|]. right. exists peers. auto.
Qed.

(** Any state is explained by who is pending and who was asked for. *)
Lemma dinv_any d (calls : list memberCall) :
  d_hasRaft d = true → NoDup (map pp_NodeID (d_pendingPeers d)) →
  ∃ J0 L0, dinv d J0 L0 d calls [].
Proof.
  intros Hr Hnd.
  exists (d_pendingPeers d ++ omap (λ c, match c with CallAdd id a => Some (mkPending id a) | _ => None end) calls),
    (elements (d_pendingRemovals d) ++ omap (λ c, match c with CallRemove id => Some id | _ => None end) calls).
  split; try done.
  - intros p Hp. apply elem_of_app. auto.
  - intros id a Hc. apply elem_of_app. right. apply list_elem_of_omap. by exists (CallAdd id a).
  - intros p [Hp|Hp]%elem_of_app; [exists (pp_RaftAddress p); left; by destruct p|].
    apply list_elem_of_omap in Hp as (c & Hc & Hp). destruct c; simplify_eq/=. eauto.
  - intros id [?|[Hn|Hc]]; apply elem_of_app; [left; by apply elem_of_elements|by apply elem_of_nil in Hn|].
    right. apply list_elem_of_omap. by exists (CallRemove id).
  - intros id [?%elem_of_elements|Hc]%elem_of_app; [auto|]. apply list_elem_of_omap in Hc as (c & Hc & Heq).
    destruct c; simplify_eq/=. auto.
Qed.

(** The delegate with the same name, not shut down: as good a reader of
    metadata. *)
Definition reader (d : RaftDelegate) : RaftDelegate := SetLocalNodeName NewRaftDelegate (d_localNodeName d).

(** C30: After the delayed processing of the existing members, an election of this node
    and the processing of what is pending, every other member whose metadata names a peer
    with a Raft address has been asked to become a voter, whoever led in between. *)
Theorem members_become_voters (c : Cluster) m order p node :
  d_hasRaft (ms_delegate c.1) = true → NoDup (map pp_NodeID (d_pendingPeers (ms_delegate c.1))) →
  node ∈ otherMembers c → peerOf (ms_delegate c.1) node = Some p →
  let c1 := processExistingMembers c in
  rm_IsLeader m = true → order ≡ₚ elements (d_pendingRemovals (ms_delegate c1.1)) →
  let c2 := runProcessing (c1.1, mkRecorded m (rec_calls c1.2)) order in
  d_pendingPeers (ms_delegate c2.1) = [] ∧ ∃ a, CallAdd (pp_NodeID p) a ∈ rec_calls c2.2.
Proof.
  intros Hr Hnd Hnode Hp c1 Hl Ho c2.
  destruct (dinv_any (ms_delegate c.1) (rec_calls c.2) Hr Hnd) as (J0 & L0 & H0).
  set (d0 := reader (ms_delegate c.1)).
  assert (winv d0 J0 L0 [] (seen c)) as Hi0.
  { unfold winv. simpl. rewrite !app_nil_r. destruct H0. by split. }
  pose proof (dtrace_inv d0 J0 L0 _ _ _ eq_refl Hi0 (processExistingMembers_run c)) as Hi1.
  fold c1 in Hi1. unfold winv in Hi1. simpl in Hi1.
  pose proof (dinv_processed _ _ _ _ _ _ order Hi1 Ho) as Hi2.
  destruct (ProcessPendingPeers_leader (ms_delegate c1.1) (mkRecorded m (rec_calls c1.2)) order) as [Hd Hc];
    [apply Hi1|done|].
  assert (d_pendingPeers (ms_delegate c2.1) = [] ∧
    rec_calls c2.2 = rec_calls (ProcessPendingPeers (ms_delegate c1.1) (mkRecorded m (rec_calls c1.2)) order).2) as [Hn Hcalls].
  { unfold c2, runProcessing. simpl. destruct (ProcessPendingPeers _ _ order) as [d r]. simpl in *. by rewrite Hd. }
  split; [done|]. rewrite Hcalls, Hc. destruct (di_joined _ _ _ _ _ _ Hi2 p) as [a [Hin|Hin]].
  - apply elem_of_app. right. apply list_elem_of_omap. exists (Joined node). split; [by apply list_elem_of_fmap; eauto|].
    rewrite <- Hp. by apply peerOf_name.
  - by apply elem_of_nil in Hin.
  - eauto.
Qed.
End Runs.

(* ------------------------------------------------------------------ *)
(** ** Lifecycle *)

Section LifecycleLemmas.
Context {L R : Type} `{HL : Gossip L, HR : RaftManager R}.
Context (ParseIP : string → option Discovery.IP) (IP_String : Discovery.IP → string).
Notation Cluster := (Cluster L R).

(** The flags of a service, which events and joining leave alone. *)
Definition flagsOf (c : Cluster) : bool * bool * nat := (ms_running c.1, ms_hasRaft c.1, ms_monitors c.1).

Lemma deliverAll_flags (c : Cluster) events : flagsOf (deliverAll c events) = flagsOf c.
Proof. unfold deliverAll. by destruct (foldl _ _ events). Qed.

Lemma Join_flags (c : Cluster) l : flagsOf (Join c l).2 = flagsOf c.
Proof.
  unfold Join. destruct l as [|a l]; [done|]. destruct (gl_Join _ _) as [[joined events] g].
  pose proof (deliverAll_flags (withList c.1 g, c.2) events) as H. destruct (deliverAll _ _) as [ms r].
  by destruct joined.
Qed.

(** A service that does not run starts, with one more monitor of leadership
    when it has a Raft manager. *)
Lemma Start_fresh (c : Cluster) envs found :
  ms_running c.1 = false →
  match Start ParseIP IP_String c envs found with
  | Returned (err, c') =>
      err = None ∧ flagsOf c' = (true, ms_hasRaft c.1, if ms_hasRaft c.1 then S (ms_monitors c.1) else ms_monitors c.1)
  | Panicked _ =>
      ∃ d, ms_discovery c.1 = Some d ∧ ds_Enabled (Discovery.sv_config d) = true ∧
        ("static" ∈ ds_Providers (Discovery.sv_config d)) ∧ ds_Static (Discovery.sv_config d) = None
  end.
Proof.
  intros Hr. unfold Start. rewrite Hr. set (c0 := withLifecycle c.1 true (ms_stopClosed c.1)).
  assert (∀ c' : Cluster, flagsOf c' = flagsOf (c0, c.2) →
    flagsOf (if ms_hasRaft c'.1
             then withGoroutines c'.1 (ms_wasLeader c'.1) (S (ms_monitors c'.1)) (ms_processing c'.1) (ms_delayed c'.1)
             else c'.1, c'.2) = (true, ms_hasRaft c.1, if ms_hasRaft c.1 then S (ms_monitors c.1) else ms_monitors c.1)) as Hend.
  { intros c' [= H1 H2 H3]. unfold flagsOf. simpl in *. rewrite <- H2, <- H3. destruct (ms_hasRaft c'.1) eqn:E; simpl; congruence. }
  destruct (ms_discovery c0) as [d|] eqn:Ed; [|split; [done|by apply (Hend (c0, c.2))]].
  pose proof (Discovery.Start_keeps ParseIP IP_String (λ c', flagsOf c' = flagsOf (c0, c.2)) d (c0, c.2) envs found) as Hd.
  assert (∀ (w : Cluster) l, flagsOf w = flagsOf (c0, c.2) → flagsOf (Discovery.dy_Join w l).2 = flagsOf (c0, c.2)) as Hj
    by (intros w l <-; apply Join_flags).
  assert (∀ (w : Cluster) l, flagsOf w = flagsOf (c0, c.2) →
    flagsOf (Discovery.dy_TryDelayedBootstrap w l).2 = flagsOf (c0, c.2)) as Hb
    by (intros w l <-; simpl; by destruct (rm_TryDelayedBootstrap w.2 l)).
  destruct (Discovery.Start _ _ _ _ _ _) as [[[[err b] d'] [ms r]]|why]; cbn [obind].
  - split; [done|]. apply (Hend (withDiscovery ms (Some d'), r)). by apply Hd.
  - exists d. split; [done|]. by apply Hd.
Qed.

(** A service that was stopped can be started again, but stopping it then
    closes its stop channel a second time. *)
Lemma stop_after_restart_panics (c c1 c2 : Cluster) err1 err2 envs found :
  ms_running c.1 = true → ms_discovery c.1 = None → Stop c = Returned (err1, c1) →
  Start ParseIP IP_String c1 envs found = Returned (err2, c2) →
  err2 = None ∧ Stop c2 = Panicked "close of closed channel".
Proof.
  intros Hr Hd HS. unfold Stop in HS. rewrite Hr, Hd in HS. simpl in HS.
  destruct (ms_stopClosed c.1); [done|]. destruct (gl_Leave (ms_list c.1)) as [[e events] l].
  unfold deliverAll in HS. simpl in HS. destruct (foldl _ _ events) as [d r]. injection HS as <- <-.
  unfold Start. simpl. intros [= <- <-]. split; [done|]. unfold Stop. simpl. by destruct (ms_hasRaft c.1).
Qed.

(** Start is refused while the service runs; a service without Raft manager
    or discovery changes nothing but its flag. *)
Lemma Start_spec (c : Cluster) envs found :
  ms_discovery c.1 = None →
  Start ParseIP IP_String c envs found =
    if ms_running c.1 then Returned (Some (EText "memberlist service already running"), c)
    else Returned (None, (let ms := withLifecycle c.1 true (ms_stopClosed c.1) in
                          withGoroutines ms (ms_wasLeader ms) (ms_monitors ms + if ms_hasRaft ms then 1 else 0)
                            (ms_processing ms) (ms_delayed ms), c.2)).
Proof.
  intros Hd. unfold Start. destruct (ms_running c.1); [done|]. destruct c as [[] r]. simpl in *. subst. simpl.
  match goal with |- context [if ?b then _ else _] => destruct b end; simpl; by rewrite ?Nat.add_1_r, ?Nat.add_0_r.
Qed.

(** A tick that finds this node leading for the first time starts a run of
    the pending changes; when it finds the role unchanged it does nothing. *)
Lemma checkLeadershipChange_spec (c : Cluster) :
  ms_hasRaft c.1 = true →
  ms_wasLeader (checkLeadershipChange c) = rm_IsLeader c.2 ∧
  ms_processing (checkLeadershipChange c) =
    (ms_processing c.1 + if rm_IsLeader c.2 && negb (ms_wasLeader c.1) then 1 else 0)%nat ∧
  ms_delegate (checkLeadershipChange c) = ms_delegate c.1.
Proof.
  intros Hr. unfold checkLeadershipChange. rewrite Hr. simpl.
  destruct (rm_IsLeader c.2), (ms_wasLeader c.1) eqn:Hw; simpl; rewrite ?Hw; split_and!; try done; lia.
Qed.
End LifecycleLemmas.

(* ------------------------------------------------------------------ *)
(** ** A small gossip *)

(** Joining an address makes the node that has it a member. *)
Record toyGossip := mkToyGossip { tg_local : Node; tg_members : list Node; tg_net : list Node }.

Definition toyReached (g : toyGossip) (addresses : list string) : list Node :=
  filter (λ n, Discovery.memberAddress n ∈ addresses ∧ n_Name n ∉ map n_Name (tg_members g)) (tg_net g).

#[global] Instance toyGossip_Gossip : Gossip toyGossip := {
  gl_Members := tg_members;
  gl_LocalNode := tg_local;
  gl_NumMembers g := Z.of_nat (length (tg_members g));
  gl_Join g addresses :=
    let new := toyReached g addresses in
    (Ok (Z.of_nat (length addresses)), map GJoin new, mkToyGossip (tg_local g) (tg_members g ++ new) (tg_net g));
  gl_Leave g := (None, map GLeave (filter (λ n, n_Name n ≠ n_Name (tg_local g)) (tg_members g)), g);
  gl_Shutdown g := (None, g)
}.

Definition sampleNode (id addr raftAddress : string) : Node :=
  mkNode id addr 7946 (Marshal (mkNodeMetadata id "0.0.0.0:8080" raftAddress "peer" "" "" "" ∅)).

Definition node1 : Node := sampleNode "n1" "10.0.0.1" "10.0.0.1:7000".
Definition node2 : Node := sampleNode "n2" "10.0.0.2" "10.0.0.2:7000".
Definition node3 : Node := sampleNode "n3" "10.0.0.3" "10.0.0.3:7000".

Definition sampleMlConfig : mlConfig := mkMlConfig "" 0 "" 0 0 0 0 0 None "host".

(** The library reports the local node while the list is created, before the
    service can tell the delegate its name: the node caches itself. *)
Definition sampleCreate (net : list Node) (ml : mlConfig) : result toyGossip * list gossipEvent :=
  (Ok (mkToyGossip node1 [node1] net), [GJoin node1]).

Lemma local_node_caches_itself :
  let config := cl_Memberlist ClusterConfig_GetDefaults in
  match NewMemberlistServiceWithMetadata config None true sampleMlConfig (sampleCreate []) (mkToy false ["n1"] false) with
  | (Ok ms, r) => d_pendingPeers (ms_delegate ms) = [mkPending "n1" "10.0.0.1:7000"] ∧ d_localNodeName (ms_delegate ms) = "n1"
  | _ => False
  end.
Proof. vm_compute. by split. Qed.

(** n2 is joined while n1 follows; n1 is elected, and asks for n2. *)
Definition sampleService (net : list Node) : Service toyGossip :=
  mkService (mkToyGossip node1 [node1] net) (cl_Memberlist ClusterConfig_GetDefaults) sampleDelegate None true
    false true false 1 0 0.

Lemma members_become_voters_witness :
  let c := (Join (sampleService [node2], mkRecorded (mkToy false ["n1"] false) []) ["10.0.0.2:7946"]).2 in
  let c1 := processExistingMembers c in
  let c2 := runProcessing (c1.1, mkRecorded (mkToy true ["n1"] false) (rec_calls c1.2)) [] in
  n_Name <$> tg_members (ms_list c.1) = ["n1"; "n2"] ∧ ∃ a, CallAdd "n2" a ∈ rec_calls c2.2.
Proof.
  intros c c1 c2. split; [vm_compute; reflexivity|].
  destruct (members_become_voters c (mkToy true ["n1"] false) [] (mkPending "n2" "10.0.0.2:7000") node2)
    as [_ H]; [reflexivity| |vm_compute; left|vm_compute; reflexivity|reflexivity|vm_compute; done|exact H].
  vm_compute. repeat constructor. by intros ?%elem_of_nil.
Defined.

(** Leadership that is lost and won again between two ticks goes unnoticed:
    what was cached meanwhile stays cached. *)
Lemma brief_loss_of_leadership_strands_peers :
  let ms := withGoroutines (sampleService [node2]) true 1 0 0 in
  let c := (Join (ms, mkToy false ["n1"] false) ["10.0.0.2:7946"]).2 in
  let ms' := checkLeadershipChange (c.1, mkToy true ["n1"] false) in
  d_pendingPeers (ms_delegate ms') = [mkPending "n2" "10.0.0.2:7000"] ∧ ms_processing ms' = 0%nat.
Proof. vm_compute. by split. Qed.

(* ------------------------------------------------------------------ *)
(** ** Discovery, gossip and Raft together *)

(** The nodes as the static provider finds them: first only n2 is there, then
    n3 too. *)
Definition discoveryOf (peers : list string) : Discovery.Service :=
  Discovery.SetRaftManager (Discovery.withProviders (Discovery.sampleDiscovery peers) [Discovery.StaticP peers] true).

Definition deferredRaft : RaftStorage.RaftStorage RaftStorage.soloRaft :=
  RaftStorage.mkRaft (RaftStorage.mkSolo RaftStorage.Follower [] []) RaftFsm.createRaftFSM
    (RaftStorage.sampleRaftConfig [] 3) "n1" ∅ [] false true [] [].

Definition discover (peers : list string) (c : Cluster toyGossip (RaftStorage.RaftStorage RaftStorage.soloRaft))
  : Cluster toyGossip (RaftStorage.RaftStorage RaftStorage.soloRaft) :=
  Discovery.runDiscovery (λ _, "") (discoveryOf peers) c (λ _, []).

(** Found together, two peers bring the three nodes the bootstrap waits for;
    found one after the other they do not, because connected peers do not
    count: all three nodes are members, and the cluster is never formed. *)
Lemma peers_found_one_by_one_do_not_bootstrap :
  let c := (sampleService [node2; node3], deferredRaft) in
  let both := ["10.0.0.2:7946"; "10.0.0.3:7946"] in
  let c1 := discover both c in
  let c2 := discover both (discover ["10.0.0.2:7946"] c) in
  (n_Name <$> tg_members (ms_list c1.1) = ["n1"; "n2"; "n3"] ∧ RaftStorage.IsLeader c1.2 = true) ∧
  (n_Name <$> tg_members (ms_list c2.1) = ["n1"; "n2"; "n3"] ∧
   RaftStorage.rs_bootstrapDeferred c2.2 = true ∧ discover both c2 = c2).
Proof. vm_compute. by split_and!. Qed.
