(* ===== verification/Leadership.v ===== *)
(** * Leadership: the goroutines of services/memberlist/memberlist.go

    The leadership monitor ticks beside the gossip's callbacks, the runs of
    ProcessPendingPeers it has started, the rest of the program and the other
    nodes, which change the Raft manager. A join holds the delegate's lock
    from its look at the leader to its end and is one step; a leave looks at
    the leader without the lock, and each of its calls is a step. *)

From S2P Require Import Prelude Errors NodeMeta Delegate Memberlist.

(** Where a leave is in removeRaftPeer: before the emergency recovery, before
    the look at the leader, before the lock of the cache, before the removal. *)
Inductive leave :=
| Recovering (id : string)
| Deciding (id : string)
| Caching (id : string)
| Removing (id : string).

Section Leadership.
Context {L R : Type} `{HL : Gossip L, HR : RaftManager R}.

(** [lw_raced] is no part of the program: the removals that were cached
    although this node had come to lead since they were told it does not, and
    that no election was noticed after. *)
Record lworld := mkLWorld { lw_c : Cluster L R; lw_leaves : list leave; lw_raced : gset string }.

Implicit Types (c : Cluster L R) (w : lworld).

Definition withCluster w c : lworld := mkLWorld c (lw_leaves w) (lw_raced w).
Definition withLeaves w c (ls : list leave) : lworld := mkLWorld c ls (lw_raced w).

Definition noticesElection c : bool := ms_hasRaft c.1 && rm_IsLeader c.2 && negb (ms_wasLeader c.1).

Definition ticked w : lworld :=
  let c := lw_c w in
  mkLWorld (checkLeadershipChange c, c.2) (lw_leaves w) (if noticesElection c then ∅ else lw_raced w).

Definition joined w (node : Node) : lworld :=
  let c := lw_c w in
  let '(d, r) := NotifyJoin (ms_delegate c.1) c.2 node in withCluster w (withDelegate c.1 d, r).

(** The look at the leader, handleNonLeaderRemoval's first statement. *)
Definition decided c (id : string) : leave := if rm_IsLeader c.2 then Removing id else Caching id.

(** The rest of handleNonLeaderRemoval, under the lock. *)
Definition cached w (id : string) (ls : list leave) : lworld :=
  let c := lw_c w in
  let d := ms_delegate c.1 in
  mkLWorld (withDelegate c.1 (withPending d (d_pendingPeers d) ({[id]} ∪ d_pendingRemovals d)), c.2) ls
    (if rm_IsLeader c.2 then {[id]} ∪ lw_raced w else lw_raced w ∖ {[id]}).

(** One step. [l_quit]: the monitor sees the closed channel or
    the end of its context; [l_other]: what the other nodes and the rest
    of the program do to the Raft manager. *)
Inductive leaderStep : lworld → lworld → Prop :=
| l_tick w : (0 < ms_monitors (lw_c w).1)%nat → leaderStep w (ticked w)
| l_quit w n : ms_monitors (lw_c w).1 = S n →
    leaderStep w (withCluster w
      (withGoroutines (lw_c w).1 (ms_wasLeader (lw_c w).1) n (ms_processing (lw_c w).1) (ms_delayed (lw_c w).1), (lw_c w).2))
| l_process w order : (0 < ms_processing (lw_c w).1)%nat → order ≡ₚ elements (d_pendingRemovals (ms_delegate (lw_c w).1)) →
    leaderStep w (withCluster w (runProcessing (lw_c w) order))
| l_join w node : leaderStep w (joined w node)
| l_leave w node id :
    leaverOf (ms_delegate (lw_c w).1) node = Some id → d_hasRaft (ms_delegate (lw_c w).1) = true →
    leaderStep w (withLeaves w (lw_c w) (Recovering id :: lw_leaves w))
| l_recover w l1 id l2 recovered r :
    lw_leaves w = l1 ++ Recovering id :: l2 →
    handleEmergencyRecovery (ms_delegate (lw_c w).1) (lw_c w).2 (Some (gl_Members (ms_list (lw_c w).1))) id = (recovered, r) →
    leaderStep w (withLeaves w ((lw_c w).1, r) (l1 ++ (if recovered then [] else [Deciding id]) ++ l2))
| l_decide w l1 id l2 : lw_leaves w = l1 ++ Deciding id :: l2 →
    leaderStep w (withLeaves w (lw_c w) (l1 ++ decided (lw_c w) id :: l2))
| l_cache w l1 id l2 : lw_leaves w = l1 ++ Caching id :: l2 → leaderStep w (cached w id (l1 ++ l2))
| l_remove w l1 id l2 : lw_leaves w = l1 ++ Removing id :: l2 →
    leaderStep w (withLeaves w ((lw_c w).1, performPeerRemoval (lw_c w).2 id) (l1 ++ l2))
| l_other w r : leaderStep w (withCluster w ((lw_c w).1, r)).

(** A leave that nothing interrupts is NotifyLeave. *)
Lemma leave_alone w node d r :
  NotifyLeave (ms_delegate (lw_c w).1) (lw_c w).2 (Some (gl_Members (ms_list (lw_c w).1))) node = (d, r) →
  ∃ raced, rtc leaderStep w (mkLWorld (withDelegate (lw_c w).1 d, r) (lw_leaves w) raced).
Proof.
  destruct w as [[ms m] ls raced]. cbn [lw_c lw_leaves fst snd]. unfold NotifyLeave.
  assert (withDelegate ms (ms_delegate ms) = ms) as Hsame by by destruct ms.
  destruct (leaverOf (ms_delegate ms) node) as [id|] eqn:Hl; [|intros [= <- <-]; rewrite Hsame; by exists raced].
  unfold removeRaftPeer. destruct (d_hasRaft (ms_delegate ms)) eqn:Hr; simpl; [|intros [= <- <-]; rewrite Hsame; by exists raced].
  destruct (handleEmergencyRecovery _ _ _ _) as [recovered r1] eqn:Erec.
  pose proof (l_leave (mkLWorld (ms, m) ls raced) node id Hl Hr) as S1.
  pose proof (l_recover (withLeaves (mkLWorld (ms, m) ls raced) (ms, m) (Recovering id :: ls)) [] id ls recovered r1 eq_refl Erec) as S2.
  destruct recovered.
  { intros [= <- <-]. rewrite Hsame. exists raced. eapply rtc_l; [exact S1|]. by apply rtc_once. }
  pose proof (l_decide (mkLWorld (ms, r1) (Deciding id :: ls) raced) [] id ls eq_refl) as S3.
  unfold handleNonLeaderRemoval. unfold decided in S3. cbn [lw_c fst snd] in S3. destruct (rm_IsLeader r1); intros [= <- <-].
  - rewrite Hsame. exists raced. do 2 (eapply rtc_l; [eassumption|]). eapply rtc_l; [exact S3|].
    apply rtc_once, (l_remove (mkLWorld (ms, r1) (Removing id :: ls) raced) [] id ls eq_refl).
  - eexists. do 2 (eapply rtc_l; [eassumption|]). eapply rtc_l; [exact S3|].
    apply rtc_once, (l_cache (mkLWorld (ms, r1) (Caching id :: ls) raced) [] id ls eq_refl).
Qed.

(** Leadership changes no faster than the monitor sees it: it only changes
    when the monitor knows the present role. *)
Definition noticed w w' : Prop :=
  leaderStep w w' ∧
  (rm_IsLeader (lw_c w').2 ≠ rm_IsLeader (lw_c w).2 → ms_wasLeader (lw_c w).1 = rm_IsLeader (lw_c w).2).

(** What the next run must find: peers, and removals that did not race. *)
Definition waiting w : Prop :=
  d_pendingPeers (ms_delegate (lw_c w).1) ≠ [] ∨ ¬ d_pendingRemovals (ms_delegate (lw_c w).1) ⊆ lw_raced w.

(** What is waiting waits for this node to lead, for the tick that sees it
    lead, or for a run that has been started. *)
Definition accounted w : Prop :=
  ms_hasRaft (lw_c w).1 = true ∧ d_hasRaft (ms_delegate (lw_c w).1) = true ∧
  (waiting w → rm_IsLeader (lw_c w).2 = true →
   ms_wasLeader (lw_c w).1 = false ∨ (0 < ms_processing (lw_c w).1)%nat).

(** A step that leaves the service and the ghost alone. *)
Lemma accounted_manager w w' :
  accounted w → noticed w w' → (lw_c w').1 = (lw_c w).1 → lw_raced w' = lw_raced w → accounted w'.
Proof.
  intros (H1&H2&H3) [_ Hn] Hc Hr. unfold accounted, waiting in *. rewrite Hc, Hr. split_and!; [done..|].
  intros Hpe Hl. destruct (rm_IsLeader (lw_c w).2) eqn:El; [by apply H3|]. left. apply Hn. congruence.
Qed.

(** A join that adds to what is pending leaves a manager that does not lead. *)
Lemma join_pending d (r : R) node d' r' :
  NotifyJoin d r node = (d', r') → d_hasRaft d' = d_hasRaft d ∧ (d' = d ∨ rm_IsLeader r' = false).
Proof.
  unfold NotifyJoin. destruct (peerOf d node) as [p|]; [|by intros [= <- <-]; auto].
  unfold addRaftPeer. destruct (negb (d_hasRaft d)); [by intros [= <- <-]; auto|].
  destruct (rm_IsLeader r) eqn:El; [by intros [= <- _]; auto|].
  destruct (existsb _ _); intros [= <- <-]; auto.
Qed.

Lemma follower_accounted w :
  ms_hasRaft (lw_c w).1 = true → d_hasRaft (ms_delegate (lw_c w).1) = true → rm_IsLeader (lw_c w).2 = false → accounted w.
Proof. intros. split_and!; [done..|congruence]. Qed.

Lemma accounted_tick w : accounted w → accounted (ticked w).
Proof.
  intros (H1&H2&H3). destruct (checkLeadershipChange_spec (lw_c w) H1) as (Hw&Hp&Hd).
  assert (ms_hasRaft (checkLeadershipChange (lw_c w)) = true) as Hr
    by (unfold checkLeadershipChange; rewrite H1; by repeat case_match).
  split_and!; cbn [ticked lw_c lw_raced fst snd]; [done|by rewrite Hd|].
  unfold waiting, noticesElection. cbn [ticked lw_c lw_raced fst snd]. unfold noticesElection.
  rewrite Hd, Hw, Hp, H1. intros Hpe Hl. rewrite Hl in *. right. simpl in *.
  destruct (ms_wasLeader (lw_c w).1) eqn:Ew; simpl in *; [|lia].
  destruct (H3 Hpe eq_refl) as [?|?]; [congruence|lia].
Qed.

Lemma accounted_join w node : accounted w → noticed w (joined w node) → accounted (joined w node).
Proof.
  intros Ha Hn. pose proof Ha as (H1&H2&H3). revert Hn. unfold joined.
  destruct (NotifyJoin _ _ _) as [d r] eqn:E. intros Hn. destruct (join_pending _ _ _ _ _ E) as [Hh [->|Hl]].
  - apply (accounted_manager w); [done|done| |done]. simpl. by destruct (lw_c w).1.
  - apply follower_accounted; simpl; [by destruct (lw_c w).1|by rewrite Hh|done].
Qed.

Lemma accounted_cache w id ls : accounted w → accounted (cached w id ls).
Proof.
  intros (H1&H2&H3). unfold accounted, waiting, cached. cbn. split_and!; [done..|].
  intros Hpe Hl. rewrite Hl in *. apply H3; [|done]. destruct Hpe as [?|Hx]; [by left|right].
  intros Hsub. apply Hx. set_solver.
Qed.

Lemma accounted_step w w' : accounted w → noticed w w' → accounted w'.
Proof.
  intros Ha Hn. pose proof Ha as (H1&H2&H3). destruct (id Hn) as [Hst _].
  destruct Hst as [w Hm|w n Hm|w order Hp Ho|w node|w node i Hi Hd|w l1 i l2 rec r Hl Hr|w l1 i l2 Hl|w l1 i l2 Hl|w l1 i l2 Hl|w r];
    try (by apply (accounted_manager w)); [by apply accounted_tick|by split_and!| |by apply accounted_join|by apply accounted_cache].
  unfold accounted, waiting, runProcessing, ProcessPendingPeers in *. rewrite H2 in *. simpl in *.
  destruct (rm_IsLeader (lw_c w).2) eqn:El; simpl in *.
  - split_and!; [done..|]. intros [[]|Hx]; [done|]. destruct Hx. set_solver.
  - split_and!; [done..|]. intros _ ?. congruence.
Qed.

(** A run that finds this node leading makes every change that is pending. *)
Definition nothingPending c : Prop :=
  d_pendingPeers (ms_delegate c.1) = [] ∧ d_pendingRemovals (ms_delegate c.1) = ∅.

Lemma runProcessing_leading c order :
  d_hasRaft (ms_delegate c.1) = true → rm_IsLeader c.2 = true →
  nothingPending (runProcessing c order) ∧
  (runProcessing c order).2 = removePending (addPending c.2 (d_pendingPeers (ms_delegate c.1))) order.
Proof.
  intros H2 Hl. unfold runProcessing, ProcessPendingPeers, nothingPending. rewrite H2, Hl. by simpl.
Qed.

(** C31: As long as leadership changes no faster than the monitor sees it, in any
    interleaving of joins, the steps of leaves, ticks and processing runs from a node with
    nothing pending: a leading node with pending peers, or with a pending removal that did
    not race with its election, is at most one tick and one processing run away from
    having asked the Raft manager for every pending change, and has nothing pending then.
    A removal races when it was told that this node does not lead and reaches the cache
    after the node came to lead (finding removal_that_races_is_stranded). *)
Theorem no_peer_is_stranded w w' :
  ms_hasRaft (lw_c w).1 = true → d_hasRaft (ms_delegate (lw_c w).1) = true → nothingPending (lw_c w) →
  rtc noticed w w' → rm_IsLeader (lw_c w').2 = true → (0 < ms_monitors (lw_c w').1)%nat →
  d_pendingPeers (ms_delegate (lw_c w').1) ≠ [] ∨ ¬ d_pendingRemovals (ms_delegate (lw_c w').1) ⊆ lw_raced w' →
  let order := elements (d_pendingRemovals (ms_delegate (lw_c w').1)) in
  ∃ w1 w2, (w1 = w' ∨ w1 = ticked w' ∧ leaderStep w' w1) ∧ leaderStep w1 w2 ∧
    nothingPending (lw_c w2) ∧
    (lw_c w2).2 = removePending (addPending (lw_c w').2 (d_pendingPeers (ms_delegate (lw_c w').1))) order.
Proof.
  intros Hr Hd [Hn1 Hn2] Hrun Hl Hm Hpe order.
  assert (accounted w') as (H1&H2&H3).
  { assert (accounted w) as Ha.
    { split_and!; [done..|]. unfold waiting. rewrite Hn1, Hn2. intros [[]|Hx]; [done|]. destruct Hx. set_solver. }
    clear -Ha Hrun. induction Hrun as [|w w1 w2 Hst _ IH]; [done|]. apply IH. by eapply accounted_step. }
  destruct (H3 Hpe Hl) as [Hw|Hp].
  - destruct (checkLeadershipChange_spec (lw_c w') H1) as (_&Hp&Hdel). rewrite Hl, Hw in Hp. simpl in Hp.
    destruct (runProcessing_leading (lw_c (ticked w')) order) as [He Hc]; [by simpl; rewrite Hdel|done|].
    exists (ticked w'), (withCluster (ticked w') (runProcessing (lw_c (ticked w')) order)).
    split_and!; [right; split; [done|by apply l_tick]| |done|simpl in *; by rewrite Hc, Hdel].
    apply l_process; simpl; [lia|by rewrite Hdel].
  - destruct (runProcessing_leading (lw_c w') order) as [He Hc]; [done..|].
    exists w', (withCluster w' (runProcessing (lw_c w') order)). split_and!; [by left|by apply l_process|done..].
Qed.

(** After Stop each monitor is one step from its end, and no tick adds one. *)
Lemma stopped_monitors_leave w w' :
  leaderStep w w' →
  (ms_monitors (lw_c w').1 ≤ ms_monitors (lw_c w).1)%nat ∧ ms_stopClosed (lw_c w').1 = ms_stopClosed (lw_c w).1.
Proof.
  intros Hst. destruct Hst; simpl; try (split; [lia|done]).
  - unfold checkLeadershipChange. repeat case_match; simpl; split; done || lia.
  - unfold runProcessing. destruct (ProcessPendingPeers _ _ _). simpl. split; [lia|done].
  - unfold joined. by destruct (NotifyJoin _ _ _).
Qed.
End Leadership.

Arguments lworld : clear implicits.

(* ------------------------------------------------------------------ *)
(** ** Runs *)

Definition worldOf (ms : Service toyGossip) (leads : bool) (leaves : list leave) : lworld toyGossip toyManager :=
  mkLWorld (ms, mkToy leads ["n1"; "n3"; "n4"] false) leaves ∅.

(** A follower hears of a node, then leads. *)
Definition follower : lworld toyGossip toyManager :=
  worldOf (withGoroutines (sampleService [node2]) false 1 0 0) false [].

Definition elected (w : lworld toyGossip toyManager) : lworld toyGossip toyManager :=
  withCluster w ((lw_c w).1, mkToy true (tm_peers (lw_c w).2) false).

Definition newLeader : lworld toyGossip toyManager := elected (joined follower node2).

Lemma no_peer_is_stranded_witness :
  d_pendingPeers (ms_delegate (lw_c newLeader).1) = [mkPending "n2" "10.0.0.2:7000"] ∧
  ∃ w2, rtc leaderStep newLeader w2 ∧ nothingPending (lw_c w2) ∧ tm_peers (lw_c w2).2 = ["n1"; "n3"; "n4"; "n2"].
Proof.
  split; [vm_compute; reflexivity|].
  destruct (no_peer_is_stranded follower newLeader) as (w1&w2&Hw&Hs&He&Hr).
  - reflexivity.
  - reflexivity.
  - by split.
  - apply (rtc_l _ _ (joined follower node2)); [split; [apply l_join|vm_compute; intros H; by destruct H]|].
    apply rtc_once. split; [apply l_other|]. intros _. vm_compute. reflexivity.
  - reflexivity.
  - vm_compute. lia.
  - left. vm_compute. discriminate.
  - exists w2. split; [|split; [exact He|rewrite Hr; vm_compute; reflexivity]].
    destruct Hw as [->|[_ H1]]; [by apply rtc_once|]. eapply rtc_l; [exact H1|by apply rtc_once].
Defined.

(** The race: a leave is told that this node follows; the node is elected, the
    monitor sees it, the run it starts finds nothing; then the removal is
    cached. It stays: the node leads, the monitor knows it, no run is under
    way, and more ticks change nothing. *)
Definition racing : lworld toyGossip toyManager :=
  worldOf (withGoroutines (sampleService [node2]) false 1 0 0) false [Caching "n3"].

Lemma removal_that_races_is_stranded :
  ∃ w, rtc noticed racing w ∧ rm_IsLeader (lw_c w).2 = true ∧
    d_pendingRemovals (ms_delegate (lw_c w).1) = {["n3"]} ∧ lw_raced w = {["n3"]} ∧
    ms_processing (lw_c w).1 = 0%nat ∧ lw_leaves w = [] ∧ ticked w = w.
Proof.
  set (w1 := elected racing). set (w2 := ticked w1). set (w3 := withCluster w2 (runProcessing (lw_c w2) [])).
  exists (cached w3 "n3" []). split; [|vm_compute; split_and!; reflexivity].
  assert (∀ w w' : lworld toyGossip toyManager, leaderStep w w' →
    bool_decide (rm_IsLeader (lw_c w').2 = rm_IsLeader (lw_c w).2) || bool_decide (ms_wasLeader (lw_c w).1 = rm_IsLeader (lw_c w).2) = true →
    noticed w w') as Hn.
  { intros w w' Hs Hb. split; [done|]. intros Hne. apply orb_true_iff in Hb as [Hb|Hb]; apply bool_decide_eq_true in Hb; done. }
  apply (rtc_l _ _ w1); [apply Hn; [apply l_other|vm_compute; reflexivity]|].
  apply (rtc_l _ _ w2); [apply Hn; [apply l_tick; vm_compute; lia|vm_compute; reflexivity]|].
  apply (rtc_l _ _ w3); [apply Hn; [apply l_process; [vm_compute; lia|vm_compute; reflexivity]|vm_compute; reflexivity]|].
  apply rtc_once, Hn; [by apply (l_cache w3 [] "n3" [])|vm_compute; reflexivity].
Qed.
