(* ===== verification/Metrics.v ===== *)
(** * Metrics: services/metrics/service.go

    The metrics the service keeps and what its methods do to them. The
    Prometheus client is the class [Prometheus]; what its documentation says
    of vectors, labels and registration is the class [PrometheusLaws], over a
    view of the series and the registered collectors. The kind of a metric is
    part of its type, as in the source. A histogram is given durations here;
    the source gives it their seconds. Log output is not modelled. *)

From S2P Require Import Prelude GoStd GoText Domain.
Open Scope vpa_scope.

(* ------------------------------------------------------------------ *)
(** ** The Prometheus client *)

Inductive metricKind := CounterKind | HistogramKind | GaugeKind.

(** prometheus.CounterVec, HistogramVec and GaugeVec: a name and labels. *)
Record metricVec (k : metricKind) := mkVec' { vecName : string; vecLabels : list string }.
Arguments vecName {k} _.
Arguments vecLabels {k} _.
Definition mkVec (k : metricKind) (name : string) (labels : list string) : metricVec k :=
  mkVec' k name labels.

(** What a registry collects from. *)
Inductive collector :=
| VecCollector {k} (v : metricVec k)
| GoCollector
| ProcessCollector.

Definition collectorName (c : collector) : string :=
  match c with
  | VecCollector v => vecName v
  | GoCollector => "go_collector"
  | ProcessCollector => "process_collector"
  end.

(** The state [P] is that of a registry and of the vectors made for it. The
    operations are v.WithLabelValues(lvs...).Inc() and the like; Gather is
    what the handler of promhttp exports. *)
Class Prometheus (P : Type) := {
  NewRegistry : P;
  MustRegister : list collector → P → outcome P;
  Inc : metricVec CounterKind → list string → P → outcome P;
  Add : metricVec CounterKind → list string → Z → P → outcome P;
  Observe : metricVec HistogramKind → list string → Z → P → outcome P;
  SetGauge : metricVec GaugeKind → list string → Z → P → outcome P;
  SetToCurrentTime : metricVec GaugeKind → list string → Z → P → outcome P;
  Gather : P → list collector
}.

(** A series: the name of its vector and the values of the labels. *)
Notation series := (string * list string)%type.

Record registryView := mkView {
  rv_collectors : list collector;
  rv_counters : gmap series Z;
  rv_observations : gmap series (list Z);
  rv_gauges : gmap series Z
}.

(** WithLabelValues panics on the wrong number of values and on a value that
    is not UTF-8. *)
Definition goodLabels {k} (v : metricVec k) (lvs : list string) : bool :=
  (length lvs =? length (vecLabels v))%nat && forallb (λ s, bool_decide (validUTF8 s)) lvs.

Definition counterOf (v : registryView) (s : series) : Z := default 0%Z (rv_counters v !! s).
Definition observationsOf (v : registryView) (s : series) : list Z := default [] (rv_observations v !! s).
Definition gaugeOf (v : registryView) (s : series) : option Z := rv_gauges v !! s.

Definition addCounter (s : series) (x : Z) (v : registryView) : registryView :=
  mkView (rv_collectors v) (<[s := (counterOf v s + x)%Z]> (rv_counters v)) (rv_observations v) (rv_gauges v).
Definition addObservation (s : series) (x : Z) (v : registryView) : registryView :=
  mkView (rv_collectors v) (rv_counters v) (<[s := observationsOf v s ++ [x]]> (rv_observations v)) (rv_gauges v).
Definition putGauge (s : series) (x : Z) (v : registryView) : registryView :=
  mkView (rv_collectors v) (rv_counters v) (rv_observations v) (<[s := x]> (rv_gauges v)).

Definition addCollectors (cs : list collector) (v : registryView) : registryView :=
  mkView (rv_collectors v ++ cs) (rv_counters v) (rv_observations v) (rv_gauges v).

Definition value_of {A} (o : outcome A) : option A :=
  match o with Returned a => Some a | Panicked _ => None end.

Class PrometheusLaws (P : Type) `{Prometheus P} := {
  promView : P → registryView;
  NewRegistry_view : promView NewRegistry = mkView [] ∅ ∅ ∅;
  MustRegister_view cs p :
    promView <$> value_of (MustRegister cs p) =
      if bool_decide (NoDup (map collectorName (rv_collectors (promView p) ++ cs)))
      then Some (addCollectors cs (promView p)) else None;
  Inc_view v lvs p :
    promView <$> value_of (Inc v lvs p) =
      if goodLabels v lvs then Some (addCounter (vecName v, lvs) 1 (promView p)) else None;
  Add_view v lvs x p :
    promView <$> value_of (Add v lvs x p) =
      if goodLabels v lvs && (0 <=? x)%Z
      then Some (addCounter (vecName v, lvs) x (promView p)) else None;
  Observe_view v lvs x p :
    promView <$> value_of (Observe v lvs x p) =
      if goodLabels v lvs then Some (addObservation (vecName v, lvs) x (promView p)) else None;
  SetGauge_view v lvs x p :
    promView <$> value_of (SetGauge v lvs x p) =
      if goodLabels v lvs then Some (putGauge (vecName v, lvs) x (promView p)) else None;
  SetToCurrentTime_view v lvs now p :
    promView <$> value_of (SetToCurrentTime v lvs now p) =
      if goodLabels v lvs then Some (putGauge (vecName v, lvs) now (promView p)) else None;
  Gather_view p : Gather p = rv_collectors (promView p)
}.

(* ------------------------------------------------------------------ *)
(** ** The metrics *)

Definition createHTTPRequestsCounter : metricVec CounterKind :=
  mkVec CounterKind "vm_proxy_auth_http_requests_total" ["method"; "path"; "status_code"; "user_id"].
Definition createHTTPDurationHistogram : metricVec HistogramKind :=
  mkVec HistogramKind "vm_proxy_auth_http_request_duration_seconds" ["method"; "path"; "status_code"].
Definition createUpstreamRequestsCounter : metricVec CounterKind :=
  mkVec CounterKind "vm_proxy_auth_upstream_requests_total" ["method"; "path"; "status_code"; "tenant_count"].
Definition createUpstreamDurationHistogram : metricVec HistogramKind :=
  mkVec HistogramKind "vm_proxy_auth_upstream_request_duration_seconds" ["method"; "path"; "status_code"].
Definition createAuthAttemptsCounter : metricVec CounterKind :=
  mkVec CounterKind "vm_proxy_auth_auth_attempts_total" ["status"; "user_id"].
Definition createQueryFilteringCounter : metricVec CounterKind :=
  mkVec CounterKind "vm_proxy_auth_query_filtering_total" ["user_id"; "tenant_count"; "filter_applied"].
Definition createQueryFilteringDurationHistogram : metricVec HistogramKind :=
  mkVec HistogramKind "vm_proxy_auth_query_filtering_duration_seconds" ["user_id"].
Definition createTenantAccessCounter : metricVec CounterKind :=
  mkVec CounterKind "vm_proxy_auth_tenant_access_total" ["user_id"; "tenant_id"; "allowed"].
Definition createBackendRequestsCounter : metricVec CounterKind :=
  mkVec CounterKind "vm_proxy_auth_upstream_backend_requests_total" ["backend_url"; "method"; "path"; "status_code"].
Definition createBackendDurationHistogram : metricVec HistogramKind :=
  mkVec HistogramKind "vm_proxy_auth_upstream_backend_request_duration_seconds" ["backend_url"; "method"; "path"; "status_code"].
Definition createHealthCheckCounter : metricVec CounterKind :=
  mkVec CounterKind "vm_proxy_auth_health_check_total" ["backend_url"; "result"].
Definition createHealthCheckDurationHistogram : metricVec HistogramKind :=
  mkVec HistogramKind "vm_proxy_auth_health_check_duration_seconds" ["backend_url"].
Definition createBackendStateChangesCounter : metricVec CounterKind :=
  mkVec CounterKind "vm_proxy_auth_backend_state_changes_total" ["backend_url"; "old_state"; "new_state"].
Definition createCircuitBreakerStateCounter : metricVec CounterKind :=
  mkVec CounterKind "vm_proxy_auth_circuit_breaker_state_total" ["backend_url"; "state"].
Definition createQueueOperationsCounter : metricVec CounterKind :=
  mkVec CounterKind "vm_proxy_auth_queue_operations_total" ["operation"].
Definition createQueueOperationsDurationHistogram : metricVec HistogramKind :=
  mkVec HistogramKind "vm_proxy_auth_queue_operations_duration_seconds" ["operation"].
Definition createLoadBalancerSelectionsCounter : metricVec CounterKind :=
  mkVec CounterKind "vm_proxy_auth_load_balancer_selections_total" ["strategy"].
Definition createLoadBalancerSelectionDurationHistogram : metricVec HistogramKind :=
  mkVec HistogramKind "vm_proxy_auth_load_balancer_selection_duration_seconds" ["strategy"].
Definition createRaftStateGauge : metricVec GaugeKind :=
  mkVec GaugeKind "vm_proxy_auth_raft_state" ["node_id"; "state"].
Definition createRaftTermCounter : metricVec CounterKind :=
  mkVec CounterKind "vm_proxy_auth_raft_term_total" ["node_id"].
Definition createRaftCommitIndexGauge : metricVec GaugeKind :=
  mkVec GaugeKind "vm_proxy_auth_raft_commit_index" ["node_id"].
Definition createRaftLastAppliedGauge : metricVec GaugeKind :=
  mkVec GaugeKind "vm_proxy_auth_raft_last_applied_index" ["node_id"].
Definition createRaftPeerCountGauge : metricVec GaugeKind :=
  mkVec GaugeKind "vm_proxy_auth_raft_peers" ["node_id"].
Definition createRaftLeaderChangesCounter : metricVec CounterKind :=
  mkVec CounterKind "vm_proxy_auth_raft_leader_changes_total" ["old_leader"; "new_leader"].
Definition createServiceDiscoveryEventsCounter : metricVec CounterKind :=
  mkVec CounterKind "vm_proxy_auth_service_discovery_events_total" ["type"; "source"].
Definition createServiceDiscoveryPeersGauge : metricVec GaugeKind :=
  mkVec GaugeKind "vm_proxy_auth_service_discovery_peers" ["source"].
Definition createServiceDiscoveryBackendsGauge : metricVec GaugeKind :=
  mkVec GaugeKind "vm_proxy_auth_service_discovery_backends" ["source"].
Definition createServiceDiscoveryErrorsCounter : metricVec CounterKind :=
  mkVec CounterKind "vm_proxy_auth_service_discovery_errors_total" ["operation"; "source"].
Definition createServiceDiscoveryLastUpdateGauge : metricVec GaugeKind :=
  mkVec GaugeKind "vm_proxy_auth_service_discovery_last_update_timestamp" ["source"].

Record metricsSet := mkMetricsSet {
  httpRequestsTotal : metricVec CounterKind;
  httpRequestDuration : metricVec HistogramKind;
  upstreamRequestsTotal : metricVec CounterKind;
  upstreamRequestDuration : metricVec HistogramKind;
  authAttemptsTotal : metricVec CounterKind;
  queryFilteringTotal : metricVec CounterKind;
  queryFilteringDuration : metricVec HistogramKind;
  tenantAccessTotal : metricVec CounterKind;
  upstreamBackendRequestsTotal : metricVec CounterKind;
  upstreamBackendRequestDuration : metricVec HistogramKind;
  healthCheckTotal : metricVec CounterKind;
  healthCheckDuration : metricVec HistogramKind;
  backendStateChangesTotal : metricVec CounterKind;
  circuitBreakerStateTotal : metricVec CounterKind;
  queueOperationsTotal : metricVec CounterKind;
  queueOperationsDuration : metricVec HistogramKind;
  loadBalancerSelectionsTotal : metricVec CounterKind;
  loadBalancerSelectionDuration : metricVec HistogramKind;
  raftStateGauge : metricVec GaugeKind;
  raftTermCounter : metricVec CounterKind;
  raftCommitIndexGauge : metricVec GaugeKind;
  raftLastAppliedGauge : metricVec GaugeKind;
  raftPeerCountGauge : metricVec GaugeKind;
  raftLeaderChangesTotal : metricVec CounterKind;
  serviceDiscoveryEventsTotal : metricVec CounterKind;
  serviceDiscoveryPeersGauge : metricVec GaugeKind;
  serviceDiscoveryBackendsGauge : metricVec GaugeKind;
  serviceDiscoveryErrorsTotal : metricVec CounterKind;
  serviceDiscoveryLastUpdateGauge : metricVec GaugeKind
}.

Definition newMetricsSet : metricsSet := {|
  httpRequestsTotal := createHTTPRequestsCounter;
  httpRequestDuration := createHTTPDurationHistogram;
  upstreamRequestsTotal := createUpstreamRequestsCounter;
  upstreamRequestDuration := createUpstreamDurationHistogram;
  authAttemptsTotal := createAuthAttemptsCounter;
  queryFilteringTotal := createQueryFilteringCounter;
  queryFilteringDuration := createQueryFilteringDurationHistogram;
  tenantAccessTotal := createTenantAccessCounter;
  upstreamBackendRequestsTotal := createBackendRequestsCounter;
  upstreamBackendRequestDuration := createBackendDurationHistogram;
  healthCheckTotal := createHealthCheckCounter;
  healthCheckDuration := createHealthCheckDurationHistogram;
  backendStateChangesTotal := createBackendStateChangesCounter;
  circuitBreakerStateTotal := createCircuitBreakerStateCounter;
  queueOperationsTotal := createQueueOperationsCounter;
  queueOperationsDuration := createQueueOperationsDurationHistogram;
  loadBalancerSelectionsTotal := createLoadBalancerSelectionsCounter;
  loadBalancerSelectionDuration := createLoadBalancerSelectionDurationHistogram;
  raftStateGauge := createRaftStateGauge;
  raftTermCounter := createRaftTermCounter;
  raftCommitIndexGauge := createRaftCommitIndexGauge;
  raftLastAppliedGauge := createRaftLastAppliedGauge;
  raftPeerCountGauge := createRaftPeerCountGauge;
  raftLeaderChangesTotal := createRaftLeaderChangesCounter;
  serviceDiscoveryEventsTotal := createServiceDiscoveryEventsCounter;
  serviceDiscoveryPeersGauge := createServiceDiscoveryPeersGauge;
  serviceDiscoveryBackendsGauge := createServiceDiscoveryBackendsGauge;
  serviceDiscoveryErrorsTotal := createServiceDiscoveryErrorsCounter;
  serviceDiscoveryLastUpdateGauge := createServiceDiscoveryLastUpdateGauge
|}.

(** The metrics NewService registers. *)
Definition registeredMetrics (m : metricsSet) : list collector :=
  [VecCollector (httpRequestsTotal m);
   VecCollector (httpRequestDuration m);
   VecCollector (upstreamRequestsTotal m);
   VecCollector (upstreamRequestDuration m);
   VecCollector (authAttemptsTotal m);
   VecCollector (queryFilteringTotal m);
   VecCollector (queryFilteringDuration m);
   VecCollector (tenantAccessTotal m);
   VecCollector (upstreamBackendRequestsTotal m);
   VecCollector (upstreamBackendRequestDuration m);
   VecCollector (healthCheckTotal m);
   VecCollector (healthCheckDuration m);
   VecCollector (backendStateChangesTotal m);
   VecCollector (circuitBreakerStateTotal m);
   VecCollector (queueOperationsTotal m);
   VecCollector (queueOperationsDuration m);
   VecCollector (loadBalancerSelectionsTotal m);
   VecCollector (loadBalancerSelectionDuration m)].

(* ------------------------------------------------------------------ *)
(** ** The service *)

(** float64(n) of an integer: the nearest multiple of the unit in the last
    place of 53 bits, ties to even. *)
Definition float64 (n : Z) : Z :=
  let m := Z.abs n in
  let u := (2 ^ Z.max 0 (Z.log2 m - 52))%Z in
  let q := (m / u)%Z in
  let r := (m mod u)%Z in
  let up := ((u <? 2 * r) || ((u =? 2 * r) && Z.odd q))%Z in
  (Z.sgn n * (u * (if up then q + 1 else q)))%Z.

Section Metrics.
Context {P : Type} {HP : Prometheus P}.

Record Service := mkService { registry : P; metrics : metricsSet }.

Definition NewService : outcome Service :=
  let metrics := newMetricsSet in
  do! registry <- MustRegister (registeredMetrics metrics) NewRegistry;
  do! registry <- MustRegister [GoCollector] registry;
  do! registry <- MustRegister [ProcessCollector] registry;
  Returned (mkService registry metrics).

(** What the metrics endpoint exports. *)
Definition Handler (s : Service) : list collector := Gather (registry s).

(** One call of a metric's method; the next ones see its effect. *)
Definition withRegistry (s : Service) (o : outcome P) : outcome Service :=
  do! p <- o; Returned (mkService p (metrics s)).

Definition RecordRequest (method path status : string) (duration : Z) (user : option User)
    (s : Service) : outcome Service :=
  let statusCode := status in
  let userID := match user with Some u => user_ID u | None => "anonymous" end in
  do! s <- withRegistry s (Inc (httpRequestsTotal (metrics s)) [method; path; statusCode; userID] (registry s));
  withRegistry s (Observe (httpRequestDuration (metrics s)) [method; path; statusCode] duration (registry s)).

Definition RecordUpstream (method path status : string) (duration : Z) (tenants : list string)
    (s : Service) : outcome Service :=
  let statusCode := status in
  let tenantCount := itoa (Z.of_nat (length tenants)) in
  do! s <- withRegistry s (Inc (upstreamRequestsTotal (metrics s)) [method; path; statusCode; tenantCount] (registry s));
  withRegistry s (Observe (upstreamRequestDuration (metrics s)) [method; path; statusCode] duration (registry s)).

(** strconv.FormatBool *)
Definition FormatBool (b : bool) : string := if b then "true" else "false".

Definition RecordQueryFilter (userID : string) (tenantCount : Z) (filterApplied : bool) (duration : Z)
    (s : Service) : outcome Service :=
  let tenantCountStr := itoa tenantCount in
  let filterAppliedStr := FormatBool filterApplied in
  do! s <- withRegistry s (Inc (queryFilteringTotal (metrics s)) [userID; tenantCountStr; filterAppliedStr] (registry s));
  withRegistry s (Observe (queryFilteringDuration (metrics s)) [userID] duration (registry s)).

Definition RecordAuthAttempt (userID status : string) (s : Service) : outcome Service :=
  withRegistry s (Inc (authAttemptsTotal (metrics s)) [status; userID] (registry s)).

Definition RecordTenantAccess (userID tenantID : string) (allowed : bool) (s : Service) : outcome Service :=
  let allowedStr := FormatBool allowed in
  withRegistry s (Inc (tenantAccessTotal (metrics s)) [userID; tenantID; allowedStr] (registry s)).

Definition RecordUpstreamBackend (backendURL method path status : string) (duration : Z)
    (tenants : list string) (s : Service) : outcome Service :=
  do! s <- withRegistry s (Inc (upstreamBackendRequestsTotal (metrics s)) [backendURL; method; path; status] (registry s));
  withRegistry s (Observe (upstreamBackendRequestDuration (metrics s)) [backendURL; method; path; status] duration (registry s)).

Definition RecordHealthCheck (backendURL : string) (success : bool) (duration : Z)
    (s : Service) : outcome Service :=
  let result := if success then "success" else "failure" in
  do! s <- withRegistry s (Inc (healthCheckTotal (metrics s)) [backendURL; result] (registry s));
  withRegistry s (Observe (healthCheckDuration (metrics s)) [backendURL] duration (registry s)).

Definition RecordBackendStateChange (backendURL : string) (oldState newState : BackendState)
    (s : Service) : outcome Service :=
  withRegistry s (Inc (backendStateChangesTotal (metrics s))
    [backendURL; BackendState_String oldState; BackendState_String newState] (registry s)).

Definition RecordCircuitBreakerStateChange (backendURL : string) (state : CircuitBreakerState)
    (s : Service) : outcome Service :=
  withRegistry s (Inc (circuitBreakerStateTotal (metrics s))
    [backendURL; CircuitBreakerState_String state] (registry s)).

Definition RecordQueueOperation (operation : string) (duration queueSize : Z)
    (s : Service) : outcome Service :=
  do! s <- withRegistry s (Inc (queueOperationsTotal (metrics s)) [operation] (registry s));
  withRegistry s (Observe (queueOperationsDuration (metrics s)) [operation] duration (registry s)).

Definition RecordLoadBalancerSelection (strategy backendURL : string) (duration : Z)
    (s : Service) : outcome Service :=
  do! s <- withRegistry s (Inc (loadBalancerSelectionsTotal (metrics s)) [strategy] (registry s));
  withRegistry s (Observe (loadBalancerSelectionDuration (metrics s)) [strategy] duration (registry s)).

Definition RecordRaftState (nodeID state : string) (s : Service) : outcome Service :=
  let stateValue :=
    (if String.eqb state "Leader" then 1
     else if String.eqb state "Follower" then 2
     else if String.eqb state "Candidate" then 3
     else 0)%Z in
  withRegistry s (SetGauge (raftStateGauge (metrics s)) [nodeID; state] stateValue (registry s)).

Definition RecordRaftTerm (nodeID : string) (term : Z) (s : Service) : outcome Service :=
  withRegistry s (Add (raftTermCounter (metrics s)) [nodeID] (float64 term) (registry s)).

Definition RecordRaftIndexes (nodeID : string) (commitIndex lastApplied : Z)
    (s : Service) : outcome Service :=
  do! s <- withRegistry s (SetGauge (raftCommitIndexGauge (metrics s)) [nodeID] (float64 commitIndex) (registry s));
  withRegistry s (SetGauge (raftLastAppliedGauge (metrics s)) [nodeID] (float64 lastApplied) (registry s)).

Definition RecordRaftPeerCount (nodeID : string) (peerCount : Z) (s : Service) : outcome Service :=
  withRegistry s (SetGauge (raftPeerCountGauge (metrics s)) [nodeID] (float64 peerCount) (registry s)).

Definition RecordRaftLeaderChange (oldLeader newLeader : string) (s : Service) : outcome Service :=
  withRegistry s (Inc (raftLeaderChangesTotal (metrics s)) [oldLeader; newLeader] (registry s)).

Definition RecordServiceDiscoveryEvent (eventType source : string) (s : Service) : outcome Service :=
  withRegistry s (Inc (serviceDiscoveryEventsTotal (metrics s)) [eventType; source] (registry s)).

Definition RecordServiceDiscoveryCounts (source : string) (peerCount backendCount : Z)
    (s : Service) : outcome Service :=
  do! s <- withRegistry s (SetGauge (serviceDiscoveryPeersGauge (metrics s)) [source] (float64 peerCount) (registry s));
  withRegistry s (SetGauge (serviceDiscoveryBackendsGauge (metrics s)) [source] (float64 backendCount) (registry s)).

Definition RecordServiceDiscoveryError (operation source : string) (s : Service) : outcome Service :=
  withRegistry s (Inc (serviceDiscoveryErrorsTotal (metrics s)) [operation; source] (registry s)).

(** [now] is the clock when the gauge is set. *)
Definition RecordServiceDiscoveryLastUpdate (source : string) (now : Z) (s : Service) : outcome Service :=
  withRegistry s (SetToCurrentTime (serviceDiscoveryLastUpdateGauge (metrics s)) [source] now (registry s)).

(** A call of the interface domain.MetricsService: one of those the components
    make, with its duration, or one nobody makes yet. *)
Inductive recordCall :=
| Called (c : metricCall) (duration : Z)
| UpstreamCall (method path status : string) (duration : Z) (tenants : list string)
| HealthCheckCall (backendURL : string) (success : bool) (duration : Z)
| CircuitBreakerCall (backendURL : string) (state : CircuitBreakerState)
| RaftStateCall (nodeID state : string)
| RaftTermCall (nodeID : string) (term : Z)
| RaftIndexesCall (nodeID : string) (commitIndex lastApplied : Z)
| RaftPeerCountCall (nodeID : string) (peerCount : Z)
| RaftLeaderChangeCall (oldLeader newLeader : string)
| DiscoveryEventCall (eventType source : string)
| DiscoveryCountsCall (source : string) (peerCount backendCount : Z)
| DiscoveryErrorCall (operation source : string)
| DiscoveryUpdateCall (source : string) (now : Z).

Definition recorded (c : recordCall) : Service → outcome Service :=
  match c with
  | Called (Domain.RecordRequest m p st u) d => RecordRequest m p st d u
  | Called (Domain.RecordUpstreamBackend b m p st ts) d => RecordUpstreamBackend b m p st d ts
  | Called (Domain.RecordQueryFilter u n f) d => RecordQueryFilter u n f d
  | Called (Domain.RecordAuthAttempt u st) _ => RecordAuthAttempt u st
  | Called (Domain.RecordTenantAccess u t a) _ => RecordTenantAccess u t a
  | Called (Domain.RecordQueueOperation op n) d => RecordQueueOperation op d n
  | Called (Domain.RecordLoadBalancerSelection st b) d => RecordLoadBalancerSelection st b d
  | Called (Domain.RecordBackendStateChange b o n) _ => RecordBackendStateChange b o n
  | UpstreamCall m p st d ts => RecordUpstream m p st d ts
  | HealthCheckCall b ok d => RecordHealthCheck b ok d
  | CircuitBreakerCall b st => RecordCircuitBreakerStateChange b st
  | RaftStateCall n st => RecordRaftState n st
  | RaftTermCall n t => RecordRaftTerm n t
  | RaftIndexesCall n c a => RecordRaftIndexes n c a
  | RaftPeerCountCall n k => RecordRaftPeerCount n k
  | RaftLeaderChangeCall o n => RecordRaftLeaderChange o n
  | DiscoveryEventCall t s => RecordServiceDiscoveryEvent t s
  | DiscoveryCountsCall s p b => RecordServiceDiscoveryCounts s p b
  | DiscoveryErrorCall o s => RecordServiceDiscoveryError o s
  | DiscoveryUpdateCall s now => RecordServiceDiscoveryLastUpdate s now
  end.

(** The calls one after the other, until one panics. *)
Definition recordedAll (calls : list recordCall) (s : Service) : outcome Service :=
  foldl (λ o c, obind o (recorded c)) (Returned s) calls.
End Metrics.
Arguments Service P : clear implicits.

(* ------------------------------------------------------------------ *)
(** ** Text of numbers *)

Lemma coerceBytes_ascii l : Forall (λ a, byteIn 0 127 a = true) l → coerceBytes l = l.
Proof. induction 1 as [|a l Ha _ IH]; [done|]. simpl. by rewrite Ha, IH. Qed.

Lemma itoa_ascii z : Forall (λ a, byteIn 0 127 a = true) (String.list_ascii_of_string (itoa z)).
Proof.
  assert (∀ n s, Forall (λ a, byteIn 0 127 a = true) (String.list_ascii_of_string s) →
    Forall (λ a, byteIn 0 127 a = true) (String.list_ascii_of_string (pretty_N_go n s))) as Hgo.
  { intros n. induction (N.lt_wf_0 n) as [n _ IH]; intros s Hs.
    destruct (decide (n = 0)%N) as [->|Hn]; [by rewrite pretty_N_go_0|].
    rewrite pretty_N_go_step by lia. apply IH; [by apply N.div_lt; lia|]. simpl. constructor; [|done].
    unfold pretty_N_char. by repeat case_match. }
  assert (∀ n : N, Forall (λ a, byteIn 0 127 a = true) (String.list_ascii_of_string (pretty n))) as HN.
  { intros n. unfold pretty, pretty_N. case_decide; [by repeat constructor|]. apply Hgo. constructor. }
  unfold itoa, pretty, pretty_Z. destruct z as [|p|p]; [by repeat constructor|apply (HN (Npos p))|].
  simpl. constructor; [done|]. apply (HN (Npos p)).
Qed.

Lemma itoa_valid z : validUTF8 (itoa z).
Proof.
  unfold validUTF8, coerceUTF8. rewrite coerceBytes_ascii by apply itoa_ascii.
  apply String.string_of_list_ascii_of_string.
Qed.

(* ------------------------------------------------------------------ *)
(** ** float64 *)

Lemma float64_exact n : (Z.abs n < 2 ^ 53)%Z → float64 n = n.
Proof.
  intros Hn. unfold float64.
  assert (Z.log2 (Z.abs n) - 52 ≤ 0)%Z as Hl.
  { destruct (decide (n = 0)%Z) as [->|Hz]; [done|].
    enough (Z.log2 (Z.abs n) < 53)%Z by lia. apply Z.log2_lt_pow2; lia. }
  rewrite (Z.max_l 0) by lia. change (2 ^ 0)%Z with 1%Z. rewrite Z.mod_1_r, Z.div_1_r. simpl.
  destruct (Z.abs_spec n) as [[??]|[??]]; destruct (Z.sgn_spec n) as [[??]|[[??]|[??]]]; nia.
Qed.

Lemma float64_nonneg n : (0 ≤ n)%Z → (0 ≤ float64 n)%Z.
Proof.
  intros Hn. unfold float64. apply Z.mul_nonneg_nonneg; [destruct (Z.sgn_spec n) as [[??]|[[??]|[??]]]; lia|].
  assert (0 < 2 ^ Z.max 0 (Z.log2 (Z.abs n) - 52))%Z as Hu by (apply Z.pow_pos_nonneg; lia).
  assert (0 ≤ Z.abs n / 2 ^ Z.max 0 (Z.log2 (Z.abs n) - 52))%Z by (apply Z.div_pos; lia).
  case_match; nia.
Qed.

(** A larger number is off by at most half a unit in the last place. *)
Lemma float64_near n : (2 * Z.abs (float64 n - n) ≤ 2 ^ Z.max 0 (Z.log2 (Z.abs n) - 52))%Z.
Proof.
  unfold float64. set (m := Z.abs n). set (u := (2 ^ Z.max 0 (Z.log2 m - 52))%Z).
  assert (0 < u)%Z as Hu by (apply Z.pow_pos_nonneg; lia).
  pose proof (Z.div_mod m u ltac:(lia)) as Hdm. pose proof (Z.mod_pos_bound m u Hu) as Hb.
  assert (n = Z.sgn n * m)%Z as Hn by (subst m; destruct (Z.sgn_spec n) as [[??]|[[??]|[??]]]; lia).
  set (k := if _ : bool then _ else _).
  replace (Z.sgn n * (u * k) - n)%Z with (Z.sgn n * (u * k - m))%Z by lia.
  rewrite Z.abs_mul.
  assert (Z.abs (Z.sgn n) ≤ 1)%Z by (destruct (Z.sgn_spec n) as [[??]|[[??]|[??]]]; lia).
  enough (2 * Z.abs (u * k - m) ≤ u)%Z by nia. subst k.
  destruct ((u <? 2 * (m mod u)) || ((u =? 2 * (m mod u)) && Z.odd (m / u)))%Z eqn:E.
  - assert (u ≤ 2 * (m mod u))%Z.
    { apply orb_true_iff in E as [?%Z.ltb_lt|[?%Z.eqb_eq _]%andb_true_iff]; lia. }
    lia.
  - apply orb_false_iff in E as [?%Z.ltb_ge _]. lia.
Qed.

(* ------------------------------------------------------------------ *)
(** ** What each call does to the series *)

(** An effect on a series, named by its vector and its labels. *)
Inductive act :=
| Count (s : series) (x : Z)
| Sample (s : series) (x : Z)
| Put (s : series) (x : Z).

Definition actLabels (a : act) : list string :=
  match a with Count s _ | Sample s _ | Put s _ => s.2 end.

Definition goodAct (a : act) : bool :=
  forallb (λ s, bool_decide (validUTF8 s)) (actLabels a)
  && match a with Count _ x => (0 <=? x)%Z | _ => true end.

Definition applyAct (v : registryView) (a : act) : registryView :=
  match a with
  | Count s x => addCounter s x v
  | Sample s x => addObservation s x v
  | Put s x => putGauge s x v
  end.

(** The effects of a call, from the documentation of the metrics. *)
Definition acts (c : recordCall) : list act :=
  match c with
  | Called (Domain.RecordRequest m p st u) d =>
      [Count ("vm_proxy_auth_http_requests_total", [m; p; st; default "anonymous" (user_ID <$> u)]) 1;
       Sample ("vm_proxy_auth_http_request_duration_seconds", [m; p; st]) d]
  | Called (Domain.RecordUpstreamBackend b m p st _) d =>
      [Count ("vm_proxy_auth_upstream_backend_requests_total", [b; m; p; st]) 1;
       Sample ("vm_proxy_auth_upstream_backend_request_duration_seconds", [b; m; p; st]) d]
  | Called (Domain.RecordQueryFilter u n f) d =>
      [Count ("vm_proxy_auth_query_filtering_total", [u; itoa n; FormatBool f]) 1;
       Sample ("vm_proxy_auth_query_filtering_duration_seconds", [u]) d]
  | Called (Domain.RecordAuthAttempt u st) _ => [Count ("vm_proxy_auth_auth_attempts_total", [st; u]) 1]
  | Called (Domain.RecordTenantAccess u t a) _ =>
      [Count ("vm_proxy_auth_tenant_access_total", [u; t; FormatBool a]) 1]
  | Called (Domain.RecordQueueOperation op _) d =>
      [Count ("vm_proxy_auth_queue_operations_total", [op]) 1;
       Sample ("vm_proxy_auth_queue_operations_duration_seconds", [op]) d]
  | Called (Domain.RecordLoadBalancerSelection st _) d =>
      [Count ("vm_proxy_auth_load_balancer_selections_total", [st]) 1;
       Sample ("vm_proxy_auth_load_balancer_selection_duration_seconds", [st]) d]
  | Called (Domain.RecordBackendStateChange b o n) _ =>
      [Count ("vm_proxy_auth_backend_state_changes_total", [b; BackendState_String o; BackendState_String n]) 1]
  | UpstreamCall m p st d ts =>
      [Count ("vm_proxy_auth_upstream_requests_total", [m; p; st; itoa (Z.of_nat (length ts))]) 1;
       Sample ("vm_proxy_auth_upstream_request_duration_seconds", [m; p; st]) d]
  | HealthCheckCall b ok d =>
      [Count ("vm_proxy_auth_health_check_total", [b; if ok then "success" else "failure"]) 1;
       Sample ("vm_proxy_auth_health_check_duration_seconds", [b]) d]
  | CircuitBreakerCall b st =>
      [Count ("vm_proxy_auth_circuit_breaker_state_total", [b; CircuitBreakerState_String st]) 1]
  | RaftStateCall n st =>
      [Put ("vm_proxy_auth_raft_state", [n; st])
         (if decide (st = "Leader") then 1 else if decide (st = "Follower") then 2
          else if decide (st = "Candidate") then 3 else 0)]
  | RaftTermCall n t => [Count ("vm_proxy_auth_raft_term_total", [n]) (float64 t)]
  | RaftIndexesCall n c a =>
      [Put ("vm_proxy_auth_raft_commit_index", [n]) (float64 c);
       Put ("vm_proxy_auth_raft_last_applied_index", [n]) (float64 a)]
  | RaftPeerCountCall n k => [Put ("vm_proxy_auth_raft_peers", [n]) (float64 k)]
  | RaftLeaderChangeCall o n => [Count ("vm_proxy_auth_raft_leader_changes_total", [o; n]) 1]
  | DiscoveryEventCall t s => [Count ("vm_proxy_auth_service_discovery_events_total", [t; s]) 1]
  | DiscoveryCountsCall s p b =>
      [Put ("vm_proxy_auth_service_discovery_peers", [s]) (float64 p);
       Put ("vm_proxy_auth_service_discovery_backends", [s]) (float64 b)]
  | DiscoveryErrorCall o s => [Count ("vm_proxy_auth_service_discovery_errors_total", [o; s]) 1]
  | DiscoveryUpdateCall s now => [Put ("vm_proxy_auth_service_discovery_last_update_timestamp", [s]) now]
  end%Z.

(** The text a caller hands to labels. *)
Definition callTexts (c : recordCall) : list string :=
  match c with
  | Called (Domain.RecordRequest m p st u) _ => [m; p; st; default "anonymous" (user_ID <$> u)]
  | Called (Domain.RecordUpstreamBackend b m p st _) _ => [b; m; p; st]
  | Called (Domain.RecordQueryFilter u _ _) _ => [u]
  | Called (Domain.RecordAuthAttempt u st) _ => [u; st]
  | Called (Domain.RecordTenantAccess u t _) _ => [u; t]
  | Called (Domain.RecordQueueOperation op _) _ => [op]
  | Called (Domain.RecordLoadBalancerSelection st _) _ => [st]
  | Called (Domain.RecordBackendStateChange b _ _) _ => [b]
  | UpstreamCall m p st _ _ => [m; p; st]
  | HealthCheckCall b _ _ | CircuitBreakerCall b _ => [b]
  | RaftStateCall n st => [n; st]
  | RaftTermCall n _ | RaftIndexesCall n _ _ | RaftPeerCountCall n _ => [n]
  | RaftLeaderChangeCall a b | DiscoveryEventCall a b | DiscoveryErrorCall a b => [a; b]
  | DiscoveryCountsCall s _ _ | DiscoveryUpdateCall s _ => [s]
  end.

(** A term is a uint64. *)
Definition callTyped (c : recordCall) : Prop :=
  match c with RaftTermCall _ t => (0 ≤ t)%Z | _ => True end.

Lemma goodAct_iff a :
  goodAct a = true ↔ Forall validUTF8 (actLabels a) ∧ match a with Count _ x => (0 ≤ x)%Z | _ => True end.
Proof.
  unfold goodAct. rewrite andb_true_iff, forallb_forall, Forall_forall.
  setoid_rewrite bool_decide_eq_true. setoid_rewrite list_elem_of_In.
  destruct a; rewrite ?Z.leb_le; naive_solver.
Qed.

Lemma acts_good c : callTyped c → Forall (λ a, goodAct a = true) (acts c) ↔ Forall validUTF8 (callTexts c).
Proof.
  assert (∀ b, validUTF8 (FormatBool b)) by by intros [].
  assert (∀ b, validUTF8 (BackendState_String b)) by by intros [].
  assert (∀ b, validUTF8 (CircuitBreakerState_String b)) by by intros [].
  assert (∀ b : bool, validUTF8 (if b then "success" else "failure")) by by intros [].
  pose proof itoa_valid. intros Ht.
  setoid_rewrite goodAct_iff.
  destruct c as [[]| | | | | | | | | | | |]; simpl in Ht |- *; rewrite ?Forall_cons, ?Forall_nil;
    cbn [actLabels snd]; rewrite ?Forall_cons, ?Forall_nil;
    pose proof float64_nonneg; split; intros; destruct_and?; split_and?; auto with lia.
Qed.

(* ------------------------------------------------------------------ *)
(** ** The service against the table *)

Section Proofs.
Context {P : Type} {HP : Prometheus P} {HL : PrometheusLaws P}.
Implicit Types (s : Service P) (calls : list recordCall).

Definition serviceView (s : Service P) : registryView := promView (registry s).

(** A call returns exactly when its effects are allowed, and has them. *)
Definition performs (o : outcome (Service P)) (l : list act) (v : registryView) : Prop :=
  match o with
  | Returned s => forallb goodAct l = true ∧ serviceView s = foldl applyAct v l ∧ metrics s = newMetricsSet
  | Panicked _ => forallb goodAct l = false
  end.

Lemma withRegistry_performs s (o : outcome P) a :
  metrics s = newMetricsSet →
  promView <$> value_of o = (if goodAct a then Some (applyAct (serviceView s) a) else None) →
  performs (withRegistry s o) [a] (serviceView s).
Proof.
  intros Hm Ho. unfold performs, withRegistry. simpl. rewrite andb_true_r.
  destruct o as [p|why], (goodAct a); simplify_eq/=; auto.
Qed.

Lemma performs_bind (o : outcome (Service P)) (f : Service P → outcome (Service P)) l1 l2 v :
  performs o l1 v → (∀ s, metrics s = newMetricsSet → performs (f s) l2 (serviceView s)) →
  performs (obind o f) (l1 ++ l2) v.
Proof.
  intros H1 H2. unfold performs in H1. destruct o as [s|why]; simpl.
  - destruct H1 as (Hg&Hv&Hm). specialize (H2 s Hm). unfold performs in *. rewrite forallb_app, foldl_app, Hg, <- Hv.
    exact H2.
  - by rewrite forallb_app, H1.
Qed.

Lemma goodLabels_act {k} (v : metricVec k) lvs :
  length lvs = length (vecLabels v) → goodLabels v lvs = forallb (λ x, bool_decide (validUTF8 x)) lvs.
Proof. intros E. unfold goodLabels. by rewrite E, Nat.eqb_refl. Qed.

Ltac one_call :=
  apply withRegistry_performs; [assumption|];
  match goal with H : metrics _ = newMetricsSet |- _ => rewrite H end;
  rewrite ?Inc_view, ?Add_view, ?Observe_view, ?SetGauge_view, ?SetToCurrentTime_view,
    goodLabels_act by reflexivity;
  unfold goodAct; cbn [actLabels snd]; rewrite ?(andb_true_r (forallb _ _)); reflexivity.

Lemma recorded_performs c s :
  metrics s = newMetricsSet → performs (recorded c s) (acts c) (serviceView s).
Proof.
  intros Hm. destruct c as [[]| | | | | | | | | | | |]; cbn [recorded acts];
    first [one_call | apply (performs_bind _ _ [_] [_]); [one_call|intros s' Hm'; one_call] | idtac].
  - destruct user; apply (performs_bind _ _ [_] [_]); [one_call|intros s' Hm'; one_call|one_call|intros s' Hm'; one_call].
  - unfold RecordRaftState. destruct (String.eqb_spec state "Leader") as [->|?]; [one_call|].
    rewrite (decide_False (P := state = "Leader")) by done.
    destruct (String.eqb_spec state "Follower") as [->|?]; [one_call|].
    rewrite (decide_False (P := state = "Follower")) by done.
    destruct (String.eqb_spec state "Candidate") as [->|?]; [one_call|].
    rewrite (decide_False (P := state = "Candidate")) by done. one_call.
Qed.

Lemma recordedAll_cons c calls s : recordedAll (c :: calls) s = obind (recorded c s) (recordedAll calls).
Proof.
  unfold recordedAll. simpl. destruct (recorded c s) as [s'|why]; [done|].
  simpl. induction calls as [|x l IH]; [done|exact IH].
Qed.

Lemma recordedAll_performs calls s :
  metrics s = newMetricsSet → performs (recordedAll calls s) (concat (map acts calls)) (serviceView s).
Proof.
  revert s. induction calls as [|c calls IH]; intros s Hm; [done|].
  rewrite recordedAll_cons. simpl. apply performs_bind; [by apply recorded_performs|exact IH].
Qed.

Lemma NewService_ok :
  ∃ s, NewService = Returned s ∧ metrics s = newMetricsSet ∧
    serviceView s = mkView (registeredMetrics newMetricsSet ++ [GoCollector; ProcessCollector]) ∅ ∅ ∅.
Proof.
  unfold NewService.
  pose proof (MustRegister_view (registeredMetrics newMetricsSet) NewRegistry) as H1.
  rewrite NewRegistry_view, bool_decide_true in H1 by (apply (bool_decide_unpack _); vm_compute; exact I).
  destruct (MustRegister _ NewRegistry) as [p1|]; [|done]. injection H1 as H1. simpl.
  pose proof (MustRegister_view [GoCollector] p1) as H2.
  rewrite H1, bool_decide_true in H2 by (apply (bool_decide_unpack _); vm_compute; exact I).
  destruct (MustRegister _ p1) as [p2|]; [|done]. injection H2 as H2. simpl.
  pose proof (MustRegister_view [ProcessCollector] p2) as H3.
  rewrite H2, bool_decide_true in H3 by (apply (bool_decide_unpack _); vm_compute; exact I).
  destruct (MustRegister _ p2) as [p3|]; [|done]. injection H3 as H3. simpl.
  eexists. split; [done|]. split; [done|]. exact H3.
Qed.

(* ------------------------------------------------------------------ *)
(** ** What is exported *)

(** How much an effect adds to a counter, and which samples it adds to a
    histogram. *)
Definition countIn (σ : series) (a : act) : Z :=
  match a with Count σ' x => if decide (σ' = σ) then x else 0 | _ => 0 end.

Definition samplesIn (σ : series) (a : act) : list Z :=
  match a with Sample σ' x => if decide (σ' = σ) then [x] else [] | _ => [] end.

Lemma applied_counters l v σ :
  counterOf (foldl applyAct v l) σ = (counterOf v σ + sumZ (map (countIn σ) l))%Z.
Proof.
  revert v. induction l as [|a l IH]; intros v; [by simpl; lia|]. simpl. rewrite IH. unfold sumZ at 2. simpl.
  fold (sumZ (map (countIn σ) l)). rewrite Z.add_assoc. f_equal.
  destruct a as [σ' x| |]; simpl; [|by rewrite Z.add_0_r..]. unfold counterOf, addCounter. simpl.
  case_decide as E; [subst; by rewrite lookup_insert_eq|].
  rewrite lookup_insert_ne by done. lia.
Qed.

Lemma applied_observations l v σ :
  observationsOf (foldl applyAct v l) σ = observationsOf v σ ++ concat (map (samplesIn σ) l).
Proof.
  revert v. induction l as [|a l IH]; intros v; [by rewrite app_nil_r|]. simpl. rewrite IH, app_assoc. f_equal.
  destruct a as [|σ' x|]; simpl; [by rewrite app_nil_r| |by rewrite app_nil_r]. unfold observationsOf, addObservation. simpl.
  case_decide as E; [subst; by rewrite lookup_insert_eq|].
  by rewrite lookup_insert_ne, app_nil_r.
Qed.

Lemma applied_collectors l v : rv_collectors (foldl applyAct v l) = rv_collectors v.
Proof. revert v. induction l as [|a l IH]; intros v; [done|]. simpl. rewrite IH. by destruct a. Qed.

Definition initialView : registryView :=
  mkView (registeredMetrics newMetricsSet ++ [GoCollector; ProcessCollector]) ∅ ∅ ∅.

Lemma replayed calls s s' :
  NewService = Returned s → recordedAll calls s = Returned s' →
  serviceView s' = foldl applyAct initialView (concat (map acts calls)).
Proof.
  intros Hs Hr. destruct NewService_ok as (s0&Hs0&Hm&Hv). rewrite Hs in Hs0. injection Hs0 as <-.
  pose proof (recordedAll_performs calls s Hm) as H. rewrite Hr in H. destruct H as (_&Hv'&_).
  by rewrite Hv', Hv.
Qed.

Lemma replayed_counter calls s s' σ :
  NewService = Returned s → recordedAll calls s = Returned s' →
  counterOf (serviceView s') σ = sumZ (map (countIn σ) (concat (map acts calls))).
Proof. intros Hs Hr. by rewrite (replayed calls s s'), applied_counters. Qed.

Lemma replayed_collectors calls s s' :
  NewService = Returned s → recordedAll calls s = Returned s' →
  Handler s' = registeredMetrics newMetricsSet ++ [GoCollector; ProcessCollector].
Proof.
  intros Hs Hr. unfold Handler. rewrite Gather_view. fold (serviceView s').
  by rewrite (replayed calls s s'), applied_collectors.
Qed.

Lemma recordedAll_returns calls s :
  metrics s = newMetricsSet → Forall callTyped calls →
  returns (recordedAll calls s) = true ↔ Forall (λ c, Forall validUTF8 (callTexts c)) calls.
Proof.
  intros Hm Ht.
  assert (returns (recordedAll calls s) = true ↔ forallb goodAct (concat (map acts calls)) = true) as ->.
  { pose proof (recordedAll_performs calls s Hm) as H. unfold performs in H.
    destruct (recordedAll calls s); simpl; [by destruct H as [-> _]|by rewrite H]. }
  rewrite forallb_forall. setoid_rewrite <- list_elem_of_In. rewrite <- Forall_forall, Forall_concat, Forall_map.
  split; intros H; rewrite Forall_forall in H, Ht |- *; intros c Hc; by apply acts_good; auto.
Qed.

(** C32: The service is made without a panic, and whatever calls of its methods follow,
    they return exactly when every text they put into a label is UTF-8: each method gives
    its metrics as many values as they have labels, and registers and names no metric
    twice. *)
Theorem recorded_calls_are_well_labelled :
  ∃ s, NewService = Returned s ∧ ∀ calls, Forall callTyped calls →
    returns (recordedAll calls s) = true ↔ Forall (λ c, Forall validUTF8 (callTexts c)) calls.
Proof.
  destruct NewService_ok as (s&Hs&Hm&_). exists s. split; [exact Hs|].
  intros calls. by apply recordedAll_returns.
Qed.

(** C33: After any calls that return, every counter and every histogram holds what the
    table of the metrics' meaning says of these calls, added up and in order, and the
    endpoint exports the registered metrics and the collectors of the run-time. *)
Theorem exported_series_match_calls calls s s' :
  NewService = Returned s → recordedAll calls s = Returned s' →
  let effects := concat (map acts calls) in
  (∀ σ, counterOf (serviceView s') σ = sumZ (map (countIn σ) effects)) ∧
  (∀ σ, observationsOf (serviceView s') σ = concat (map (samplesIn σ) effects)) ∧
  Handler s' = registeredMetrics newMetricsSet ++ [GoCollector; ProcessCollector].
Proof.
  intros Hs Hr. simpl. split_and!.
  - intros σ. by apply replayed_counter with s.
  - intros σ. by rewrite (replayed calls s s'), applied_observations.
  - by apply replayed_collectors with calls s.
Qed.

(** The counter of answered requests, as an instance. *)
Definition isRequest (m p st u : string) (c : recordCall) : bool :=
  match c with
  | Called (Domain.RecordRequest m' p' st' u') _ =>
      bool_decide ([m'; p'; st'; default "anonymous" (user_ID <$> u')] = [m; p; st; u])
  | _ => false
  end.

Lemma request_counter calls s s' m p st u :
  NewService = Returned s → recordedAll calls s = Returned s' →
  counterOf (serviceView s') ("vm_proxy_auth_http_requests_total", [m; p; st; u]) =
    Z.of_nat (length (filter (λ c, isRequest m p st u c = true) calls)).
Proof.
  intros Hs Hr. rewrite (replayed_counter calls s s') by done. clear.
  induction calls as [|c calls IH]; [done|]. simpl. rewrite map_app, sumZ_app, IH, filter_cons.
  destruct c as [[]| | | | | | | | | | | |]; simpl;
    try (repeat rewrite decide_False by (intros [=]); by rewrite ?Z.add_0_l).
  unfold sumZ. simpl. set (n := "vm_proxy_auth_http_requests_total").
  set (l1 := [method; _; _; _]). set (l2 := [m; _; _; _]).
  rewrite (decide_ext ((n, l1) = (n, l2)) (l1 = l2)) by (split; intros E; [by injection E as <- <- <- <-|by rewrite E]).
  destruct (decide (l1 = l2)) as [E|E].
  - rewrite decide_True by by apply bool_decide_true. simpl. lia.
  - rewrite decide_False by (by rewrite bool_decide_eq_true). simpl. lia.
Qed.

(** The metrics of Raft and of service discovery are kept, but no registry
    knows them: the endpoint never exports them. *)
Lemma cluster_metrics_are_not_exported calls s s' :
  NewService = Returned s → recordedAll calls s = Returned s' →
  Forall (λ name, name ∉ map collectorName (Handler s'))
    ["vm_proxy_auth_raft_state"; "vm_proxy_auth_raft_term_total"; "vm_proxy_auth_raft_commit_index";
     "vm_proxy_auth_raft_last_applied_index"; "vm_proxy_auth_raft_peers";
     "vm_proxy_auth_raft_leader_changes_total"; "vm_proxy_auth_service_discovery_events_total";
     "vm_proxy_auth_service_discovery_peers"; "vm_proxy_auth_service_discovery_backends";
     "vm_proxy_auth_service_discovery_errors_total";
     "vm_proxy_auth_service_discovery_last_update_timestamp"].
Proof.
  intros Hs Hr. rewrite (replayed_collectors calls s s') by done.
  apply (bool_decide_unpack _). vm_compute. exact I.
Qed.

(** The counter of Raft terms adds each term it is told up. *)
Lemma raft_terms_are_added_up n terms s s' :
  NewService = Returned s → recordedAll (map (RaftTermCall n) terms) s = Returned s' →
  counterOf (serviceView s') ("vm_proxy_auth_raft_term_total", [n]) = sumZ (map float64 terms).
Proof.
  intros Hs Hr. rewrite (replayed_counter _ s s') by done. clear.
  induction terms as [|t l IH]; [done|]. simpl. rewrite decide_True by done. unfold sumZ in *. simpl. by rewrite IH.
Qed.

(** A state that is left keeps its gauge. *)
Lemma left_raft_state_stays n s s' :
  NewService = Returned s →
  recordedAll [RaftStateCall n "Leader"; RaftStateCall n "Follower"] s = Returned s' →
  gaugeOf (serviceView s') ("vm_proxy_auth_raft_state", [n; "Leader"]) = Some 1%Z ∧
  gaugeOf (serviceView s') ("vm_proxy_auth_raft_state", [n; "Follower"]) = Some 2%Z.
Proof.
  intros Hs Hr. rewrite (replayed _ s s') by done. unfold gaugeOf. simpl.
  split; [rewrite lookup_insert_ne by done|]; by rewrite lookup_insert_eq.
Qed.
End Proofs.

(* ------------------------------------------------------------------ *)
(** ** A client that is its own view *)

#[global] Instance viewClient : Prometheus registryView := {|
  NewRegistry := mkView [] ∅ ∅ ∅;
  MustRegister cs v :=
    if bool_decide (NoDup (map collectorName (rv_collectors v ++ cs))) then Returned (addCollectors cs v)
    else Panicked "duplicate metrics collector registration attempted";
  Inc v lvs p := if goodLabels v lvs then Returned (addCounter (vecName v, lvs) 1 p) else Panicked "labels";
  Add v lvs x p :=
    if goodLabels v lvs && (0 <=? x)%Z then Returned (addCounter (vecName v, lvs) x p) else Panicked "labels";
  Observe v lvs x p := if goodLabels v lvs then Returned (addObservation (vecName v, lvs) x p) else Panicked "labels";
  SetGauge v lvs x p := if goodLabels v lvs then Returned (putGauge (vecName v, lvs) x p) else Panicked "labels";
  SetToCurrentTime v lvs now p := if goodLabels v lvs then Returned (putGauge (vecName v, lvs) now p) else Panicked "labels";
  Gather v := rv_collectors v
|}.

#[global] Instance viewClient_laws : PrometheusLaws registryView.
Proof. refine {| promView v := v |}; intros; simpl; try done; by case_match. Defined.

Definition sampleCalls : list recordCall :=
  [Called (Domain.RecordRequest "GET" "/api/v1/query" "200" None) 5; RaftTermCall "n" 7;
   Called (Domain.RecordRequest "GET" "/api/v1/query" "200" None) 6].

Lemma recorded_calls_are_well_labelled_witness :
  ∃ s : Service registryView, NewService = Returned s ∧ returns (recordedAll sampleCalls s) = true ∧
    returns (recordedAll [Called (Domain.RecordRequest "GET" (String (Ascii.ascii_of_N 255) "") "404" None) 5] s) = false.
Proof.
  destruct (recorded_calls_are_well_labelled (P := registryView)) as (s&Hs&H). exists s. split; [exact Hs|]. split.
  - apply H; [repeat constructor; simpl; lia|]. apply (bool_decide_unpack _). vm_compute. exact I.
  - destruct (returns _) eqn:E; [|reflexivity]. apply H in E; [|repeat constructor].
    apply (bool_decide_pack _) in E. vm_compute in E. destruct E.
Defined.

Lemma exported_series_match_calls_witness :
  match NewService (P := registryView) with
  | Returned s =>
      match recordedAll sampleCalls s with
      | Returned s' =>
          counterOf (serviceView s') ("vm_proxy_auth_http_requests_total", ["GET"; "/api/v1/query"; "200"; "anonymous"]) = 2%Z ∧
          observationsOf (serviceView s') ("vm_proxy_auth_http_request_duration_seconds", ["GET"; "/api/v1/query"; "200"]) = [5; 6]%Z
      | Panicked _ => False
      end
  | Panicked _ => False
  end.
Proof.
  destruct (NewService_ok (P := registryView)) as (s&Hs&Hm&_). rewrite Hs.
  assert (returns (recordedAll sampleCalls s) = true) as Hr.
  { apply recordedAll_returns; [done|repeat constructor; simpl; lia|].
    apply (bool_decide_unpack _). vm_compute. exact I. }
  destruct (recordedAll sampleCalls s) as [s'|why] eqn:E; [|discriminate Hr].
  destruct (exported_series_match_calls sampleCalls s s' Hs E) as (H1&H2&_).
  rewrite H1, H2. split; vm_compute; reflexivity.
Defined.
