(* ===== verification/Exported.v ===== *)
(** * Exported: the gateway's requests in the metrics it exports

    The calls that the components record (as data) are made of the metrics
    service, whatever the durations. *)

From S2P Require Import Prelude GoStd GoText Errors Domain LoadBalancer LBFactory Http Config Tenant Access Proxy ProxyProofs ProxyTheorems Gateway GatewayProofs Metrics.
From S2P Require Auth.

(** The calls a proxy world has recorded, with their durations. *)
Definition madeCalls {LB} (w : World LB) (duration : nat → Z) : list recordCall :=
  imap (λ i c, Called c (duration i)) (w_calls w).

Lemma madeCalls_typed {LB} (w : World LB) duration : Forall callTyped (madeCalls w duration).
Proof. apply Forall_lookup. intros i c. unfold madeCalls. rewrite list_lookup_imap. by intros (?&_&->)%fmap_Some. Qed.

Lemma madeCalls_texts {LB} (w : World LB) duration (Q : list string → Prop) :
  Forall (λ c, Q (callTexts c)) (madeCalls w duration) ↔ Forall (λ c, Q (callTexts (Called c 0))) (w_calls w).
Proof.
  rewrite !Forall_lookup. unfold madeCalls. setoid_rewrite list_lookup_imap. split; intros H i c Hc.
  - specialize (H i (Called c (duration i))). rewrite Hc in H. destruct c; apply (H eq_refl).
  - apply fmap_Some in Hc as (c'&Hc'&->). specialize (H i c' Hc'). by destruct c'.
Qed.

Section Exported.
Context {HJ : Auth.JWT} {HL : Auth.JWTLaws} {Expr : Type} {HP : PromQL Expr}.
Context {LB : Type} `{HLB : LoadBalancer LB, !LoadBalancerSpec LB}.
Context (jwt : JWTConfig) (maps : list MappingConfig) (filters : FilterConfig).
Context (genuine : Auth.fetchResult → Prop) (received : Request → Prop).
Context {kept : LB → LB → Prop} (env : Env LB)
  {HE : EnvLaws (admitted (Expr := Expr) jwt maps filters genuine received) kept env}.
Context {P : Type} {HM : Prometheus P} {HML : PrometheusLaws P}.

(** C34: Once the calls recorded up to an answer are made of the metrics service, with any
    durations and texts that are UTF-8, the exported counter of requests with the method,
    the path and the very status written is positive. *)
Theorem answered_requests_are_exported (h : GatewayHandler) r answer c duration (s : Metrics.Service P) :
  Metrics.NewService = Returned s →
  ∃ out h', ServeHTTP (Expr := Expr) env h r answer c = Some (out, h') ∧
    ∀ wr, out = Returned wr →
      Forall (λ call, Forall validUTF8 (callTexts (Called call 0))) (w_calls (gw_world h')) →
      ∃ s' user, recordedAll (madeCalls (gw_world h') duration) s = Returned s' ∧
        (1 ≤ counterOf (serviceView s') ("vm_proxy_auth_http_requests_total",
               [Method r; Path r; itoa (wr_Status wr); user]))%Z ∧
        "vm_proxy_auth_http_requests_total" ∈ map collectorName (Metrics.Handler s').
Proof.
  intros Hs. destruct (ServeHTTP_records jwt maps filters genuine received env h r answer c) as (out&h'&E&Hrec).
  exists out, h'. split; [exact E|]. intros wr -> Hutf. destruct Hrec as (before&user&Hcalls).
  destruct NewService_ok as (s0&Hs0&Hm&_). rewrite Hs in Hs0. injection Hs0 as <-.
  pose proof (recordedAll_returns (madeCalls (gw_world h') duration) s Hm (madeCalls_typed _ _)) as Hret.
  apply (madeCalls_texts _ duration), Hret in Hutf.
  destruct (recordedAll _ s) as [s'|] eqn:Hr; [|done]. exists s', (default "anonymous" (user_ID <$> user)).
  split; [done|]. split.
  - rewrite (request_counter _ _ _ _ _ _ _ Hs Hr). unfold madeCalls. rewrite Hcalls, imap_app, filter_app, length_app.
    simpl. rewrite filter_cons_True by by apply bool_decide_true. simpl. lia.
  - rewrite (replayed_collectors _ _ _ Hs Hr). left.
Qed.
End Exported.

#[local] Existing Instances Auth.toyJWT Auth.toyJWTLaws.

(** A request whose path is no UTF-8 is answered with 401 and recorded, and
    recording it panics: the server drops the connection and nothing is
    counted. *)
Definition badPath : Request := mkRequest "GET" ("/" +:+ String (Ascii.ascii_of_N 255) "") "" ∅ 0.

Lemma bad_path_is_not_recorded duration (s : Metrics.Service registryView) :
  Metrics.NewService = Returned s →
  match serve badPath with
  | Some (Returned wr, h') =>
      wr_Status wr = 401%Z ∧ returns (recordedAll (madeCalls (gw_world h') duration) s) = false
  | _ => False
  end.
Proof.
  intros Hs. destruct (serve badPath) as [[[wr|why] h']|] eqn:E; vm_compute in E; [|discriminate..].
  injection E as <- <-. split; [reflexivity|].
  destruct (returns _) eqn:Hr; [|reflexivity].
  destruct (NewService_ok (P := registryView)) as (s0&Hs0&Hm&_). rewrite Hs in Hs0. injection Hs0 as <-.
  apply recordedAll_returns, madeCalls_texts in Hr; [|done|apply madeCalls_typed].
  apply (bool_decide_pack _) in Hr. vm_compute in Hr. destruct Hr.
Qed.

Lemma answered_requests_are_exported_witness :
  match Metrics.NewService (P := registryView), serve (sampleRequest "GET" "/api/v1/query" "query=up") with
  | Returned s, Some (Returned wr, h') =>
      ∃ s' user, recordedAll (madeCalls (gw_world h') (λ _, 1%Z)) s = Returned s' ∧
        (1 ≤ counterOf (serviceView s') ("vm_proxy_auth_http_requests_total",
               ["GET"; "/api/v1/query"; itoa (wr_Status wr); user]))%Z
  | _, _ => False
  end.
Proof.
  assert (match serve (sampleRequest "GET" "/api/v1/query" "query=up") with
    | Some (Returned _, h') =>
        forallb (λ call, forallb (λ x, bool_decide (validUTF8 x)) (callTexts (Called call 0))) (w_calls (gw_world h'))
    | _ => false end = true) as Hutf by (vm_compute; reflexivity).
  destruct (NewService_ok (P := registryView)) as (s&Hs&_). rewrite Hs.
  destruct (answered_requests_are_exported (Expr := plainExpr) (LB := LBFactory.Balancer) Auth.sampleJWTConfig Auth.sampleMaps
    Tenant.sampleTenantConfig anyAnswer onlyQuery (quietEnv LBFactory.Balancer) sampleGateway
    (sampleRequest "GET" "/api/v1/query" "query=up") Auth.noAnswer (Auth.atSecond 50) (λ _, 1%Z) s Hs)
    as (out&h'&E&H).
  fold (serve (sampleRequest "GET" "/api/v1/query" "query=up")) in E. rewrite E in Hutf |- *.
  destruct out as [wr|why]; [|discriminate Hutf].
  destruct (H wr eq_refl) as (s'&user&H1&H2&_); [|exists s', user; split; [exact H1|exact H2]].
  rewrite Forall_forall. rewrite forallb_forall in Hutf. intros call Hc%list_elem_of_In.
  specialize (Hutf call Hc). rewrite Forall_forall. rewrite forallb_forall in Hutf.
  intros x Hx%list_elem_of_In. by apply (bool_decide_eq_true_1 _), Hutf.
Defined.
