(* ===== verification/Formatters.v ===== *)
(** * Formatters: infrastructure/logger/formatters/

    The logfmt, pretty and console formatters of log entries. An entry is
    logrus's; its data is a map, so the order in which a range statement
    visits the keys is an argument. *)

From Stdlib Require Import Ascii.
From S2P Require Import Prelude GoStd GoText Json GoFormat.

(* ------------------------------------------------------------------ *)
(** ** Entries *)

(** The values of fields; [VText] stands for any other value, by what %v
    prints of it. *)
Inductive fieldValue :=
| VNil
| VString (s : string)
| VInt (z : Z)
| VBool (b : bool)
| VText (printed : string).

#[export] Instance fieldValue_eq_dec : EqDecision fieldValue.
Proof. solve_decision. Defined.

(** fmt's %v *)
Definition printValue (v : fieldValue) : string :=
  match v with
  | VNil => "<nil>"
  | VString s => s
  | VInt z => itoa z
  | VBool b => if b then "true" else "false"
  | VText s => s
  end.

(** logrus.Level, the most severe first *)
Inductive Level := PanicLevel | FatalLevel | ErrorLevel | WarnLevel | InfoLevel | DebugLevel | TraceLevel.

#[export] Instance Level_eq_dec : EqDecision Level.
Proof. solve_decision. Defined.

Definition Level_String (l : Level) : string :=
  match l with
  | PanicLevel => "panic"
  | FatalLevel => "fatal"
  | ErrorLevel => "error"
  | WarnLevel => "warning"
  | InfoLevel => "info"
  | DebugLevel => "debug"
  | TraceLevel => "trace"
  end.

Notation Fields := (gmap string fieldValue).

Record Entry := mkEntry {
  e_Level : Level;
  e_Time : Z;
  e_Message : string;
  e_Data : Fields
}.

(** strings.ToUpper on ASCII *)
Definition ToUpper (s : string) : string :=
  String.string_of_list_ascii (map (λ c,
    if byteIn 97 122 c then ascii_of_N (N_of_ascii c - 32) else c) (String.list_ascii_of_string s)).

(* ------------------------------------------------------------------ *)
(** ** console.go *)

Definition importantKeys : list string :=
  ["user_id"; "user"; "error"; "status"; "method"; "path"; "duration"; "tenant_id"; "component"; "request_id"].

Definition extractImportantFields (fields : Fields) : string :=
  let parts := omap (λ key,
    match fields !! key with
    | None | Some VNil => None
    | Some value =>
        let valueStr := printValue value in
        if str_nonempty valueStr then Some (key +:+ ": " +:+ valueStr) else None
    end) importantKeys in
  if (0 <? length parts)%nat then "- " +:+ String.concat ", " parts else "".

Definition nl : string := String newline "".

Definition ConsoleFormatter_Format (entry : Entry) : string :=
  let levelStr := "[" +:+ ToUpper (Level_String (e_Level entry)) +:+ "]" in
  let b := levelStr +:+ " " +:+ e_Message entry in
  let importantFields := extractImportantFields (e_Data entry) in
  let b := if str_nonempty importantFields then b +:+ " " +:+ importantFields else b in
  b +:+ nl.

(* ------------------------------------------------------------------ *)
(** ** logfmt.go *)

Definition needsQuoting (s : string) : bool :=
  String.eqb s ""
  || existsb (λ c, bool_decide (c ∈ [" "; "="; "034"; "009"; "010"; "013"]%char)) (String.list_ascii_of_string s).

Section LogFmt.
Context (isPrint : N → bool).

Definition formatValue (value : fieldValue) : string :=
  match value with
  | VNil => "<nil>"
  | _ =>
      let str := printValue value in
      if needsQuoting str then Quote isPrint str else str
  end.

Definition appendKeyValue (b : string) (key : string) (value : fieldValue) : string :=
  let b := if str_nonempty b then b +:+ " " else b in
  b +:+ key +:+ "=" +:+ formatValue value.

(** strings compared with > *)
Definition string_gt (s t : string) : bool := bool_decide (¬ String.le s t).

(** The inner loop at an index: whenever a later key is smaller, the two are
    exchanged. *)
Fixpoint sortPass (x : string) (rest : list string) : string * list string :=
  match rest with
  | [] => (x, [])
  | y :: rest' =>
      if string_gt x y then let '(m, r) := sortPass y rest' in (m, x :: r)
      else let '(m, r) := sortPass x rest' in (m, y :: r)
  end.

Fixpoint sortLoop (n : nat) (keys : list string) : list string :=
  match n, keys with
  | S n, x :: rest => let '(m, r) := sortPass x rest in m :: sortLoop n r
  | _, _ => keys
  end.

Definition sortKeys (keys : list string) : list string := sortLoop (length keys) keys.

(** [order] is the order in which the range over entry.Data visits the keys. *)
Definition LogFmtFormatter_Format (entry : Entry) (order : list string) : string :=
  let b := appendKeyValue "" "level" (VString (Level_String (e_Level entry))) in
  let b := appendKeyValue b "time" (VString (FormatMillis 0 (e_Time entry))) in
  let b := appendKeyValue b "msg" (VString (e_Message entry)) in
  let keys := sortKeys order in
  let b := foldl (λ b key, appendKeyValue b key (default VNil (e_Data entry !! key))) b keys in
  b +:+ nl.
End LogFmt.

(* ------------------------------------------------------------------ *)
(** ** pretty.go *)

Definition esc (code : string) : string := String "027" ("[" +:+ code +:+ "m").
Definition ColorReset : string := esc "0".
Definition ColorRed : string := esc "31".
Definition ColorYellow : string := esc "33".
Definition ColorBlue : string := esc "34".
Definition ColorGray : string := esc "90".
Definition ColorBold : string := esc "1".
Definition ColorCyan : string := esc "36".

(** What supportsColor asks: whether stdout is a character device (None when
    Stat fails), TERM and COLORTERM. *)
Definition supportsColor (stdout : option bool) (term colorTerm : string) : bool :=
  match stdout with
  | Some true =>
      negb (String.eqb term "dumb")
      && (str_nonempty colorTerm || contains term "color" || contains term "256"
          || String.eqb term "xterm" || String.eqb term "screen")
  | _ => false
  end.

Section Pretty.
Context (UseColors : bool).

Definition colorize (color text : string) : string :=
  if UseColors then color +:+ text +:+ ColorReset else text.

Definition formatLevel (level : Level) : string :=
  let levelStr := padRight 5 (ToUpper (Level_String level)) in
  if negb UseColors then levelStr
  else
    match level with
    | ErrorLevel => colorize ColorRed levelStr
    | WarnLevel => colorize ColorYellow levelStr
    | InfoLevel => colorize ColorBlue levelStr
    | DebugLevel => colorize ColorGray levelStr
    | PanicLevel => colorize ColorRed levelStr
    | FatalLevel => colorize ColorRed levelStr
    | TraceLevel => colorize ColorGray levelStr
    end.

Definition maxWidth : nat := 35.

Definition padMessage (message : string) : string :=
  if (maxWidth <? String.length message)%nat then message else padRight maxWidth message.

Definition formatFieldValue (value : fieldValue) : string :=
  match value with
  | VNil => colorize ColorGray "<nil>"
  | _ =>
      let str := printValue value in
      if contains str " " then String quote (str +:+ String quote "") else str
  end.

Definition importantFields : list string :=
  ["user_id"; "request_id"; "component"; "error"; "status"; "duration"].

Definition fieldPart (key : string) (value : fieldValue) : string :=
  colorize ColorCyan key +:+ "=" +:+ formatFieldValue value.

(** The important fields first, each deleted from the map once written. *)
Definition importantParts (fields : Fields) : list string * Fields :=
  foldl (λ '(parts, fields) key,
    match fields !! key with
    | Some value => (parts ++ [fieldPart key value], delete key fields)
    | None => (parts, fields)
    end) ([], fields) importantFields.

(** [order] is the order in which the range over what is left visits it. *)
Definition formatFields (fields : Fields) (order : list string) : string :=
  if (size fields =? 0)%nat then ""
  else
    let '(parts, fields) := importantParts fields in
    let parts := parts ++ map (λ key, fieldPart key (default VNil (fields !! key))) order in
    if (0 <? length parts)%nat then " " +:+ String.concat " " parts else "".

Definition PrettyFormatter_Format (offset : Z) (entry : Entry) (order : list string) : string :=
  let timestamp := FormatSeconds offset (e_Time entry) in
  let b := colorize ColorGray timestamp +:+ " " in
  let b := b +:+ formatLevel (e_Level entry) +:+ " " in
  let message := padMessage (e_Message entry) in
  let b := b +:+ colorize ColorBold message in
  let b := if (0 <? size (e_Data entry))%nat then b +:+ formatFields (e_Data entry) order else b in
  b +:+ nl.
End Pretty.

(* ------------------------------------------------------------------ *)
(** ** The keys are sorted *)

Lemma string_gt_false s t : string_gt s t = false ↔ String.le s t.
Proof. unfold string_gt. rewrite bool_decide_eq_false. split; [apply dec_stable|tauto]. Qed.

Lemma string_gt_true s t : string_gt s t = true → String.le t s.
Proof. unfold string_gt. rewrite bool_decide_eq_true. intros H. by destruct (total String.le s t). Qed.

Lemma sortPass_spec x rest m r :
  sortPass x rest = (m, r) → m :: r ≡ₚ x :: rest ∧ Forall (String.le m) r ∧ String.le m x.
Proof.
  revert x m r. induction rest as [|y rest IH]; intros x m r; simpl; [by intros [= <- <-]|].
  destruct (string_gt x y) eqn:E.
  - destruct (sortPass y rest) as [m' r'] eqn:E'. intros [= <- <-]. apply IH in E' as (Hp&Hle&Hy).
    apply string_gt_true in E. assert (String.le m' x) by (by trans y).
    split; [|split; [by constructor|done]]. by rewrite (Permutation_swap x m'), Hp.
  - destruct (sortPass x rest) as [m' r'] eqn:E'. intros [= <- <-]. apply IH in E' as (Hp&Hle&Hx).
    apply string_gt_false in E. assert (String.le m' y) by (by trans x).
    split; [|split; [by constructor|done]]. rewrite (Permutation_swap y m'), Hp. apply Permutation_swap.
Qed.

Lemma sortLoop_spec n l :
  (length l ≤ n)%nat → sortLoop n l ≡ₚ l ∧ StronglySorted String.le (sortLoop n l).
Proof.
  revert l. induction n as [|n IH]; intros [|x l] Hn; simpl in Hn; try lia; simpl; [by split; constructor..|].
  destruct (sortPass x l) as [m r] eqn:E. apply sortPass_spec in E as (Hp&Hle&Hx).
  assert (length r ≤ n)%nat as Hr by (apply Permutation_length in Hp; simpl in Hp; lia).
  destruct (IH r Hr) as [Hp' Hs]. split; [by rewrite Hp'|]. constructor; [done|]. by rewrite Hp'.
Qed.

Lemma sortKeys_perm l : sortKeys l ≡ₚ l.
Proof. by apply sortLoop_spec. Qed.

Lemma sortKeys_sorted l : StronglySorted String.le (sortKeys l).
Proof. by apply sortLoop_spec. Qed.

Lemma sortKeys_order l l' : l ≡ₚ l' → sortKeys l = sortKeys l'.
Proof.
  intros H. apply (StronglySorted_unique String.le); [apply sortKeys_sorted..|]. by rewrite !sortKeys_perm.
Qed.

(* ------------------------------------------------------------------ *)
(** ** Lines *)

Definition oneLine (s : string) : Prop := newline ∉ String.list_ascii_of_string s.

Lemma oneLine_app s t : oneLine (s +:+ t) ↔ oneLine s ∧ oneLine t.
Proof. unfold oneLine. by rewrite list_ascii_app, not_elem_of_app. Qed.

Lemma unquoted_line s : needsQuoting s = false → oneLine s.
Proof.
  unfold needsQuoting, oneLine. rewrite orb_false_iff. intros [_ H] Hin.
  assert (existsb (λ c, bool_decide (c ∈ [" "; "="; "034"; "009"; "010"; "013"]%char)) (String.list_ascii_of_string s) = true) as Ht.
  { apply existsb_exists. exists newline. split; [by apply list_elem_of_In|reflexivity]. }
  by rewrite Ht in H.
Qed.

Lemma formatValue_line isPrint v : oneLine (formatValue isPrint v).
Proof.
  assert (∀ s, oneLine (if needsQuoting s then Quote isPrint s else s)) as H.
  { intros s. destruct (needsQuoting s) eqn:E; [apply Quote_line|by apply unquoted_line]. }
  destruct v; simpl; try apply H. unfold oneLine. apply (bool_decide_unpack _). vm_compute. exact I.
Qed.

Lemma appendKeyValue_line isPrint b key v :
  oneLine b → oneLine key → oneLine (appendKeyValue isPrint b key v).
Proof.
  intros Hb Hk. unfold appendKeyValue. rewrite !oneLine_app. split; [|split; [done|]].
  - case_match; [|done]. rewrite oneLine_app. split; [done|]. by apply (bool_decide_unpack _).
  - split; [by apply (bool_decide_unpack _)|apply formatValue_line].
Qed.

(** C39: The logfmt text of an entry does not depend on the order in which the fields are
    ranged over, and is one line whatever the message and the values are, as long as the
    keys have no line breaks. *)
Theorem logfmt_entry_is_one_line isPrint entry order order' :
  order ≡ₚ map fst (map_to_list (e_Data entry)) → order' ≡ₚ order →
  LogFmtFormatter_Format isPrint entry order' = LogFmtFormatter_Format isPrint entry order ∧
  (map_Forall (λ key _, oneLine key) (e_Data entry) →
     ∃ line, LogFmtFormatter_Format isPrint entry order = line +:+ nl ∧ oneLine line).
Proof.
  intros Ho Ho'. unfold LogFmtFormatter_Format. split; [by rewrite (sortKeys_order order' order)|].
  intros Hk. eexists. split; [done|].
  assert (Forall oneLine (sortKeys order)) as Hkeys.
  { rewrite sortKeys_perm, Ho. apply Forall_map, Forall_forall. intros [k v] Hin%elem_of_map_to_list. by apply (Hk k v). }
  assert (∀ b l, oneLine b → Forall oneLine l → oneLine (foldl (λ b key,
    appendKeyValue isPrint b key (default VNil (e_Data entry !! key))) b l)) as Hfold.
  { intros b l Hb Hl. revert b Hb. induction Hl as [|k l Hkl _ IH]; intros b Hb; [done|]. simpl.
    apply IH. by apply appendKeyValue_line. }
  apply Hfold; [|done]. by repeat (apply appendKeyValue_line; [|by apply (bool_decide_unpack _)]); apply (bool_decide_unpack _).
Qed.

(** The console format writes the message as it is: one entry can be made to
    look like two. *)
Lemma console_forgery level t m1 m2 :
  ConsoleFormatter_Format (mkEntry level t (m1 +:+ nl +:+ "[" +:+ ToUpper (Level_String level) +:+ "] " +:+ m2) ∅)
  = ConsoleFormatter_Format (mkEntry level t m1 ∅) +:+ ConsoleFormatter_Format (mkEntry level t m2 ∅).
Proof.
  unfold ConsoleFormatter_Format. cbn [e_Data e_Level e_Message]. change (extractImportantFields ∅) with "".
  cbn [str_nonempty String.eqb negb]. by rewrite <- !append_assoc.
Qed.

(** And so does the pretty format, for a message of more than 35 bytes. *)
Lemma pretty_writes_long_messages_as_they_are offset entry :
  (maxWidth < String.length (e_Message entry))%nat → e_Data entry = ∅ →
  PrettyFormatter_Format false offset entry [] =
    FormatSeconds offset (e_Time entry) +:+ " " +:+ padRight 5 (ToUpper (Level_String (e_Level entry))) +:+ " "
    +:+ e_Message entry +:+ nl.
Proof.
  intros Hm Hd. unfold PrettyFormatter_Format, padMessage. rewrite Hd.
  rewrite (proj2 (Nat.ltb_lt maxWidth _)) by done. rewrite map_size_empty. cbn [colorize formatLevel negb Nat.ltb Nat.leb].
  by rewrite <- !append_assoc.
Qed.

(* ------------------------------------------------------------------ *)
(** ** The pretty format shows every field once *)

Lemma importantLoop_perm colors keys parts fields :
  let '(parts', fields') := foldl (λ '(parts, fields) key,
    match fields !! key with
    | Some value => (parts ++ [fieldPart colors key value], delete key fields)
    | None => (parts, fields)
    end) (parts, fields) keys in
  parts' ++ map (λ kv, fieldPart colors kv.1 kv.2) (map_to_list fields')
    ≡ₚ parts ++ map (λ kv, fieldPart colors kv.1 kv.2) (map_to_list fields) ∧ fields' ⊆ fields ∧
  (∀ k, k ∈ keys → fields' !! k = None).
Proof.
  revert parts fields. induction keys as [|key keys IH]; intros parts fields; simpl.
  { split; [done|]. split; [done|]. by intros k ?%elem_of_nil. }
  destruct (fields !! key) as [v|] eqn:E.
  - specialize (IH (parts ++ [fieldPart colors key v]) (delete key fields)).
    destruct (foldl _ _ _) as [parts' fields']. destruct IH as (Hp&Hs&Hk). split_and!.
    + rewrite Hp, <- app_assoc. f_equiv. by rewrite <- (map_to_list_delete fields key v).
    + trans (delete key fields); [done|]. apply delete_subseteq.
    + intros k [->|Hin]%elem_of_cons; [|by apply Hk].
      apply (lookup_weaken_None _ (delete key fields)); [by rewrite lookup_delete_eq|done].
  - specialize (IH parts fields). destruct (foldl _ _ _) as [parts' fields']. destruct IH as (Hp&Hs&Hk).
    split_and!; [done..|]. intros k [->|Hin]%elem_of_cons; [|by apply Hk]. by apply (lookup_weaken_None _ fields).
Qed.

Lemma formatFields_complete colors fields order :
  fields ≠ ∅ → order ≡ₚ map fst (map_to_list (importantParts colors fields).2) →
  ∃ parts, formatFields colors fields order = " " +:+ String.concat " " parts ∧
    parts ≡ₚ map (λ kv, fieldPart colors kv.1 kv.2) (map_to_list fields).
Proof.
  intros Hne Ho. unfold formatFields. rewrite (proj2 (Nat.eqb_neq _ _)) by by apply map_size_non_empty_iff.
  unfold importantParts in *.
  pose proof (importantLoop_perm colors importantFields [] fields) as H.
  destruct (foldl _ _ _) as [parts left]. destruct H as (Hp&_&_). simpl in Hp, Ho.
  assert (parts ++ map (λ key, fieldPart colors key (default VNil (left !! key))) order
    ≡ₚ map (λ kv, fieldPart colors kv.1 kv.2) (map_to_list fields)) as Hperm.
  { rewrite <- Hp. f_equiv. rewrite Ho, map_map. erewrite map_ext_in; [done|].
    intros [k v] Hin%list_elem_of_In%elem_of_map_to_list. simpl. by rewrite Hin. }
  rewrite (proj2 (Nat.ltb_lt _ _)); [by eexists|].
  rewrite Hperm, length_map. rewrite length_map_to_list. by apply Nat.neq_0_lt_0, map_size_non_empty_iff.
Qed.

Definition sampleEntry : Entry :=
  mkEntry InfoLevel 0 ("it" +:+ nl +:+ "works") {["user_id" := VString "bob"; "n" := VInt 3]}.

Lemma logfmt_entry_is_one_line_witness :
  LogFmtFormatter_Format (λ _, true) sampleEntry ["user_id"; "n"]
    = LogFmtFormatter_Format (λ _, true) sampleEntry ["n"; "user_id"] ∧
  ∃ line, LogFmtFormatter_Format (λ _, true) sampleEntry ["n"; "user_id"] = line +:+ nl ∧ oneLine line.
Proof.
  destruct (logfmt_entry_is_one_line (λ _, true) sampleEntry ["n"; "user_id"] ["user_id"; "n"]) as [H1 H2].
  - apply (bool_decide_unpack _). vm_compute. exact I.
  - apply Permutation_swap.
  - split; [exact H1|]. apply H2. apply (bool_decide_unpack _). vm_compute. exact I.
Defined.
