(* ===== verification/Logger.v ===== *)
(** * Logger: infrastructure/logger/logger.go

    The structured logger over logrus, and the masking of secrets in the
    values of fields. The logger's output is the list of the texts written;
    logrus's own JSON formatter is an argument. *)

From Stdlib Require Import Ascii.
From S2P Require Import Prelude GoText Json Formatters Regexp.

(* ------------------------------------------------------------------ *)
(** ** sanitizeString *)

Definition text (s : string) : list ascii := String.list_ascii_of_string s.

Definition lower (c : ascii) : ascii := if byteIn 65 90 c then ascii_of_N (N_of_ascii c + 32) else c.

(** Under (?i) a letter matches both cases, and k and s also the Kelvin sign
    and the long s. *)
Definition kelvin : regexp := Seq (Char (Ascii.eqb "226")) (Seq (Char (Ascii.eqb "132")) (Char (Ascii.eqb "170"))).
Definition longS : regexp := Seq (Char (Ascii.eqb "197")) (Char (Ascii.eqb "191")).

Definition letter (c : ascii) : regexp :=
  let both := Char (λ x, Ascii.eqb (lower x) c) in
  if Ascii.eqb c "k" then Alt both kelvin else if Ascii.eqb c "s" then Alt both longS else both.

Fixpoint literal (l : list ascii) : regexp :=
  match l with
  | [] => Empty
  | [c] => letter c
  | c :: l' => Seq (letter c) (literal l')
  end.

Definition lit (s : string) : regexp := literal (text s).

Fixpoint oneOf (rs : list regexp) : regexp :=
  match rs with
  | [] => Char (λ _, false)
  | [r] => r
  | r :: rs' => Alt r (oneOf rs')
  end.

Fixpoint seq (rs : list regexp) : regexp :=
  match rs with
  | [] => Empty
  | [r] => r
  | r :: rs' => Seq r (seq rs')
  end.

(** \s *)
Definition blank (c : ascii) : bool := bool_decide (c ∈ ["009"; "010"; "012"; "013"; " "]%char).
Definition space : regexp := Char blank.

(** [a-zA-Z0-9\-_], which under (?i) has the two odd letters too *)
Definition tokenByte (c : ascii) : bool :=
  byteIn 97 122 c || byteIn 65 90 c || byteIn 48 57 c || bool_decide (c ∈ ["-"; "_"]%char).
Definition tokenChar : regexp := Alt (Char tokenByte) (Alt kelvin longS).

Definition notIn (l : list ascii) : regexp := Char (λ c, negb (blank c || bool_decide (c ∈ l))).

(** The patterns, in the source's order. *)
Definition bearerPattern : regexp :=
  seq [lit "bearer"; Regexp.Plus space; Regexp.Plus tokenChar; lit "."; Regexp.Plus tokenChar; lit "."; Regexp.Plus tokenChar].
Definition headerPattern : regexp :=
  seq [lit "authorization:"; Star space; lit "bearer"; Regexp.Plus space; Regexp.Plus (notIn [])].
Definition paramPattern : regexp :=
  seq [oneOf (map lit ["password"; "passwd"; "pwd"; "secret"; "token"; "key"]); lit "="; Regexp.Plus (notIn ["&"%char])].
Definition dash : regexp := Opt (Char (λ c, bool_decide (c ∈ ["_"; "-"]%char))).
Definition valuePattern : regexp :=
  seq [oneOf [seq [lit "api"; dash; lit "key"]; seq [lit "access"; dash; lit "token"]; seq [lit "secret"; dash; lit "key"]];
       lit ":"; Star space; Regexp.Plus (notIn [","; "}"]%char)].

Definition sensitivePatterns : list regexp := [bearerPattern; headerPattern; paramPattern; valuePattern].

(** The bytes up to and including the first [c]. *)
Fixpoint through (c : ascii) (l : list ascii) : option (list ascii) :=
  match l with
  | [] => None
  | d :: l' => if Ascii.eqb d c then Some [d] else cons d <$> through c l'
  end.

Definition maskMatch (m : list ascii) : list ascii :=
  match through "=" m with
  | Some kept => kept ++ text "[REDACTED]"
  | None =>
      match through ":" m with
      | Some kept => kept ++ text " [REDACTED]"
      | None => text "[REDACTED]"
      end
  end.

Definition sanitizeBytes (l : list ascii) : list ascii :=
  foldl (λ result pattern, replaceAll pattern maskMatch result) l sensitivePatterns.

Definition sanitizeString (s : string) : string := String.string_of_list_ascii (sanitizeBytes (text s)).

Example sanitize_examples :
  map sanitizeString
    ["login Bearer ab.cd.ef ok"; "x?Password=hunter2&y=1"; "api-key: s3cret, n: 1"; "plain";
     "Authorization: Bearer opaque"]
  = ["login [REDACTED] ok"; "x?Password=[REDACTED]&y=1"; "api-key: [REDACTED], n: 1"; "plain";
     "Authorization: [REDACTED]"].
Proof. vm_compute. reflexivity. Qed.

Definition sanitizeLogValue (value : fieldValue) : fieldValue :=
  match value with
  | VString str => VString (sanitizeString str)
  | _ => value
  end.

(* ------------------------------------------------------------------ *)
(** ** The structured logger *)

(** domain.Field *)
Record Field := mkField { f_Key : string; f_Value : fieldValue }.

(** The formatters NewStructuredLogger chooses from. *)
Inductive Formatter := JSONFormatter | LogFmtFormatter | PrettyFormatter (useColors : bool) | ConsoleFormatter.

(** logrus's Logger and the fields. *)
Record StructuredLogger := mkLogger {
  lg_Level : Level;
  lg_Formatter : Formatter;
  lg_fields : Fields
}.

Definition levelOf (level : string) : Level :=
  if String.eqb level "debug" then DebugLevel
  else if String.eqb level "info" then InfoLevel
  else if String.eqb level "warn" then WarnLevel
  else if String.eqb level "error" then ErrorLevel
  else InfoLevel.

(** [colors] is what supportsColor finds. *)
Definition formatterOf (colors : bool) (format : string) : Formatter :=
  if String.eqb format "json" then JSONFormatter
  else if String.eqb format "logfmt" then LogFmtFormatter
  else if String.eqb format "pretty" then PrettyFormatter colors
  else if String.eqb format "console" then ConsoleFormatter
  else JSONFormatter.

Definition NewStructuredLogger (colors : bool) (level format : string) : StructuredLogger :=
  mkLogger (levelOf level) (formatterOf colors format) ∅.

Definition severity (l : Level) : nat :=
  match l with
  | PanicLevel => 0 | FatalLevel => 1 | ErrorLevel => 2 | WarnLevel => 3
  | InfoLevel => 4 | DebugLevel => 5 | TraceLevel => 6
  end.

(** logrus: a level is enabled when it is at least as severe as the logger's. *)
Definition IsLevelEnabled (l : StructuredLogger) (level : Level) : bool :=
  (severity level <=? severity (lg_Level l))%nat.

Definition addFields (g : fieldValue → fieldValue) (fields : Fields) (new : list Field) : Fields :=
  foldl (λ fs f, <[f_Key f := g (f_Value f)]> fs) fields new.

Definition With (l : StructuredLogger) (fields : list Field) : StructuredLogger :=
  mkLogger (lg_Level l) (lg_Formatter l) (addFields id (lg_fields l) fields).

Section Output.
(* which runes print; the zone of the pretty format; logrus's JSON formatter;
   the order in which a map is visited *)
Context (isPrint : N → bool) (offset : Z) (jsonFormat : Entry → string) (visit : Fields → list string).

Definition Format (f : Formatter) (e : Entry) : string :=
  match f with
  | JSONFormatter => jsonFormat e
  | LogFmtFormatter => LogFmtFormatter_Format isPrint e (visit (e_Data e))
  | PrettyFormatter colors =>
      PrettyFormatter_Format colors offset e (visit (importantParts colors (e_Data e)).2)
  | ConsoleFormatter => ConsoleFormatter_Format e
  end.

(** What is written, at the time [now]. *)
Definition logWithFields (l : StructuredLogger) (level : Level) (now : Z) (msg : string) (fields : list Field)
  : list string :=
  let entry := mkEntry level now msg (addFields sanitizeLogValue (lg_fields l) fields) in
  if IsLevelEnabled l level then [Format (lg_Formatter l) entry] else [].

Definition Debug (l : StructuredLogger) := logWithFields l DebugLevel.
Definition Info (l : StructuredLogger) := logWithFields l InfoLevel.
Definition Warn (l : StructuredLogger) := logWithFields l WarnLevel.
Definition Error (l : StructuredLogger) := logWithFields l ErrorLevel.
End Output.

(** Helpers for fields *)
Definition String_ (key value : string) : Field := mkField key (VString value).
Definition Int (key : string) (value : Z) : Field := mkField key (VInt value).
Definition Duration (key : string) (value : fieldValue) : Field := mkField key value.
Definition ErrorField (err : option string) : Field :=
  match err with
  | None => mkField "error" VNil
  | Some text => mkField "error" (VString text)
  end.
Definition UserID (id : string) : Field := mkField "user_id" (VString id).
Definition RequestID (id : string) : Field := mkField "request_id" (VString id).
Definition PathField (path : string) : Field := mkField "path" (VString path).
Definition MethodField (method : string) : Field := mkField "method" (VString method).
Definition StatusCodeField (code : Z) : Field := mkField "status_code" (VInt code).

(** The contextual logger, which embeds the other. *)
Definition NewEnhancedStructuredLogger (colors : bool) (level format : string) : StructuredLogger :=
  NewStructuredLogger colors level format.
Definition WithComponent (e : StructuredLogger) (component : string) : StructuredLogger :=
  With e [mkField "component" (VString component)].
Definition WithRequestID (e : StructuredLogger) (requestID : string) : StructuredLogger :=
  With e [mkField "request_id" (VString requestID)].
Definition WithUser (e : StructuredLogger) (userID : string) : StructuredLogger :=
  With e [mkField "user_id" (VString userID)].
Definition WithTenant (e : StructuredLogger) (accountID projectID : string) : StructuredLogger :=
  let fields := [mkField "tenant_account" (VString accountID)] in
  let fields := if str_nonempty projectID then fields ++ [mkField "tenant_project" (VString projectID)] else fields in
  With e fields.

(* ------------------------------------------------------------------ *)
(** ** What masking guarantees *)

(** Every byte of a word satisfies what every byte of the expression does. *)
Fixpoint bytesOf (r : regexp) (q : ascii → Prop) : Prop :=
  match r with
  | Empty => True
  | Char p => ∀ c, p c = true → q c
  | Seq r1 r2 | Alt r1 r2 => bytesOf r1 q ∧ bytesOf r2 q
  | Star r1 => bytesOf r1 q
  end.

Lemma word_bytes r u q : bytesOf r q → word r u → Forall q u.
Proof.
  intros Hr Hu. revert Hr. induction Hu; simpl; intros Hr; rewrite ?Forall_app; naive_solver.
Qed.

Definition separator (c : ascii) : bool := bool_decide (c ∈ ["["; "]"; "="; ":"]%char).
Definition isB (c : ascii) : bool := Ascii.eqb (lower c) "b".

Lemma bearer_word u :
  word bearerPattern u → free separator u ∧ Exists (λ c, isB c = true) u.
Proof.
  intros Hu. split.
  - apply (word_bytes bearerPattern); [|done].
    repeat split; cbn; intros c; destruct c as [[] [] [] [] [] [] [] []]; vm_compute; congruence.
  - unfold bearerPattern, lit in Hu. cbn [seq] in Hu.
    inversion Hu as [| |? ? u1 u2 H1 _| | | |]; subst. apply Exists_app. left.
    cbn in H1. inversion H1 as [| |? ? u3 u4 H3 _| | | |]; subst. apply Exists_app. left.
    inversion H3 as [|? c Hc| | | | |]; subst. by constructor.
Qed.

Lemma through_spec c l kept :
  through c l = Some kept → ∃ x rest, kept = x ++ [c] ∧ l = x ++ c :: rest.
Proof.
  revert kept. induction l as [|d l IH]; intros kept; simpl; [done|].
  destruct (Ascii.eqb_spec d c) as [->|_]; [intros [= <-]; by exists [], l|].
  intros (kept'&E&->)%fmap_Some. destruct (IH _ E) as (x&rest&->&->). by exists (d :: x), rest.
Qed.

Lemma maskMatch_masks : masks separator isB maskMatch.
Proof.
  intros m. unfold maskMatch. destruct (through "=" m) as [kept|] eqn:E1.
  { apply through_spec in E1 as (x&rest&->&->). exists x, "="%char, (text "[REDACTED"), "]"%char.
    split; [by rewrite <- app_assoc|]. split; [right; by exists rest; rewrite <- app_assoc|].
    split; [done|]. split; [done|]. by repeat constructor. }
  destruct (through ":" m) as [kept|] eqn:E2.
  { apply through_spec in E2 as (x&rest&->&->). exists x, ":"%char, (text " [REDACTED"), "]"%char.
    split; [by rewrite <- app_assoc|]. split; [right; by exists rest; rewrite <- app_assoc|].
    split; [done|]. split; [done|]. by repeat constructor. }
  exists [], "["%char, (text "REDACTED"), "]"%char. repeat split; [by left|by repeat constructor].
Qed.

Lemma masked_everywhere pats l :
  (∀ u, factor u l → ¬ word bearerPattern u) →
  ∀ u, factor u (foldl (λ result pattern, replaceAll pattern maskMatch result) l pats) → ¬ word bearerPattern u.
Proof.
  revert l. induction pats as [|p pats IH]; intros l Hl; [done|]. simpl. apply IH.
  intros u Hu Hw. destruct (bearer_word u Hw) as [Hf Hm]. apply (Hl u); [|done].
  by eapply (replaced_factor separator isB p maskMatch); [apply maskMatch_masks|apply replaceAll_replaced|..].
Qed.

(** C38: After the sanitizer no part of a value matches the pattern for bearer tokens,
    although later patterns rewrite the text again: no bearer token of the recognised form
    is left. *)
Theorem sanitized_values_hold_no_token s u :
  factor u (text (sanitizeString s)) → ¬ word bearerPattern u.
Proof.
  unfold text, sanitizeString. rewrite String.list_ascii_of_string_of_list_ascii.
  apply (masked_everywhere [headerPattern; paramPattern; valuePattern]
    (replaceAll bearerPattern maskMatch (String.list_ascii_of_string s))). intros u' Hu'.
  by eapply (replaced_no_word separator isB bearerPattern maskMatch);
    [apply maskMatch_masks|apply replaceAll_replaced|apply bearer_word|].
Qed.

(** A value without anything sensitive is written as it is. *)
Lemma sanitize_unchanged s :
  (∀ p u, p ∈ sensitivePatterns → factor u (text s) → u ≠ [] → ¬ word p u) → sanitizeString s = s.
Proof.
  intros H. unfold sanitizeString, sanitizeBytes.
  assert (∀ pats, (∀ p u, p ∈ pats → factor u (text s) → u ≠ [] → ¬ word p u) →
    foldl (λ result pattern, replaceAll pattern maskMatch result) (text s) pats = text s) as ->.
  { intros pats. induction pats as [|p pats IH]; intros Hp; [done|]. simpl.
    rewrite (replaced_unchanged p maskMatch (text s) (replaceAll p maskMatch (text s))).
    - apply IH. intros p' u Hin. apply Hp. by right.
    - apply replaceAll_replaced.
    - intros a u b Hne E. apply Hp; [left|by exists a, b|done]. }
  - apply String.string_of_list_ascii_of_string.
  - exact H.
Qed.

(** The mask keeps what comes before an equals sign, wherever it is: a bearer
    token or a key that ends with padding is written out. *)
Lemma padded_secrets_are_written :
  map sanitizeString ["authorization: bearer c2VjcmV0LXRva2Vu="; "api_key: c2VjcmV0="]
  = ["authorization: bearer c2VjcmV0LXRva2Vu=[REDACTED]"; "api_key: c2VjcmV0=[REDACTED]"].
Proof. vm_compute. reflexivity. Qed.

Section Logged.
Context (isPrint : N → bool) (offset : Z) (jsonFormat : Entry → string) (visit : Fields → list string).

(** A call writes one text when its level is enabled, of the call's fields,
    masked, over those of the logger; else nothing. *)
Lemma logWithFields_spec l level now msg fields :
  logWithFields isPrint offset jsonFormat visit l level now msg fields =
    if (severity level <=? severity (lg_Level l))%nat
    then [Format isPrint offset jsonFormat visit (lg_Formatter l)
            (mkEntry level now msg (list_to_map (reverse (map (λ f, (f_Key f, sanitizeLogValue (f_Value f))) fields)) ∪ lg_fields l))]
    else [].
Proof.
  unfold logWithFields, IsLevelEnabled. case_match; [|done]. do 3 f_equal.
  generalize (lg_fields l). induction fields as [|f fields IH] using rev_ind; intros m; [symmetry; apply (left_id_L ∅ (∪))|].
  unfold addFields in *. rewrite foldl_app, map_app, reverse_app. simpl. rewrite IH. by rewrite insert_union_l.
Qed.

(** The later of two fields of one key counts. *)
Lemma With_With l f1 f2 : With (With l f1) f2 = With l (f1 ++ f2).
Proof. unfold With, addFields. simpl. by rewrite foldl_app. Qed.
End Logged.

(** Neither the message nor the fields of With are masked. *)
Lemma message_and_context_are_not_masked isPrint offset jsonFormat :
  logWithFields isPrint offset jsonFormat (λ m, map fst (map_to_list m))
    (With (NewStructuredLogger false "info" "console") [mkField "error" (VString "Bearer ab.cd.ef")])
    InfoLevel 0 "password=hunter2" [mkField "path" (VString "/?password=hunter2")]
  = ["[INFO] password=hunter2 - error: Bearer ab.cd.ef, path: /?password=[REDACTED]" +:+ nl].
Proof. vm_compute. reflexivity. Qed.

Lemma sanitized_values_hold_no_token_witness :
  factor (text "[REDACTED] ok") (text (sanitizeString "login Bearer ab.cd.ef ok")) ∧
  ¬ word bearerPattern (text "[REDACTED] ok") ∧ word bearerPattern (text "Bearer a.b.c").
Proof.
  assert (factor (text "[REDACTED] ok") (text (sanitizeString "login Bearer ab.cd.ef ok"))) as H
    by (exists (text "login "), []; vm_compute; reflexivity).
  split; [exact H|]. split; [exact (sanitized_values_hold_no_token _ _ H)|].
  assert (is_Some (run bearerPattern (text "Bearer a.b.c") (λ v, match v with [] => Some tt | _ => None end))) as [x Hx]
    by (vm_compute; by eexists).
  apply run_sound in Hx as (u&v&E&Hu&Hv). destruct v; [|discriminate Hv]. rewrite app_nil_r in E. by rewrite E.
Defined.
