(* ===== verification/HclogAdapter.v ===== *)
(** * HclogAdapter: infrastructure/logger/hclog_adapter.go

    The HashiCorp libraries (Raft, memberlist, mDNS) log through this adapter.
    A call of the application's logger is a tuple: the logger, the level, the
    message and the fields. hclog's levels are integers. *)

From Stdlib Require Import Ascii.
From S2P Require Import Prelude GoText Json GoFormat Formatters Logger.

Local Open Scope Z_scope.

(** hclog.Level *)
Definition NoLevel : Z := 0.
Definition Trace_ : Z := 1.
Definition Debug_ : Z := 2.
Definition Info_ : Z := 3.
Definition Warn_ : Z := 4.
Definition Error_ : Z := 5.
Definition Off : Z := 6.

Notation logged := (StructuredLogger * Level * string * list Field)%type.

Record HCLogAdapter := mkAdapter { ad_logger : StructuredLogger; ad_level : Z; ad_name : string }.

Definition NewHCLogAdapter (logger : StructuredLogger) : HCLogAdapter :=
  mkAdapter (With logger [mkField "component" (VString "hashicorp")]) Info_ "hashicorp".

(** Keys and values in turn; a pair whose key is no string is dropped, and so
    is a last key without a value. *)
Fixpoint convertArgsToFields (args : list fieldValue) : list Field :=
  match args with
  | VString key :: value :: rest => mkField key value :: convertArgsToFields rest
  | _ :: _ :: rest => convertArgsToFields rest
  | _ => []
  end.

Definition Log (h : HCLogAdapter) (level : Z) (msg : string) (args : list fieldValue) : list logged :=
  if level <? ad_level h then []
  else
    let fields := convertArgsToFields args in
    let call l := [(ad_logger h, l, msg, fields)] in
    if level =? Trace_ then call DebugLevel
    else if level =? Debug_ then call DebugLevel
    else if level =? Info_ then call InfoLevel
    else if level =? Warn_ then call WarnLevel
    else if level =? Error_ then call ErrorLevel
    else if level =? NoLevel then call InfoLevel
    else if level =? Off then []
    else call InfoLevel.

Definition Trace (h : HCLogAdapter) := Log h Trace_.
Definition Debug (h : HCLogAdapter) := Log h Debug_.
Definition Info (h : HCLogAdapter) := Log h Info_.
Definition Warn (h : HCLogAdapter) := Log h Warn_.
Definition Error (h : HCLogAdapter) := Log h Error_.

Definition IsTrace (h : HCLogAdapter) : bool := ad_level h <=? Trace_.
Definition IsDebug (h : HCLogAdapter) : bool := ad_level h <=? Debug_.
Definition IsInfo (h : HCLogAdapter) : bool := ad_level h <=? Info_.
Definition IsWarn (h : HCLogAdapter) : bool := ad_level h <=? Warn_.
Definition IsError (h : HCLogAdapter) : bool := ad_level h <=? Error_.

Definition ImpliedArgs (h : HCLogAdapter) : list fieldValue := [].

Definition With (h : HCLogAdapter) (args : list fieldValue) : HCLogAdapter :=
  mkAdapter (Logger.With (ad_logger h) (convertArgsToFields args)) (ad_level h) (ad_name h).

Definition Name (h : HCLogAdapter) : string := ad_name h.

Definition Named (h : HCLogAdapter) (name : string) : HCLogAdapter :=
  let newName :=
    if str_nonempty name then
      if str_nonempty (ad_name h) then ad_name h +:+ "." +:+ name else name
    else ad_name h in
  mkAdapter (Logger.With (ad_logger h) [mkField "subsystem" (VString name)]) (ad_level h) newName.

Definition ResetNamed (h : HCLogAdapter) (name : string) : HCLogAdapter :=
  mkAdapter (Logger.With (ad_logger h) [mkField "component" (VString name)]) (ad_level h) name.

Definition SetLevel (h : HCLogAdapter) (level : Z) : HCLogAdapter := mkAdapter (ad_logger h) level (ad_name h).
Definition GetLevel (h : HCLogAdapter) : Z := ad_level h.

(* ------------------------------------------------------------------ *)
(** ** The writer *)

(** The writer behind StandardLogger and StandardWriter. *)
Record logWriter := mkWriter { lw_logger : StructuredLogger }.

Definition StandardWriter (h : HCLogAdapter) : logWriter := mkWriter (ad_logger h).

Definition prefixes : list (string * string) :=
  [("[TRACE]", "TRACE"); ("[DEBUG]", "DEBUG"); ("[INFO]", "INFO"); ("[WARN]", "WARN"); ("[ERROR]", "ERROR"); ("[ERR]", "ERR")].

(** The first prefix the message has: its level and what follows it. *)
Fixpoint levelPrefix (ps : list (string * string)) (msg : string) : option (string * string) :=
  match ps with
  | [] => None
  | (prefix, level) :: ps =>
      if hasPrefix msg prefix then Some (level, TrimSpace (trimPrefix msg prefix)) else levelPrefix ps msg
  end.

Definition DefaultComponentNameMaxLength : nat := 20.

Definition parseLogMessage (msg : string) : string * string * string :=
  let msg := TrimSpace msg in
  let '(level, cleanMsg) := default ("INFO", msg) (levelPrefix prefixes msg) in
  match String.index 0 ": " cleanMsg with
  | Some (S n as colonIndex) =>
      let possibleComponent := String.substring 0 colonIndex cleanMsg in
      if negb (contains possibleComponent " ")
         && (String.length possibleComponent <? DefaultComponentNameMaxLength)%nat
      then (level, possibleComponent,
            TrimSpace (String.substring (colonIndex + 2) (String.length cleanMsg - (colonIndex + 2)) cleanMsg))
      else (level, "", cleanMsg)
  | _ => (level, "", cleanMsg)
  end.

Definition noisyMessages : list string :=
  ["Closing client"; "Failed to listen to both unicast and multicast on IPv6"].

Definition shouldDowngradeMessage (component msg : string) : bool :=
  if String.eqb component "mdns" then existsb (contains msg) noisyMessages else false.

(** Write of the bytes [p]: their number, and the call made. *)
Definition trimNewline (p : string) : string :=
  if String.eqb (String.substring (String.length p - 1) 1 p) nl
  then String.substring 0 (String.length p - 1) p else p.

Definition Write (w : logWriter) (p : string) : Z * list logged :=
  let msg := trimNewline p in
  let '(level, component, cleanMsg) := parseLogMessage msg in
  let logger :=
    if str_nonempty component
    then Logger.With (lw_logger w) [mkField "hashicorp_component" (VString component)] else lw_logger w in
  let n := Z.of_nat (String.length p) in
  let call l m : Z * list logged := (n, [(logger, l, m, [])]) in
  if shouldDowngradeMessage component cleanMsg then call DebugLevel cleanMsg
  else if String.eqb level "TRACE" || String.eqb level "DEBUG" then call DebugLevel cleanMsg
  else if String.eqb level "INFO" then call InfoLevel cleanMsg
  else if String.eqb level "WARN" then call WarnLevel cleanMsg
  else if String.eqb level "ERROR" || String.eqb level "ERR" then call ErrorLevel cleanMsg
  else call InfoLevel msg.

Example parseLogMessage_examples :
  map parseLogMessage
    ["[ERR] mdns: Failed to bind"; "[INFO] raft: entering leader state"; "no prefix"; " [WARN]  two words: x "]
  = [("ERR", "mdns", "Failed to bind"); ("INFO", "raft", "entering leader state"); ("INFO", "", "no prefix");
     ("WARN", "", "two words: x")].
Proof. vm_compute. reflexivity. Qed.

(* ------------------------------------------------------------------ *)
(** ** Trimmed texts *)

Lemma decodeRunes_ascii_app l l' :
  Forall (λ a, byteIn 0 127 a = true) l →
  decodeRunes (l ++ l') = map (λ a, Rune (N_of_ascii a) [a]) l ++ decodeRunes l'.
Proof. induction 1 as [|a l Ha _ IH]; [done|]. simpl. by rewrite Ha, IH. Qed.

Definition runesOf (s : string) : list rune := decodeRunes (String.list_ascii_of_string s).

(** Trimming leaves a text alone exactly when it neither starts nor ends with
    a space. *)
Definition trimmed (s : string) : Prop :=
  dropSpaces (runesOf s) = runesOf s ∧ dropSpaces (reverse (runesOf s)) = reverse (runesOf s).

Lemma trimmed_TrimSpace s : trimmed s → TrimSpace s = s.
Proof.
  intros [H1 H2]. unfold TrimSpace. fold (runesOf s). rewrite H1, H2, reverse_involutive. unfold runesOf.
  rewrite decodeRunes_bytes. apply String.string_of_list_ascii_of_string.
Qed.

Lemma dropSpaces_app l l' : dropSpaces l = l → l ≠ [] → dropSpaces (l ++ l') = l ++ l'.
Proof.
  destruct l as [|r l]; [done|]. intros E _. simpl in *. destruct (isSpaceRune r); [|done].
  exfalso. assert (∀ l, (length (dropSpaces l) ≤ length l)%nat) as Hle.
  { intros k. induction k as [|x k IH]; [done|]. simpl. case_match; simpl; lia. }
  specialize (Hle l). rewrite E in Hle. simpl in Hle. lia.
Qed.

(** A text put before a trimmed one, that starts with no space itself. *)
Lemma trimmed_prefixed (p s : string) :
  Forall (λ a, byteIn 0 127 a = true) (String.list_ascii_of_string p) →
  dropSpaces (runesOf p) = runesOf p → p ≠ "" → s ≠ "" → trimmed s → trimmed (p +:+ s).
Proof.
  intros Hp Hd Hpn Hsn [H1 H2].
  assert (runesOf (p +:+ s) = runesOf p ++ runesOf s) as E.
  { unfold runesOf. rewrite list_ascii_app, decodeRunes_ascii_app by done. f_equal.
    rewrite <- (app_nil_r (String.list_ascii_of_string p)) at 2. rewrite decodeRunes_ascii_app by done. by rewrite app_nil_r. }
  assert (∀ t, t ≠ "" → runesOf t ≠ []) as Hne.
  { intros t Ht Er. apply Ht. pose proof (decodeRunes_bytes (String.list_ascii_of_string t)) as Hb.
    unfold runesOf in Er. rewrite Er in Hb. by destruct t. }
  unfold trimmed. rewrite E, reverse_app. split; apply dropSpaces_app; auto.
  intros Er. apply (Hne s Hsn). by rewrite <- (reverse_involutive (runesOf s)), Er.
Qed.

(* ------------------------------------------------------------------ *)
(** ** Messages are read back *)

Definition noSpace (c : string) : Prop := " "%char ∉ String.list_ascii_of_string c.

Lemma noSpace_contains c : noSpace c → contains c " " = false.
Proof.
  unfold noSpace, contains. induction c as [|x c IH]; [done|]. cbn [String.list_ascii_of_string].
  intros [Hx Hc]%not_elem_of_cons. cbn [String.index String.prefix].
  destruct (ascii_dec " " x) as [E|_]; [by rewrite E in Hx|].
  specialize (IH Hc). by destruct (String.index 0 " " c).
Qed.

Lemma index_separator c m : noSpace c → String.index 0 ": " (c +:+ ": " +:+ m) = Some (String.length c).
Proof.
  unfold noSpace. induction c as [|x c IH]; [by destruct m|]. cbn [String.list_ascii_of_string].
  intros [Hx Hc]%not_elem_of_cons. rewrite append_cons. cbn [String.index].
  assert (String.prefix ": " (String x (c +:+ ": " +:+ m)) = false) as ->.
  { cbn [String.prefix]. destruct (ascii_dec ":" x) as [_|]; [|done].
    destruct c as [|y c]; [done|]. rewrite append_cons. cbn [String.prefix].
    destruct (ascii_dec " " y) as [E|_]; [|done]. by destruct Hc; rewrite E; left. }
  by rewrite (IH Hc).
Qed.

(** The level a prefix stands for, and that it is the one found. *)
Lemma levelPrefix_found tag level rest :
  (tag, level) ∈ prefixes → levelPrefix prefixes (tag +:+ rest) = Some (level, TrimSpace rest).
Proof.
  intros Hin. unfold prefixes in Hin.
  repeat (apply elem_of_cons in Hin as [[= -> ->]|Hin]; [cbn [levelPrefix prefixes]|]);
    [..|by apply elem_of_nil in Hin];
    repeat (rewrite hasPrefix_app, trimPrefix_app; reflexivity || (rewrite (_ : hasPrefix _ _ = false) by done)).
Qed.

Lemma parse_message tag level c m :
  (tag, level) ∈ prefixes → c ≠ "" → noSpace c → (String.length c < DefaultComponentNameMaxLength)%nat →
  trimmed (c +:+ ": " +:+ m) → TrimSpace m = m →
  parseLogMessage (tag +:+ " " +:+ c +:+ ": " +:+ m) = (level, c, m).
Proof.
  intros Hin Hne Hsp Hlen Ht Hm. unfold parseLogMessage.
  assert (c +:+ ": " +:+ m ≠ "") as Hbody by by destruct c.
  assert (trimmed ((tag +:+ " ") +:+ c +:+ ": " +:+ m)) as Htag.
  { apply trimmed_prefixed; [| | |done|done];
      unfold prefixes in Hin; repeat (apply elem_of_cons in Hin as [[= -> ->]|Hin]);
      try (by apply elem_of_nil in Hin); try done; by repeat constructor. }
  rewrite <- append_assoc in Htag. rewrite (trimmed_TrimSpace _ Htag), (levelPrefix_found tag level) by done.
  assert (TrimSpace (" " +:+ c +:+ ": " +:+ m) = c +:+ ": " +:+ m) as ->.
  { rewrite <- (trimmed_TrimSpace _ Ht) at 2. unfold TrimSpace, runesOf. 
    rewrite list_ascii_app, decodeRunes_ascii_app by by repeat constructor. done. }
  cbn [default from_option id]. rewrite index_separator by done. destruct (String.length c) as [|n] eqn:Hl; [by destruct c|].
  rewrite <- Hl in Hlen |- *. rewrite substring_first, noSpace_contains, (proj2 (Nat.ltb_lt _ _)) by done. cbn [negb andb].
  do 2 f_equal.
  replace (String.length c + 2)%nat with (String.length (c +:+ ": ")) by by rewrite length_append.
  rewrite append_assoc, (length_append (c +:+ ": ") m), Nat.add_comm, Nat.add_sub, substring_skip. done.
Qed.

Lemma trimNewline_line s : trimNewline (s +:+ nl) = s.
Proof.
  unfold trimNewline. rewrite length_append. change (String.length nl) with 1%nat. rewrite Nat.add_sub.
  change 1%nat with (String.length nl) at 1. rewrite substring_skip, substring_first. done.
Qed.

(** The level a tag's messages are logged at. *)
Definition levelFor (level : string) : Level :=
  if decide (level = "TRACE") then DebugLevel else if decide (level = "DEBUG") then DebugLevel
  else if decide (level = "INFO") then InfoLevel else if decide (level = "WARN") then WarnLevel else ErrorLevel.

(** C40: A message a library writes as a level's tag, a component (one word, shorter than
    the longest name that is accepted) and a text without blanks around it is parsed into
    the same three, and logged once at that level (or as debug when it is to be
    downgraded) with the component as a field; the writer reports all bytes as written. *)
Theorem library_messages_are_read_back w tag level c m :
  (tag, level) ∈ prefixes → c ≠ "" → noSpace c → (String.length c < DefaultComponentNameMaxLength)%nat →
  trimmed (c +:+ ": " +:+ m) → TrimSpace m = m →
  let msg := tag +:+ " " +:+ c +:+ ": " +:+ m in
  parseLogMessage msg = (level, c, m) ∧
  Write w (msg +:+ nl) =
    (Z.of_nat (String.length msg) + 1,
     [(Logger.With (lw_logger w) [mkField "hashicorp_component" (VString c)],
       if shouldDowngradeMessage c m then DebugLevel else levelFor level, m, [])]).
Proof.
  intros Hin Hne Hsp Hlen Ht Hm msg. pose proof (parse_message tag level c m Hin Hne Hsp Hlen Ht Hm) as Hp.
  split; [exact Hp|]. unfold Write. rewrite trimNewline_line. fold msg in Hp. rewrite Hp, length_append.
  rewrite (proj2 (str_nonempty_true c)) by done. change (String.length nl) with 1%nat.
  rewrite Nat2Z.inj_add. change (Z.of_nat 1) with 1.
  destruct (shouldDowngradeMessage c m); [done|].
  unfold prefixes in Hin. repeat (apply elem_of_cons in Hin as [[= -> ->]|Hin]; [reflexivity|]).
  by apply elem_of_nil in Hin.
Qed.

(** Whatever is written, its length is returned and one call is made; the
    last case of the switch is never reached. *)
Lemma Write_calls_once w p :
  ∃ l level m, Write w p = (Z.of_nat (String.length p), [(l, level, m, [])]) ∧
    level ∈ [DebugLevel; InfoLevel; WarnLevel; ErrorLevel].
Proof.
  unfold Write. destruct (parseLogMessage _) as [[level c] m].
  repeat case_match; eexists _, _, _; (split; [done|]); apply (bool_decide_unpack _); vm_compute; exact I.
Qed.

(** A message below the threshold is dropped, and so is everything without a
    level unless the threshold is NoLevel or lower. *)
Lemma Log_spec h level msg args :
  Log h level msg args =
    if bool_decide (ad_level h ≤ level ∧ level ≠ Off)
    then [(ad_logger h,
           if decide (level = Trace_ ∨ level = Debug_) then DebugLevel
           else if decide (level = Warn_) then WarnLevel
           else if decide (level = Error_) then ErrorLevel else InfoLevel,
           msg, convertArgsToFields args)]
    else [].
Proof.
  unfold Log. destruct (Z.ltb_spec level (ad_level h)) as [Hl|Hl]; [by rewrite bool_decide_false by lia|].
  unfold Trace_, Debug_, Info_, Warn_, Error_, NoLevel, Off in *.
  repeat (match goal with |- context [level =? ?x] => destruct (Z.eqb_spec level x) as [->|?] end;
    [repeat (rewrite ?decide_True by lia; rewrite ?decide_False by lia);
     rewrite ?bool_decide_true by lia; rewrite ?bool_decide_false by lia; reflexivity|]).
  rewrite bool_decide_true by lia. repeat rewrite decide_False by lia. done.
Qed.

(** The threshold is not asked by the writer. *)
Lemma writer_ignores_the_threshold h level :
  StandardWriter (SetLevel h level) = StandardWriter h.
Proof. done. Qed.

Lemma library_messages_are_read_back_witness :
  Write (mkWriter (NewStructuredLogger false "info" "json")) ("[ERR] mdns: Closing client" +:+ nl)
  = (27, [(Logger.With (NewStructuredLogger false "info" "json") [mkField "hashicorp_component" (VString "mdns")],
           DebugLevel, "Closing client", [])]).
Proof.
  assert (noSpace "mdns") as Hsp by (apply (bool_decide_unpack _); vm_compute; exact I).
  assert (trimmed ("mdns" +:+ ": " +:+ "Closing client")) as Ht by (split; vm_compute; reflexivity).
  destruct (library_messages_are_read_back (mkWriter (NewStructuredLogger false "info" "json"))
    "[ERR]" "ERR" "mdns" "Closing client") as [_ H].
  - apply (bool_decide_unpack _). vm_compute. exact I.
  - discriminate.
  - exact Hsp.
  - vm_compute. lia.
  - exact Ht.
  - vm_compute. reflexivity.
  - exact H.
Defined.
