(* ===== verification/Loader.v ===== *)
(** * Loader: config/loader.go

    How a configuration is loaded: the environment variables each module
    binds, the defaults it sets, and LoadConfig over them. The viper library
    is the class [Viper]; what is known of it are the laws [ViperLaws]. *)

From Stdlib Require Import Ascii.
From S2P Require Import Prelude GoStd Errors Domain Config.

(** The values of settings; durations are set as text. *)
Inductive setting :=
| SText (s : string)
| SInt (n : Z)
| SBool (b : bool)
| SDuration (d : Z)
| STexts (l : list string)
| SMap (m : gmap string string)
| SUpstreams (l : list UpstreamConfig)
| SMappings (l : list MappingConfig).

#[export] Instance UpstreamConfig_eq_dec : EqDecision UpstreamConfig.
Proof. solve_decision. Defined.
#[export] Instance VMTenantConfig_eq_dec : EqDecision VMTenantConfig.
Proof. solve_decision. Defined.
#[export] Instance MappingConfig_eq_dec : EqDecision MappingConfig.
Proof. solve_decision. Defined.
#[export] Instance setting_eq_dec : EqDecision setting.
Proof. solve_decision. Defined.

(** The fields of a configuration under their mapstructure names. *)
Definition fieldsOf (d : Config) : list (string * setting) :=
  [("metadata.nodeId", SText (md_NodeID (cf_Metadata d)));
   ("metadata.role", SText (md_Role (cf_Metadata d)));
   ("metadata.environment", SText (md_Environment (cf_Metadata d)));
   ("metadata.region", SText (md_Region (cf_Metadata d)));
   ("logging.level", SText (lg_Level (cf_Logging d)));
   ("logging.format", SText (lg_Format (cf_Logging d)));
   ("metrics.enabled", SBool (mc_Enabled (cf_Metrics d)));
   ("metrics.path", SText (mc_Path (cf_Metrics d)));
   ("server.address", SText (sv_Address (cf_Server d)));
   ("server.timeouts.read", SDuration (to_Read (sv_Timeouts (cf_Server d))));
   ("server.timeouts.write", SDuration (to_Write (sv_Timeouts (cf_Server d))));
   ("server.timeouts.idle", SDuration (to_Idle (sv_Timeouts (cf_Server d))));
   ("proxy.upstreams", SUpstreams (px_Upstreams (cf_Proxy d)));
   ("proxy.routing.strategy", SText (rt_Strategy (px_Routing (cf_Proxy d))));
   ("proxy.routing.healthCheck.interval", SDuration (hk_Interval (rt_HealthCheck (px_Routing (cf_Proxy d)))));
   ("proxy.routing.healthCheck.timeout", SDuration (hk_Timeout (rt_HealthCheck (px_Routing (cf_Proxy d)))));
   ("proxy.routing.healthCheck.endpoint", SText (hk_Endpoint (rt_HealthCheck (px_Routing (cf_Proxy d)))));
   ("proxy.routing.healthCheck.healthyThreshold", SInt (hk_HealthyThreshold (rt_HealthCheck (px_Routing (cf_Proxy d)))));
   ("proxy.routing.healthCheck.unhealthyThreshold", SInt (hk_UnhealthyThreshold (rt_HealthCheck (px_Routing (cf_Proxy d)))));
   ("proxy.reliability.timeout", SDuration (rl_Timeout (px_Reliability (cf_Proxy d))));
   ("proxy.reliability.retries", SInt (rl_Retries (px_Reliability (cf_Proxy d))));
   ("proxy.reliability.backoff", SDuration (rl_Backoff (px_Reliability (cf_Proxy d))));
   ("proxy.reliability.queue.enabled", SBool (qc_Enabled (rl_Queue (px_Reliability (cf_Proxy d)))));
   ("proxy.reliability.queue.maxSize", SInt (qc_MaxSize (rl_Queue (px_Reliability (cf_Proxy d)))));
   ("proxy.reliability.queue.timeout", SDuration (qc_Timeout (rl_Queue (px_Reliability (cf_Proxy d)))));
   ("auth.jwt.algorithm", SText (jw_Algorithm (cf_Auth d)));
   ("auth.jwt.jwksUrl", SText (jw_JwksURL (cf_Auth d)));
   ("auth.jwt.secret", SText (jw_Secret (cf_Auth d)));
   ("auth.jwt.validation.audience", SBool (vl_Audience (jw_Validation (cf_Auth d))));
   ("auth.jwt.validation.issuer", SBool (vl_Issuer (jw_Validation (cf_Auth d))));
   ("auth.jwt.validation.requiredIssuer", SText (vl_RequiredIssuer (jw_Validation (cf_Auth d))));
   ("auth.jwt.validation.requiredAudience", STexts (vl_RequiredAudience (jw_Validation (cf_Auth d))));
   ("auth.jwt.claims.userGroups", SText (jw_UserGroups (cf_Auth d)));
   ("auth.jwt.cache.tokenTTL", SDuration (cc_TokenTTL (jw_Cache (cf_Auth d))));
   ("auth.jwt.cache.jwksTTL", SDuration (cc_JwksTTL (jw_Cache (cf_Auth d))));
   ("tenants.filter.strategy", SText (fc_Strategy (tc_Filter (cf_Tenants d))));
   ("tenants.filter.labels.account", SText (lc_Account (fc_Labels (tc_Filter (cf_Tenants d)))));
   ("tenants.filter.labels.project", SText (lc_Project (fc_Labels (tc_Filter (cf_Tenants d)))));
   ("tenants.filter.labels.useProjectId", SBool (lc_UseProjectID (fc_Labels (tc_Filter (cf_Tenants d)))));
   ("tenants.mappings", SMappings (tc_Mappings (cf_Tenants d)));
   ("storage.type", SText (sg_Type (cf_Storage d)));
   ("storage.redis.address", SText (rd_Address (sg_Redis (cf_Storage d))));
   ("storage.redis.password", SText (rd_Password (sg_Redis (cf_Storage d))));
   ("storage.redis.database", SInt (rd_Database (sg_Redis (cf_Storage d))));
   ("storage.redis.keyPrefix", SText (rd_KeyPrefix (sg_Redis (cf_Storage d))));
   ("storage.redis.pool.size", SInt (rp_Size (rd_Pool (sg_Redis (cf_Storage d)))));
   ("storage.redis.pool.minIdle", SInt (rp_MinIdle (rd_Pool (sg_Redis (cf_Storage d)))));
   ("storage.redis.timeouts.connect", SDuration (rt_Connect (rd_Timeouts (sg_Redis (cf_Storage d)))));
   ("storage.redis.timeouts.read", SDuration (rt_Read (rd_Timeouts (sg_Redis (cf_Storage d)))));
   ("storage.redis.timeouts.write", SDuration (rt_Write (rd_Timeouts (sg_Redis (cf_Storage d)))));
   ("storage.redis.retry.maxAttempts", SInt (rr_MaxAttempts (rd_Retry (sg_Redis (cf_Storage d)))));
   ("storage.redis.retry.backoff.min", SDuration (bo_Min (rr_Backoff (rd_Retry (sg_Redis (cf_Storage d))))));
   ("storage.redis.retry.backoff.max", SDuration (bo_Max (rr_Backoff (rd_Retry (sg_Redis (cf_Storage d))))));
   ("storage.raft.bindAddress", SText (rf_BindAddress (sg_Raft (cf_Storage d))));
   ("storage.raft.dataDir", SText (rf_DataDir (sg_Raft (cf_Storage d))));
   ("storage.raft.bootstrapExpected", SInt (rf_BootstrapExpected (sg_Raft (cf_Storage d))));
   ("storage.raft.peers", STexts (rf_Peers (sg_Raft (cf_Storage d))));
   ("cluster.memberlist.bindAddress", SText (mb_BindAddress (cl_Memberlist (cf_Cluster d))));
   ("cluster.memberlist.advertiseAddress", SText (mb_AdvertiseAddress (cl_Memberlist (cf_Cluster d))));
   ("cluster.memberlist.peers.join", STexts (mb_Join (cl_Memberlist (cf_Cluster d))));
   ("cluster.memberlist.peers.encryption", SText (mb_Encryption (cl_Memberlist (cf_Cluster d))));
   ("cluster.memberlist.gossip.interval", SDuration (gs_Interval (mb_Gossip (cl_Memberlist (cf_Cluster d)))));
   ("cluster.memberlist.gossip.nodes", SInt (gs_Nodes (mb_Gossip (cl_Memberlist (cf_Cluster d)))));
   ("cluster.memberlist.probe.interval", SDuration (pb_Interval (mb_Probe (cl_Memberlist (cf_Cluster d)))));
   ("cluster.memberlist.probe.timeout", SDuration (pb_Timeout (mb_Probe (cl_Memberlist (cf_Cluster d)))));
   ("cluster.memberlist.metadata", SMap (mb_Metadata (cl_Memberlist (cf_Cluster d))));
   ("cluster.discovery.enabled", SBool (ds_Enabled (cl_Discovery (cf_Cluster d))));
   ("cluster.discovery.interval", SDuration (ds_Interval (cl_Discovery (cf_Cluster d))));
   ("cluster.discovery.providers", STexts (ds_Providers (cl_Discovery (cf_Cluster d))));
   ("cluster.discovery.static.peers", STexts (default [] (ds_Static (cl_Discovery (cf_Cluster d)))));
   ("cluster.discovery.mdns.enabled", SBool (dn_Enabled (ds_MDNS (cl_Discovery (cf_Cluster d)))));
   ("cluster.discovery.mdns.serviceName", SText (dn_ServiceName (ds_MDNS (cl_Discovery (cf_Cluster d)))));
   ("cluster.discovery.mdns.domain", SText (dn_Domain (ds_MDNS (cl_Discovery (cf_Cluster d)))));
   ("cluster.discovery.mdns.hostname", SText (dn_Hostname (ds_MDNS (cl_Discovery (cf_Cluster d)))));
   ("cluster.discovery.mdns.port", SInt (dn_Port (ds_MDNS (cl_Discovery (cf_Cluster d)))));
   ("cluster.discovery.mdns.txtRecords", SMap (dn_TXTRecords (ds_MDNS (cl_Discovery (cf_Cluster d)))))].

(* ------------------------------------------------------------------ *)
(** ** The environment variables *)

Definition bindMetadataEnv : list (string * string) :=
  [("metadata.nodeId", "VM_PROXY_AUTH_METADATA_NODE_ID");
   ("metadata.role", "VM_PROXY_AUTH_METADATA_ROLE");
   ("metadata.environment", "VM_PROXY_AUTH_METADATA_ENVIRONMENT");
   ("metadata.region", "VM_PROXY_AUTH_METADATA_REGION")].

Definition bindLoggingEnv : list (string * string) :=
  [("logging.level", "VM_PROXY_AUTH_LOGGING_LEVEL");
   ("logging.format", "VM_PROXY_AUTH_LOGGING_FORMAT")].

Definition bindMetricsEnv : list (string * string) :=
  [("metrics.enabled", "VM_PROXY_AUTH_METRICS_ENABLED");
   ("metrics.path", "VM_PROXY_AUTH_METRICS_PATH")].

Definition bindServerEnv : list (string * string) :=
  [("server.address", "VM_PROXY_AUTH_SERVER_ADDRESS");
   ("server.timeouts.read", "VM_PROXY_AUTH_SERVER_TIMEOUTS_READ");
   ("server.timeouts.write", "VM_PROXY_AUTH_SERVER_TIMEOUTS_WRITE");
   ("server.timeouts.idle", "VM_PROXY_AUTH_SERVER_TIMEOUTS_IDLE")].

Definition bindAuthEnv : list (string * string) :=
  [("auth.jwt.algorithm", "VM_PROXY_AUTH_AUTH_JWT_ALGORITHM");
   ("auth.jwt.secret", "VM_PROXY_AUTH_AUTH_JWT_SECRET");
   ("auth.jwt.jwksUrl", "VM_PROXY_AUTH_AUTH_JWT_JWKS_URL");
   ("auth.jwt.validation.audience", "VM_PROXY_AUTH_AUTH_JWT_VALIDATION_AUDIENCE");
   ("auth.jwt.validation.issuer", "VM_PROXY_AUTH_AUTH_JWT_VALIDATION_ISSUER");
   ("auth.jwt.claims.userGroups", "VM_PROXY_AUTH_AUTH_JWT_CLAIMS_USER_GROUPS");
   ("auth.jwt.cache.tokenTTL", "VM_PROXY_AUTH_AUTH_JWT_CACHE_TOKEN_TTL");
   ("auth.jwt.cache.jwksTTL", "VM_PROXY_AUTH_AUTH_JWT_CACHE_JWKS_TTL")].

Definition bindProxyEnv : list (string * string) :=
  [("proxy.routing.strategy", "VM_PROXY_AUTH_PROXY_ROUTING_STRATEGY");
   ("proxy.routing.healthCheck.interval", "VM_PROXY_AUTH_PROXY_ROUTING_HEALTH_CHECK_INTERVAL");
   ("proxy.routing.healthCheck.timeout", "VM_PROXY_AUTH_PROXY_ROUTING_HEALTH_CHECK_TIMEOUT");
   ("proxy.routing.healthCheck.endpoint", "VM_PROXY_AUTH_PROXY_ROUTING_HEALTH_CHECK_ENDPOINT");
   ("proxy.routing.healthCheck.healthyThreshold", "VM_PROXY_AUTH_PROXY_ROUTING_HEALTH_CHECK_HEALTHY_THRESHOLD");
   ("proxy.routing.healthCheck.unhealthyThreshold", "VM_PROXY_AUTH_PROXY_ROUTING_HEALTH_CHECK_UNHEALTHY_THRESHOLD");
   ("proxy.reliability.timeout", "VM_PROXY_AUTH_PROXY_RELIABILITY_TIMEOUT");
   ("proxy.reliability.retries", "VM_PROXY_AUTH_PROXY_RELIABILITY_RETRIES");
   ("proxy.reliability.backoff", "VM_PROXY_AUTH_PROXY_RELIABILITY_BACKOFF");
   ("proxy.reliability.queue.enabled", "VM_PROXY_AUTH_PROXY_RELIABILITY_QUEUE_ENABLED");
   ("proxy.reliability.queue.maxSize", "VM_PROXY_AUTH_PROXY_RELIABILITY_QUEUE_MAX_SIZE");
   ("proxy.reliability.queue.timeout", "VM_PROXY_AUTH_PROXY_RELIABILITY_QUEUE_TIMEOUT");
   ("proxy.upstreams", "VM_PROXY_AUTH_PROXY_UPSTREAMS")].

Definition bindTenantEnv : list (string * string) :=
  [("tenants.filter.strategy", "VM_PROXY_AUTH_TENANTS_FILTER_STRATEGY");
   ("tenants.filter.labels.account", "VM_PROXY_AUTH_TENANTS_FILTER_LABELS_ACCOUNT");
   ("tenants.filter.labels.project", "VM_PROXY_AUTH_TENANTS_FILTER_LABELS_PROJECT");
   ("tenants.filter.labels.useProjectId", "VM_PROXY_AUTH_TENANTS_FILTER_LABELS_USE_PROJECT_ID");
   ("tenants.mappings", "VM_PROXY_AUTH_TENANTS_MAPPINGS")].

Definition bindStorageEnv : list (string * string) :=
  [("storage.type", "VM_PROXY_AUTH_STORAGE_TYPE");
   ("storage.redis.address", "VM_PROXY_AUTH_STORAGE_REDIS_ADDRESS");
   ("storage.redis.password", "VM_PROXY_AUTH_STORAGE_REDIS_PASSWORD");
   ("storage.redis.database", "VM_PROXY_AUTH_STORAGE_REDIS_DATABASE");
   ("storage.redis.keyPrefix", "VM_PROXY_AUTH_STORAGE_REDIS_KEY_PREFIX");
   ("storage.redis.pool.size", "VM_PROXY_AUTH_STORAGE_REDIS_POOL_SIZE");
   ("storage.redis.pool.minIdle", "VM_PROXY_AUTH_STORAGE_REDIS_POOL_MIN_IDLE");
   ("storage.redis.timeouts.connect", "VM_PROXY_AUTH_STORAGE_REDIS_TIMEOUTS_CONNECT");
   ("storage.redis.timeouts.read", "VM_PROXY_AUTH_STORAGE_REDIS_TIMEOUTS_READ");
   ("storage.redis.timeouts.write", "VM_PROXY_AUTH_STORAGE_REDIS_TIMEOUTS_WRITE");
   ("storage.redis.retry.maxAttempts", "VM_PROXY_AUTH_STORAGE_REDIS_RETRY_MAX_ATTEMPTS");
   ("storage.redis.retry.backoff.min", "VM_PROXY_AUTH_STORAGE_REDIS_RETRY_BACKOFF_MIN");
   ("storage.redis.retry.backoff.max", "VM_PROXY_AUTH_STORAGE_REDIS_RETRY_BACKOFF_MAX");
   ("storage.raft.bindAddress", "VM_PROXY_AUTH_STORAGE_RAFT_BIND_ADDRESS");
   ("storage.raft.dataDir", "VM_PROXY_AUTH_STORAGE_RAFT_DATA_DIR");
   ("storage.raft.bootstrapExpected", "VM_PROXY_AUTH_STORAGE_RAFT_BOOTSTRAP_EXPECTED");
   ("storage.raft.peers", "VM_PROXY_AUTH_STORAGE_RAFT_PEERS")].

Definition bindClusterEnv : list (string * string) :=
  [("cluster.memberlist.bindAddress", "VM_PROXY_AUTH_CLUSTER_MEMBERLIST_BIND_ADDRESS");
   ("cluster.memberlist.advertiseAddress", "VM_PROXY_AUTH_CLUSTER_MEMBERLIST_ADVERTISE_ADDRESS");
   ("cluster.memberlist.peers.join", "VM_PROXY_AUTH_CLUSTER_MEMBERLIST_PEERS_JOIN");
   ("cluster.memberlist.peers.encryption", "VM_PROXY_AUTH_CLUSTER_MEMBERLIST_PEERS_ENCRYPTION");
   ("cluster.memberlist.gossip.interval", "VM_PROXY_AUTH_CLUSTER_MEMBERLIST_GOSSIP_INTERVAL");
   ("cluster.memberlist.gossip.nodes", "VM_PROXY_AUTH_CLUSTER_MEMBERLIST_GOSSIP_NODES");
   ("cluster.memberlist.probe.interval", "VM_PROXY_AUTH_CLUSTER_MEMBERLIST_PROBE_INTERVAL");
   ("cluster.memberlist.probe.timeout", "VM_PROXY_AUTH_CLUSTER_MEMBERLIST_PROBE_TIMEOUT");
   ("cluster.memberlist.metadata", "VM_PROXY_AUTH_CLUSTER_MEMBERLIST_METADATA");
   ("cluster.discovery.enabled", "VM_PROXY_AUTH_CLUSTER_DISCOVERY_ENABLED");
   ("cluster.discovery.interval", "VM_PROXY_AUTH_CLUSTER_DISCOVERY_INTERVAL");
   ("cluster.discovery.providers", "VM_PROXY_AUTH_CLUSTER_DISCOVERY_PROVIDERS");
   ("cluster.discovery.static.peers", "VM_PROXY_AUTH_CLUSTER_DISCOVERY_STATIC_PEERS");
   ("cluster.discovery.mdns.enabled", "VM_PROXY_AUTH_CLUSTER_DISCOVERY_MDNS_ENABLED");
   ("cluster.discovery.mdns.serviceName", "VM_PROXY_AUTH_CLUSTER_DISCOVERY_MDNS_SERVICE_NAME");
   ("cluster.discovery.mdns.domain", "VM_PROXY_AUTH_CLUSTER_DISCOVERY_MDNS_DOMAIN");
   ("cluster.discovery.mdns.hostname", "VM_PROXY_AUTH_CLUSTER_DISCOVERY_MDNS_HOSTNAME");
   ("cluster.discovery.mdns.port", "VM_PROXY_AUTH_CLUSTER_DISCOVERY_MDNS_PORT");
   ("cluster.discovery.mdns.txtRecords", "VM_PROXY_AUTH_CLUSTER_DISCOVERY_MDNS_TXT_RECORDS")].

(** What each module binds, in order. *)
Definition bindEnvironmentVariables : list (string * string) :=
  bindMetadataEnv ++ bindLoggingEnv ++ bindMetricsEnv ++ bindServerEnv ++ bindAuthEnv ++ bindProxyEnv ++ bindTenantEnv ++ bindStorageEnv ++ bindClusterEnv.

(* ------------------------------------------------------------------ *)
(** ** The defaults *)

Definition setMetadataDefaults (d : Config) : list (string * setting) :=
  [("metadata.nodeId", SText (md_NodeID (cf_Metadata d)));
   ("metadata.role", SText (md_Role (cf_Metadata d)));
   ("metadata.environment", SText (md_Environment (cf_Metadata d)));
   ("metadata.region", SText (md_Region (cf_Metadata d)))].

Definition setLoggingDefaults (d : Config) : list (string * setting) :=
  [("logging.level", SText (lg_Level (cf_Logging d)));
   ("logging.format", SText (lg_Format (cf_Logging d)))].

Definition setMetricsDefaults (d : Config) : list (string * setting) :=
  [("metrics.enabled", SBool (mc_Enabled (cf_Metrics d)));
   ("metrics.path", SText (mc_Path (cf_Metrics d)))].

Definition setServerDefaults (d : Config) : list (string * setting) :=
  [("server.address", SText (sv_Address (cf_Server d)));
   ("server.timeouts.read", SText (Duration_String (to_Read (sv_Timeouts (cf_Server d)))));
   ("server.timeouts.write", SText (Duration_String (to_Write (sv_Timeouts (cf_Server d)))));
   ("server.timeouts.idle", SText (Duration_String (to_Idle (sv_Timeouts (cf_Server d)))))].

Definition setProxyDefaults (d : Config) : list (string * setting) :=
  [("proxy.routing.strategy", SText (rt_Strategy (px_Routing (cf_Proxy d))));
   ("proxy.routing.healthCheck.interval", SText (Duration_String (hk_Interval (rt_HealthCheck (px_Routing (cf_Proxy d))))));
   ("proxy.routing.healthCheck.timeout", SText (Duration_String (hk_Timeout (rt_HealthCheck (px_Routing (cf_Proxy d))))));
   ("proxy.routing.healthCheck.endpoint", SText (hk_Endpoint (rt_HealthCheck (px_Routing (cf_Proxy d)))));
   ("proxy.routing.healthCheck.healthyThreshold", SInt (hk_HealthyThreshold (rt_HealthCheck (px_Routing (cf_Proxy d)))));
   ("proxy.routing.healthCheck.unhealthyThreshold", SInt (hk_UnhealthyThreshold (rt_HealthCheck (px_Routing (cf_Proxy d)))));
   ("proxy.reliability.timeout", SText (Duration_String (rl_Timeout (px_Reliability (cf_Proxy d)))));
   ("proxy.reliability.retries", SInt (rl_Retries (px_Reliability (cf_Proxy d))));
   ("proxy.reliability.backoff", SText (Duration_String (rl_Backoff (px_Reliability (cf_Proxy d)))));
   ("proxy.reliability.queue.enabled", SBool (qc_Enabled (rl_Queue (px_Reliability (cf_Proxy d)))));
   ("proxy.reliability.queue.maxSize", SInt (qc_MaxSize (rl_Queue (px_Reliability (cf_Proxy d)))));
   ("proxy.reliability.queue.timeout", SText (Duration_String (qc_Timeout (rl_Queue (px_Reliability (cf_Proxy d))))))].

Definition setAuthDefaults (d : Config) : list (string * setting) :=
  [("auth.jwt.algorithm", SText (jw_Algorithm (cf_Auth d)));
   ("auth.jwt.validation.audience", SBool (vl_Audience (jw_Validation (cf_Auth d))));
   ("auth.jwt.validation.issuer", SBool (vl_Issuer (jw_Validation (cf_Auth d))));
   ("auth.jwt.claims.userGroups", SText (jw_UserGroups (cf_Auth d)));
   ("auth.jwt.cache.tokenTTL", SText (Duration_String (cc_TokenTTL (jw_Cache (cf_Auth d)))));
   ("auth.jwt.cache.jwksTTL", SText (Duration_String (cc_JwksTTL (jw_Cache (cf_Auth d)))))].

Definition setTenantDefaults (d : Config) : list (string * setting) :=
  [("tenants.filter.strategy", SText (fc_Strategy (tc_Filter (cf_Tenants d))));
   ("tenants.filter.labels.account", SText (lc_Account (fc_Labels (tc_Filter (cf_Tenants d)))));
   ("tenants.filter.labels.project", SText (lc_Project (fc_Labels (tc_Filter (cf_Tenants d)))));
   ("tenants.filter.labels.useProjectId", SBool (lc_UseProjectID (fc_Labels (tc_Filter (cf_Tenants d)))))].

Definition setStorageDefaults (d : Config) : list (string * setting) :=
  [("storage.type", SText (sg_Type (cf_Storage d)));
   ("storage.redis.database", SInt (rd_Database (sg_Redis (cf_Storage d))));
   ("storage.redis.keyPrefix", SText (rd_KeyPrefix (sg_Redis (cf_Storage d))));
   ("storage.redis.pool.size", SInt (rp_Size (rd_Pool (sg_Redis (cf_Storage d)))));
   ("storage.redis.pool.minIdle", SInt (rp_MinIdle (rd_Pool (sg_Redis (cf_Storage d)))));
   ("storage.redis.timeouts.connect", SText (Duration_String (rt_Connect (rd_Timeouts (sg_Redis (cf_Storage d))))));
   ("storage.redis.timeouts.read", SText (Duration_String (rt_Read (rd_Timeouts (sg_Redis (cf_Storage d))))));
   ("storage.redis.timeouts.write", SText (Duration_String (rt_Write (rd_Timeouts (sg_Redis (cf_Storage d))))));
   ("storage.redis.retry.maxAttempts", SInt (rr_MaxAttempts (rd_Retry (sg_Redis (cf_Storage d)))));
   ("storage.redis.retry.backoff.min", SText (Duration_String (bo_Min (rr_Backoff (rd_Retry (sg_Redis (cf_Storage d)))))));
   ("storage.redis.retry.backoff.max", SText (Duration_String (bo_Max (rr_Backoff (rd_Retry (sg_Redis (cf_Storage d)))))));
   ("storage.raft.bindAddress", SText (rf_BindAddress (sg_Raft (cf_Storage d))));
   ("storage.raft.dataDir", SText (rf_DataDir (sg_Raft (cf_Storage d))));
   ("storage.raft.bootstrapExpected", SInt (rf_BootstrapExpected (sg_Raft (cf_Storage d))))].

Definition setClusterDefaults (d : Config) : list (string * setting) :=
  [("cluster.memberlist.bindAddress", SText (mb_BindAddress (cl_Memberlist (cf_Cluster d))));
   ("cluster.memberlist.gossip.interval", SText (Duration_String (gs_Interval (mb_Gossip (cl_Memberlist (cf_Cluster d))))));
   ("cluster.memberlist.gossip.nodes", SInt (gs_Nodes (mb_Gossip (cl_Memberlist (cf_Cluster d)))));
   ("cluster.memberlist.probe.interval", SText (Duration_String (pb_Interval (mb_Probe (cl_Memberlist (cf_Cluster d))))));
   ("cluster.memberlist.probe.timeout", SText (Duration_String (pb_Timeout (mb_Probe (cl_Memberlist (cf_Cluster d))))));
   ("cluster.discovery.interval", SText (Duration_String (ds_Interval (cl_Discovery (cf_Cluster d)))));
   ("cluster.discovery.mdns.enabled", SBool (dn_Enabled (ds_MDNS (cl_Discovery (cf_Cluster d)))));
   ("cluster.discovery.mdns.serviceName", SText (dn_ServiceName (ds_MDNS (cl_Discovery (cf_Cluster d)))));
   ("cluster.discovery.mdns.domain", SText (dn_Domain (ds_MDNS (cl_Discovery (cf_Cluster d)))));
   ("cluster.discovery.mdns.port", SInt (dn_Port (ds_MDNS (cl_Discovery (cf_Cluster d)))))].

Definition setDefaults (d : Config) : list (string * setting) :=
  setMetadataDefaults d ++ setLoggingDefaults d ++ setMetricsDefaults d ++ setServerDefaults d ++ setProxyDefaults d ++ setAuthDefaults d ++ setTenantDefaults d ++ setStorageDefaults d ++ setClusterDefaults d.

(* ------------------------------------------------------------------ *)
(** ** LoadConfig *)

Inductive readProblem := ConfigFileNotFound | ReadFailed (err : goError).

Class Viper (V : Type) := {
  New : V;
  SetConfigName : string → V → V;
  SetConfigType : string → V → V;
  AddConfigPath : string → V → V;
  SetConfigFile : string → V → V;
  SetEnvPrefix : string → V → V;
  AutomaticEnv : V → V;
  SetEnvKeyReplacer : string → string → V → V;
  BindEnv : string → string → V → V;
  SetDefault : string → setting → V → V;
  ReadInConfig : V → option readProblem * V;
  Unmarshal : V → result Config
}.

Section LoadConfig.
Context {V : Type} {HV : Viper V}.
Context (parseError : string → option goError).

Definition bindAll (v : V) : V := foldl (λ v '(key, env), BindEnv key env v) v bindEnvironmentVariables.
Definition setAll (v : V) : V := foldl (λ v '(key, value), SetDefault key value v) v (setDefaults GetDefaults).

(** The settings before the file is read. *)
Definition setup (configPath : string) : V :=
  let v := New in
  let v := SetConfigName "config" v in
  let v := SetConfigType "yaml" v in
  let v := AddConfigPath "." v in
  let v := AddConfigPath "/etc/vm-proxy-auth" v in
  let v := AddConfigPath "$HOME/.vm-proxy-auth" v in
  let v := if str_nonempty configPath then SetConfigFile configPath v else v in
  let v := SetEnvPrefix "VM_PROXY_AUTH" v in
  let v := AutomaticEnv v in
  let v := SetEnvKeyReplacer "." "_" v in
  let v := bindAll v in
  setAll v.

Definition LoadConfig (configPath : string) : result Config :=
  let '(err, v) := ReadInConfig (setup configPath) in
  match err with
  | Some (ReadFailed err) => Err (errorf_w "failed to read config file" err)
  | Some ConfigFileNotFound | None =>
      match Unmarshal v with
      | Err err => Err (errorf_w "failed to unmarshal config" err)
      | Ok config =>
          match Config_Validate parseError config with
          | Some err => Err (errorf_w "config validation failed" err)
          | None => Ok config
          end
      end
  end.

(** What is loaded has been unmarshalled and validated. *)
Lemma LoadConfig_inv configPath c :
  LoadConfig configPath = Ok c →
  Unmarshal (ReadInConfig (setup configPath)).2 = Ok c ∧ Config_Validate parseError c = None.
Proof. unfold LoadConfig. destruct (ReadInConfig _) as [err v]. simpl. intros E. by repeat case_match; simplify_eq. Qed.
End LoadConfig.

(** What viper's documentation promises of these calls: a key the environment
    and the file do not mention has its default, and the fields of what is
    unmarshalled agree with the settings, a field without a setting having
    its zero value. The texts of the default durations are read back. *)
Class ViperLaws (V : Type) `{Viper V} := {
  defaultsOf : V → gmap string setting;
  mentioned : V → string → bool;
  get : V → string → option setting;
  readDuration : string → option Z;
  converts : string → setting → Prop;
  get_default v key : mentioned v key = false → get v key = defaultsOf v !! key;
  New_defaults : defaultsOf New = ∅;
  SetDefault_defaults key s v : defaultsOf (SetDefault key s v) = <[key := s]> (defaultsOf v);
  BindEnv_defaults key env v : defaultsOf (BindEnv key env v) = defaultsOf v;
  SetConfigName_defaults s v : defaultsOf (SetConfigName s v) = defaultsOf v;
  SetConfigType_defaults s v : defaultsOf (SetConfigType s v) = defaultsOf v;
  AddConfigPath_defaults s v : defaultsOf (AddConfigPath s v) = defaultsOf v;
  SetConfigFile_defaults s v : defaultsOf (SetConfigFile s v) = defaultsOf v;
  SetEnvPrefix_defaults s v : defaultsOf (SetEnvPrefix s v) = defaultsOf v;
  AutomaticEnv_defaults v : defaultsOf (AutomaticEnv v) = defaultsOf v;
  SetEnvKeyReplacer_defaults s t v : defaultsOf (SetEnvKeyReplacer s t v) = defaultsOf v;
  ReadInConfig_defaults v : defaultsOf (ReadInConfig v).2 = defaultsOf v;
  readDuration_default key d :
    (key, SDuration d) ∈ fieldsOf GetDefaults → readDuration (Duration_String d) = Some d;
  Unmarshal_fields v c key s :
    Unmarshal v = Ok c → (key, s) ∈ fieldsOf c →
    match get v key, s with
    | None, SText t => t = ""
    | None, SInt n => n = 0%Z
    | None, SBool b => b = false
    | None, SDuration d => d = 0%Z
    | None, STexts l => l = []
    | None, SMap m => m = ∅
    | None, SUpstreams l => l = []
    | None, SMappings l => l = []
    | Some (SText t), SText t' => t = t'
    | Some (SText t), SDuration d => readDuration t = Some d
    | Some (SText t), s => converts t s
    | Some s', s => s' = s
    end
}.

(* ------------------------------------------------------------------ *)
(** ** The tables *)

Lemma fields_distinct d : NoDup (map fst (fieldsOf d)).
Proof.
  change (map fst (fieldsOf d)) with (map fst (fieldsOf GetDefaults)).
  apply (bool_decide_unpack _). vm_compute. exact I.
Qed.

(** Every variable is bound once, to the field its name spells: the key with
    its dots as underscores and its words in capitals. *)
Definition isUpper (c : ascii) : bool := bool_decide (65 ≤ N_of_ascii c ∧ N_of_ascii c ≤ 90)%N.
Definition isLower (c : ascii) : bool := bool_decide (97 ≤ N_of_ascii c ∧ N_of_ascii c ≤ 122)%N.

Fixpoint spell (afterLower : bool) (l : list ascii) : list ascii :=
  match l with
  | [] => []
  | c :: l' =>
      if Ascii.eqb c "." then "_"%char :: spell false l'
      else if isLower c then ascii_of_N (N_of_ascii c - 32) :: spell true l'
      else if afterLower && isUpper c then "_"%char :: c :: spell false l'
      else c :: spell false l'
  end.

Definition variableOf (key : string) : string :=
  "VM_PROXY_AUTH_" +:+ String.string_of_list_ascii (spell false (String.list_ascii_of_string key)).

Lemma variables_are_spelled :
  Forall (λ '(key, env), env = variableOf key ∧ key ∈ map fst (fieldsOf GetDefaults)) bindEnvironmentVariables ∧
  NoDup (map snd bindEnvironmentVariables).
Proof.
  split; [|apply (bool_decide_unpack _); vm_compute; exact I].
  assert (forallb (λ '(key, env), bool_decide (env = variableOf key ∧ key ∈ map fst (fieldsOf GetDefaults)))
    bindEnvironmentVariables = true) as H by (vm_compute; reflexivity).
  rewrite forallb_forall in H. apply Forall_forall. intros [key env] Hin%list_elem_of_In.
  by apply H, bool_decide_eq_true in Hin.
Qed.

(** The issuer and the audience a token must have can only come from a file. *)
Lemma unbound_fields :
  filter (λ key, key ∉ map fst bindEnvironmentVariables) (map fst (fieldsOf GetDefaults))
  = ["auth.jwt.validation.requiredIssuer"; "auth.jwt.validation.requiredAudience"].
Proof. vm_compute. reflexivity. Qed.

(** Every default is that of the field of its key, and every field that has a
    default is set. *)
Definition isZero (s : setting) : bool :=
  match s with
  | SText t => String.eqb t ""
  | SInt n => (n =? 0)%Z
  | SBool b => negb b
  | SDuration d => (d =? 0)%Z
  | STexts l => bool_decide (l = [])
  | SMap m => bool_decide (m = ∅)
  | SUpstreams l => bool_decide (l = [])
  | SMappings l => bool_decide (l = [])
  end.

Lemma isZero_spec s :
  isZero s = true →
  match s with
  | SText t => t = ""
  | SInt n => n = 0%Z
  | SBool b => b = false
  | SDuration d => d = 0%Z
  | STexts l => l = []
  | SMap m => m = ∅
  | SUpstreams l => l = []
  | SMappings l => l = []
  end.
Proof.
  destruct s; simpl; intros H; first [by apply String.eqb_eq | by apply Z.eqb_eq | by apply negb_true_iff
    | by apply bool_decide_eq_true in H].
Qed.

Definition defaultText (s : setting) : setting :=
  match s with SDuration d => SText (Duration_String d) | _ => s end.

Definition settingsOf (l : list (string * setting)) : gmap string setting :=
  foldl (λ m kv, <[kv.1 := kv.2]> m) ∅ l.

Lemma defaults_are_the_fields :
  forallb (λ kv, if settingsOf (setDefaults GetDefaults) !! kv.1 is Some s
                 then bool_decide (s = defaultText kv.2) else isZero kv.2) (fieldsOf GetDefaults) = true.
Proof. vm_compute. reflexivity. Qed.

(** The key tells the kind of a field. *)
Definition kindOf (s : setting) : nat :=
  match s with
  | SText _ => 0 | SInt _ => 1 | SBool _ => 2 | SDuration _ => 3
  | STexts _ => 4 | SMap _ => 5 | SUpstreams _ => 6 | SMappings _ => 7
  end.

Lemma same_kind c c' key s s' : (key, s) ∈ fieldsOf c → (key, s') ∈ fieldsOf c' → kindOf s = kindOf s'.
Proof.
  intros H H'.
  assert (∀ d t, (key, t) ∈ fieldsOf d → (key, kindOf t) ∈ map (λ kv, (kv.1, kindOf kv.2)) (fieldsOf GetDefaults)) as Hk.
  { intros d t Hin. change (map (λ kv, (kv.1, kindOf kv.2)) (fieldsOf GetDefaults))
      with (map (λ kv, (kv.1, kindOf kv.2)) (fieldsOf d)). apply list_elem_of_fmap. by exists (key, t). }
  apply Hk in H, H'.
  assert (NoDup (map fst (map (λ kv, (kv.1, kindOf kv.2)) (fieldsOf GetDefaults)))) as Hnd
    by (rewrite map_map; apply (fields_distinct GetDefaults)).
  apply elem_of_list_to_map in H, H'; [|exact Hnd..]. congruence.
Qed.

Section Laws.
Context {V : Type} {HV : Viper V} {HL : ViperLaws V}.
Context (parseError : string → option goError).

Lemma bindAll_defaults v : defaultsOf (bindAll v) = defaultsOf v.
Proof.
  unfold bindAll. generalize bindEnvironmentVariables. intros l. revert v.
  induction l as [|[key env] l IH]; intros v; [done|]. simpl. by rewrite IH, BindEnv_defaults.
Qed.

Lemma setAll_defaults v : defaultsOf v = ∅ → defaultsOf (setAll v) = settingsOf (setDefaults GetDefaults).
Proof.
  unfold setAll, settingsOf. intros <-. generalize (setDefaults GetDefaults). intros l. revert v.
  induction l as [|[key s] l IH]; intros v; [done|]. simpl. by rewrite IH, SetDefault_defaults.
Qed.

Lemma setup_defaults configPath : defaultsOf (setup configPath) = settingsOf (setDefaults GetDefaults).
Proof.
  unfold setup. apply setAll_defaults. rewrite bindAll_defaults, SetEnvKeyReplacer_defaults, AutomaticEnv_defaults, SetEnvPrefix_defaults.
  case_match; rewrite ?SetConfigFile_defaults, !AddConfigPath_defaults, SetConfigType_defaults, SetConfigName_defaults;
    apply New_defaults.
Qed.

(** C37: A configuration that LoadConfig returns is valid, and each of its fields that
    neither the file nor the environment mentions has the value of GetDefaults: the
    defaults registered with the library are those of the program, spelled with the same
    keys. *)
Theorem loaded_configuration configPath c :
  LoadConfig parseError configPath = Ok c →
  Config_Validate parseError c = None ∧
  ∀ key s s0, (key, s) ∈ fieldsOf c → (key, s0) ∈ fieldsOf GetDefaults →
    mentioned (ReadInConfig (setup configPath)).2 key = false → s = s0.
Proof.
  pose proof (ReadInConfig_defaults (setup configPath)) as Hd. rewrite setup_defaults in Hd.
  intros [Hu Hval]%LoadConfig_inv. split; [exact Hval|].
  destruct (ReadInConfig (setup configPath)) as [err v]. simpl in *.
  intros key s s0 Hs Hs0 Hm. pose proof (get_default v key Hm) as Hg. rewrite Hd in Hg.
  pose proof (Unmarshal_fields v c key s Hu Hs) as Hf. rewrite Hg in Hf. clear Hg.
  pose proof defaults_are_the_fields as Htab. rewrite forallb_forall in Htab.
  specialize (Htab (key, s0) (proj1 (list_elem_of_In _ _) Hs0)). cbn [fst snd] in Htab.
  destruct (settingsOf (setDefaults GetDefaults) !! key) as [d|].
  - apply bool_decide_eq_true in Htab as ->. pose proof (same_kind _ _ _ _ _ Hs Hs0) as Hkind.
    destruct s, s0; try discriminate Hkind; simpl in Hf; try congruence.
    rewrite (readDuration_default key) in Hf by done. congruence.
  - pose proof (same_kind _ _ _ _ _ Hs Hs0) as Hkind. apply isZero_spec in Htab.
    destruct s, s0; try discriminate Hkind; by subst.
Qed.
End Laws.

(* ------------------------------------------------------------------ *)
(** ** A loader whose file completes the defaults *)

Record toyViper := mkToyViper { tv_defaults : gmap string setting; tv_file : gmap string setting }.

Definition toyFile : gmap string setting :=
  {["proxy.upstreams" := SUpstreams [mkUpstream "http://vm:8428" 1];
    "auth.jwt.jwksUrl" := SText "http://idp/jwks";
    "tenants.mappings" := SMappings [mkMapping ["team"] [mkVMTenantConfig "1" "7"] ["read"]]]}.

(** The text of each duration among the fields of a configuration. *)
Definition durationTexts (c : Config) : list (string * Z) :=
  omap (λ kv, match kv.2 with SDuration d => Some (Duration_String d, d) | _ => None end) (fieldsOf c).

Definition toyDuration (t : string) : option Z := (list_to_map (durationTexts GetDefaults) : gmap string Z) !! t.

Definition toyGet (v : toyViper) (key : string) : option setting :=
  match tv_file v !! key with Some s => Some s | None => tv_defaults v !! key end.

Definition toyAgrees (v : toyViper) (kv : string * setting) : bool :=
  match toyGet v kv.1, kv.2 with
  | None, s => isZero s
  | Some (SText t), SText t' => bool_decide (t = t')
  | Some (SText t), SDuration d => bool_decide (toyDuration t = Some d)
  | Some (SText t), _ => false
  | Some s', s => bool_decide (s' = s)
  end.

#[global] Instance toyViper_ops : Viper toyViper := {|
  New := mkToyViper ∅ ∅;
  SetConfigName _ v := v; SetConfigType _ v := v; AddConfigPath _ v := v; SetConfigFile _ v := v;
  SetEnvPrefix _ v := v; AutomaticEnv v := v; SetEnvKeyReplacer _ _ v := v; BindEnv _ _ v := v;
  SetDefault key s v := mkToyViper (<[key := s]> (tv_defaults v)) (tv_file v);
  ReadInConfig v := (None, mkToyViper (tv_defaults v) toyFile);
  Unmarshal v := if forallb (toyAgrees v) (fieldsOf completed) then Ok completed else Err (EText "decode")
|}.

#[global] Instance toyViper_laws : ViperLaws toyViper.
Proof.
  refine {| defaultsOf := tv_defaults; mentioned v key := bool_decide (is_Some (tv_file v !! key));
    get := toyGet; readDuration := toyDuration; converts _ _ := False |}; try (intros; reflexivity).
  - intros v key Hm%bool_decide_eq_false. unfold toyGet. destruct (tv_file v !! key); [|done]. by destruct Hm.
  - intros key d Hin.
    assert (forallb (λ kv, match kv.2 with SDuration d => bool_decide (toyDuration (Duration_String d) = Some d) | _ => true end)
      (fieldsOf GetDefaults) = true) as H by (vm_compute; reflexivity).
    rewrite forallb_forall in H. apply list_elem_of_In in Hin. apply H in Hin. by apply bool_decide_eq_true in Hin.
  - intros v c key s E Hin.
    change ((if forallb (toyAgrees v) (fieldsOf completed) then Ok completed else Err (EText "decode")) = Ok c) in E.
    destruct (forallb (toyAgrees v) (fieldsOf completed)) eqn:H; [|done]. injection E as <-.
    rewrite forallb_forall in H. apply list_elem_of_In in Hin. apply H in Hin. clear H. unfold toyAgrees in Hin.
    cbn [fst snd] in Hin. destruct (toyGet v key) as [[]|].
    1: destruct s; try discriminate Hin; by apply bool_decide_eq_true in Hin.
    1-7: apply bool_decide_eq_true in Hin as <-; reflexivity.
    by apply isZero_spec in Hin.
Defined.

Lemma loaded_configuration_witness :
  LoadConfig (V := toyViper) (λ _, None) "" = Ok completed ∧
  Config_Validate (λ _, None) completed = None ∧
  SInt (rl_Retries (px_Reliability (cf_Proxy completed))) = SInt 3.
Proof.
  assert (LoadConfig (V := toyViper) (λ _, None) "" = Ok completed) as H by (vm_compute; reflexivity).
  split; [exact H|].
  destruct (loaded_configuration (V := toyViper) (λ _, None) "" completed H) as [H1 H2].
  split; [exact H1|]. apply (H2 "proxy.reliability.retries").
  - apply (bool_decide_unpack _). vm_compute. exact I.
  - apply (bool_decide_unpack _). vm_compute. exact I.
  - vm_compute. reflexivity.
Defined.
