(* ===== verification/Routes.v ===== *)
(** * Routes: the http.ServeMux of cmd/gateway/main.go

    The paths main registers, and what net/http's ServeMux makes of a request:
    a redirect to the clean form of its path, or one of the handlers. *)

From Stdlib Require Import Ascii.
From S2P Require Import Prelude GoStd GoText Errors Domain Access Config.

(* ------------------------------------------------------------------ *)
(** ** Clean paths *)

(** path.Clean of a rooted path, and net/http's cleanPath, which keeps a
    slash at the end. *)
Definition cleanStep (kept : list string) (s : string) : list string :=
  if String.eqb s "" || String.eqb s "." then kept
  else if String.eqb s ".." then tail kept
  else s :: kept.

Definition cleanSegments (segments : list string) : list string := reverse (foldl cleanStep [] segments).

Definition endsInSlash (p : string) : bool :=
  bool_decide (last (String.list_ascii_of_string p) = Some "/"%char).

Definition cleanPath (p : string) : string :=
  if String.eqb p "" then "/"
  else
    let p := if hasPrefix p "/" then p else "/" +:+ p in
    let np := "/" +:+ Join (cleanSegments (Split p "/"%char)) "/" in
    if endsInSlash p && negb (String.eqb np "/") then np +:+ "/" else np.

Example cleanPath_examples :
  map cleanPath ["/a/b"; "/a//b/"; "/a/../b"; ""; "x"; "/.."; "/a/./"; "/a/.."; "/..//a/"]
  = ["/a/b"; "/a/b/"; "/b"; "/"; "/x"; "/"; "/a/"; "/"; "/a/"].
Proof. vm_compute. reflexivity. Qed.

(* ------------------------------------------------------------------ *)
(** ** The mux *)

Inductive endpoint :=
| NotFound
| Redirect (path : string)
| HealthEndpoint
| MetricsEndpoint
| GatewayEndpoint.

(** The ServeMux of main. [escaped] is the path as it was sent, [path] the
    decoded one. A CONNECT request is not redirected, and usually has no
    path. *)
Definition route (cfg : Config) (method escaped path : string) : endpoint :=
  let connect := String.eqb method "CONNECT" in
  let cleaned := cleanPath escaped in
  if connect && String.eqb escaped "" then NotFound
  else if negb connect && negb (String.eqb cleaned escaped) then Redirect cleaned
  else if String.eqb path "/health" then HealthEndpoint
  else if String.eqb path "/ready" then HealthEndpoint
  else if mc_Enabled (cf_Metrics cfg) && String.eqb path "/metrics" then MetricsEndpoint
  else GatewayEndpoint.

(* ------------------------------------------------------------------ *)
(** ** Normal forms *)

Definition proper (s : string) : Prop := s ≠ "" ∧ s ≠ "." ∧ s ≠ ".." ∧ hasByte s "/"%char = false.

Definition pathOf (segs : list string) (slash : bool) : string :=
  "/" +:+ Join segs "/" +:+ (if slash then "/" else "").

(** A path without empty, [.] and [..] segments. *)
Definition clean (p : string) : Prop :=
  ∃ segs slash, Forall proper segs ∧ (slash = true → segs ≠ []) ∧ p = pathOf segs slash.

Lemma cleanStep_proper kept s : proper s → cleanStep kept s = s :: kept.
Proof.
  intros (H1&H2&H3&_). unfold cleanStep.
  by rewrite (proj2 (String.eqb_neq _ _) H1), (proj2 (String.eqb_neq _ _) H2), (proj2 (String.eqb_neq _ _) H3).
Qed.

Lemma cleanSteps_proper segs kept : Forall proper segs → foldl cleanStep kept segs = reverse segs ++ kept.
Proof.
  intros Hf. revert kept. induction Hf as [|s segs Hs _ IH]; intros kept; [done|].
  simpl. by rewrite cleanStep_proper, IH, reverse_cons, <- app_assoc.
Qed.

Lemma cleanSegments_proper segs :
  Forall (λ s, hasByte s "/"%char = false) segs → Forall proper (cleanSegments segs).
Proof.
  intros Hf. apply Forall_reverse. assert (Forall proper []) as H0 by constructor. revert H0.
  generalize (@nil string). induction Hf as [|s segs Hs _ IH]; intros kept Hk; [done|].
  simpl. apply IH. unfold cleanStep.
  destruct (String.eqb_spec s ""), (String.eqb_spec s "."), (String.eqb_spec s ".."); simpl; try done.
  - by apply Forall_tail.
  - by constructor.
Qed.

Lemma proper_noSlash segs : Forall proper segs → Forall (λ s, hasByte s "/"%char = false) segs.
Proof. intros Hf. eapply Forall_impl; [exact Hf|]. by intros s (_&_&_&?). Qed.

Lemma Join_snoc segs last sep : segs ≠ [] → Join (segs ++ [last]) sep = Join segs sep +:+ sep +:+ last.
Proof.
  induction segs as [|s [|t segs] IH]; intros Hne; [done..|].
  change ((s :: t :: segs) ++ [last]) with (s :: t :: (segs ++ [last])).
  rewrite !Join_cons, <- !append_assoc. do 2 f_equal. by apply IH.
Qed.

Lemma pathOf_join segs slash :
  segs ≠ [] → pathOf segs slash = "" +:+ String "/" (Join (segs ++ (if slash then [""] else [])) "/").
Proof.
  intros Hne. unfold pathOf. destruct slash; [by rewrite Join_snoc|]. by rewrite append_nil_r, app_nil_r.
Qed.

(** The segments of a clean path. *)
Lemma Split_pathOf segs slash :
  Forall proper segs → (slash = true → segs ≠ []) → cleanSegments (Split (pathOf segs slash) "/"%char) = segs.
Proof.
  intros Hf Hs. destruct (decide (segs = [])) as [->|Hne]; [destruct slash; [by destruct Hs|done]|].
  rewrite pathOf_join, Split_first by done.
  rewrite Split_Join; [|by destruct segs|apply Forall_app; split; [by apply proper_noSlash|destruct slash; by repeat constructor]].
  unfold cleanSegments. cbn [foldl]. change (cleanStep [] "") with (@nil string).
  rewrite foldl_app, (cleanSteps_proper segs), app_nil_r by done.
  destruct slash; apply reverse_involutive.
Qed.

Lemma endsInSlash_pathOf segs slash :
  Forall proper segs → segs ≠ [] → endsInSlash (pathOf segs slash) = slash.
Proof.
  intros Hf Hne. unfold endsInSlash, pathOf. rewrite !list_ascii_app. destruct slash.
  { apply bool_decide_eq_true. rewrite app_assoc. apply last_snoc. }
  apply bool_decide_eq_false. rewrite app_nil_r.
  destruct segs as [|x segs _] using rev_ind; [done|].
  apply Forall_app in Hf as [_ [(Hx&_&_&Hn) _]%Forall_cons]. apply hasByte_false in Hn.
  assert (String.list_ascii_of_string x ≠ []) as Hx' by (by destruct x).
  assert (∀ l, last (l ++ String.list_ascii_of_string x) ≠ Some "/"%char) as H.
  { intros l. rewrite last_app_Some. intros [E|[E _]]; [|by apply last_None in E].
    apply Hn. apply last_Some in E as [l' ->]. set_solver. }
  destruct (decide (segs = [])) as [->|]; [exact (H ["/"%char])|].
  rewrite Join_snoc, !list_ascii_app, !app_assoc by done. apply H.
Qed.

Lemma Join_empty segs : Forall proper segs → "/" +:+ Join segs "/" = "/" → segs = [].
Proof.
  intros Hf E. destruct segs as [|s segs]; [done|]. exfalso.
  apply Forall_cons in Hf as [(Hs&_) _]. rewrite append_cons in E. injection E as E.
  destruct s; [done|]. by destruct segs.
Qed.

Lemma cleanPath_clean p : clean p → cleanPath p = p.
Proof.
  intros (segs&slash&Hf&Hs&->). destruct (decide (segs = [])) as [->|Hne].
  { destruct slash; [by destruct Hs|done]. }
  assert (∃ r, pathOf segs slash = String "/" r) as [r Hr] by (rewrite pathOf_join by done; eauto).
  unfold cleanPath. assert (hasPrefix (pathOf segs slash) "/" = true) as ->.
  { rewrite Hr. by destruct r. }
  rewrite Split_pathOf, endsInSlash_pathOf by done.
  assert (String.eqb (pathOf segs slash) "" = false) as -> by (by rewrite Hr).
  assert (String.eqb ("/" +:+ Join segs "/") "/" = false) as ->.
  { apply String.eqb_neq. intros E. by apply Hne, Join_empty. }
  unfold pathOf. rewrite append_assoc. by destruct slash; rewrite ?append_nil_r.
Qed.

Lemma clean_cleanPath p : clean (cleanPath p).
Proof.
  unfold cleanPath. destruct (String.eqb p ""); [by exists [], false|].
  set (p' := if hasPrefix p "/" then p else "/" +:+ p). cbv zeta.
  set (segs := cleanSegments (Split p' "/"%char)).
  assert (Forall proper segs) as Hf by apply cleanSegments_proper, Split_noSep.
  destruct (endsInSlash p' && negb (String.eqb ("/" +:+ Join segs "/") "/")) eqn:E.
  - apply andb_true_iff in E as [_ E]. exists segs, true. split; [done|]. split; [|unfold pathOf; by rewrite append_assoc].
    intros _ ->. done.
  - exists segs, false. split_and!; [done..|]. unfold pathOf. by rewrite append_nil_r.
Qed.

(* ------------------------------------------------------------------ *)
(** ** Which requests reach which handler *)

(** C36: A request is redirected at most once, to a path without empty and dot segments;
    the health handler gets exactly the two health paths, the metrics handler /metrics
    when enabled, and the gateway the rest, which unless the method is CONNECT was sent as
    a clean path. *)
Theorem routes_are_exhaustive cfg method escaped path :
  match route cfg method escaped path with
  | Redirect p =>
      method ≠ "CONNECT" ∧ p ≠ escaped ∧ clean p ∧ ∀ method' path' p', route cfg method' p path' ≠ Redirect p'
  | HealthEndpoint => path = "/health" ∨ path = "/ready"
  | MetricsEndpoint => path = "/metrics" ∧ mc_Enabled (cf_Metrics cfg) = true
  | GatewayEndpoint =>
      path ≠ "/health" ∧ path ≠ "/ready" ∧ (path = "/metrics" → mc_Enabled (cf_Metrics cfg) = false) ∧
      (method ≠ "CONNECT" → clean escaped)
  | NotFound => method = "CONNECT" ∧ escaped = ""
  end.
Proof.
  unfold route at 1. destruct (String.eqb_spec method "CONNECT") as [->|Hm]; cbn [andb negb].
  - destruct (String.eqb_spec escaped "") as [->|]; [done|].
    destruct (String.eqb_spec path "/health"), (String.eqb_spec path "/ready"), (mc_Enabled (cf_Metrics cfg)),
      (String.eqb_spec path "/metrics"); simpl; naive_solver.
  - destruct (String.eqb_spec (cleanPath escaped) escaped) as [Hc|Hc]; cbn [negb].
    + assert (clean escaped) by (rewrite <- Hc; apply clean_cleanPath).
      destruct (String.eqb_spec path "/health"), (String.eqb_spec path "/ready"), (mc_Enabled (cf_Metrics cfg)),
        (String.eqb_spec path "/metrics"); simpl; naive_solver.
    + split_and!; [done|done|apply clean_cleanPath|]. intros method' path' p'. unfold route.
      rewrite (cleanPath_clean (cleanPath escaped)) by apply clean_cleanPath. rewrite String.eqb_refl.
      simpl. rewrite andb_false_r. by repeat case_match.
Qed.

(** The cleaning is of the path as it was sent: dots that are percent-encoded
    stay, and the prefixes CanAccess looks for are not there. *)
Lemma encoded_dots_pass cfg user :
  user_ReadOnly user = false → 
  route cfg "GET" "/api/%2e%2e/debug/pprof" "/api/../debug/pprof" = GatewayEndpoint ∧
  CanAccess (Some user) "/api/../debug/pprof" "GET" = None ∧
  (isAdmin user = false → CanAccess (Some user) (cleanPath "/api/../debug/pprof") "GET" = Some (EApp ErrAdminRequired)).
Proof.
  intros Hr. unfold CanAccess. rewrite Hr. split; [|split; [done|]].
  - unfold route. simpl. by destruct (mc_Enabled _).
  - intros Ha. simpl. by rewrite Ha.
Qed.
