(* ===== verification/Main.v ===== *)
(** * Main: cmd/gateway/main.go and pkg/utils/network.go

    The start of the program: from the flags and the loaded configuration to
    a server with its handlers, or to an exit; the start of the cluster; the
    routes. What lies outside (the answers of the network, of opening files,
    of the libraries) is an argument. *)

From Stdlib Require Import Ascii.
From S2P Require Import Prelude GoStd GoText Errors Domain LoadBalancer LBFactory Http Config Loader Storage Tenant Access Proxy ProxyProofs ProxyTheorems Gateway GatewayProofs Readiness StorageFactory NodeMeta Routes.
From S2P Require Auth Health Queue RaftStorage RedisStorage LocalStorage Delegate Discovery Memberlist Metrics.
Open Scope vpa_scope.

(* ------------------------------------------------------------------ *)
(** ** network.go *)

(** [dialed]: the local address of the UDP connection, None when it is of
    another type. *)
Definition GetExternalIP (IP_String : Discovery.IP → string) (dialed : result (option Discovery.IP)) : result string :=
  match dialed with
  | Err err => Err err
  | Ok None => Err (EText "failed to get UDP address")
  | Ok (Some ip) => Ok (IP_String ip)
  end.

(** [externalIP] is the answer of GetExternalIP. *)
Definition ConvertBindToAdvertiseAddress (externalIP : result string) (bindAddr : string) : result string :=
  match SplitHostPort bindAddr with
  | inr err => Err (errorf_w "invalid bind address" (EText err))
  | inl (host, port) =>
      if String.eqb host "0.0.0.0" || String.eqb host "" then
        match externalIP with
        | Err ipErr => Err (errorf_w "failed to get external IP" ipErr)
        | Ok ip => Ok (ip +:+ ":" +:+ port)
        end
      else Ok bindAddr
  end.

(* ------------------------------------------------------------------ *)
(** ** Start *)

(** A program ends with an exit code or goes on. *)
Inductive program (A : Type) :=
| Exit (code : Z)
| Goes (a : A).
Arguments Exit {A} code.
Arguments Goes {A} a.

Definition pbind {A B} (m : outcome (program A)) (k : A → outcome (program B)) : outcome (program B) :=
  match m with
  | Returned (Goes a) => k a
  | Returned (Exit code) => Returned (Exit code)
  | Panicked why => Panicked why
  end.

Notation "'go!' x <- m ; k" := (pbind m (λ x, k))
  (at level 10, x pattern, m at level 100, k at level 200) : vpa_scope.

(** [os.Exit(1)] on an error. *)
Definition orExit {A} (r : result A) : outcome (program A) :=
  match r with Ok a => Returned (Goes a) | Err _ => Returned (Exit 1) end.

Record flags := mkFlags { fl_config : string; fl_version : bool; fl_logLevel : string; fl_validate : bool }.

(** cfg.Logging.Level = *logLevel *)
Definition overrideLevel (cfg : Config) (level : string) : Config :=
  if str_nonempty level
  then mkConfig (cf_Metadata cfg) (mkLogging level (lg_Format (cf_Logging cfg))) (cf_Metrics cfg) (cf_Server cfg)
         (cf_Proxy cfg) (cf_Auth cfg) (cf_Tenants cfg) (cf_Storage cfg) (cf_Cluster cfg)
  else cfg.

Section Main.
Context {HJ : Auth.JWT}.
Context {R Q L P : Type} `{HR : RaftStorage.RaftLib R, HQ : RedisStorage.RedisLib Q, HG : Memberlist.Gossip L}.
Context {HP : Metrics.Prometheus P} {V : Type} {HV : Viper V}.

Notation RaftS' := (RaftStorage.RaftStorage R).

(** What the world answers while the program starts. *)
Record surroundings := mkSurroundings {
  su_parseError : string → option goError;                      (* the error of url.Parse *)
  su_connect : RedisStorage.RedisStorageConfig → Q;
  su_openings : RaftStorage.openings R;
  su_dialed : result (option Discovery.IP);
  su_defaults : Memberlist.mlConfig;                             (* memberlist.DefaultWANConfig *)
  su_create : Memberlist.mlConfig → result L * list Memberlist.gossipEvent;
  su_metadataOrder : list (string * string);                     (* the range over the configured metadata *)
  su_ParseIP : string → option Discovery.IP;
  su_IPString : Discovery.IP → string;
  su_mdns : nat → Discovery.mdnsEnv;
  su_found : nat → list Discovery.ServiceEntry;
  su_now : Z
}.

Notation Cluster' := (Memberlist.Cluster L RaftS').

(** The part of initializeMemberlist that needs the Raft storage; without it
    there is no metadata and no manager. main only calls it with one. *)
Definition initializeMemberlist (su : surroundings) (cfg : Config) (raftStorage : RaftS')
  : outcome (program Cluster') :=
  go! raftAdvertiseAddr <- orExit (ConvertBindToAdvertiseAddress (GetExternalIP (su_IPString su) (su_dialed su)) (rf_BindAddress (sg_Raft (cf_Storage cfg))));
  let nodeMetadata := CreateNodeMetadata (md_NodeID (cf_Metadata cfg)) (sv_Address (cf_Server cfg))
                        raftAdvertiseAddr (su_metadataOrder su) in
  let '(created, raftStorage) := Memberlist.NewMemberlistServiceWithMetadata (cl_Memberlist (cf_Cluster cfg))
                                   (Some nodeMetadata) true (su_defaults su) (su_create su) raftStorage in
  go! mlService <- orExit created;
  let mlService :=
    if ds_Enabled (cl_Discovery (cf_Cluster cfg)) then
      let discoveryService := Discovery.NewService (cl_Discovery (cf_Cluster cfg)) in
      let mlService := Memberlist.SetDiscoveryService mlService discoveryService in
      Memberlist.withDiscovery mlService (Discovery.SetRaftManager <$> Memberlist.ms_discovery mlService)
    else mlService in
  do! started <- Memberlist.Start (su_ParseIP su) (su_IPString su) (mlService, raftStorage) (su_mdns su) (su_found su);
  let '(startErr, c) := started in
  match startErr with
  | Some _ => Returned (Exit 1)
  | None =>
      let join := mb_Join (cl_Memberlist (cf_Cluster cfg)) in
      if bool_decide (join = []) then Returned (Goes c)
      else Returned (Goes (Memberlist.Join c join).2)
  end.

(** What serves: the storage, in a cluster of its own when it is Raft. *)
Inductive stateService :=
| Alone (s : AnyStorage R Q)
| Clustered (c : Cluster').

Record Application := mkApplication {
  app_config : Config;
  app_metrics : Metrics.Service P;
  app_state : stateService;
  app_gateway : GatewayHandler (LB := Balancer)
}.

Definition main (su : surroundings) (fl : flags) : outcome (program Application) :=
  if fl_version fl then Returned (Exit 0)
  else
    go! cfg <- orExit (LoadConfig (V := V) (su_parseError su) (fl_config fl));
    let cfg := overrideLevel cfg (fl_logLevel fl) in
    if fl_validate fl then Returned (Exit 0)
    else
      do! metricsService <- Metrics.NewService (P := P);
      go! authService <- orExit (Auth.NewService (cf_Auth cfg) (tc_Mappings (cf_Tenants cfg)));
      let '(stateStorageConfig, storageType) := createStateStorageConfig (cf_Storage cfg) in
      do! made <- NewStateStorage (su_connect su) (su_openings su) stateStorageConfig storageType (md_NodeID (cf_Metadata cfg));
      go! stateStorage <- orExit made;
      go! state <- (if IsClusterEnabled cfg then
                      match stateStorage with
                      | RaftS rs => go! c <- initializeMemberlist su cfg rs; Returned (Goes (Clustered c))
                      | _ => Returned (Goes (Alone stateStorage))
                      end
                    else Returned (Goes (Alone stateStorage)));
      do! proxied <- NewEnhancedService (cf_Proxy cfg) (su_now su);
      go! proxyService <- orExit proxied;
      let '(startErr, w) := Proxy.Start (worldOf proxyService) in
      match startErr with
      | Some _ => Returned (Exit 1)
      | None => Returned (Goes (mkApplication cfg metricsService state
                                  (mkGateway authService (tc_Filter (cf_Tenants cfg)) w)))
      end.

(** What the mux answers; [version] and [timestamp] are the health handler's,
    [escaped] the path as it was sent. *)
Inductive reply :=
| NoSuchPage
| MovedPermanently (path query : string)
| HealthReply (response : healthResponse)
| Exposition (collectors : list Metrics.collector)
| GatewayReply (answer : option (outcome written * GatewayHandler (LB := Balancer))).

Definition handle {Expr} `{PromQL Expr} (version timestamp : string) (env : Env Balancer) (app : Application)
    (r : Request) (escaped : string) (answer : Auth.fetchResult) (c : Auth.Clock) : reply :=
  match route (app_config app) (Method r) escaped (Path r) with
  | NotFound => NoSuchPage
  | Redirect p => MovedPermanently p (RawQuery r)
  | HealthEndpoint => HealthReply (HealthHandler_ServeHTTP version timestamp)
  | MetricsEndpoint => Exposition (Metrics.Handler (app_metrics app))
  | GatewayEndpoint => GatewayReply (ServeHTTP (Expr := Expr) env (app_gateway app) r answer c)
  end.

(** The end: the select takes a startup error or a signal, then the server
    is shut down; nothing else is closed. *)
Inductive ending := StartupError | Signalled (shutdown : option goError).

Definition exitCode (e : ending) : Z :=
  match e with
  | StartupError => 1
  | Signalled (Some _) => 1
  | Signalled None => 0
  end.
End Main.

(* ------------------------------------------------------------------ *)
(** ** The start of a valid configuration *)

Lemma NewEnhancedService_idle config now s :
  NewEnhancedService config now = Returned (Ok s) →
  Health.running (es_healthChecker s) = false ∧
  Health.CheckInterval (Health.config (es_healthChecker s)) = hk_Interval (rt_HealthCheck (px_Routing config)).
Proof.
  unfold NewEnhancedService. case_match; [done|]. destruct (CreateLoadBalancer _ _); [|done].
  case_match; [|by intros [= <-]]. destruct (Queue.NewMemoryQueue _ _); simpl; [by intros [= <-]|done].
Qed.

(** A fresh service starts its health checks. *)
Lemma proxy_Start_fresh config now s :
  NewEnhancedService config now = Returned (Ok s) → usable_proxy config → es_closed s = false →
  ∃ w, Proxy.Start (worldOf s) = (None, w) ∧ Health.running (es_healthChecker (w_service w)) = true.
Proof.
  intros Hs (_&_&Hi&_) Hcl. apply NewEnhancedService_idle in Hs as [Hr Hint].
  unfold Proxy.Start, Health.StartMonitoring. simpl. rewrite Hcl, Hint, Hr.
  rewrite (proj2 (Z.leb_gt _ _)) by lia. by eexists.
Qed.

Lemma Start_world {LB} `{HLB : LoadBalancer LB, !LoadBalancerSpec LB} Q (w : World LB) :
  world_ok Q w → world_ok Q (Proxy.Start w).2 ∧ w_sent (Proxy.Start w).2 = w_sent w.
Proof.
  intros Hw. unfold Proxy.Start. destruct (es_closed _); [done|].
  destruct (Health.StartMonitoring _) as [[err started] hc]. by destruct err.
Qed.

(** Asked for the version, or only to validate, the program ends well; a
    configuration that does not load ends it with 1. *)
Lemma main_early {HJ : Auth.JWT} {R Q L P V} `{HR : RaftStorage.RaftLib R, HQ : RedisStorage.RedisLib Q, HG : Memberlist.Gossip L}
    {HP : Metrics.Prometheus P} {HV : Viper V} (su : surroundings (R := R) (Q := Q) (L := L)) fl :
  fl_version fl = true ∨ fl_validate fl = true ∨
    is_ok (LoadConfig (V := V) (su_parseError su) (fl_config fl)) = false →
  main (P := P) (V := V) su fl
    = Returned (Exit (if fl_version fl then 0
                      else if is_ok (LoadConfig (V := V) (su_parseError su) (fl_config fl)) then 0 else 1)).
Proof.
  unfold main. destruct (fl_version fl); [done|]. destruct (LoadConfig _ _) as [cfg|err]; [|done]. simpl.
  by intros [?|[->|?]].
Qed.

(** The discovery that panics when it starts: static peers without their
    section. *)
Definition panickingDiscovery (cfg : Config) : Prop :=
  let ds := cl_Discovery (cf_Cluster cfg) in
  ds_Enabled ds = true ∧ ("static" ∈ ds_Providers ds) ∧ ds_Static ds = None.

Section Startup.
Context {HJ : Auth.JWT} {Expr : Type} {HE : PromQL Expr}.
Context {R Q L P : Type} `{HR : RaftStorage.RaftLib R, HQ : RedisStorage.RedisLib Q, HG : Memberlist.Gossip L}.
Context {HP : Metrics.Prometheus P} {HPL : Metrics.PrometheusLaws P} {V : Type} {HV : Viper V}.
Implicit Types (su : surroundings (R := R) (Q := Q) (L := L)).

(** Starting the health checks sends nothing and keeps the invariants. *)
Lemma started_is_fresh jwt maps filters genuine received auth (w w' : World Balancer) :
  fresh_gateway (Expr := Expr) jwt maps filters genuine received (mkGateway auth filters w) →
  Proxy.Start w = (None, w') → fresh_gateway (Expr := Expr) jwt maps filters genuine received (mkGateway auth filters w').
Proof.
  intros (H1&H2&H3&H4&H5) Hs. destruct (Start_world (admitted (Expr := Expr) jwt maps filters genuine received) w H4) as [Hok Hsent].
  rewrite Hs in Hok, Hsent. cbn in *. split_and!; try done. by rewrite <- Hsent in H5.
Qed.

(** The cluster that initializeMemberlist leaves runs, its leadership is
    watched by one goroutine, and it knows its Raft manager. *)
Lemma initializeMemberlist_spec su cfg (rs : RaftStorage.RaftStorage R) :
  match initializeMemberlist su cfg rs with
  | Returned (Goes c) => Memberlist.flagsOf c = (true, true, 1%nat)
  | Returned (Exit code) => code = 1%Z
  | Panicked _ => panickingDiscovery cfg
  end.
Proof.
  unfold initializeMemberlist. destruct (ConvertBindToAdvertiseAddress _ _) as [addr|err]; [|done].
  cbn [orExit pbind]. destruct (Memberlist.NewMemberlistServiceWithMetadata _ _ _ _ _ _) as [created rs'] eqn:En.
  destruct created as [ms|err]; [|done]. cbn [orExit pbind].
  assert (Memberlist.flagsOf (ms, rs') = (false, true, 0%nat) ∧ Memberlist.ms_discovery ms = None) as [Hf Hd].
  { unfold Memberlist.NewMemberlistServiceWithMetadata in En. destruct (Memberlist.applyConfig _ _); [|done].
    destruct (su_create su _) as [created events]. destruct (foldl _ _ _) as [d r]. by destruct created; simplify_eq. }
  injection Hf as Hr Hh Hm. simpl in Hr, Hh, Hm.
  set (ms' := if ds_Enabled _ then _ else _).
  assert (Memberlist.flagsOf (ms', rs') = (false, true, 0%nat) ∧
    ∀ d, Memberlist.ms_discovery ms' = Some d → Discovery.sv_config d = cl_Discovery (cf_Cluster cfg)) as [Hf' Hd'].
  { subst ms'. unfold Memberlist.flagsOf. destruct (ds_Enabled _); simpl; rewrite Hr, Hh, Hm; split; try done.
    - by intros d [= <-].
    - by rewrite Hd. }
  injection Hf' as Hr' Hh' Hm'. simpl in Hr', Hh', Hm'.
  pose proof (Memberlist.Start_fresh (su_ParseIP su) (su_IPString su) (ms', rs') (su_mdns su) (su_found su) Hr') as Hs.
  destruct (Memberlist.Start _ _ _ _ _) as [[err c]|why]; cbn [obind].
  - destruct Hs as [-> Hc]. simpl in Hc. rewrite Hh', Hm' in Hc.
    case_bool_decide; [exact Hc|]. by rewrite Memberlist.Join_flags.
  - destruct Hs as (d&Hsome&H). simpl in Hsome. by rewrite (Hd' d Hsome) in H.
Qed.

(** C35: When the configuration loads, and neither the version nor a validation is asked
    for, main starts a fresh gateway with running health checks, over the local storage,
    the Redis storage or, for Raft, a running cluster with one leadership monitor; it
    exits (with 1) only for Raft, or for Redis when the server does not answer, and panics
    only for a Raft cluster whose enabled discovery names static peers without their
    section. *)
Theorem valid_configuration_starts su fl cfg genuine received :
  fl_version fl = false → fl_validate fl = false →
  LoadConfig (V := V) (su_parseError su) (fl_config fl) = Ok cfg →
  (Z.of_nat (length (px_Upstreams (cf_Proxy cfg))) ≤ max_int32)%Z →
  match main (P := P) (V := V) su fl with
  | Returned (Goes app) =>
      fresh_gateway (Expr := Expr) (cf_Auth cfg) (tc_Mappings (cf_Tenants cfg)) (tc_Filter (cf_Tenants cfg))
        genuine received (app_gateway app) ∧
      Health.running (es_healthChecker (w_service (gw_world (app_gateway app)))) = true ∧
      match app_state app with
      | Alone (LocalS s) => sg_Type (cf_Storage cfg) = "local" ∧ s = LocalStorage.NewLocalStorage (md_NodeID (cf_Metadata cfg))
      | Alone (RedisS s) => sg_Type (cf_Storage cfg) = "redis"
      | Alone (RaftS _) => False
      | Clustered c => sg_Type (cf_Storage cfg) = "raft" ∧ Memberlist.flagsOf c = (true, true, 1%nat)
      end
  | Returned (Exit code) =>
      code = 1%Z ∧
      (sg_Type (cf_Storage cfg) = "raft" ∨
       sg_Type (cf_Storage cfg) = "redis" ∧
       let client := su_connect su (RedisStorage.withDefaults (redisStorageConfig (sg_Redis (cf_Storage cfg)))) in
       ∃ err, RedisStorage.rd_Ping client = Some err ∨ RedisStorage.rd_Subscribe client = Some err)
  | Panicked _ => sg_Type (cf_Storage cfg) = "raft" ∧ panickingDiscovery cfg
  end.
Proof.
  intros Hver Hval Hload Hlen. pose proof (LoadConfig_inv _ _ _ Hload) as [_ Hv]. unfold main. rewrite Hver, Hload. cbn [orExit pbind]. rewrite Hval.
  set (cfg' := overrideLevel cfg (fl_logLevel fl)).
  assert (cf_Auth cfg' = cf_Auth cfg ∧ cf_Tenants cfg' = cf_Tenants cfg ∧ cf_Storage cfg' = cf_Storage cfg ∧
    cf_Proxy cfg' = cf_Proxy cfg ∧ cf_Metadata cfg' = cf_Metadata cfg ∧ cf_Cluster cfg' = cf_Cluster cfg) as (Ea&Et&Es&Ep&Em&Ec).
  { subst cfg'. unfold overrideLevel. by case_match. }
  destruct (Metrics.NewService_ok (P := P)) as (ms&Hms&_). rewrite Hms. cbn [obind].
  destruct (validated_gateway (Expr := Expr) (su_parseError su) cfg genuine received (su_now su) Hv Hlen)
    as (auth&s&Hauth&Hs&Hfresh&_&_&Hcl&_).
  rewrite Ea, Et, Hauth. cbn [orExit pbind].
  assert (usable_proxy (cf_Proxy cfg) ∧ StorageConfig_Validate (cf_Storage cfg) = None) as [Hup Hst].
  { destruct (Config_usable _ _ Hv) as (_&Hup&_). split; [exact Hup|].
    unfold Config_Validate in Hv. autorewrite with vpa in Hv. tauto. }
  destruct (proxy_Start_fresh _ _ _ Hs Hup Hcl) as (w&Hw&Hrun).
  assert (fresh_gateway (Expr := Expr) (cf_Auth cfg) (tc_Mappings (cf_Tenants cfg)) (tc_Filter (cf_Tenants cfg))
    genuine received (mkGateway auth (tc_Filter (cf_Tenants cfg)) w)) as Hfresh' by (by eapply started_is_fresh).
  unfold IsClusterEnabled. rewrite Es, Ep, Em, Hs.
  apply StorageConfig_cross in Hst as [[Ht Ha]|[(Ht&_)|Ht]];
    unfold createStateStorageConfig; rewrite Ht; simpl; unfold NewStateStorage; simpl.
  - unfold RedisStorage.NewRedisStorage. simpl. rewrite (proj2 (String.eqb_neq _ _) Ha).
    destruct (RedisStorage.rd_Ping _) eqn:Epi; [simpl; eauto 6|].
    destruct (RedisStorage.rd_Subscribe _) eqn:Esu; [simpl; eauto 6|]. cbn [orExit pbind obind]. by rewrite Hw.
  - pose proof (NewRaftStorage_shape (raftStorageConfig (sg_Raft (cf_Storage cfg)) (md_NodeID (cf_Metadata cfg)))
      (su_openings su)) as Hf.
    destruct (RaftStorage.NewRaftStorage _ _) as [[[rs|err] ?]|why]; [|by split; [|left]|done]. cbn [orExit pbind obind].
    pose proof (initializeMemberlist_spec su cfg' rs) as Hi. unfold panickingDiscovery in Hi. rewrite Ec in Hi.
    destruct (initializeMemberlist su cfg' rs) as [[code|c]|why]; cbn [pbind obind orExit]; [by subst; split; [|left]| |done].
    by rewrite Hw.
  - by rewrite Hw.
Qed.
End Startup.

(** The readiness path answers that all is well, whatever the backends are:
    Readiness is not reached. *)
Lemma ready_is_never_unready {HJ : Auth.JWT} {Expr} `{PromQL Expr} {R Q L P : Type}
    `{HR : RaftStorage.RaftLib R, HQ : RedisStorage.RedisLib Q, HG : Memberlist.Gossip L} {HP : Metrics.Prometheus P}
    version timestamp env (app : Application (R := R) (Q := Q) (L := L) (P := P)) r answer c :
  Method r = "GET" → Path r = "/ready" →
  handle (Expr := Expr) version timestamp env app r "/ready" answer c
    = HealthReply (writeJSON StatusOK (HealthObject "healthy" timestamp version)).
Proof. intros Hm Hp. unfold handle. by rewrite Hm, Hp. Qed.

(** The metrics are always at /metrics: the configured path changes no
    route. *)
Lemma metrics_path_is_not_used cfg m method escaped path :
  mc_Enabled m = mc_Enabled (cf_Metrics cfg) →
  route (mkConfig (cf_Metadata cfg) (cf_Logging cfg) m (cf_Server cfg) (cf_Proxy cfg) (cf_Auth cfg) (cf_Tenants cfg)
           (cf_Storage cfg) (cf_Cluster cfg)) method escaped path = route cfg method escaped path.
Proof. intros Hm. unfold route. simpl. by rewrite Hm. Qed.

(* ------------------------------------------------------------------ *)
(** ** A start *)

#[local] Existing Instances Auth.toyJWT.

Definition sampleSurroundings : surroundings (R := RaftStorage.soloRaft) (Q := RedisStorage.toyRedis) (L := Memberlist.toyGossip) :=
  mkSurroundings (λ _, None) (λ _, RedisStorage.mkToyRedis ∅ []) RaftStorage.allOpened (Ok (Some [10; 0; 0; 1]%N))
    Memberlist.sampleMlConfig (Memberlist.sampleCreate []) [] (λ _, None) (λ _, "") Discovery.noEnv (λ _, []) 0.

Lemma valid_configuration_starts_witness :
  match main (P := Metrics.registryView) (V := toyViper) sampleSurroundings (mkFlags "config.yaml" false "debug" false) with
  | Returned (Goes app) =>
      Health.running (es_healthChecker (w_service (gw_world (app_gateway app)))) = true ∧
      app_state app = Alone (LocalS (LocalStorage.NewLocalStorage (md_NodeID (cf_Metadata completed))))
  | _ => False
  end.
Proof.
  pose proof (valid_configuration_starts (Expr := toyExpr) (P := Metrics.registryView) (V := toyViper) sampleSurroundings
    (mkFlags "config.yaml" false "debug" false) completed (λ _, True) (λ _, True) eq_refl eq_refl) as H.
  assert (LoadConfig (V := toyViper) (su_parseError sampleSurroundings) "config.yaml" = Ok completed) as Hload
    by (vm_compute; reflexivity).
  specialize (H Hload). clear Hload. specialize (H ltac:(vm_compute; congruence)).
  destruct (main _ _) as [[code|app]|why].
  - destruct H as [_ [H|[H _]]]; discriminate H.
  - destruct H as (_&Hr&Hs). split; [exact Hr|].
    destruct (app_state app) as [[s|s|s]|c]; [by destruct Hs as [_ ->]|discriminate Hs|done|by destruct Hs].
  - destruct H as [H _]. discriminate H.
Defined.
