(* ===== verification/Services.v ===== *)
(** * Services: the service interfaces of internal/domain/types.go

    A handler holds interface values. What it does with them is a program
    over their calls: [prog]. What an implementation answers is not fixed
    here; [does] lets every call answer anything, [run] asks an
    implementation, which may panic or not return. *)

From S2P Require Import Prelude GoStd Errors Domain Http Proxy.
Local Open Scope vpa_scope.

(* ------------------------------------------------------------------ *)
(** ** Calls of the interfaces *)

(** AuthService, AccessControlService, TenantService, ProxyService and
    MetricsService, as far as handlers call them, and the request's body. *)
Inductive call :=
| Authenticate (token : string)
| CanAccess (user : option User) (path method : string)
| FilterQuery (user : User) (query : string)
| CanAccessTenant (user : User) (tenantID : string)
| DetermineTargetTenant (user : User) (r : Request)
| Forward (req : ProxyRequest)
| Record_ (m : metricCall)
| ReadBody (r : Request)
| RestoreBody (r : Request) (content : string).

Definition answer (c : call) : Type :=
  match c with
  | Authenticate _ => result User
  | CanAccess _ _ _ => option goError
  | FilterQuery _ _ | DetermineTargetTenant _ _ => result string
  | CanAccessTenant _ _ => bool
  | Forward _ => result ProxyResponse
  | ReadBody _ => string * option string
  | Record_ _ | RestoreBody _ _ => unit
  end.

(** A call together with its answer. *)
Inductive event :=
| Authenticated (token : string) (user : result User)
| AccessChecked (user : option User) (path method : string) (err : option goError)
| Filtered (user : User) (query : string) (filtered : result string)
| TenantChecked (user : User) (tenantID : string) (allowed : bool)
| Determined (user : User) (r : Request) (tenant : result string)
| Forwarded (req : ProxyRequest) (response : result ProxyResponse)
| Recorded (m : metricCall)
| BodyRead (r : Request) (content : string * option string)
| BodyRestored (r : Request) (content : string).

Definition answered (c : call) : answer c → event :=
  match c with
  | Authenticate token => Authenticated token
  | CanAccess user path method => AccessChecked user path method
  | FilterQuery user query => Filtered user query
  | CanAccessTenant user tenantID => TenantChecked user tenantID
  | DetermineTargetTenant user r => Determined user r
  | Forward req => Forwarded req
  | Record_ m => λ _, Recorded m
  | ReadBody r => BodyRead r
  | RestoreBody r content => λ _, BodyRestored r content
  end.

(* ------------------------------------------------------------------ *)
(** ** Programs over the calls *)

Inductive prog (A : Type) :=
| Ret (a : A)
| Call (c : call) (k : answer c → prog A).
Arguments Ret {A} a.
Arguments Call {A} c k.

Fixpoint bind {A B} (p : prog A) (k : A → prog B) : prog B :=
  match p with
  | Ret a => k a
  | Call c k' => Call c (λ x, bind (k' x) k)
  end.

Definition ask (c : call) : prog (answer c) := Call c Ret.

Notation "'let!' x <- p ; k" := (bind p (λ x, k))
  (at level 10, x pattern, p at level 100, k at level 200) : vpa_scope.

(** [does p es p']: after the calls and answers [es] the rest of [p] is
    [p']. *)
Fixpoint does {A} (p : prog A) (es : list event) (p' : prog A) : Prop :=
  (es = [] ∧ p' = p) ∨
  match p with
  | Ret _ => False
  | Call c k => ∃ x es', es = answered c x :: es' ∧ does (k x) es' p'
  end.

Definition finishes {A} (p : prog A) (es : list event) (a : A) : Prop := does p es (Ret a).

(** The call a program waits for. *)
Definition asks {A} (p : prog A) (c : call) : Prop := match p with Call c' _ => c' = c | Ret _ => False end.

(** It issues the call after [es]; whether the call returns is left open. *)
Definition issues {A} (p : prog A) (es : list event) (c : call) : Prop := ∃ q, does p es q ∧ asks q c.

Lemma finishes_ret {A} (a : A) es b : finishes (Ret a) es b ↔ es = [] ∧ b = a.
Proof. unfold finishes. simpl. naive_solver. Qed.

Lemma finishes_call {A} c (k : answer c → prog A) es a :
  finishes (Call c k) es a ↔ ∃ x es', es = answered c x :: es' ∧ finishes (k x) es' a.
Proof. unfold finishes. simpl. naive_solver. Qed.

Lemma issues_ret {A} (a : A) es c : ¬ issues (Ret a) es c.
Proof. unfold issues. simpl. naive_solver. Qed.

Lemma issues_call {A} c (k : answer c → prog A) es c' :
  issues (Call c k) es c' ↔
    (es = [] ∧ c' = c) ∨ ∃ x es', es = answered c x :: es' ∧ issues (k x) es' c'.
Proof. unfold issues. simpl. naive_solver. Qed.

(** A sequence has finished its first part before the second one starts. *)
Lemma finishes_bind {A B} (p : prog A) (k : A → prog B) es b :
  finishes (bind p k) es b ↔ ∃ es1 es2 a, es = es1 ++ es2 ∧ finishes p es1 a ∧ finishes (k a) es2 b.
Proof.
  revert es. induction p as [a|c k' IH]; intros es; simpl.
  - split; [intros H; exists [], es, a; by rewrite finishes_ret|].
    by intros (es1&es2&a'&->&[-> ->]%finishes_ret&H).
  - rewrite finishes_call. split.
    + intros (x&es'&->&(es1&es2&a&->&H1&H2)%IH). exists (answered c x :: es1), es2, a.
      split; [done|]. rewrite finishes_call. eauto.
    + intros (es1&es2&a&->&(x&es'&->&H1)%finishes_call&H2). exists x, (es' ++ es2). split; [done|].
      apply IH. eauto 6.
Qed.

Lemma issues_bind {A B} (p : prog A) (k : A → prog B) es c :
  issues (bind p k) es c ↔
    issues p es c ∨ ∃ es1 es2 a, es = es1 ++ es2 ∧ finishes p es1 a ∧ issues (k a) es2 c.
Proof.
  revert es. induction p as [a|c' k' IH]; intros es; simpl.
  - split; [intros H; right; exists [], es, a; by rewrite finishes_ret|].
    by intros [[]%issues_ret|(es1&es2&a'&->&[-> ->]%finishes_ret&H)].
  - rewrite !issues_call. split.
    + intros [[-> ->]|(x&es'&->&[H|(es1&es2&a&->&H1&H2)]%IH)]; [by left; left|left; right; eauto|right].
      exists (answered c' x :: es1), es2, a. split; [done|]. rewrite finishes_call. eauto.
    + intros [[[-> ->]|(x&es'&->&H)]|(es1&es2&a&->&(x&es'&->&H1)%finishes_call&H2)]; [by left|right..].
      * exists x, es'. split; [done|]. apply IH. by left.
      * exists x, (es' ++ es2). split; [done|]. apply IH. right. eauto 6.
Qed.

(** [bind] with a single call. *)
Lemma finishes_ask {B} c (k : answer c → prog B) es b :
  finishes (bind (ask c) k) es b ↔ ∃ x es', es = answered c x :: es' ∧ finishes (k x) es' b.
Proof. apply finishes_call. Qed.

Lemma issues_ask {B} c (k : answer c → prog B) es c' :
  issues (bind (ask c) k) es c' ↔
    (es = [] ∧ c' = c) ∨ ∃ x es', es = answered c x :: es' ∧ issues (k x) es' c'.
Proof. apply issues_call. Qed.

(* ------------------------------------------------------------------ *)
(** ** Implementations *)

(** The answer of every call in a state [W]; [None] is a call that does not
    return. *)
Definition services (W : Type) : Type := ∀ c : call, W → option (outcome (answer c) * W).

Fixpoint run {A W} (on : services W) (p : prog A) (w : W) : option (outcome A * W) :=
  match p with
  | Ret a => Some (Returned a, w)
  | Call c k =>
      match on c w with
      | None => None
      | Some (Panicked why, w) => Some (Panicked why, w)
      | Some (Returned x, w) => run on (k x) w
      end
  end.

Lemma run_bind {A B W} (on : services W) (p : prog A) (k : A → prog B) w :
  run on (bind p k) w =
    match run on p w with
    | None => None
    | Some (Panicked why, w) => Some (Panicked why, w)
    | Some (Returned a, w) => run on (k a) w
    end.
Proof.
  revert w. induction p as [a|c k' IH]; intros w; simpl; [done|].
  destruct (on c w) as [[[x|why] w']|]; [apply IH|done..].
Qed.

(** The states between the calls of a run. *)
Inductive chain {W} (on : services W) : W → list event → W → Prop :=
| chain_nil w : chain on w [] w
| chain_cons c x w w' es w'' :
    on c w = Some (Returned x, w') → chain on w' es w'' → chain on w (answered c x :: es) w''.

(** What a run does is among the things the program may do: what holds of all
    of them holds of every implementation. *)
Lemma run_finishes {A W} (on : services W) (p : prog A) w a w' :
  run on p w = Some (Returned a, w') → ∃ es, finishes p es a ∧ chain on w es w'.
Proof.
  revert w. induction p as [b|c k IH]; intros w; simpl.
  - intros [= <- <-]. exists []. split; [by apply finishes_ret|constructor].
  - destruct (on c w) as [[[x|why] w1]|] eqn:E; [|done..]. intros (es&Hf&Hc)%IH.
    exists (answered c x :: es). rewrite finishes_call. split; [eauto|]. by econstructor.
Qed.

(** A run that panics or does not return does so in a call it issues. *)
Lemma run_stuck {A W} (on : services W) (p : prog A) w :
  (∀ a w', run on p w ≠ Some (Returned a, w')) →
  ∃ es c w1, issues p es c ∧ chain on w es w1 ∧ ∀ x w2, on c w1 ≠ Some (Returned x, w2).
Proof.
  revert w. induction p as [b|c k IH]; intros w Hr; simpl in Hr; [by destruct (Hr b w)|].
  destruct (on c w) as [[[x|why] w1]|] eqn:E.
  - destruct (IH x w1 Hr) as (es&c'&w2&Hi&Hch&Hno). exists (answered c x :: es), c', w2.
    rewrite issues_call. split_and!; [eauto|by econstructor|done].
  - exists [], c, w. rewrite issues_call. split_and!; [auto|constructor|by rewrite E].
  - exists [], c, w. rewrite issues_call. split_and!; [auto|constructor|by rewrite E].
Qed.
