(* ===== verification/Handler.v ===== *)
(** * Handler: internal/handlers/gateway.go against the service interfaces

    The handler as a program over the calls of its interfaces, whatever the
    implementations are: nothing is forwarded that the authentication, the
    access control and the tenant service of the very request have not passed,
    and every answer is recorded. With the program's own services it is the
    handler of Gateway. *)

From S2P Require Import Prelude GoStd Errors Domain LoadBalancer Http Config Tenant Access Proxy Services Gateway.
From S2P Require Auth.
Local Open Scope vpa_scope.

(* ------------------------------------------------------------------ *)
(** ** The handler *)

(** Whether the handler has a metrics service. *)
Section Handler.
Context (metricsService : bool).

Definition recordMetrics (r : Request) (status : string) (user : option User) : prog () :=
  if metricsService then ask (Record_ (RecordRequest (Method r) (Path r) status user)) else Ret ().

Definition extractQuery (r : Request) : prog string :=
  let query := Values_Get (ParseQuery (RawQuery r)).1 "query" in
  if str_nonempty query then Ret query
  else if String.eqb (Method r) "POST"
          && contains (Header_Get (rHeader r) "Content-Type") "application/x-www-form-urlencoded"
  then
    let! (bodyBytes, err) <- ask (ReadBody r);
    match err with
    | Some _ => Ret ""
    | None =>
        let! _ <- ask (RestoreBody r bodyBytes);
        let '(bodyValues, bad) := ParseQuery bodyBytes in
        Ret (if bad then "" else Values_Get bodyValues "query")
    end
  else Ret "".

Definition processQueryFiltering (r : Request) (user : User) : prog (result string) :=
  if negb (isQueryEndpoint (Path r)) then Ret (Ok "")
  else
    let! originalQuery <- extractQuery r;
    if String.eqb originalQuery "" then Ret (Ok "") else ask (FilterQuery user originalQuery).

Definition processTargetTenant (r : Request) (user : User) : prog (result string) :=
  if negb (isWriteEndpoint (Path r) (Method r)) then Ret (Ok "") else ask (DetermineTargetTenant user r).

(** An error response ends the request. *)
Definition fail (r : Request) (user : option User) (resp : written * string) : prog written :=
  let! _ <- recordMetrics r resp.2 user; Ret resp.1.

Definition handleProcessingError (r : Request) (err : goError) (user : User) : prog written :=
  fail r (Some user) (errorResponse err ErrForbidden "403").

Definition processRequest (r : Request) (user : User) : prog written :=
  let! filteredQuery <- processQueryFiltering r user;
  match filteredQuery with
  | Err err => handleProcessingError r err user
  | Ok filteredQuery =>
      let! targetTenant <- processTargetTenant r user;
      match targetTenant with
      | Err err => handleProcessingError r err user
      | Ok targetTenant =>
          let! response <- ask (Forward (mkProxyRequest user r filteredQuery targetTenant));
          match response with
          | Err err => fail r (Some user) (errorResponse err ErrUpstreamUnavailable "502")
          | Ok response =>
              let! _ <- recordMetrics r (itoa (rs_StatusCode response)) (Some user);
              Ret (writeResponse response)
          end
      end
  end.

Definition ServeHTTP (r : Request) : prog written :=
  let token := extractToken r in
  if String.eqb token "" then fail r None (writeError ErrUnauthorized, "401")
  else
    let! auth <- ask (Authenticate token);
    match auth with
    | Err err => fail r None (errorResponse err ErrUnauthorized "401")
    | Ok user =>
        let! accessErr <- ask (CanAccess (Some user) (Path r) (Method r));
        match accessErr with
        | Some accessErr => fail r (Some user) (errorResponse accessErr ErrForbidden "403")
        | None => processRequest r user
        end
    end.

(* ------------------------------------------------------------------ *)
(** ** What each part does *)

(** The body's events of reading a query out of a form. *)
Definition isBodyEvent (e : event) : Prop :=
  match e with BodyRead _ _ | BodyRestored _ _ => True | _ => False end.

(** What the query filtering did to arrive at the filtered query. *)
Inductive filtering (r : Request) (user : User) : list event → string → Prop :=
| no_query_endpoint : isQueryEndpoint (Path r) = false → filtering r user [] ""
| no_query es :
    isQueryEndpoint (Path r) = true → finishes (extractQuery r) es "" → Forall isBodyEvent es →
    filtering r user es ""
| query_filtered es query filteredQuery :
    isQueryEndpoint (Path r) = true → query ≠ "" → finishes (extractQuery r) es query → Forall isBodyEvent es →
    filtering r user (es ++ [Filtered user query (Ok filteredQuery)]) filteredQuery.

(** What the choice of the tenant did to arrive at the tenant. *)
Inductive targeting (r : Request) (user : User) : list event → string → Prop :=
| no_write_endpoint : isWriteEndpoint (Path r) (Method r) = false → targeting r user [] ""
| tenant_determined tenant :
    isWriteEndpoint (Path r) (Method r) = true → targeting r user [Determined user r (Ok tenant)] tenant.

Lemma recordMetrics_only r status user es u :
  finishes (recordMetrics r status user) es u →
  es = if metricsService then [Recorded (RecordRequest (Method r) (Path r) status user)] else [].
Proof.
  unfold recordMetrics. destruct metricsService.
  - by intros ([]&es'&->&[-> _]%finishes_ret)%finishes_call.
  - by intros [-> _]%finishes_ret.
Qed.

Lemma recordMetrics_forwards r status user es req : ¬ issues (recordMetrics r status user) es (Forward req).
Proof.
  unfold recordMetrics. destruct metricsService; [|apply issues_ret].
  by intros [[_ ?]|(x&es'&->&[]%issues_ret)]%issues_call.
Qed.

Lemma fail_forwards r user resp es req : ¬ issues (fail r user resp) es (Forward req).
Proof.
  by intros [?%recordMetrics_forwards|(es1&es2&u&->&_&[]%issues_ret)]%issues_bind.
Qed.

Lemma extractQuery_events r es query :
  finishes (extractQuery r) es query → Forall isBodyEvent es.
Proof.
  unfold extractQuery. case_match; [intros [-> _]%finishes_ret; constructor|].
  case_match; [|intros [-> _]%finishes_ret; constructor].
  intros ([bodyBytes err]&es'&->&Hf)%finishes_ask. constructor; [done|].
  destruct err; [apply finishes_ret in Hf as [-> _]; constructor|].
  apply finishes_ask in Hf as (u&es''&->&Hf). constructor; [done|].
  destruct (ParseQuery bodyBytes). apply finishes_ret in Hf as [-> _]. constructor.
Qed.

Lemma extractQuery_forwards r es req : ¬ issues (extractQuery r) es (Forward req).
Proof.
  unfold extractQuery. case_match; [apply issues_ret|]. case_match; [|apply issues_ret].
  intros [[_ ?]|([bodyBytes err]&es'&->&Hf)]%issues_ask; [done|].
  destruct err; [by apply issues_ret in Hf|].
  apply issues_ask in Hf as [[_ ?]|(u&es''&->&Hf)]; [done|].
  destruct (ParseQuery bodyBytes). by apply issues_ret in Hf.
Qed.

Lemma processQueryFiltering_forwards r user es req : ¬ issues (processQueryFiltering r user) es (Forward req).
Proof.
  unfold processQueryFiltering. case_match; [apply issues_ret|].
  intros [?%extractQuery_forwards|(es1&es2&q&->&_&Hi)]%issues_bind; [done|].
  case_match; [by apply issues_ret in Hi|].
  by apply issues_call in Hi as [[_ ?]|(x&es'&->&[]%issues_ret)].
Qed.

Lemma processQueryFiltering_ok r user es filteredQuery :
  finishes (processQueryFiltering r user) es (Ok filteredQuery) → filtering r user es filteredQuery.
Proof.
  unfold processQueryFiltering. destruct (isQueryEndpoint (Path r)) eqn:Hq; cbn [negb].
  - intros (es1&es2&q&->&H1&H2)%finishes_bind. pose proof (extractQuery_events _ _ _ H1) as Hb.
    destruct (String.eqb_spec q "") as [->|Hne].
    + apply finishes_ret in H2 as [-> [= ->]]. rewrite app_nil_r. by apply no_query.
    + apply finishes_call in H2 as (x&es'&->&[-> <-]%finishes_ret). by eapply query_filtered.
  - intros [-> [= ->]]%finishes_ret. by apply no_query_endpoint.
Qed.

Lemma processTargetTenant_forwards r user es req : ¬ issues (processTargetTenant r user) es (Forward req).
Proof.
  unfold processTargetTenant. case_match; [apply issues_ret|].
  by intros [[_ ?]|(x&es'&->&[]%issues_ret)]%issues_call.
Qed.

Lemma processTargetTenant_ok r user es tenant :
  finishes (processTargetTenant r user) es (Ok tenant) → targeting r user es tenant.
Proof.
  unfold processTargetTenant. destruct (isWriteEndpoint _ _) eqn:Hw; cbn [negb].
  - intros (x&es'&->&[-> <-]%finishes_ret)%finishes_call. by apply tenant_determined.
  - intros [-> [= ->]]%finishes_ret. by apply no_write_endpoint.
Qed.

Lemma processRequest_forwards r user es req :
  issues (processRequest r user) es (Forward req) →
  ∃ es1 es2 filteredQuery targetTenant,
    es = es1 ++ es2 ∧ filtering r user es1 filteredQuery ∧ targeting r user es2 targetTenant ∧
    req = mkProxyRequest user r filteredQuery targetTenant.
Proof.
  intros [?%processQueryFiltering_forwards|(es1&es2&[fq|err]&->&Hf&Hi)]%issues_bind; [done| |by apply fail_forwards in Hi].
  apply issues_bind in Hi as [?%processTargetTenant_forwards|(es3&es4&[tt|err]&->&Ht&Hi)]; [done| |by apply fail_forwards in Hi].
  apply issues_ask in Hi as [[-> [= ->]]|([resp|err]&es'&->&Hi)]; [| |by apply fail_forwards in Hi].
  - exists es1, es3, fq, tt. rewrite app_nil_r. split_and!; [done| | |done].
    + by apply processQueryFiltering_ok.
    + by apply processTargetTenant_ok.
  - apply issues_bind in Hi as [?%recordMetrics_forwards|(?&?&?&_&_&[]%issues_ret)]. done.
Qed.

(** C3: Whatever the services answer, the handler calls Forward only after Authenticate
    accepted the token of this request and CanAccess allowed that user this path and
    method; what it forwards is that user, this request, for a query endpoint with a query
    the answer of FilterQuery for that user and query (otherwise no query), and for a
    write endpoint the answer of DetermineTargetTenant for that user (otherwise no
    tenant); nothing else happens before. *)
Theorem complete_mediation r es req :
  issues (ServeHTTP r) es (Forward req) →
  ∃ user es1 es2 filteredQuery targetTenant,
    extractToken r ≠ "" ∧ req = mkProxyRequest user r filteredQuery targetTenant ∧
    es = [Authenticated (extractToken r) (Ok user); AccessChecked (Some user) (Path r) (Method r) None] ++ es1 ++ es2 ∧
    filtering r user es1 filteredQuery ∧ targeting r user es2 targetTenant.
Proof.
  unfold ServeHTTP. destruct (String.eqb_spec (extractToken r) "") as [_|Hne]; [by intros ?%fail_forwards|].
  intros [[_ ?]|([user|err]&es'&->&Hi)]%issues_ask; [done| |by apply fail_forwards in Hi].
  apply issues_ask in Hi as [[_ ?]|([err|]&es''&->&Hi)]; [done|by apply fail_forwards in Hi|].
  apply processRequest_forwards in Hi as (es1&es2&fq&tt&->&Hf&Ht&->).
  exists user, es1, es2, fq, tt. by split_and!.
Qed.
End Handler.

(* ------------------------------------------------------------------ *)
(** ** The answer is recorded *)

Definition isForwarded (e : event) : bool := match e with Forwarded _ _ => true | _ => false end.
Definition isOuter (e : event) : bool := match e with Recorded _ | Authenticated _ _ => true | _ => false end.

(** Events between the authentication and the record: at most [n] requests
    forwarded. *)
Definition before (n : nat) (es : list event) : Prop :=
  Forall (λ e, isOuter e = false) es ∧ (length (filter (λ e, isForwarded e = true) es) ≤ n)%nat.

Lemma before_app n m es es' : before n es → before m es' → before (n + m) (es ++ es').
Proof.
  intros [H1 H2] [H3 H4]. split; [by apply Forall_app|]. rewrite filter_app, length_app. lia.
Qed.

Lemma before_one e : isOuter e = false → before (if isForwarded e then 1 else 0) [e].
Proof. intros He. split; [by constructor|]. rewrite filter_cons, filter_nil. by destruct (isForwarded e). Qed.

Lemma bodyEvents_before es : Forall isBodyEvent es → before 0 es.
Proof.
  induction 1 as [|e es He _ IH]; [by split; [constructor|]|].
  change (e :: es) with ([e] ++ es). change 0%nat with (0 + 0)%nat. apply before_app; [|done].
  destruct e; try done; by apply before_one.
Qed.

(** The last event records the status that was written. *)
Definition recordedAs (r : Request) (n : nat) (es : list event) (out : written) : Prop :=
  ∃ es' user, es = es' ++ [Recorded (RecordRequest (Method r) (Path r) (itoa (wr_Status out)) user)] ∧ before n es'.

Lemma recordedAs_before r n m es es' out : before n es → recordedAs r m es' out → recordedAs r (n + m) (es ++ es') out.
Proof.
  intros Hb (es1&user&->&Hb'). exists (es ++ es1), user. rewrite app_assoc. split; [done|]. by apply before_app.
Qed.

Lemma fail_recorded r user resp es out :
  resp.2 = itoa (wr_Status resp.1) → finishes (fail true r user resp) es out → recordedAs r 0 es out.
Proof.
  intros Hr (es1&es2&u&->&H1%recordMetrics_only&[-> ->]%finishes_ret)%finishes_bind.
  exists [], user. rewrite app_nil_r, H1, <- Hr. split; [done|]. by split; [constructor|].
Qed.

Lemma errorResponse_status err otherwise status :
  status = itoa (HTTPStatus otherwise) →
  (errorResponse err otherwise status).2 = itoa (wr_Status (errorResponse err otherwise status).1).
Proof. intros ->. unfold errorResponse. by destruct (errors_As err). Qed.

Lemma processQueryFiltering_before r user es res : finishes (processQueryFiltering r user) es res → before 0 es.
Proof.
  unfold processQueryFiltering. case_match; [intros [-> _]%finishes_ret; by split; [constructor|]|].
  intros (es1&es2&q&->&H1&H2)%finishes_bind. change 0%nat with (0 + 0)%nat. apply before_app.
  - apply bodyEvents_before. by eapply extractQuery_events.
  - case_match; [apply finishes_ret in H2 as [-> _]; by split; [constructor|]|].
    apply finishes_call in H2 as (x&es'&->&[-> _]%finishes_ret). by apply before_one.
Qed.

Lemma processTargetTenant_before r user es res : finishes (processTargetTenant r user) es res → before 0 es.
Proof.
  unfold processTargetTenant. case_match; [intros [-> _]%finishes_ret; by split; [constructor|]|].
  intros (x&es'&->&[-> _]%finishes_ret)%finishes_call. by apply before_one.
Qed.

Lemma processRequest_recorded r user es out : finishes (processRequest true r user) es out → recordedAs r 1 es out.
Proof.
  intros (es1&es2&fq&->&H1%processQueryFiltering_before&H2)%finishes_bind.
  change 1%nat with (0 + 1)%nat. apply recordedAs_before; [done|].
  assert (∀ resp es out, resp.2 = itoa (wr_Status resp.1) → finishes (fail true r (Some user) resp) es out →
    recordedAs r 1 es out) as Hfail.
  { intros resp es' out' Hr (es3&u&->&Hb)%fail_recorded; [|done]. exists es3, u. split; [done|].
    destruct Hb. by split; [|lia]. }
  destruct fq as [fq|err]; [|apply Hfail in H2; [done|by apply errorResponse_status]].
  apply finishes_bind in H2 as (es3&es4&tt&->&H3%processTargetTenant_before&H4).
  change 1%nat with (0 + 1)%nat. apply recordedAs_before; [done|].
  destruct tt as [tt|err]; [|apply Hfail in H4; [done|by apply errorResponse_status]].
  apply finishes_ask in H4 as (resp&es5&->&H5). change (?e :: ?l) with ([e] ++ l). change 1%nat with (1 + 0)%nat.
  apply recordedAs_before; [by apply before_one|].
  destruct resp as [resp|err]; [|apply fail_recorded in H5; [done|by apply errorResponse_status]].
  apply finishes_bind in H5 as (es6&es7&u&->&H6%recordMetrics_only&[-> ->]%finishes_ret).
  exists [], (Some user). rewrite app_nil_r, H6. split; [done|]. by split; [constructor|].
Qed.

(** Whatever the services answer, a request with a token is authenticated
    once, first, and a request that is answered is recorded once, last, with
    the status that was written, and forwarded at most once. *)
Lemma answer_is_recorded_once r es out :
  finishes (ServeHTTP true r) es out →
  ∃ es', recordedAs r 1 es' out ∧
    (extractToken r = "" ∧ es = es' ∨
     extractToken r ≠ "" ∧ ∃ auth, es = Authenticated (extractToken r) auth :: es').
Proof.
  assert (∀ user resp es out, resp.2 = itoa (wr_Status resp.1) → finishes (fail true r user resp) es out →
    recordedAs r 1 es out) as Hfail.
  { intros user resp es' out' Hr (es3&u&->&Hb)%fail_recorded; [|done]. exists es3, u. split; [done|].
    destruct Hb. by split; [|lia]. }
  unfold ServeHTTP. destruct (String.eqb_spec (extractToken r) "") as [Ht|Ht]; [intros Hf%Hfail; [by eauto|done]|].
  intros (auth&es1&->&H1)%finishes_ask. exists es1. split; [|right; split; [done|by exists auth]].
  destruct auth as [user|err]; [|apply Hfail in H1; [done|by apply errorResponse_status]].
  apply finishes_ask in H1 as (acc&es2&->&H2). change (?e :: ?l) with ([e] ++ l). change 1%nat with (0 + 1)%nat.
  apply recordedAs_before; [by apply before_one|].
  destruct acc as [err|]; [apply Hfail in H2; [done|by apply errorResponse_status]|].
  by eapply processRequest_recorded.
Qed.

(* ------------------------------------------------------------------ *)
(** ** The program's services *)

Section Live.
Context {HJ : Auth.JWT} {Expr : Type} {HP : PromQL Expr}.
Context {LB : Type} `{HLB : LoadBalancer LB, !LoadBalancerSpec LB}.
Context (env : Env LB) (fetched : Auth.fetchResult) (c : Auth.Clock).

(** The services main gives the handler, on the state Gateway keeps. *)
Definition live : services (GatewayHandler (LB := LB)) := λ q h,
  match q with
  | Authenticate token =>
      let '(auth, service, calls) := Auth.Authenticate (gw_auth h) token fetched c in
      Some (Returned auth, mkGateway service (gw_tenants h) (recordAll (gw_world h) calls))
  | CanAccess user path method => Some (Returned (Access.CanAccess user path method), h)
  | FilterQuery user query =>
      match Tenant.FilterQuery (Expr := Expr) (gw_tenants h) user query with
      | Panicked why => Some (Panicked why, h)
      | Returned (filtered, calls) => Some (Returned filtered, withWorld h (recordAll (gw_world h) calls))
      end
  | CanAccessTenant user tenantID =>
      let '(allowed, calls) := Tenant.CanAccessTenant user tenantID in
      Some (Returned allowed, withWorld h (recordAll (gw_world h) calls))
  | DetermineTargetTenant user r =>
      let '(tenant, calls) := Tenant.DetermineTargetTenant user (rHeader r) in
      Some (Returned tenant, withWorld h (recordAll (gw_world h) calls))
  | Forward req =>
      match Proxy.Forward env (gw_world h) req with
      | None => None
      | Some (response, w) => Some (response, withWorld h w)
      end
  | Record_ m => Some (Returned (), withWorld h (record (gw_world h) m))
  | ReadBody r =>
      let '(content, err, bodies) := ReadAll (w_bodies (gw_world h)) (Body r) in
      Some (Returned (content, err), withWorld h (withBodies (gw_world h) bodies))
  | RestoreBody r content =>
      let w := gw_world h in
      Some (Returned (), withWorld h (withBodies w (<[Body r := mkReader content None]> (w_bodies w))))
  end.

Lemma run_fail h r user resp :
  run live (fail true r user resp) h =
    let '(out, w) := Gateway.fail (gw_world h) r user resp in Some (Returned out, withWorld h w).
Proof. done. Qed.

Lemma run_extractQuery h r :
  run live (extractQuery r) h =
    let '(query, bodies) := Gateway.extractQuery r (w_bodies (gw_world h)) in
    Some (Returned query, withWorld h (withBodies (gw_world h) bodies)).
Proof.
  assert (withWorld h (withBodies (gw_world h) (w_bodies (gw_world h))) = h) as Hid.
  { destruct h as [a t [s b n e cs l]]. done. }
  unfold extractQuery, Gateway.extractQuery. case_match; simpl; [by rewrite Hid|].
  case_match; simpl; [|by rewrite Hid].
  destruct (readErr _); simpl; [done|]. by destruct (ParseQuery (remaining _)) as [values []].
Qed.

Lemma run_processQueryFiltering h r user :
  run live (processQueryFiltering r user) h =
    let '(o, w) := Gateway.processQueryFiltering (Expr := Expr) (gw_tenants h) (gw_world h) r user in
    Some (o, withWorld h w).
Proof.
  unfold processQueryFiltering, Gateway.processQueryFiltering. case_match; [by destruct h|].
  rewrite run_bind, run_extractQuery. destruct (Gateway.extractQuery _ _) as [q bodies].
  case_match; [done|]. simpl. destruct (Tenant.FilterQuery _ _ _) as [[f calls]|]; done.
Qed.

Lemma run_processTargetTenant h r user :
  run live (processTargetTenant r user) h =
    let '(t, w) := Gateway.processTargetTenant (gw_world h) r user in Some (Returned t, withWorld h w).
Proof.
  unfold processTargetTenant, Gateway.processTargetTenant. case_match; [by destruct h|]. simpl.
  by destruct (Tenant.DetermineTargetTenant _ _).
Qed.

Lemma run_processRequest h r user :
  run live (processRequest true r user) h =
    match Gateway.processRequest (Expr := Expr) env (gw_tenants h) (gw_world h) r user with
    | None => None
    | Some (out, w) => Some (out, withWorld h w)
    end.
Proof.
  unfold processRequest, Gateway.processRequest. rewrite run_bind, run_processQueryFiltering.
  destruct (Gateway.processQueryFiltering _ _ _ _) as [[[fq|err]|why] w]; [|done..].
  rewrite run_bind, run_processTargetTenant. cbn [gw_world withWorld].
  destruct (Gateway.processTargetTenant _ _ _) as [[tt|err] w']; [|done].
  rewrite run_bind. simpl. by destruct (Proxy.Forward _ _ _) as [[[[resp|err]|why] w'']|].
Qed.

(** The handler written against the service interfaces, run with the authentication,
    access, tenant and proxy services of the program as the interfaces' implementations,
    is the gateway's handler: same answer, same state, same panics, for every request. *)
Theorem live_handler h r :
  run live (ServeHTTP true r) h = Gateway.ServeHTTP (Expr := Expr) env h r fetched c.
Proof.
  unfold ServeHTTP, Gateway.ServeHTTP. case_match; [done|]. rewrite run_bind. cbn [run ask live].
  destruct (Auth.Authenticate _ _ _ _) as [[[user|err] service] calls]; [|done].
  rewrite run_bind. cbn [run ask live]. destruct (Access.CanAccess _ _ _); [done|]. apply run_processRequest.
Qed.
End Live.

(* ------------------------------------------------------------------ *)
(** ** A request *)

Definition aUser : User := mkUser "u" "" "" ["team"] [] [mkVMTenant "1" "7"] false 0.
Definition aQuery : Request := mkRequest "GET" "/api/v1/query" "query=up" (Header_Set ∅ "Authorization" "Bearer t") 0.

Lemma complete_mediation_witness :
  let es := [Authenticated "t" (Ok aUser); AccessChecked (Some aUser) "/api/v1/query" "GET" None;
             Filtered aUser "up" (Ok "up{x=1}")] in
  issues (ServeHTTP true aQuery) es (Forward (mkProxyRequest aUser aQuery "up{x=1}" "")) ∧
  ∃ user es1 es2 filteredQuery targetTenant,
    filteredQuery = "up{x=1}" ∧ filtering aQuery user es1 filteredQuery ∧ targeting aQuery user es2 targetTenant.
Proof.
  intros es.
  assert (issues (ServeHTTP true aQuery) es (Forward (mkProxyRequest aUser aQuery "up{x=1}" ""))) as Hi.
  { eexists. split.
    - right. exists (Ok aUser). eexists. split; [reflexivity|].
      right. exists None. eexists. split; [reflexivity|].
      right. exists (Ok "up{x=1}"). eexists. split; [reflexivity|].
      left. by split.
    - reflexivity. }
  split; [exact Hi|].
  destruct (complete_mediation true aQuery es _ Hi) as (user&es1&es2&fq&tt&_&Hreq&_&Hf&Ht).
  exists user, es1, es2, fq, tt. by injection Hreq as <- <- <-.
Defined.
