(* ===== verification/Doubles.v ===== *)
(** * Doubles: the service doubles of internal/testutils/

    The implementations of the interfaces the tests use: what they answer and
    what they remember. The handler runs over them as it runs over the
    program's own services; the mock storage is the map without lifetimes that
    every storage agrees with. *)

From S2P Require Import Prelude GoStd Errors Domain LoadBalancer Http Storage Watch Proxy Services Gateway Handler.
From S2P Require Metrics LocalStorage Delegate.
Local Open Scope vpa_scope.

(* ------------------------------------------------------------------ *)
(** ** TestableMetricsCollector (mock_access.go) *)

Record RequestCall := mkRequestCall {
  rc_Method : string; rc_Path : string; rc_Status : string; rc_Duration : Z; rc_User : option User
}.
Record UpstreamCall := mkUpstreamCall {
  uc_Method : string; uc_Path : string; uc_Status : string; uc_Duration : Z; uc_Tenants : list string
}.
Record QueryFilterCall := mkQueryFilterCall {
  qf_UserID : string; qf_TenantCount : Z; qf_FilterApplied : bool; qf_Duration : Z
}.
Record AuthAttemptCall := mkAuthAttemptCall { ac_UserID : string; ac_Status : string }.
Record TenantAccessCall := mkTenantAccessCall { tc_UserID : string; tc_TenantID : string; tc_Allowed : bool }.

Record TestableMetricsCollector := mkCollector {
  RequestCalls : list RequestCall;
  UpstreamCalls : list UpstreamCall;
  QueryFilterCalls : list QueryFilterCall;
  AuthAttemptCalls : list AuthAttemptCall;
  TenantAccessCalls : list TenantAccessCall
}.

(** The collector's methods: five remember their arguments, the others do
    nothing. *)
Definition collect (t : TestableMetricsCollector) (c : Metrics.recordCall) : TestableMetricsCollector :=
  match c with
  | Metrics.Called (RecordRequest method path status user) duration =>
      mkCollector (RequestCalls t ++ [mkRequestCall method path status duration user])
        (UpstreamCalls t) (QueryFilterCalls t) (AuthAttemptCalls t) (TenantAccessCalls t)
  | Metrics.UpstreamCall method path status duration tenants =>
      mkCollector (RequestCalls t) (UpstreamCalls t ++ [mkUpstreamCall method path status duration tenants])
        (QueryFilterCalls t) (AuthAttemptCalls t) (TenantAccessCalls t)
  | Metrics.Called (RecordQueryFilter userID tenantCount filterApplied) duration =>
      mkCollector (RequestCalls t) (UpstreamCalls t)
        (QueryFilterCalls t ++ [mkQueryFilterCall userID tenantCount filterApplied duration])
        (AuthAttemptCalls t) (TenantAccessCalls t)
  | Metrics.Called (RecordAuthAttempt userID status) _ =>
      mkCollector (RequestCalls t) (UpstreamCalls t) (QueryFilterCalls t)
        (AuthAttemptCalls t ++ [mkAuthAttemptCall userID status]) (TenantAccessCalls t)
  | Metrics.Called (RecordTenantAccess userID tenantID allowed) _ =>
      mkCollector (RequestCalls t) (UpstreamCalls t) (QueryFilterCalls t) (AuthAttemptCalls t)
        (TenantAccessCalls t ++ [mkTenantAccessCall userID tenantID allowed])
  | _ => t
  end.

(* ------------------------------------------------------------------ *)
(** ** The doubles of the handler's services *)

Definition DefaultTestQueryFilterDuration : Z := 10 * Millisecond.
Definition DefaultTestUpstreamDuration : Z := 50 * Millisecond.

(** MockAccessService *)
Definition MockAccessService_CanAccess (err : option goError) (user : option User) (path method : string)
  : option goError := err.

(** A nil user without an error is dereferenced. *)
Record TestableAuthService := mkAuth { ta_User : option User; ta_Err : option goError }.

Definition TestableAuthService_Authenticate (m : TestableAuthService) (t : TestableMetricsCollector)
  : outcome (result User) * TestableMetricsCollector :=
  match ta_Err m with
  | Some err => (Returned (Err err), collect t (Metrics.Called (RecordAuthAttempt "unknown" "failed") 0))
  | None =>
      match ta_User m with
      | None => (Panicked "nil pointer dereference", t)
      | Some user => (Returned (Ok user), collect t (Metrics.Called (RecordAuthAttempt (user_ID user) "success") 0))
      end
  end.

Record TestableTenantService := mkTenant {
  tt_FilteredQuery : string; tt_CanAccess : bool; tt_TargetTenant : string; tt_Err : option goError
}.

Definition TestableTenantService_FilterQuery (m : TestableTenantService) (t : TestableMetricsCollector)
    (user : User) (query : string) : result string * TestableMetricsCollector :=
  let filterApplied := negb (String.eqb query (tt_FilteredQuery m)) in
  let t := collect t (Metrics.Called (RecordQueryFilter (user_ID user) (Z.of_nat (length (user_VMTenants user))) filterApplied)
                        DefaultTestQueryFilterDuration) in
  match tt_Err m with Some err => (Err err, t) | None => (Ok (tt_FilteredQuery m), t) end.

Definition TestableTenantService_CanAccessTenant (m : TestableTenantService) (t : TestableMetricsCollector)
    (user : User) (tenantID : string) : bool * TestableMetricsCollector :=
  (tt_CanAccess m, collect t (Metrics.Called (RecordTenantAccess (user_ID user) tenantID (tt_CanAccess m)) 0)).

Definition TestableTenantService_DetermineTargetTenant (m : TestableTenantService) : result string :=
  match tt_Err m with Some err => Err err | None => Ok (tt_TargetTenant m) end.

(** http.StatusText *)
Definition statusTexts : gmap Z string := list_to_map
  [(200, "OK"); (201, "Created"); (202, "Accepted"); (203, "Non-Authoritative Information"); (204, "No
   Content"); (205, "Reset Content"); (206, "Partial Content"); (207, "Multi-Status"); (208, "Already
   Reported"); (226, "IM Used"); (300, "Multiple Choices"); (301, "Moved Permanently"); (302, "Found");
   (303, "See Other"); (304, "Not Modified"); (305, "Use Proxy"); (307, "Temporary Redirect"); (308,
   "Permanent Redirect"); (400, "Bad Request"); (401, "Unauthorized"); (402, "Payment Required"); (403,
   "Forbidden"); (404, "Not Found"); (405, "Method Not Allowed"); (406, "Not Acceptable"); (407, "Proxy
   Authentication Required"); (408, "Request Timeout"); (409, "Conflict"); (410, "Gone"); (411, "Length
   Required"); (412, "Precondition Failed"); (413, "Request Entity Too Large"); (414, "Request URI Too
   Long"); (415, "Unsupported Media Type"); (416, "Requested Range Not Satisfiable"); (417, "Expectation
   Failed"); (418, "I'm a teapot"); (421, "Misdirected Request"); (422, "Unprocessable Entity"); (423,
   "Locked"); (424, "Failed Dependency"); (425, "Too Early"); (426, "Upgrade Required"); (428, "Precondition
   Required"); (429, "Too Many Requests"); (431, "Request Header Fields Too Large"); (451, "Unavailable For
   Legal Reasons"); (500, "Internal Server Error"); (501, "Not Implemented"); (502, "Bad Gateway"); (503,
   "Service Unavailable"); (504, "Gateway Timeout"); (505, "HTTP Version Not Supported"); (506, "Variant
   Also Negotiates"); (507, "Insufficient Storage"); (508, "Loop Detected"); (510, "Not Extended"); (511,
   "Network Authentication Required"); (100, "Continue"); (101, "Switching Protocols"); (102, "Processing");
   (103, "Early Hints")]%Z.

Definition StatusText (code : Z) : string := default "" (statusTexts !! code).

(** A nil response without an error is
    dereferenced by the handler, here already by the double. *)
Record TestableProxyService := mkProxy { tp_Response : option ProxyResponse; tp_Err : option goError }.

Definition TestableProxyService_Forward (m : TestableProxyService)
    (t : TestableMetricsCollector) (req : ProxyRequest) : outcome (result ProxyResponse) * TestableMetricsCollector :=
  let t :=
    match tp_Response m with
    | Some response =>
        let r := pr_OriginalRequest req in
        collect t (Metrics.UpstreamCall (Method r) (Path r) (StatusText (rs_StatusCode response))
                     DefaultTestUpstreamDuration (map VMTenant_String (user_VMTenants (pr_User req))))
    | None => t
    end in
  match tp_Err m, tp_Response m with
  | Some err, _ => (Returned (Err err), t)
  | None, Some response => (Returned (Ok response), t)
  | None, None => (Panicked "nil pointer dereference", t)
  end.

Definition TestableProxyService_GetBackendsStatus (now : Z) : list BackendStatus :=
  [mkBackendStatus (mkBackend "http://localhost:8080" 1 BackendHealthy) true 0 now 0].

Definition TestableProxyService_SetMaintenanceMode (backend : string) (enabled : bool) : option goError := None.

(** The services of a handler under test, on one collector. *)
Record Doubles := mkDoubles {
  db_auth : TestableAuthService; db_access : option goError;
  db_tenant : TestableTenantService; db_proxy : TestableProxyService
}.

Record Rig := mkRig { rig_metrics : TestableMetricsCollector; rig_bodies : Bodies }.

Section Rig.
Context (elapsed : Z).

Definition doubles (d : Doubles) : services Rig := λ q w,
  let on t := mkRig t (rig_bodies w) in
  match q with
  | Authenticate _ =>
      let '(user, t) := TestableAuthService_Authenticate (db_auth d) (rig_metrics w) in Some (user, on t)
  | CanAccess user path method => Some (Returned (MockAccessService_CanAccess (db_access d) user path method), w)
  | FilterQuery user query =>
      let '(filtered, t) := TestableTenantService_FilterQuery (db_tenant d) (rig_metrics w) user query in
      Some (Returned filtered, on t)
  | CanAccessTenant user tenantID =>
      let '(allowed, t) := TestableTenantService_CanAccessTenant (db_tenant d) (rig_metrics w) user tenantID in
      Some (Returned allowed, on t)
  | DetermineTargetTenant _ _ => Some (Returned (TestableTenantService_DetermineTargetTenant (db_tenant d)), w)
  | Forward req =>
      let '(response, t) := TestableProxyService_Forward (db_proxy d) (rig_metrics w) req in
      Some (response, on t)
  | Record_ m => Some (Returned (), on (collect (rig_metrics w) (Metrics.Called m elapsed)))
  | ReadBody r =>
      let '(content, err, bodies) := ReadAll (rig_bodies w) (Body r) in
      Some (Returned (content, err), mkRig (rig_metrics w) bodies)
  | RestoreBody r content =>
      Some (Returned (), mkRig (rig_metrics w) (<[Body r := mkReader content None]> (rig_bodies w)))
  end.

(* ------------------------------------------------------------------ *)
(** ** What a test sees *)

(** What each event leaves in the collector's lists. *)
Definition requestOf (e : event) : option RequestCall :=
  match e with
  | Recorded (RecordRequest method path status user) => Some (mkRequestCall method path status elapsed user)
  | _ => None
  end.

Definition attemptOf (e : event) : option AuthAttemptCall :=
  match e with
  | Authenticated _ (Ok user) => Some (mkAuthAttemptCall (user_ID user) "success")
  | Authenticated _ (Err _) => Some (mkAuthAttemptCall "unknown" "failed")
  | Recorded (RecordAuthAttempt userID status) => Some (mkAuthAttemptCall userID status)
  | _ => None
  end.

Definition forwardOf (d : Doubles) (e : event) : option UpstreamCall :=
  match e, tp_Response (db_proxy d) with
  | Forwarded req _, Some response =>
      Some (mkUpstreamCall (Method (pr_OriginalRequest req)) (Path (pr_OriginalRequest req))
              (StatusText (rs_StatusCode response)) DefaultTestUpstreamDuration
              (map VMTenant_String (user_VMTenants (pr_User req))))
  | _, _ => None
  end.

Lemma doubles_step d q w x w' :
  doubles d q w = Some (Returned x, w') →
  RequestCalls (rig_metrics w') = RequestCalls (rig_metrics w) ++ option_list (requestOf (answered q x)) ∧
  AuthAttemptCalls (rig_metrics w') = AuthAttemptCalls (rig_metrics w) ++ option_list (attemptOf (answered q x)) ∧
  UpstreamCalls (rig_metrics w') = UpstreamCalls (rig_metrics w) ++ option_list (forwardOf d (answered q x)).
Proof.
  destruct q as [token|u p m|u q|u t|u r|req|m|r|r content]; simpl.
  - unfold TestableAuthService_Authenticate. destruct (ta_Err (db_auth d)), (ta_User (db_auth d)); intros [= <- <-]; simpl; by rewrite ?app_nil_r.
  - intros [= <- <-]. by rewrite !app_nil_r.
  - unfold TestableTenantService_FilterQuery. destruct (tt_Err (db_tenant d)); intros [= <- <-]; simpl; by rewrite ?app_nil_r.
  - intros [= <- <-]. simpl. by rewrite !app_nil_r.
  - intros [= <- <-]. by rewrite !app_nil_r.
  - unfold TestableProxyService_Forward, forwardOf.
    destruct (tp_Err (db_proxy d)), (tp_Response (db_proxy d)); intros [= <- <-]; simpl; by rewrite ?app_nil_r.
  - intros [= <- <-]. destruct m; simpl; by rewrite ?app_nil_r.
  - intros [= <- <-]. by rewrite !app_nil_r.
  - intros [= <- <-]. by rewrite !app_nil_r.
Qed.

Lemma doubles_chain d w es w' :
  chain (doubles d) w es w' →
  RequestCalls (rig_metrics w') = RequestCalls (rig_metrics w) ++ omap requestOf es ∧
  AuthAttemptCalls (rig_metrics w') = AuthAttemptCalls (rig_metrics w) ++ omap attemptOf es ∧
  UpstreamCalls (rig_metrics w') = UpstreamCalls (rig_metrics w) ++ omap (forwardOf d) es.
Proof.
  induction 1 as [w|q x w w1 es w' Hq _ (IH1&IH2&IH3)]; [by rewrite !app_nil_r|].
  apply doubles_step in Hq as (H1&H2&H3). rewrite IH1, IH2, IH3, H1, H2, H3, <- !app_assoc. simpl.
  split_and!; f_equal; by case_match.
Qed.

Lemma omap_before {B} (f : event → option B) n es :
  (∀ e, isOuter e = false → f e = None) → before n es → omap f es = [].
Proof. intros Hf [H _]. induction H as [|e es He _ IH]; [done|]. simpl. by rewrite Hf. Qed.

Lemma omap_forwards d n es : before n es → (length (omap (forwardOf d) es) ≤ n)%nat.
Proof.
  intros [_ H]. etrans; [|exact H]. clear H. induction es as [|e es IH]; [done|].
  rewrite filter_cons. cbn [omap list_omap]. assert (isForwarded e = false → forwardOf d e = None) as H by (by destruct e).
  destruct (isForwarded e); [rewrite decide_True by done|rewrite decide_False, H by done; exact IH].
  destruct (forwardOf d e); simpl; [by apply le_n_S|by apply le_S].
Qed.

(** With the recording services of the tests in place of the real ones, every run of the
    handler leaves exactly one request record, of this method and path, the status that
    was answered and the one duration the model gives every elapsed time; one
    authentication attempt if the request has a token and none otherwise; and at most one
    upstream record. *)
Theorem doubles_observe_the_handler d r w out w' :
  run (doubles d) (ServeHTTP true r) w = Some (Returned out, w') →
  (∃ user, RequestCalls (rig_metrics w') = RequestCalls (rig_metrics w)
     ++ [mkRequestCall (Method r) (Path r) (itoa (wr_Status out)) elapsed user]) ∧
  (∃ attempts, AuthAttemptCalls (rig_metrics w') = AuthAttemptCalls (rig_metrics w) ++ attempts ∧
     (extractToken r = "" → attempts = []) ∧ (extractToken r ≠ "" → length attempts = 1%nat)) ∧
  (∃ upstream, UpstreamCalls (rig_metrics w') = UpstreamCalls (rig_metrics w) ++ upstream ∧ (length upstream ≤ 1)%nat).
Proof.
  intros (es&Hf&(H1&H2&H3)%doubles_chain)%run_finishes.
  apply answer_is_recorded_once in Hf as (es'&(es1&user&->&Hb)&Hes).
  assert (omap requestOf es = [mkRequestCall (Method r) (Path r) (itoa (wr_Status out)) elapsed user] ∧
    omap attemptOf (es1 ++ [Recorded (RecordRequest (Method r) (Path r) (itoa (wr_Status out)) user)]) = [] ∧
    omap (forwardOf d) es = omap (forwardOf d) es1) as (Hreq&Hatt&Hfwd).
  { assert (∀ e, isOuter e = false → requestOf e = None) as Hr by (by intros []).
    assert (∀ e, isOuter e = false → attemptOf e = None) as Ha by (by intros []).
    assert (omap (forwardOf d) (es1 ++ [Recorded (RecordRequest (Method r) (Path r) (itoa (wr_Status out)) user)])
      = omap (forwardOf d) es1) as Hfw by (rewrite omap_app; simpl; by rewrite app_nil_r).
    rewrite omap_app, (omap_before attemptOf _ _ Ha Hb).
    destruct Hes as [[_ ->]|(_&auth&->)]; simpl; rewrite omap_app, (omap_before requestOf _ _ Hr Hb), ?Hfw; by split_and!. }
  rewrite H1, H2, H3, Hreq, Hfwd. split_and!; [by exists user| |by eexists; split; [done|apply omap_forwards]].
  eexists. split; [done|]. destruct Hes as [[Ht ->]|(Ht&auth&->)].
  - by rewrite Hatt.
  - split; [done|]. intros _. unfold omap in *. cbn [list_omap attemptOf].
    destruct auth; by rewrite Hatt.
Qed.
End Rig.

Lemma doubles_observe_the_handler_witness :
  let d := mkDoubles (mkAuth (Some aUser) None) None (mkTenant "up{x=1}" true "" None)
             (mkProxy (Some (mkProxyResponse 200 ∅ "ok")) None) in
  match run (doubles 5 d) (ServeHTTP true aQuery) (mkRig (mkCollector [] [] [] [] []) ∅) with
  | Some (Returned out, w') =>
      wr_Status out = 200%Z ∧ rc_Status <$> RequestCalls (rig_metrics w') = ["200"] ∧
      length (AuthAttemptCalls (rig_metrics w')) = 1%nat ∧
      UpstreamCalls (rig_metrics w') = [mkUpstreamCall "GET" "/api/v1/query" "OK" (50 * Millisecond) ["1:7"]]
  | _ => False
  end.
Proof.
  intros d. destruct (run _ _ _) as [[[out|why] w']|] eqn:E; [|vm_compute in E; discriminate..].
  destruct (doubles_observe_the_handler 5 d aQuery _ out w' E) as ([user H1]&(attempts&H2&_&H3)&_).
  rewrite H1, H2. assert (wr_Status out = 200%Z) as -> by (vm_compute in E; injection E as <- <-; reflexivity).
  split_and!; [done|vm_compute; reflexivity|by apply H3|vm_compute in E; injection E as <- <-; reflexivity].
Defined.

(* ------------------------------------------------------------------ *)
(** ** MockStateStorage (mock_state_storage.go) *)

Record MockStateStorage := mkMockStorage { ms_data : gmap string string }.

Definition NewMockStateStorage : MockStateStorage := mkMockStorage ∅.

Definition MockStateStorage_Get (m : MockStateStorage) (key : string) : result string :=
  match ms_data m !! key with Some value => Ok value | None => Err (EApp ErrKeyNotFound) end.
Definition MockStateStorage_Set (m : MockStateStorage) (key value : string) (ttl : Z) : MockStateStorage :=
  mkMockStorage (<[key := value]> (ms_data m)).
Definition MockStateStorage_Delete (m : MockStateStorage) (key : string) : MockStateStorage :=
  mkMockStorage (delete key (ms_data m)).
Definition MockStateStorage_GetMultiple (m : MockStateStorage) (keys : list string) : gmap string string :=
  foldl (λ result key, match ms_data m !! key with Some value => <[key := value]> result | None => result end) ∅ keys.
Definition MockStateStorage_SetMultiple (m : MockStateStorage) (items : gmap string string) (ttl : Z) : MockStateStorage :=
  mkMockStorage (foldl (λ data kv, <[kv.1 := kv.2]> data) (ms_data m) (map_to_list items)).

(** The channel is closed and empty. *)
Definition MockStateStorage_Watch (m : MockStateStorage) (prefix : string) : Chan := mkChan [] true.
Definition MockStateStorage_Close (m : MockStateStorage) : MockStateStorage := mkMockStorage ∅.
Definition MockStateStorage_Ping (m : MockStateStorage) : option goError := None.
Definition MockStateStorage_Clear (m : MockStateStorage) : MockStateStorage := mkMockStorage ∅.
Definition MockStateStorage_Size (m : MockStateStorage) : Z := Z.of_nat (size (ms_data m)).
Definition MockStateStorage_HasKey (m : MockStateStorage) (key : string) : bool := bool_decide (is_Some (ms_data m !! key)).

#[global] Instance MockStateStorage_StateStorage : StateStorage MockStateStorage := {
  ss_Get m _ key := (MockStateStorage_Get m key, m);
  ss_Set m _ key value ttl := Returned (None, MockStateStorage_Set m key value ttl);
  ss_Delete m _ key := Returned (None, MockStateStorage_Delete m key);
  ss_GetMultiple m _ keys := (Ok (MockStateStorage_GetMultiple m keys), m);
  ss_SetMultiple m _ items ttl := Returned (None, MockStateStorage_SetMultiple m items ttl);
  ss_Ping m _ := MockStateStorage_Ping m
}.

Lemma insertAll_lookup (l : list (string * string)) (d : gmap string string) k :
  NoDup l.*1 →
  foldl (λ data kv, <[kv.1 := kv.2]> data) d l !! k =
    match (list_to_map l : gmap string string) !! k with Some v => Some v | None => d !! k end.
Proof.
  revert d. induction l as [|[k' v'] l IH]; intros d Hnd; simpl; [done|].
  apply NoDup_cons in Hnd as [Hk Hnd]. rewrite IH by done. destruct (decide (k = k')) as [->|Hne].
  - rewrite lookup_insert_eq, not_elem_of_list_to_map_1 by done. by rewrite lookup_insert_eq.
  - by rewrite !lookup_insert_ne.
Qed.

(** Without lifetimes the mock is a storage like the others. *)
#[global] Instance MockStateStorage_StateStorageSpec : StateStorageSpec MockStateStorage.
Proof.
  refine {| ss_ok _ := True; ss_view m _ key := ms_data m !! key; ss_ttl ttl := ttl = 0%Z; ss_key _ := True |}.
  - intros m now key _. cbn. unfold MockStateStorage_Get. by destruct (ms_data m !! key).
  - by intros m now keys _.
  - intros m now key value ttl _ -> _. eexists. do 2 (split; [done|]). intros t _. cbn. split.
    + split; [|lia]. intros _. by rewrite lookup_insert_eq.
    + intros k Hk. by rewrite lookup_insert_ne.
  - intros m now key _ _. eexists. do 2 (split; [done|]). intros t k _. cbn. case_decide as Hk.
    + subst. by rewrite lookup_delete_eq.
    + by rewrite lookup_delete_ne.
  - intros m now items ttl _ -> _. eexists. do 2 (split; [done|]). intros t k _. cbn.
    rewrite insertAll_lookup by apply NoDup_fst_map_to_list. rewrite list_to_map_to_list.
    destruct (items !! k); [|done]. split; [done|lia].
  - by intros m now _.
Defined.

(** No lifetime in a call. *)
Definition unlimited (o : storageOp) : Prop :=
  match o with OpSet _ _ ttl | OpSetMultiple _ ttl => ttl = 0%Z | _ => True end.

Lemma unlimited_write key h t value ttl :
  Forall (λ c, unlimited c.2) h → lastWrite key h = Some (t, Some (value, ttl)) → ttl = 0%Z.
Proof.
  induction h as [|[u o] h IH] using rev_ind; [done|].
  intros [Hh Ho]%Forall_app. apply Forall_cons in Ho as [Ho _]. rewrite lastWrite_snoc. destruct (writeOf key (u, o)) as [w|] eqn:E.
  - intros [= ->]. destruct o as [k|k v ttl'|k|keys|items ttl'|]; simpl in Ho, E; try done.
    + by case_decide; simplify_eq.
    + by case_decide; simplify_eq.
    + apply fmap_Some in E as (?&_&?). by simplify_eq.
  - by apply IH.
Qed.

(** A read after a history without lifetimes. *)
Lemma unlimited_read key h before now r :
  Forall (λ c, unlimited c.2) h → readAfter key h before now r →
  r = match lastWrite key h with
      | Some (_, Some (value, _)) => Some value
      | Some (_, None) => None
      | None => before
      end.
Proof.
  intros Hu. unfold readAfter. destruct (lastWrite key h) as [[t [[value ttl]|]]|] eqn:E; [|done..].
  apply unlimited_write in E as ->; [|done]. intros [H _]. apply H. by left.
Qed.

(** Any new storage that satisfies the storage specification answers Get and GetMultiple
    as the map of the test double does, after the same calls in the same order, when no
    call has a lifetime. *)
Theorem mock_storage_is_the_reference {S : Type} `{HS : StateStorage S, HSpec : !StateStorageSpec S} (s : S) h now :
  ss_ok s → (∀ t key, ss_view s t key = None) → ordered now h →
  Forall (λ c, supported (S := S) c.2) h → Forall (λ c, unlimited c.2) h →
  ∃ s' m, callAll s h = Returned ([], s') ∧ callAll NewMockStateStorage h = Returned ([], m) ∧
    (∀ key, (ss_Get s' now key).1 = MockStateStorage_Get m key) ∧
    (∀ keys, (ss_GetMultiple s' now keys).1 = Ok (MockStateStorage_GetMultiple m keys)).
Proof.
  intros Hok Hnew Hord Hsup Hun.
  destruct (callAll_view s h now Hok Hord Hsup) as (s'&E&Hok'&Hv).
  assert (ss_ok NewMockStateStorage) as Hm by exact I.
  destruct (callAll_view NewMockStateStorage h now Hm Hord) as (m&Em&_&Hvm).
  { eapply Forall_impl; [exact Hun|]. intros [t []]; simpl; naive_solver. }
  assert (∀ key, ss_view s' now key = ms_data m !! key) as Hsame.
  { intros key. pose proof (Hv now key ltac:(lia)) as H1. pose proof (Hvm now key ltac:(lia)) as H2.
    apply unlimited_read in H1; [|done]. apply unlimited_read in H2; [|done].
    rewrite H1. symmetry. cbn in H2. rewrite H2. rewrite Hnew. done. }
  exists s', m. split_and!; [done|done| |].
  - intros key. pose proof (ss_Get_spec s' now key Hok') as H. destruct (ss_Get s' now key), H as [-> _].
    rewrite Hsame. unfold MockStateStorage_Get. by destruct (ms_data m !! key).
  - intros keys. pose proof (ss_GetMultiple_spec s' now keys Hok') as H. destruct (ss_GetMultiple s' now keys), H as [-> _].
    unfold foundOf, MockStateStorage_GetMultiple. simpl. f_equal. clear -Hsame. generalize (∅ : gmap string string).
    induction keys as [|k keys IH]; intros acc; simpl; [done|]. by rewrite Hsame.
Qed.

Definition plainCalls : list (Z * storageOp) :=
  [(1, OpSet "k" "a" 0); (2, OpSetMultiple {["x" := "b"; "y" := "c"]} 0); (3, OpGet "x"); (4, OpDelete "y")]%Z.

Lemma mock_storage_is_the_reference_witness :
  ∃ s' m, callAll (LocalStorage.NewLocalStorage "n") plainCalls = Returned ([], s') ∧
    callAll NewMockStateStorage plainCalls = Returned ([], m) ∧
    (LocalStorage.Get s' 9 "x").1 = MockStateStorage_Get m "x" ∧ MockStateStorage_Get m "x" = Ok "b" ∧
    MockStateStorage_Get m "y" = Err (EApp ErrKeyNotFound).
Proof.
  destruct (mock_storage_is_the_reference (LocalStorage.NewLocalStorage "n") plainCalls 9) as (s'&m&E&Em&H&_).
  - apply LocalStorage.NewLocalStorage_ok.
  - done.
  - unfold plainCalls. simpl. split_and!; try lia; repeat constructor; simpl; lia.
  - unfold plainCalls. repeat constructor; simpl; unfold itemTTL, max_int64; lia.
  - unfold plainCalls. repeat constructor.
  - exists s', m. split_and!; [exact E|exact Em|apply (H "x")|..];
      vm_compute in Em; injection Em as <-; vm_compute; reflexivity.
Defined.

(** The mock keeps what should have expired, and after Close it still answers
    the ping. *)
Lemma mock_ignores_lifetimes key value ttl later :
  (0 < ttl < max_int64)%Z → (ttl < later)%Z →
  (∃ s, callAll NewMockStateStorage [(0, OpSet key value ttl)]%Z = Returned ([], s) ∧ (ss_Get s later key).1 = Ok value) ∧
  (∃ s, callAll (LocalStorage.NewLocalStorage "n") [(0, OpSet key value ttl)]%Z = Returned ([], s) ∧
     (ss_Get s later key).1 = Err (EApp ErrKeyNotFound)).
Proof.
  intros Ht Hl. split.
  - eexists. split; [done|]. simpl. unfold MockStateStorage_Get. simpl. by rewrite lookup_insert_eq.
  - destruct (callAll_view (LocalStorage.NewLocalStorage "n") [(0, OpSet key value ttl)]%Z later) as (s&E&Hok&Hv).
    + apply LocalStorage.NewLocalStorage_ok.
    + simpl. split_and!; [lia|constructor|done].
    + repeat constructor; simpl; unfold itemTTL; lia.
    + exists s. split; [exact E|]. pose proof (ss_Get_spec s later key Hok) as H. destruct (ss_Get s later key), H as [-> _].
      specialize (Hv later key ltac:(lia)). unfold readAfter, lastWrite in Hv. simpl in Hv.
      rewrite decide_True in Hv by done. destruct Hv as [_ Hv]. simpl. by rewrite Hv by lia.
Qed.

Lemma closed_mock_answers m : MockStateStorage_Ping (MockStateStorage_Close m) = None ∧ MockStateStorage_Size (MockStateStorage_Close m) = 0%Z.
Proof. done. Qed.
