(* ===== verification/ComponentDoubles.v ===== *)
(** * ComponentDoubles: the doubles of the components in internal/testutils/

    Metrics services that do nothing or count, a balancer and a health checker
    made of optional functions, a Raft manager with fixed answers, a peer
    joiner that remembers, and two loggers. *)

From S2P Require Import Prelude GoStd GoText Errors Domain LoadBalancer Formatters Logger Delegate.
From S2P Require Metrics.
Local Open Scope vpa_scope.

(* ------------------------------------------------------------------ *)
(** ** mock_metrics.go *)

(** Every method of MockMetricsService does nothing; its handler is nil. *)
Definition MockMetricsService_recorded (c : Metrics.recordCall) (m : ()) : () := m.

Record MockEnhancedMetricsService := mkEnhancedMetrics {
  backendStateChangeCallCount : Z; loadBalancerSelectionCount : Z; upstreamBackendCallCount : Z
}.

(** The counters are 64-bit integers. *)
Definition MockEnhancedMetricsService_recorded (c : Metrics.recordCall) (m : MockEnhancedMetricsService)
  : MockEnhancedMetricsService :=
  match c with
  | Metrics.Called (RecordUpstreamBackend _ _ _ _ _) _ =>
      mkEnhancedMetrics (backendStateChangeCallCount m) (loadBalancerSelectionCount m)
        (wrap64 (upstreamBackendCallCount m + 1))
  | Metrics.Called (RecordBackendStateChange _ _ _) _ =>
      mkEnhancedMetrics (wrap64 (backendStateChangeCallCount m + 1)) (loadBalancerSelectionCount m)
        (upstreamBackendCallCount m)
  | Metrics.Called (RecordLoadBalancerSelection _ _) _ =>
      mkEnhancedMetrics (backendStateChangeCallCount m) (wrap64 (loadBalancerSelectionCount m + 1))
        (upstreamBackendCallCount m)
  | _ => m
  end.

Definition GetCallCounts (m : MockEnhancedMetricsService) : Z * Z * Z :=
  (backendStateChangeCallCount m, loadBalancerSelectionCount m, upstreamBackendCallCount m).

(** The kind a counter counts. *)
Definition countedKind (c : Metrics.recordCall) : option nat :=
  match c with
  | Metrics.Called (RecordBackendStateChange _ _ _) _ => Some 0%nat
  | Metrics.Called (RecordLoadBalancerSelection _ _) _ => Some 1%nat
  | Metrics.Called (RecordUpstreamBackend _ _ _ _ _) _ => Some 2%nat
  | _ => None
  end.

Definition callsOf (kind : nat) (cs : list Metrics.recordCall) : Z :=
  Z.of_nat (length (filter (λ c, countedKind c = Some kind) cs)).

Lemma callsOf_snoc kind cs c :
  callsOf kind (cs ++ [c]) = (callsOf kind cs + if decide (countedKind c = Some kind) then 1 else 0)%Z.
Proof.
  unfold callsOf. rewrite filter_app, length_app, filter_cons, filter_nil. case_decide; simpl; lia.
Qed.

Lemma callsOf_length kind cs : (0 ≤ callsOf kind cs ≤ Z.of_nat (length cs))%Z.
Proof. unfold callsOf. pose proof (length_filter (λ c, countedKind c = Some kind) cs). lia. Qed.

(** The counts are the numbers of the calls, in any order of the calls. *)
Lemma GetCallCounts_spec cs :
  (Z.of_nat (length cs) ≤ max_int64)%Z →
  GetCallCounts (foldl (λ m c, MockEnhancedMetricsService_recorded c m) (mkEnhancedMetrics 0 0 0) cs)
    = (callsOf 0 cs, callsOf 1 cs, callsOf 2 cs).
Proof.
  induction cs as [|c cs IH] using rev_ind; [done|]. rewrite length_app. simpl. intros Hlen.
  rewrite foldl_app, !callsOf_snoc. simpl. set (m := foldl _ _ cs) in *.
  specialize (IH ltac:(lia)). injection IH as H0 H1 H2. unfold GetCallCounts.
  pose proof (callsOf_length 0 cs). pose proof (callsOf_length 1 cs). pose proof (callsOf_length 2 cs).
  assert (∀ x, (0 ≤ x < max_int64)%Z → wrap64 (x + 1) = (x + 1)%Z) as Hw.
  { intros x Hx. apply wrap64_id. lia. }
  destruct c as [[] | | | | | | | | | | | |]; simpl; rewrite ?H0, ?H1, ?H2, ?Hw, ?Z.add_0_r by lia; done.
Qed.

(* ------------------------------------------------------------------ *)
(** ** mock_load_balancer.go, mock_health_checker.go *)

(** Functions on a state [S] of the test; a missing one has a default. *)
Record MockLoadBalancer (S : Type) := mkMockBalancer {
  NextBackendFunc : option (S → outcome (result Backend) * S);
  ReportResultFunc : option (S → Backend → option goError → Z → S);
  BackendsStatusFunc : option (S → Z → list BackendStatus);
  CloseFunc : option (S → S)
}.
Arguments mkMockBalancer {S}.
Arguments NextBackendFunc {S}.
Arguments ReportResultFunc {S}.
Arguments BackendsStatusFunc {S}.
Arguments CloseFunc {S}.

(** The mock has no UpdateBackendState, and callers only use one that is
    there. *)
#[global] Instance MockLoadBalancer_LoadBalancer {S} : LoadBalancer (MockLoadBalancer S * S) := {
  lb_NextBackend '(m, s) :=
    match NextBackendFunc m with
    | Some f => let '(r, s) := f s in (r, (m, s))
    | None => (Returned (Err (EApp ErrNoHealthyBackends)), (m, s))
    end;
  lb_ReportResult '(m, s) backend err statusCode :=
    match ReportResultFunc m with Some f => (m, f s backend err statusCode) | None => (m, s) end;
  lb_BackendsStatus '(m, s) now :=
    match BackendsStatusFunc m with Some f => f s now | None => [] end;
  lb_UpdateBackendState b _ _ := b;
  lb_Close '(m, s) := match CloseFunc m with Some f => (m, f s) | None => (m, s) end
}.

(** Functions that ask a balancer are that balancer, but for the updates of
    backend states, which are lost. *)
Definition wrapping {B} `{LoadBalancer B} : MockLoadBalancer B :=
  mkMockBalancer (Some lb_NextBackend) (Some lb_ReportResult) (Some lb_BackendsStatus) (Some lb_Close).

Lemma wrapping_is_the_balancer {B} `{LoadBalancer B} (b : B) backend err code now :
  let m : MockLoadBalancer B * B := (wrapping, b) in
  lb_NextBackend m = ((lb_NextBackend b).1, (wrapping, (lb_NextBackend b).2)) ∧
  lb_ReportResult m backend err code = (wrapping, lb_ReportResult b backend err code) ∧
  lb_BackendsStatus m now = lb_BackendsStatus b now ∧ lb_Close m = (wrapping, lb_Close b).
Proof. simpl. destruct (lb_NextBackend b). done. Qed.

Record MockHealthChecker (S : Type) := mkMockChecker {
  CheckHealthFunc : option (S → Backend → option goError * S);
  StartMonitoringFunc : option (S → option goError * S);
  StopFunc : option (S → option goError * S)
}.
Arguments CheckHealthFunc {S}.
Arguments StartMonitoringFunc {S}.
Arguments StopFunc {S}.

Definition MockHealthChecker_CheckHealth {S} (m : MockHealthChecker S) (s : S) (backend : Backend)
  : option goError * S :=
  match CheckHealthFunc m with Some f => f s backend | None => (None, s) end.
Definition MockHealthChecker_StartMonitoring {S} (m : MockHealthChecker S) (s : S) : option goError * S :=
  match StartMonitoringFunc m with Some f => f s | None => (None, s) end.
Definition MockHealthChecker_Stop {S} (m : MockHealthChecker S) (s : S) : option goError * S :=
  match StopFunc m with Some f => f s | None => (None, s) end.

(* ------------------------------------------------------------------ *)
(** ** mock_raft_manager.go, mock_discovery.go *)

Record MockRaftManager := mkMockRaft {
  IsLeaderVal : bool; AddVoterErr : option goError; RemoveErr : option goError;
  Peers : list string; LeaderID : string; LeaderAddr : string
}.

Definition NewMockRaftManager : MockRaftManager := mkMockRaft true None None [] "test-leader" "127.0.0.1:9000".

#[global] Instance MockRaftManager_RaftManager : RaftManager MockRaftManager := {
  rm_AddVoter m _ _ := ((if negb (IsLeaderVal m) then Some (EText "not leader") else AddVoterErr m), m);
  rm_RemoveServer m _ := ((if negb (IsLeaderVal m) then Some (EText "not leader") else RemoveErr m), m);
  rm_GetLeader m := (LeaderID m, LeaderAddr m);
  rm_GetPeers m := Ok (Peers m);
  rm_IsLeader m := IsLeaderVal m;
  rm_TryDelayedBootstrap m _ := (None, m);
  rm_ForceRecoverCluster m _ _ := (None, m)
}.

(** GetLeaderID *)
Definition GetLeaderID (m : MockRaftManager) : string := LeaderID m.

(** GetStats calls every manager the leader of term 1. *)
Inductive statValue := StatText (s : string) | StatInt (z : Z) | StatList (l : list string).
Definition MockRaftManager_GetStats (m : MockRaftManager) : gmap string statValue :=
  {["state" := StatText "Leader"; "term" := StatInt 1; "peers" := StatList (Peers m); "leader" := StatText (LeaderID m)]}.

(** A delegate on the mock makes its changes at once while the mock leads,
    and never changes the list of peers it is told. *)
Lemma mock_peers_never_change (m : MockRaftManager) id addr :
  rm_GetPeers (rm_AddVoter m id addr).2 = Ok (Peers m) ∧ rm_GetPeers (rm_RemoveServer m id).2 = Ok (Peers m).
Proof. done. Qed.

Record MockPeerJoiner := mkMockJoiner { JoinedPeers : list string }.

Definition MockPeerJoiner_Join (m : MockPeerJoiner) (peers : list string) : option goError * MockPeerJoiner :=
  (None, mkMockJoiner (JoinedPeers m ++ peers)).

(* ------------------------------------------------------------------ *)
(** ** mock_logger.go *)

Record LogEntry := mkLogEntry { le_Level : string; le_Message : string; le_Fields : Fields }.

#[export] Instance LogEntry_eq_dec : EqDecision LogEntry.
Proof. solve_decision. Defined.

Record MockLogger := mkMockLogger { entries : list LogEntry }.

Definition NewMockLogger : MockLogger := mkMockLogger [].

Definition MockLogger_log (level message : string) (fields : list Field) (ml : MockLogger) : MockLogger :=
  mkMockLogger (entries ml ++ [mkLogEntry level message (addFields id ∅ fields)]).

Definition MockLogger_Debug := MockLogger_log "DEBUG".
Definition MockLogger_Info := MockLogger_log "INFO".
Definition MockLogger_Warn := MockLogger_log "WARN".
Definition MockLogger_Error := MockLogger_log "ERROR".

(** A logger of its own: the fields are dropped, the entries copied. *)
Definition MockLogger_With (ml : MockLogger) (fields : list Field) : MockLogger := mkMockLogger (entries ml).

Definition GetEntries (ml : MockLogger) : list LogEntry := entries ml.

Definition HasEntry (ml : MockLogger) (level message : string) : bool :=
  existsb (λ e, String.eqb (le_Level e) level && String.eqb (le_Message e) message) (entries ml).

Definition HasEntryWithField (ml : MockLogger) (level message fieldKey : string) (fieldValue : fieldValue) : bool :=
  existsb (λ e, String.eqb (le_Level e) level && String.eqb (le_Message e) message &&
    match le_Fields e !! fieldKey with Some value => bool_decide (value = fieldValue) | None => false end) (entries ml).

Definition MockLogger_Clear (ml : MockLogger) : MockLogger := mkMockLogger [].
Definition EntryCount (ml : MockLogger) : Z := Z.of_nat (length (entries ml)).
Definition GetEntriesByLevel (ml : MockLogger) (level : string) : list LogEntry :=
  filter (λ e, le_Level e = level) (entries ml).

(** A later field of the same key wins. *)
Lemma HasEntryWithField_logged ml level message fields key value :
  HasEntryWithField (MockLogger_log level message (fields ++ [mkField key value]) ml) level message key value = true.
Proof.
  unfold HasEntryWithField, MockLogger_log. simpl. rewrite existsb_app. simpl. unfold addFields. rewrite foldl_app. simpl.
  rewrite lookup_insert_eq, !String.eqb_refl, bool_decide_true by done. by rewrite !orb_true_r.
Qed.

(** What is logged through a logger that With made is not among the entries
    of the one the test holds: components log through such loggers, so a test
    that looks at its own logger sees nothing of them. *)
Lemma derived_entries_are_not_seen ml fields level message more :
  let derived := MockLogger_With ml fields in
  HasEntry (MockLogger_log level message more derived) level message = true ∧
  (HasEntry ml level message = false →
   HasEntry ml level message = false ∧ EntryCount (MockLogger_log level message more derived) = (EntryCount ml + 1)%Z).
Proof.
  split.
  - unfold HasEntry, MockLogger_log. simpl. rewrite existsb_app. simpl. by rewrite !String.eqb_refl, orb_true_r.
  - split; [done|]. unfold EntryCount. simpl. rewrite length_app. simpl. lia.
Qed.

(* ------------------------------------------------------------------ *)
(** ** debug_logger.go *)

(** The logger's prefix; what testing.T prints is a text. *)
Record DebugLogger := mkDebugLogger { dl_prefix : string }.

Definition NewDebugLogger : DebugLogger := mkDebugLogger "".

Definition fieldsToMap (fields : list Field) : Fields := addFields id ∅ fields.

(** fmt's %v of a map, which sorts the keys. *)
Definition printMap (m : Fields) : string :=
  "map[" +:+ Join (map (λ k, k +:+ ":" +:+ printValue (default VNil (m !! k))) (sortedKeys m)) " " +:+ "]".

Definition DebugLogger_log (level : string) (dl : DebugLogger) (msg : string) (fields : list Field) : string :=
  "[" +:+ level +:+ "]" +:+ dl_prefix dl +:+ " " +:+ msg +:+ " " +:+ printMap (fieldsToMap fields).

Definition DebugLogger_Debug := DebugLogger_log "DEBUG".
Definition DebugLogger_Info := DebugLogger_log "INFO".
Definition DebugLogger_Warn := DebugLogger_log "WARN".
Definition DebugLogger_Error := DebugLogger_log "ERROR".

Definition DebugLogger_With (dl : DebugLogger) (fields : list Field) : DebugLogger :=
  mkDebugLogger (foldl (λ prefix f, prefix +:+ " [" +:+ f_Key f +:+ "=" +:+ printValue (f_Value f) +:+ "]") (dl_prefix dl) fields).

Example debug_line :
  DebugLogger_Warn (DebugLogger_With NewDebugLogger [mkField "component" (VString "queue")]) "full"
    [mkField "size" (VInt 3); mkField "id" (VString "a"); mkField "size" (VInt 4)]
  = "[WARN] [component=queue] full map[id:a size:4]".
Proof. vm_compute. reflexivity. Qed.

Lemma DebugLogger_With_With dl fields more :
  DebugLogger_With (DebugLogger_With dl fields) more = DebugLogger_With dl (fields ++ more).
Proof. unfold DebugLogger_With. simpl. by rewrite foldl_app. Qed.
