(* ===== verification/TestHelpers.v ===== *)
(** * TestHelpers: internal/testutils/test_helpers.go

    The validation of file paths, copying a file and finding free ports; what
    the file system and the network answer is an argument. *)

From Stdlib Require Import Ascii.
From S2P Require Import Prelude GoStd GoText Errors.
Local Open Scope vpa_scope.

(* ------------------------------------------------------------------ *)
(** ** filepath.Clean *)

(** One element of a path: a parent element takes the last one off, is kept
    at the start of a relative path, and dropped at the root. *)
Definition cleanElement (rooted : bool) (kept : list string) (s : string) : list string :=
  if String.eqb s "" || String.eqb s "." then kept
  else if String.eqb s ".." then
    match kept with
    | [] => if rooted then [] else [".."]
    | k :: rest => if String.eqb k ".." then ".." :: kept else rest
    end
  else s :: kept.

Definition IsAbs (path : string) : bool := hasPrefix path "/".

Definition Clean (path : string) : string :=
  let rooted := IsAbs path in
  let elements := reverse (foldl (cleanElement rooted) [] (Split path "/"%char)) in
  if rooted then "/" +:+ Join elements "/"
  else if bool_decide (elements = []) then "." else Join elements "/".

Example Clean_examples :
  map Clean [""; "a/b"; "./a//b/"; "a/../b"; "../a"; "/../a"; "/a/./b/.."; "a/.."; "../../x"]
  = ["."; "a/b"; "a/b"; "b"; "../a"; "/a"; "/a"; "."; "../../x"].
Proof. vm_compute. reflexivity. Qed.

(* ------------------------------------------------------------------ *)
(** ** validateFilePath *)

(** [tempDir]: os.TempDir; [wd]: os.Getwd. *)
Definition validateFilePath (tempDir : string) (wd : result string) (path : string) : option goError :=
  if String.eqb path "" then Some (EText "empty path")
  else if contains path ".." then Some (EText "path traversal detected")
  else
    let cleanPath := Clean path in
    if IsAbs cleanPath &&
       (hasPrefix cleanPath "/tmp/" || hasPrefix cleanPath "/var/tmp/" || hasPrefix cleanPath tempDir ||
        match wd with Ok wd => hasPrefix cleanPath wd | Err _ => false end)
    then None
    else if negb (hasPrefix cleanPath "/") && negb (contains cleanPath "..") then None
    else Some (EText "potentially unsafe file path").

(** The files: opening, creating, copying. [None] is success. *)
Record fileSystem := mkFileSystem {
  fs_Open : string → option goError; fs_Create : string → option goError; fs_Copy : option goError
}.

(** The paths that were opened and created, in order. *)
Inductive fileAccess := Opened (path : string) | Created (path : string).

Definition CopyFile (tempDir : string) (wd : result string) (fs : fileSystem) (src dst : string)
  : option goError * list fileAccess :=
  match validateFilePath tempDir wd src with
  | Some err => (Some (errorf_w "invalid source path" err), [])
  | None =>
      match validateFilePath tempDir wd dst with
      | Some err => (Some (errorf_w "invalid destination path" err), [])
      | None =>
          let src := Clean src in
          let dst := Clean dst in
          match fs_Open fs src with
          | Some err => (Some (errorf_w ("failed to open source file " +:+ src) err), [Opened src])
          | None =>
              match fs_Create fs dst with
              | Some err => (Some (errorf_w ("failed to create destination file " +:+ dst) err), [Opened src; Created dst])
              | None =>
                  (errorf_w ("failed to copy from " +:+ src +:+ " to " +:+ dst) <$> fs_Copy fs, [Opened src; Created dst])
              end
          end
      end
  end.

(** [listened]: the address of a listener; [None] is no TCP address. *)
Definition GetFreePort (listened : result (option Z)) : result Z :=
  match listened with
  | Err err => Err (errorf_w "failed to allocate port" err)
  | Ok None => Err (EText "failed to convert to TCP address")
  | Ok (Some port) => Ok port
  end.

(** The loop, with what the i-th call finds. *)
Fixpoint freePorts (listened : nat → result (option Z)) (i : nat) (count : nat) : result (list Z) :=
  match count with
  | O => Ok []
  | S count =>
      match GetFreePort (listened i) with
      | Err err => Err (errorf_w ("failed to allocate port " +:+ itoa (Z.of_nat i)) err)
      | Ok port =>
          match freePorts listened (S i) count with
          | Ok ports => Ok (port :: ports)
          | Err err => Err err
          end
      end
  end.

(** make panics for a negative length. *)
Definition GetFreePorts (listened : nat → result (option Z)) (count : Z) : outcome (result (list Z)) :=
  if (count <? 0)%Z then Panicked "makeslice: len out of range"
  else Returned (freePorts listened 0 (Z.to_nat count)).

(* ------------------------------------------------------------------ *)
(** ** What is accepted *)

(** Elements of a clean path without parent elements. *)
Definition element (s : string) : Prop := s ≠ "" ∧ s ≠ "." ∧ s ≠ ".." ∧ hasByte s "/"%char = false.

Lemma Join_parts segs s sep : s ∈ segs → ∃ a b, Join segs sep = a +:+ s +:+ b.
Proof.
  induction segs as [|t [|u segs] IH]; intros Hin; [by apply elem_of_nil in Hin|..].
  - apply list_elem_of_singleton in Hin as ->. exists "", "". by rewrite append_nil_r.
  - apply elem_of_cons in Hin as [->|Hin].
    + exists "". by eexists.
    + destruct (IH Hin) as (a&b&E). rewrite Join_cons, E. exists (t +:+ sep +:+ a), b. by rewrite <- !append_assoc.
Qed.

(** A path without two dots in a row has no parent element. *)
Lemma no_parents path : contains path ".." = false → ".." ∉ Split path "/"%char.
Proof.
  intros Hc Hin. destruct (Join_parts _ _ (String "/" "") Hin) as (a&b&E). rewrite Join_Split in E.
  rewrite E in Hc. by rewrite contains_app in Hc.
Qed.

Lemma cleanElements rooted segs :
  Forall (λ s, hasByte s "/"%char = false) segs → ".." ∉ segs →
  Forall element (reverse (foldl (cleanElement rooted) [] segs)).
Proof.
  intros Hf Hno. apply Forall_reverse. assert (Forall element []) as H0 by constructor. revert H0 Hno.
  generalize (@nil string). induction Hf as [|s segs Hs _ IH]; intros kept Hk Hno; [done|].
  apply not_elem_of_cons in Hno as [Hne Hno]. simpl. apply IH; [|done]. unfold cleanElement.
  destruct (String.eqb_spec s "") as [->|H1]; [done|]. destruct (String.eqb_spec s ".") as [->|H2]; [done|].
  destruct (String.eqb_spec s ".."); [congruence|]. by constructor.
Qed.

(** The cleaned path is the root or the working directory, and elements below
    it. *)
Lemma Clean_below path :
  contains path ".." = false →
  ∃ segs, Forall element segs ∧
    Clean path = if IsAbs path then "/" +:+ Join segs "/" else if bool_decide (segs = []) then "." else Join segs "/".
Proof.
  intros Hc. eexists. split; [|reflexivity]. apply cleanElements; [apply Split_noSep|by apply no_parents].
Qed.

(** Two dots in a row, around a separator. *)
Definition dots (s : string) : bool := contains s "..".

Lemma dots_cons c s : dots (String c s) = hasPrefix (String c s) ".." || dots s.
Proof.
  unfold dots, contains, hasPrefix. cbn [String.index]. destruct (String.prefix ".." (String c s)); [done|].
  by destruct (String.index 0 ".." s).
Qed.

Lemma dots_around s t : dots (s +:+ "/" +:+ t) = dots s || dots t.
Proof.
  induction s as [|c s IH]; [exact (dots_cons "/" t)|]. rewrite append_cons, !dots_cons, IH, orb_assoc.
  enough (hasPrefix (String c (s +:+ "/" +:+ t)) ".." = hasPrefix (String c s) "..") as -> by done.
  unfold hasPrefix. cbn [String.prefix]. destruct (ascii_dec "." c); [|done].
  destruct s as [|d s]; [done|]. rewrite append_cons. cbn [String.prefix]. destruct (ascii_dec "." d); [|done].
  by destruct (s +:+ "/" +:+ t), s.
Qed.

Lemma dots_Join l : dots (Join l "/") = existsb dots l.
Proof.
  induction l as [|s [|t l] IH]; [done|simpl; by rewrite orb_false_r|].
  rewrite Join_cons, dots_around, IH. done.
Qed.

Lemma cleaned_elements rooted segs kept s :
  s ∈ foldl (cleanElement rooted) kept segs → ".." ∉ segs → s ∈ kept ∨ s ∈ segs.
Proof.
  revert kept. induction segs as [|t segs IH]; intros kept Hin Hno; [by left|].
  apply not_elem_of_cons in Hno as [Hne Hno]. destruct (IH _ Hin Hno) as [H|]; [|right; by right].
  unfold cleanElement in H. destruct (String.eqb t "" || String.eqb t "."); [by left|].
  destruct (String.eqb_spec t ".."); [congruence|]. apply elem_of_cons in H as [->|]; [right; left|by left].
Qed.

Lemma Clean_dots path : dots path = false → dots (Clean path) = false.
Proof.
  intros Hd. pose proof (no_parents _ Hd) as Hno. unfold Clean.
  assert (dots (Join (reverse (foldl (cleanElement (IsAbs path)) [] (Split path "/"%char))) "/") = false) as Hj.
  { rewrite dots_Join. apply not_true_is_false. intros (s&Hin%list_elem_of_In&Hs)%existsb_exists.
    rewrite elem_of_reverse in Hin. destruct (cleaned_elements _ _ _ _ Hin Hno) as [[]%elem_of_nil|Hin'].
    rewrite <- (Join_Split path "/"%char), dots_Join in Hd. apply not_true_iff_false in Hd. apply Hd, existsb_exists.
    exists s. by rewrite <- list_elem_of_In. }
  destruct (IsAbs path); [exact (eq_trans (dots_around "" _) Hj)|]. by case_bool_decide.
Qed.

Lemma IsAbs_Clean path : contains path ".." = false → IsAbs (Clean path) = IsAbs path.
Proof.
  intros Hc. destruct (Clean_below path Hc) as (segs&Hs&->). destruct (IsAbs path); [exact (hasPrefix_app "/" _)|].
  case_bool_decide as Hn; [done|]. destruct segs as [|s segs]; [done|]. inversion Hs as [|?? (He&_&_&Hb) _]; subst.
  destruct s as [|c s]; [done|]. apply hasByte_false in Hb. cbn [String.list_ascii_of_string] in Hb.
  apply not_elem_of_cons in Hb as [Hb _].
  assert (∃ r, Join (String c s :: segs) "/" = String c r) as [r ->] by (destruct segs; by eexists).
  unfold IsAbs, hasPrefix. cbn [String.prefix]. by destruct (ascii_dec "/" c).
Qed.

(** The directories the tests may use. *)
Definition allowedRoot (tempDir : string) (wd : result string) (cleanPath : string) : bool :=
  hasPrefix cleanPath "/tmp/" || hasPrefix cleanPath "/var/tmp/" || hasPrefix cleanPath tempDir ||
  match wd with Ok wd => hasPrefix cleanPath wd | Err _ => false end.

(** Accepted: a relative path, or one that starts like an allowed directory,
    without two dots in a row anywhere. *)
Lemma validateFilePath_spec tempDir wd path :
  validateFilePath tempDir wd path = None ↔
  path ≠ "" ∧ dots path = false ∧ (IsAbs path = false ∨ allowedRoot tempDir wd (Clean path) = true).
Proof.
  unfold validateFilePath. destruct (String.eqb_spec path "") as [->|He]; [naive_solver|].
  unfold dots. destruct (contains path "..") eqn:Hd; [naive_solver|]. cbv zeta.
  rewrite (IsAbs_Clean path Hd). change (contains (Clean path) "..") with (dots (Clean path)).
  rewrite (Clean_dots path Hd). change (hasPrefix (Clean path) "/") with (IsAbs (Clean path)). rewrite (IsAbs_Clean path Hd).
  fold (allowedRoot tempDir wd (Clean path)). destruct (IsAbs path), (allowedRoot tempDir wd (Clean path)); naive_solver.
Qed.

(** What CopyFile touches: cleaned forms of paths that were accepted. *)
Lemma CopyFile_touches tempDir wd fs src dst a :
  a ∈ (CopyFile tempDir wd fs src dst).2 →
  ∃ path, validateFilePath tempDir wd path = None ∧ (a = Opened (Clean path) ∧ path = src ∨ a = Created (Clean path) ∧ path = dst).
Proof.
  unfold CopyFile. destruct (validateFilePath tempDir wd src) eqn:Es; [by intros ?%elem_of_nil|].
  destruct (validateFilePath tempDir wd dst) eqn:Ed; [by intros ?%elem_of_nil|]. cbv zeta.
  destruct (fs_Open fs (Clean src)); [intros ->%list_elem_of_singleton; eauto 6|].
  destruct (fs_Create fs (Clean dst)); intros [->| ->%list_elem_of_singleton]%elem_of_cons; eauto 7.
Qed.

(** The working directory is a prefix of the text, not a directory: its
    neighbours whose names start with its name are accepted. *)
Lemma neighbours_are_accepted tempDir wd name :
  IsAbs wd = true → dots (wd +:+ "-" +:+ name) = false → Clean (wd +:+ "-" +:+ name) = wd +:+ "-" +:+ name →
  validateFilePath tempDir (Ok wd) (wd +:+ "-" +:+ name) = None.
Proof.
  intros Ha Hd Hc. apply validateFilePath_spec. split_and!; [by destruct wd|done|]. right. rewrite Hc. unfold allowedRoot.
  by rewrite hasPrefix_app, !orb_true_r.
Qed.

Example a_neighbour_is_accepted :
  validateFilePath "/scratch" (Ok "/home/u/app") "/home/u/app-secrets/key" = None.
Proof. apply (neighbours_are_accepted "/scratch" "/home/u/app" "secrets/key"); vm_compute; reflexivity. Qed.
