(* ===== verification/Interfaces.v ===== *)
(** * Interfaces: the rest of internal/domain/types.go

    The types no other file needs, the string types with the places that read
    them, and the interfaces of the queue and the checker with their implementations.
    domain.PeerJoiner has none: the memberlist service's methods have other
    result types. *)

From S2P Require Import Prelude Errors Domain Http Config Health Queue Auth Readiness Formatters Logger Memberlist Discovery ComponentDoubles.

(* ------------------------------------------------------------------ *)
(** ** Data *)

Record RequestContext := mkRequestContext { rq_User : option User; rq_RequestID : string; rq_StartTime : Z }.
Record AuthResult := mkAuthResult { ar_User : option User; ar_Error : option goError }.
Record PeerInfo := mkPeerInfo {
  pi_Address : string; pi_Port : Z; pi_NodeID : string; pi_Metadata : gmap string string
}.
Record BackendInfo := mkBackendInfo {
  bi_URL : string; bi_Weight : Z; bi_Healthy : bool; bi_LastSeen : Z; bi_Metadata : gmap string string
}.
Record NodeInfo := mkNodeInfo {
  ni_NodeID : string; ni_Address : string; ni_RaftAddress : string; ni_Version : string;
  ni_StartTime : Z; ni_Metadata : gmap string string
}.
Record ServiceDiscoveryEvent := mkDiscoveryEvent {
  de_Type : string; de_Peer : option PeerInfo; de_Backend : option BackendInfo; de_Timestamp : Z
}.
Record TenantLabelsConfig := mkTenantLabels { tl_TenantLabel : string; tl_ProjectLabel : string; tl_UseProjectID : bool }.
Inductive LabelMatchType := LabelMatchEqual | LabelMatchRegexp.

Definition ServiceDiscoveryEventTypes : list string :=
  ["peer_joined"; "peer_left"; "peer_updated"; "backend_added"; "backend_removed"; "backend_updated"].
Definition RequestIDKey : string := "request_id".
Definition HealthStatusHealthy : string := "healthy".

(* ------------------------------------------------------------------ *)
(** ** String types and who reads them *)

Definition LogFormatJSON : string := "json".
Definition LogFormatLogFmt : string := "logfmt".
Definition LogFormatPretty : string := "pretty".
Definition LogFormatConsole : string := "console".
Definition LogLevelDebug : string := "debug".
Definition LogLevelInfo : string := "info".
Definition LogLevelWarn : string := "warn".
Definition LogLevelError : string := "error".
Definition JWTAlgorithmHS256 : string := "HS256".
Definition JWTAlgorithmRS256 : string := "RS256".

(** The logger has a formatter and a level of its own for every constant;
    any other word falls back to JSON and info. *)
Lemma logger_knows_the_constants colors :
  formatterOf colors <$> [LogFormatJSON; LogFormatLogFmt; LogFormatPretty; LogFormatConsole]
    = [JSONFormatter; LogFmtFormatter; Logger.PrettyFormatter colors; ConsoleFormatter] ∧
  levelOf <$> [LogLevelDebug; LogLevelInfo; LogLevelWarn; LogLevelError] = [DebugLevel; InfoLevel; WarnLevel; ErrorLevel] ∧
  (∀ format, format ∉ [LogFormatLogFmt; LogFormatPretty; LogFormatConsole] → formatterOf colors format = JSONFormatter) ∧
  (∀ level, level ∉ [LogLevelDebug; LogLevelWarn; LogLevelError] → levelOf level = InfoLevel).
Proof.
  split_and!; [reflexivity..| |]; intros s Hs; rewrite !not_elem_of_cons in Hs; destruct Hs as (H1&H2&H3&_);
    unfold formatterOf, levelOf; repeat (case_match; [by rewrite ?String.eqb_eq in *|]); try done.
  all: by destruct (String.eqb_spec s "json").
Qed.

(** Of the formats the configuration admits, the logger reads one, and
    writes JSON for the other as well. *)
Lemma admitted_formats_write_json colors format : format ∈ validFormats → formatterOf colors format = JSONFormatter.
Proof. unfold validFormats. rewrite !elem_of_cons. by intros [->|[->|[]%elem_of_nil]]. Qed.

(** Validation lets through the algorithms of the constants only. *)
Lemma algorithms_are_the_constants j :
  JWTConfig_Validate j = None → jw_Algorithm j ∈ [JWTAlgorithmHS256; JWTAlgorithmRS256].
Proof.
  intros H. destruct (decide (jw_Algorithm j ∈ [JWTAlgorithmHS256; JWTAlgorithmRS256])) as [|Hn]; [done|exfalso].
  rewrite !not_elem_of_cons in Hn. destruct Hn as (H1&H2&_). unfold JWTConfig_Validate in H.
  rewrite (proj2 (String.eqb_neq _ "RS256") H2), (proj2 (String.eqb_neq _ "HS256") H1) in H. simpl in H. by case_match.
Qed.

(* ------------------------------------------------------------------ *)
(** ** domain.RequestQueue *)

(** [ctxErr] and [preferCtx]: the context, and what select takes; [wake]:
    what ends a wait. *)
Class RequestQueue (Q Req : Type) := {
  rq_Enqueue : Q → option goError → bool → Req → option goError * Q;
  rq_Dequeue : Q → option goError → bool → wakeUp Req → result Req * Q;
  rq_Size : Q → Z;
  rq_Close : Q → Q
}.

(** What a queue promises: it holds requests in the order they came, hands
    out the oldest, and takes nothing that it refuses. *)
Class RequestQueueSpec (Q Req : Type) `{RequestQueue Q Req} := {
  rq_waiting : Q → list Req;
  rq_open : Q → bool;
  rq_Enqueue_spec q ctxErr preferCtx req :
    let '(err, q') := rq_Enqueue q ctxErr preferCtx req in
    rq_open q' = rq_open q ∧ rq_waiting q' = rq_waiting q ++ (if decide (err = None) then [req] else []) ∧
    (rq_open q = false → err = Some (EApp ErrQueueClosed));
  rq_Dequeue_spec q ctxErr preferCtx wake :
    let '(r, q') := rq_Dequeue q ctxErr preferCtx wake in
    rq_open q' = rq_open q ∧
    match r with
    | Ok req => rq_waiting q = req :: rq_waiting q' ∨ (rq_waiting q = [] ∧ rq_waiting q' = [] ∧ wake = WakeRequest req)
    | Err _ => rq_waiting q' = rq_waiting q
    end ∧ (rq_open q = false → r = Err (EApp ErrQueueClosed));
  rq_Size_spec q : rq_Size q = Z.of_nat (length (rq_waiting q));
  rq_Close_spec q : rq_open (rq_Close q) = false ∧ rq_waiting (rq_Close q) = rq_waiting q
}.

#[global] Instance MemoryQueue_RequestQueue {Req} : RequestQueue (MemoryQueue Req) Req := {
  rq_Enqueue := Enqueue; rq_Dequeue := Dequeue; rq_Size := Size; rq_Close := Queue.Close
}.

#[global] Instance MemoryQueue_RequestQueueSpec {Req} : RequestQueueSpec (MemoryQueue Req) Req.
Proof.
  refine {| rq_waiting := queue; rq_open q := negb (closed q) |}.
  - intros q ctxErr preferCtx req. simpl. unfold Enqueue. destruct (closed q) eqn:Ec; [by rewrite Ec, app_nil_r|].
    destruct ctxErr as [e|].
    + destruct (hasRoom q && negb preferCtx); simpl; [by rewrite Ec|by rewrite Ec, app_nil_r].
    + destruct (hasRoom q); simpl; [by rewrite Ec|by rewrite Ec, app_nil_r].
  - intros q ctxErr preferCtx wake. simpl. unfold Dequeue. destruct (closed q) eqn:Ec; [by rewrite Ec|].
    destruct (queue q) as [|r rest] eqn:Eq, ctxErr as [e|].
    + by rewrite Ec, Eq.
    + destruct (timeout q <=? 0)%Z; [by rewrite Ec, Eq|]. destruct wake; simpl; rewrite ?Ec, ?Eq; split_and!; try done. by right.
    + destruct preferCtx; simpl; rewrite ?Ec, ?Eq; split_and!; try done. by left.
    + simpl. rewrite Ec. split_and!; try done. by left.
  - done.
  - intros q. simpl. unfold Queue.Close. by destruct (closed q) eqn:E; rewrite ?E.
Defined.

(** Calls of a client, with what the others do meanwhile. *)
Inductive queueCall (Req : Type) :=
| CEnqueue (ctxErr : option goError) (preferCtx : bool) (req : Req)
| CDequeue (ctxErr : option goError) (preferCtx : bool) (wake : wakeUp Req)
| CClose.
Arguments CEnqueue {Req} _ _ _.
Arguments CDequeue {Req} _ _ _.
Arguments CClose {Req}.

Section Client.
Context {Q Req : Type} `{HS : RequestQueueSpec Q Req}.

(** The queue after the calls, what was accepted and what was handed out,
    oldest first. A request that wakes a waiting call counts for both. *)
Fixpoint callsOn (q : Q) (l : list (queueCall Req)) : Q * list Req * list Req :=
  match l with
  | [] => (q, [], [])
  | CEnqueue ctxErr preferCtx req :: l =>
      let '(err, q) := rq_Enqueue q ctxErr preferCtx req in
      let '(q, accepted, handed) := callsOn q l in
      (q, (if decide (err = None) then [req] else []) ++ accepted, handed)
  | CDequeue ctxErr preferCtx wake :: l =>
      let woken := match rq_waiting q with [] => true | _ => false end in
      let '(r, q) := rq_Dequeue q ctxErr preferCtx wake in
      let '(q, accepted, handed) := callsOn q l in
      match r with
      | Ok req => (q, (if woken then [req] else []) ++ accepted, req :: handed)
      | Err _ => (q, accepted, handed)
      end
  | CClose :: l => callsOn (rq_Close q) l
  end.

(** Any implementation is first-in first-out to its clients. *)
Lemma clients_see_a_queue q l :
  let '(q', accepted, handed) := callsOn q l in rq_waiting q ++ accepted = handed ++ rq_waiting q'.
Proof.
  revert q. induction l as [|[ctxErr preferCtx req|ctxErr preferCtx wake|] l IH]; intros q; simpl; [by rewrite app_nil_r| | |].
  - pose proof (rq_Enqueue_spec q ctxErr preferCtx req) as He. destruct (rq_Enqueue q ctxErr preferCtx req) as [err q1].
    destruct He as (_&Hw&_). specialize (IH q1). destruct (callsOn q1 l) as [[q2 acc] handed]. by rewrite app_assoc, <- Hw.
  - pose proof (rq_Dequeue_spec q ctxErr preferCtx wake) as He. destruct (rq_Dequeue q ctxErr preferCtx wake) as [r q1].
    destruct He as (_&Hr&_). specialize (IH q1). destruct (callsOn q1 l) as [[q2 acc] handed].
    destruct r as [req|err]; [|by rewrite <- Hr].
    destruct Hr as [->|(->&H1&_)]; simpl; [by rewrite IH|]. by rewrite H1 in IH; simpl in IH; rewrite IH.
  - specialize (IH (rq_Close q)). destruct (callsOn (rq_Close q) l) as [[q2 acc] handed].
    by destruct (rq_Close_spec q) as [_ <-].
Qed.

(** A closed queue takes and gives nothing. *)
Lemma closed_queue_refuses q ctxErr preferCtx req wake :
  (rq_Enqueue (rq_Close q) ctxErr preferCtx req).1 = Some (EApp ErrQueueClosed) ∧
  (rq_Dequeue (rq_Close q) ctxErr preferCtx wake).1 = Err (EApp ErrQueueClosed).
Proof.
  destruct (rq_Close_spec q) as [Ho _].
  pose proof (rq_Enqueue_spec (rq_Close q) ctxErr preferCtx req) as H1.
  pose proof (rq_Dequeue_spec (rq_Close q) ctxErr preferCtx wake) as H2.
  destruct (rq_Enqueue _ _ _ _), (rq_Dequeue _ _ _ _). naive_solver.
Qed.
End Client.

(* ------------------------------------------------------------------ *)
(** ** domain.HealthChecker *)

(** A check has the environment's answers as arguments; starting tells
    whether a goroutine runs. *)
Class HealthChecker (C : Type) := {
  hk_CheckHealth : C → Backend → (string → probeResult) → Z → option goError * C;
  hk_StartMonitoring : C → option goError * C;
  hk_Stop : C → outcome (option goError * C)
}.

#[global] Instance Checker_HealthChecker : HealthChecker Checker := {
  hk_CheckHealth hc b probe now := (CheckHealth hc b probe now).1;
  hk_StartMonitoring hc := ((Health.StartMonitoring hc).1.1, (Health.StartMonitoring hc).2);
  hk_Stop hc := do! hc <- Health.Stop hc; Returned (None, hc)
}.

#[global] Instance MockHealthChecker_HealthChecker {S} : HealthChecker (MockHealthChecker S * S) := {
  hk_CheckHealth m b _ _ := let '(err, s) := MockHealthChecker_CheckHealth m.1 m.2 b in (err, (m.1, s));
  hk_StartMonitoring m := let '(err, s) := MockHealthChecker_StartMonitoring m.1 m.2 in (err, (m.1, s));
  hk_Stop m := let '(err, s) := MockHealthChecker_Stop m.1 m.2 in Returned (err, (m.1, s))
}.
