(* ===== verification/Conformance.v ===== *)
(** * Conformance: cases of the program's own tests

    Tables of the unit tests, evaluated on the model: what a test expects the
    program to print or decide is what the definitions compute. *)

From Stdlib Require Import Ascii.
From S2P Require Import Prelude GoStd GoText Errors Domain LoadBalancer RoundRobin LeastConn Weighted Access Formatters Queue.
From S2P Require Float64 Http HclogAdapter Logger Config Health Tenant.

Definition containsAll (output : string) (parts : list string) : bool := forallb (contains output) parts.
Definition endsLine (output : string) : bool := String.eqb (String.substring (String.length output - 1) 1 output) nl.

(* ------------------------------------------------------------------ *)
(** ** formatters/logfmt_test.go *)

Definition testTime : Z := 1672574400 * Second.
Definition ascii_printable (c : N) : bool := (32 <=? c)%N && (c <? 127)%N.
Definition quoted (s : string) : string := String "034"%char (s +:+ String "034"%char "").
Definition escaped (s : string) : string := "\" +:+ quoted (s +:+ "\").

Definition logfmtTest (level : Level) (message : string) (data : list (string * fieldValue)) (expected : list string) : bool :=
  let output := LogFmtFormatter_Format ascii_printable (mkEntry level testTime message (list_to_map data)) (map fst data) in
  containsAll output expected && endsLine output.

Example TestLogFmtFormatter_Format :
  forallb id
    [logfmtTest InfoLevel "test message" [] ["level=info"; "time=2023-01-01T12:00:00.000Z"; "msg=" +:+ quoted "test message"];
     logfmtTest InfoLevel "user authenticated"
       [("user_id", VString "123"); ("component", VString "auth"); ("request_id", VString "req-456")]
       ["level=info"; "msg=" +:+ quoted "user authenticated"; "component=auth"; "request_id=req-456"; "user_id=123"];
     logfmtTest WarnLevel "test with spaces and = signs"
       [("query", VString ("sum(cpu_usage{cluster=" +:+ quoted "prod" +:+ "})")); ("empty_field", VString "");
        ("space_value", VString "value with spaces")]
       ["level=warn"; "msg=" +:+ quoted "test with spaces and = signs";
        "query=" +:+ quoted ("sum(cpu_usage{cluster=" +:+ escaped "prod" +:+ "})");
        "empty_field=" +:+ quoted ""; "space_value=" +:+ quoted "value with spaces"];
     logfmtTest DebugLevel "debug info" [("trace", VString "enabled")]
       ["level=debug"; "msg=" +:+ quoted "debug info"; "trace=enabled"];
     logfmtTest ErrorLevel "error occurred" [("error", VString "connection timeout"); ("retry_count", VInt 3)]
       ["level=error"; "msg=" +:+ quoted "error occurred"; "error=" +:+ quoted "connection timeout"; "retry_count=3"]] = true.
Proof. vm_compute. reflexivity. Qed.

Example TestLogFmtFormatter_FormatValue :
  map (formatValue ascii_printable)
    [VNil; VString "hello"; VString "hello world"; VString "key=value"; VString ("say " +:+ quoted "hello"); VString ""; VInt 42; VBool true]
  = ["<nil>"; "hello"; quoted "hello world"; quoted "key=value"; quoted ("say " +:+ escaped "hello"); quoted ""; "42"; "true"].
Proof. vm_compute. reflexivity. Qed.

Example TestLogFmtFormatter_NeedsQuoting :
  map needsQuoting
    ["hello"; ""; "hello world"; "key=value"; "say " +:+ quoted "hello";
     "hello" +:+ String "009"%char "world"; "hello" +:+ String "010"%char "world"; "hello" +:+ String "013"%char "world"]
  = [false; true; true; true; true; true; true; true].
Proof. vm_compute. reflexivity. Qed.

Example TestLogFmtFormatter_FieldOrdering :
  contains (LogFmtFormatter_Format ascii_printable (mkEntry InfoLevel testTime "test ordering"
      (list_to_map [("zebra", VString "last"); ("alpha", VString "first"); ("beta", VString "second"); ("gamma", VString "third")]))
      ["zebra"; "gamma"; "alpha"; "beta"])
    "alpha=first beta=second gamma=third zebra=last" = true.
Proof. vm_compute. reflexivity. Qed.

(* ------------------------------------------------------------------ *)
(** ** formatters/console_test.go *)

Definition consoleTest (level : Level) (message : string) (data : list (string * fieldValue)) : string :=
  ConsoleFormatter_Format (mkEntry level testTime message (list_to_map data)).

Example TestConsoleFormatter_Format :
  [consoleTest InfoLevel "server started" [];
   consoleTest ErrorLevel "authentication failed"
     [("user_id", VString "123"); ("error", VString "invalid token"); ("component", VString "auth");
      ("extra_data", VString "should not appear")];
   consoleTest WarnLevel "slow request"
     [("method", VString "POST"); ("path", VString "/api/v1/query"); ("duration", VString "2.5s"); ("status", VString "200");
      ("user_id", VString "456")];
   consoleTest InfoLevel "background task completed" [("task_id", VString "task-123"); ("internal_id", VString "int-456")];
   consoleTest InfoLevel "processing request"
     [("user_id", VString ""); ("error", VNil); ("method", VString "GET"); ("component", VString "proxy")]]
  = ["[INFO] server started" +:+ nl;
     "[ERROR] authentication failed - user_id: 123, error: invalid token, component: auth" +:+ nl;
     "[WARNING] slow request - user_id: 456, status: 200, method: POST, path: /api/v1/query, duration: 2.5s" +:+ nl;
     "[INFO] background task completed" +:+ nl;
     "[INFO] processing request - method: GET, component: proxy" +:+ nl].
Proof. vm_compute. reflexivity. Qed.

Example TestConsoleFormatter_ExtractImportantFields :
  extractImportantFields (list_to_map
    [("user_id", VString "user123"); ("user", VString "john"); ("error", VString "timeout"); ("status", VString "error");
     ("method", VString "POST"); ("path", VString "/api/query"); ("duration", VString "1.5s"); ("tenant_id", VString "tenant456");
     ("component", VString "gateway"); ("request_id", VString "req789")])
  = "- user_id: user123, user: john, error: timeout, status: error, method: POST, path: /api/query, duration: 1.5s, tenant_id: tenant456, component: gateway, request_id: req789".
Proof. vm_compute. reflexivity. Qed.

Example TestConsoleFormatter_LevelFormatting :
  map (λ level, consoleTest level "m" []) [InfoLevel; ErrorLevel; WarnLevel; DebugLevel; TraceLevel; FatalLevel; PanicLevel]
  = map (λ s, s +:+ " m" +:+ nl) ["[INFO]"; "[ERROR]"; "[WARNING]"; "[DEBUG]"; "[TRACE]"; "[FATAL]"; "[PANIC]"].
Proof. vm_compute. reflexivity. Qed.

(* ------------------------------------------------------------------ *)
(** ** formatters/pretty_test.go *)

Example TestPrettyFormatter :
  containsAll (PrettyFormatter_Format false 0 (mkEntry ErrorLevel testTime "authentication failed"
      (list_to_map [("user_id", VString "123"); ("error", VString "invalid token"); ("component", VString "auth")])) [])
    ["2023-01-01 12:00:00"; "ERROR"; "authentication failed"; "user_id=123"; "error=" +:+ quoted "invalid token"; "component=auth"] = true ∧
  containsAll (PrettyFormatter_Format false 0 (mkEntry WarnLevel testTime "high memory usage"
      (list_to_map [("memory_percent", VInt 85); ("threshold", VInt 80)])) ["threshold"; "memory_percent"])
    ["2023-01-01 12:00:00"; "WARNING"; "high memory usage"; "memory_percent=85"; "threshold=80"] = true ∧
  map (formatLevel false) [InfoLevel; ErrorLevel; WarnLevel; DebugLevel] = ["INFO "; "ERROR"; "WARNING"; "DEBUG"] ∧
  map (formatFieldValue false) [VNil; VString "hello"; VString "hello world"; VInt 42; VBool true]
    = ["<nil>"; "hello"; quoted "hello world"; "42"; "true"] ∧
  map String.length (map padMessage ["test"; "this is a very long message that exceeds the maximum width"]) = [35; 58]%nat.
Proof. vm_compute. by split_and!. Qed.

(* ------------------------------------------------------------------ *)
(** ** logger_test.go and hclog_adapter_test.go *)

Example TestHCLogAdapter_LevelThresholds :
  let adapter := HclogAdapter.SetLevel (HclogAdapter.NewHCLogAdapter (Logger.NewStructuredLogger false "info" "json")) HclogAdapter.Warn_ in
  map (λ enabled, enabled adapter) [HclogAdapter.IsTrace; HclogAdapter.IsDebug; HclogAdapter.IsInfo; HclogAdapter.IsWarn; HclogAdapter.IsError]
    = [false; false; false; true; true] ∧
  HclogAdapter.IsDebug (HclogAdapter.SetLevel adapter HclogAdapter.Debug_) = true ∧
  HclogAdapter.GetLevel (HclogAdapter.SetLevel adapter HclogAdapter.Debug_) = HclogAdapter.Debug_.
Proof. by vm_compute. Qed.

Example TestFieldHelpers :
  [Logger.UserID "user123"; Logger.RequestID "req456"; Logger.PathField "/api/v1/query"; Logger.MethodField "POST"; Logger.StatusCodeField 200]
  = map (λ f, Logger.mkField f.1 f.2) [("user_id", VString "user123"); ("request_id", VString "req456"); ("path", VString "/api/v1/query");
     ("method", VString "POST"); ("status_code", VInt 200)].
Proof. reflexivity. Qed.

(* ------------------------------------------------------------------ *)
(** ** access/service_test.go *)

Definition testUser (groups : list string) (readOnly : bool) : User := mkUser "u@example.com" "" "" groups [] [] readOnly 0.
Definition admin : User := testUser ["admin"] false.
Definition regular : User := testUser ["users"] false.
Definition reader : User := testUser ["readers"] true.

Example TestService_CanAccess_ReadOperations :
  Forall (λ c, CanAccess (Some c.1) c.2 "GET" = None)
    [(admin, "/api/v1/query"); (reader, "/api/v1/query"); (regular, "/api/v1/query"); (admin, "/api/v1/query_range");
     (regular, "/api/v1/series"); (regular, "/api/v1/labels"); (regular, "/api/v1/label/job/values")].
Proof. by repeat constructor. Qed.

Example TestService_CanAccess_WriteOperations :
  Forall (λ c, CanAccess (Some c.1) c.2 "POST" = None)
    [(admin, "/api/v1/write"); (regular, "/api/v1/write"); (admin, "/api/v1/import")] ∧
  Forall (λ path, CanAccess (Some reader) path "POST" = Some (EApp ErrReadOnlyAccess)) ["/api/v1/write"; "/api/v1/import"].
Proof. split; by repeat constructor. Qed.

Example TestService_CanAccess_RestrictedPaths :
  Forall (λ path, CanAccess (Some admin) path "GET" = None ∧ CanAccess (Some regular) path "GET" = Some (EApp ErrAdminRequired))
    ["/api/v1/admin/config"; "/debug/pprof/heap"; "/metrics"].
Proof. by repeat constructor. Qed.

Example TestService_CanAccess_EdgeCases :
  Forall (λ path, CanAccess (Some regular) path "GET" = None)
    [""; "/"; "/API/V1/QUERY"; "/api/v1/query?query=up"; "/unknown/endpoint"; "/health"; "/ready"] ∧
  CanAccess None "/api/v1/query" "GET" = Some (EApp ErrUnauthorized).
Proof. split; by repeat constructor. Qed.

(* ------------------------------------------------------------------ *)
(** ** loadbalancer tests *)

(** The URLs of [n] selections. *)
Definition picks {S} `{LoadBalancer S} (n : nat) (s : S) : list string :=
  map (λ r, match r with Returned (Ok b) => URL b | _ => "" end) (select_n n s).1.
Definition countOf (url : string) (l : list string) : nat := length (filter (λ x, x = url) l).
Definition healthyBackend (url : string) (weight : Z) : Backend := mkBackend url weight BackendHealthy.

Example TestWeightedRoundRobinBalancer_BasicDistribution :
  let l := picks 60 (NewWeightedRoundRobinBalancer [healthyBackend "b1" 3; healthyBackend "b2" 2; healthyBackend "b3" 1]) in
  (countOf "b1" l, countOf "b2" l, countOf "b3" l) = (30, 20, 10)%nat.
Proof. vm_compute. reflexivity. Qed.

Example TestWeightedRoundRobinBalancer_SmoothDistribution :
  let l := picks 12 (NewWeightedRoundRobinBalancer [healthyBackend "b1" 5; healthyBackend "b2" 1]) in
  (countOf "b2" (take 6 l), countOf "b1" l, countOf "b2" l) = (1, 10, 2)%nat.
Proof. vm_compute. reflexivity. Qed.

Example TestWeightedRoundRobinBalancer_DefaultWeights :
  let wrr := NewWeightedRoundRobinBalancer [healthyBackend "b1" 0; healthyBackend "b2" (-5); healthyBackend "b3" 3] in
  map (GetBackendWeight wrr) ["b1"; "b2"; "b3"] = [1; 1; 3]%Z ∧ GetTotalWeight wrr = 5%Z.
Proof. by vm_compute. Qed.

Example TestWeightedRoundRobinBalancer_MixedHealthyUnhealthy :
  let l := picks 50 (NewWeightedRoundRobinBalancer [healthyBackend "b1" 3; mkBackend "b2" 5 BackendUnhealthy; healthyBackend "b3" 2]) in
  (countOf "b1" l, countOf "b2" l, countOf "b3" l) = (30, 0, 20)%nat.
Proof. vm_compute. reflexivity. Qed.

Example TestLeastConnectionsBalancer_LeastConnectionsSelection :
  let bs := [healthyBackend "b1" 1; healthyBackend "b2" 1; healthyBackend "b3" 1] in
  let three := (select_n 3 (NewLeastConnectionsBalancer bs)).2 in
  let lcb := LeastConn.ReportResult three (healthyBackend "b3" 1) None 200 in
  picks 1 lcb = ["b3"] ∧ map (GetBackendConnections (select_n 1 lcb).2) ["b1"; "b2"; "b3"] = [1; 1; 1]%Z.
Proof. by vm_compute. Qed.

(* ------------------------------------------------------------------ *)
(** ** config/modules/proxy/config_test.go and cluster/config_test.go *)

Module Configs.
Import Config.

Definition refusedWith (err : option goError) (text : string) : bool :=
  match err with Some e => contains (Error e) text | None => false end.

Definition health (interval timeout : Z) (endpoint : string) (up down : Z) : HealthCheckConfig :=
  mkHealthCheck (interval * Second) (timeout * Second) endpoint up down.
Definition goodHealth : HealthCheckConfig := health 30 10 "/health" 2 3.
Definition noHealth : HealthCheckConfig := health 0 0 "" 0 0.
Definition reliability (timeout retries : Z) (queue : QueueConfig) : ReliabilityConfig :=
  mkReliability (timeout * Second) retries (100 * Millisecond) queue.
Definition noReliability : ReliabilityConfig := mkReliability 0 0 0 (mkQueueConfig false 0 0).
Definition localVM : list UpstreamConfig := [mkUpstream "http://localhost:8428" 1].
Definition proxyTest (upstreams : list UpstreamConfig) (strategy : string) (h : HealthCheckConfig) (r : ReliabilityConfig)
  : option goError := ProxyConfig_Validate (λ _, None) (mkProxyConfig upstreams (mkRouting strategy h) r).

Example TestProxyConfig_Validate_Success :
  [proxyTest localVM "round-robin" goodHealth (reliability 30 3 (mkQueueConfig false 1000 (5 * Second)));
   proxyTest [mkUpstream "http://vm-1:8428" 3; mkUpstream "http://vm-2:8428" 2; mkUpstream "http://vm-3:8428" 1]
     "weighted-round-robin" (health 15 5 "/metrics" 1 2) (reliability 60 5 (mkQueueConfig true 5000 (30 * Second)));
   proxyTest [mkUpstream "http://vm-1:8428" 0; mkUpstream "http://vm-2:8428" 2]
     "least-connections" (health 45 15 "/ready" 3 5) (reliability 45 2 (mkQueueConfig false 100 (1 * Second)))]
  = [None; None; None].
Proof. vm_compute. reflexivity. Qed.

Example TestProxyConfig_Validate_Failure :
  forallb (λ c, refusedWith c.1 c.2)
    [(proxyTest [] "" noHealth noReliability, "at least one upstream is required");
     (proxyTest [mkUpstream "" 1] "" noHealth noReliability, "upstream URL is required");
     (proxyTest [mkUpstream "http://localhost:8428" (-1)] "" noHealth noReliability, "upstream weight must be non-negative");
     (proxyTest localVM "invalid-strategy" noHealth noReliability, "invalid routing strategy");
     (proxyTest localVM "round-robin" (health (-1) 0 "" 0 0) noReliability, "health check interval must be positive");
     (proxyTest localVM "round-robin" (health 30 0 "" 0 0) noReliability, "health check timeout must be positive");
     (proxyTest localVM "round-robin" (health 30 10 "" 2 3) noReliability, "health check endpoint is required");
     (proxyTest localVM "round-robin" (health 30 10 "/health" 0 0) noReliability, "healthy threshold must be positive");
     (proxyTest localVM "round-robin" (health 30 10 "/health" 2 0) noReliability, "unhealthy threshold must be positive");
     (proxyTest localVM "round-robin" goodHealth noReliability, "timeout must be positive");
     (proxyTest localVM "round-robin" goodHealth (reliability 30 (-1) (mkQueueConfig false 0 0)), "retries must be non-negative");
     (proxyTest localVM "round-robin" goodHealth (reliability 30 3 (mkQueueConfig true (-1) 0)), "queue max size must be positive");
     (proxyTest localVM "round-robin" goodHealth (reliability 30 3 (mkQueueConfig true 1000 0)), "queue timeout must be positive")]
  = true.
Proof. vm_compute. reflexivity. Qed.

Definition gossip (milliseconds nodes : Z) : GossipConfig := mkGossip (milliseconds * Millisecond) nodes.
Definition probe (interval timeout : Z) : ProbeConfig := mkProbe (interval * Millisecond) (timeout * Millisecond).
Definition members (bind advertise : string) (g : GossipConfig) (p : ProbeConfig) : MemberlistConfig :=
  mkMemberlistConfig bind advertise [] "" g p ∅.
Definition goodMembers : MemberlistConfig := members "0.0.0.0:7946" "" (gossip 200 3) (probe 1000 500).
Definition noMDNS : MDNSConfig := mkMDNS false "" "" "" 0 ∅.
Definition discovery (seconds : Z) (static : option (list string)) (m : MDNSConfig) : DiscoveryConfig :=
  mkDiscovery true (seconds * Second) [] static m.
Definition clusterTest (m : MemberlistConfig) (d : DiscoveryConfig) : option goError := ClusterConfig_Validate (mkCluster m d).

Example TestClusterConfig_Validate_Success :
  [clusterTest goodMembers (discovery 30 None (mkMDNS true "vm-proxy-auth" "local" "" 7946 ∅));
   clusterTest (members "10.0.1.5:7946" "10.0.1.5:7946" (gossip 100 5) (probe 2000 1000))
     (discovery 15 (Some ["vm-proxy-seed-1:7946"; "vm-proxy-seed-2:7946"]) (mkMDNS false "vm-proxy-auth" "local" "vm-proxy-1" 7946 ∅));
   clusterTest (members "127.0.0.1:7946" "" (gossip 500 2) (probe 3000 2000)) (discovery 30 None noMDNS)]
  = [None; None; None].
Proof. vm_compute. reflexivity. Qed.

Example TestClusterConfig_Validate_Failure :
  forallb (λ c, refusedWith c.1 c.2)
    [(clusterTest (members "" "" (gossip 0 0) (probe 0 0)) (discovery 0 None noMDNS), "memberlist bind address is required");
     (clusterTest (members "invalid-address" "" (gossip 0 0) (probe 0 0)) (discovery 0 None noMDNS),
      "invalid memberlist bind address format");
     (clusterTest (members "0.0.0.0:7946" "invalid-advertise" (gossip 0 0) (probe 0 0)) (discovery 0 None noMDNS),
      "invalid memberlist advertise address format");
     (clusterTest (members "0.0.0.0:7946" "" (gossip 0 3) (probe 0 0)) (discovery 0 None noMDNS), "gossip interval must be positive");
     (clusterTest (members "0.0.0.0:7946" "" (gossip 200 0) (probe 0 0)) (discovery 0 None noMDNS), "gossip nodes must be positive");
     (clusterTest (members "0.0.0.0:7946" "" (gossip 200 3) (probe 0 500)) (discovery 0 None noMDNS), "probe interval must be positive");
     (clusterTest (members "0.0.0.0:7946" "" (gossip 200 3) (probe 1000 0)) (discovery 0 None noMDNS), "probe timeout must be positive");
     (clusterTest (members "0.0.0.0:7946" "" (gossip 200 3) (probe 1000 1000)) (discovery 0 None noMDNS), "probe timeout");
     (clusterTest goodMembers (discovery 0 None noMDNS), "discovery interval must be positive");
     (clusterTest goodMembers (discovery 30 None (mkMDNS true "" "" "" 0 ∅)), "mDNS service name is required when mDNS is enabled");
     (clusterTest goodMembers (discovery 30 None (mkMDNS true "vm-proxy-auth" "" "" 0 ∅)), "mDNS domain is required when mDNS is enabled");
     (clusterTest goodMembers (discovery 30 None (mkMDNS true "vm-proxy-auth" "local" "" 0 ∅)),
      "mDNS port must be positive when mDNS is enabled")]
  = true.
Proof. vm_compute. reflexivity. Qed.

Example TestMemberlistConfig_AddressValidation :
  map (λ a, MemberlistConfig_Validate (members a.1 a.2 (gossip 200 3) (probe 1000 500)))
    [("192.168.1.100:7946", "192.168.1.100:7946"); ("[::1]:7946", "[2001:db8::1]:7946");
     ("vm-proxy-1:7946", "vm-proxy-1.example.com:7946"); ("0.0.0.0:7946", "")]
  = [None; None; None; None].
Proof. vm_compute. reflexivity. Qed.
End Configs.

(* ------------------------------------------------------------------ *)
(** ** queue/memory_queue_test.go and health/checker_test.go *)

Module Components.
Import Float64 Health.

Definition filled (size : Z) (n : nat) : option (Queue.MemoryQueue nat) :=
  match Queue.NewMemoryQueue size Second with
  | Returned q => Some (foldl (λ q i, (Queue.Enqueue q None false i).2) q (seq 0 n))
  | Panicked _ => None
  end.

Example TestMemoryQueue_HealthyUtilization :
  omap (λ n, (λ q, (Queue.Stats_IsHealthy (Queue.getStats q), Queue.st_DroppedTotal (Queue.getStats q))) <$> filled 10 n)
    [0; 5; 8; 9; 10; 11]%nat
  = [(true, 0); (true, 0); (true, 0); (false, 0); (false, 0); (false, 1)]%Z ∧
  (Queue.UtilizationPercent ∘ Queue.getStats <$> filled 5 3) = Some (toFloat 60) ∧
  (Queue.UtilizationPercent ∘ Queue.getStats <$> filled 5 5) = Some (toFloat 100).
Proof. vm_compute. by split_and!. Qed.

Definition server : Backend := mkBackend "http://s" 1 BackendHealthy.
Definition answering (status : Z) (url : string) : probeResult := Response status.

Example TestChecker_StateTransitions :
  let hc := NewChecker (mkCheckerConfig 0 Second 2 2 "/health") [server] 0 in
  (runChecks hc [(server, 1%Z)] (answering 503)).2 = [] ∧
  let down := runChecks hc [(server, 1%Z); (server, 2%Z)] (answering 503) in
  down.2 = [("http://s", BackendHealthy, BackendUnhealthy)] ∧
  (runChecks down.1 [(server, 3%Z)] (answering 200)).2 = [] ∧
  (runChecks down.1 [(server, 3%Z); (server, 4%Z)] (answering 200)).2 = [("http://s", BackendUnhealthy, BackendHealthy)].
Proof. vm_compute. by split_and!. Qed.

Example TestChecker_CheckHealth :
  let hc := NewChecker (mkCheckerConfig 0 Second 1 1 "/health") [server] 0 in
  let rate status := hs_SuccessRate <$> GetStats (CheckHealth hc server (answering status) 1).1.2 !! "http://s" in
  rate 200%Z = Some (toFloat 100) ∧ rate 500%Z = Some (toFloat 0).
Proof. vm_compute. by split_and!. Qed.
End Components.

(* ------------------------------------------------------------------ *)
(** ** tenant/tenant_test.go *)

Module Tenants.
Import Http Tenant.

Definition tenantUser (tenants : list VMTenant) : User := mkUser "test-user" "" "" [] [] tenants false 0.
Definition both : User := tenantUser [mkVMTenant "1000" "10"; mkVMTenant "2000" "20"].
Definition one : User := tenantUser [mkVMTenant "1000" "10"].

Example TestService_CanAccessTenant :
  map (λ c, (CanAccessTenant c.1 c.2).1)
    [(both, "1000"); (both, "2000"); (one, "1000:10"); (one, "9999"); (one, "1000:99"); (tenantUser [], "1000")]
  = [true; true; true; false; false; false].
Proof. vm_compute. reflexivity. Qed.

Definition targetOf (user : User) (headers : list (string * list string)) : result string :=
  (DetermineTargetTenant user (list_to_map headers)).1.

Example TestService_DetermineTargetTenant :
  targetOf both [("X-Prometheus-Tenant", ["1000"])] = Ok "1000" ∧
  targetOf one [("X-Tenant-ID", ["1000:10"])] = Ok "1000:10" ∧
  Configs.refusedWith (match targetOf one [("X-Prometheus-Tenant", ["9999"])] with Err e => Some e | Ok _ => None end)
    "User cannot access tenant: 9999" = true ∧
  targetOf both [] = Ok "1000:10" ∧ targetOf (tenantUser []) [] = Err (EApp ErrNoVMTenants).
Proof. vm_compute. by split_and!. Qed.

(** The test of the second header passes by the default: its key is not in
    the canonical form in which Get looks headers up. *)
Example second_header_is_not_read :
  targetOf both [("X-Tenant-ID", ["2000:20"])] = Ok "1000:10" ∧
  targetOf both [("X-Tenant-Id", ["2000:20"])] = Ok "2000:20".
Proof. vm_compute. by split_and!. Qed.
End Tenants.
